(* ===== verification/_CoqProject ===== *)
-Q . S2P
Prelude.v
Float.v
PyText.v
Digest.v
Base64.v
Json.v
Dsl.v
Schema.v
Effects.v
Steps.v
Comp.v
Regex.v
PyNum.v
PyOps.v
Flow.v
Refs.v
Migration.v
MigrationProps.v
FlowProps.v
Canvas.v
LlmStream.v
Components.v
CanvasLoad.v
CanvasRun.v
CanvasSteps.v
CanvasRefine.v
CanvasWalk.v
CanvasTable.v
CanvasProps.v
CanvasSpecs.v
FlowRun.v
Texts.v
Chunks.v
Bullets.v
Outline.v
PdfPositions.v
TokenChunker.v
TitleChunker.v
Metadata.v
Prompts.v
ChunkProps.v
OutlineProps.v
HeadingProps.v
TitleProps.v
MemoryStore.v
QmsService.v
QmsServer.v
QmsProps.v
EvalStore.v
EvalMetrics.v
EvalRunner.v
EvalReport.v
EvalServer.v
EvalMetricProps.v
EvalProps.v
StoreUsers.v
StorePolicy.v
StoreSessions.v
StoreRequests.v
StoreStep.v
StoreInv.v
GatewayToken.v
GatewayAccess.v
GatewayShare.v
GatewayChat.v
GatewaySession.v
Routes.v
Demo.v
AccessProps.v
TokenProps.v
Run.v
App.v
ShareProps.v
RevokeProps.v
UnshareProps.v
StatusProps.v
SessionProps.v
ChatProps.v
ResourceProps.v
AppProps.v
