(* ===== verification/Prelude.v ===== *)
(** * The QMS agent platform

    A model of the programs of this repository that are its own or that its own
    programs run on:

    - the portal (src/extensions/qms_agent_backend: portal_store.py,
      portal_server.py), which puts users, departments, visibility and shares in
      front of a RAGFlow server;
    - the assistant (the same directory: memory_store.py, qms_agent_service.py,
      server.py), which keeps one chat of RAGFlow and typed memories of its users,
      and the script that builds its agent graph (create_qms_agent_flow.py);
    - the evaluation harness (src/extensions/agent_eval_harness), which asks agents
      the questions of a suite and scores the answers;
    - the agent canvas of RAGFlow (src/agent: canvas.py, dsl_migration.py,
      component/), the interpreter on which agent graphs run;
    - the cutting of documents into chunks (src/rag/nlp/__init__.py, and the token and
      title chunkers of src/rag/flow), which decides what the retrieval of all the
      others can find, and what is around that retrieval: the conditions on metadata
      (src/common/metadata_utils.py) and the sizes of prompts
      (src/rag/prompts/generator.py).

    They meet at agent graphs: the portal reads the DSL of a graph to find the
    knowledge bases in it (Dsl), the script writes one (Flow), the migration renames
    in it (Migration), the canvas loads and runs it (CanvasLoad, CanvasRun); FlowRun
    puts the script's graph through the migration onto the canvas. The chunks are made
    by a program of their own, when a document is uploaded; nothing else calls it.

    ** Conventions

    - A Python method that reads or writes anything is a computation. The portal has
      [M A := World → res A * World] (Effects); a [World] is the database, the
      session registry, a tick and the log of outgoing calls. All other programs
      share [Act S C A := Mach S C → res A * Mach S C] (Comp), over a state [S] and
      calls [C] of their own. An exception is [Err]; what was done before it stays
      done, except inside [with_conn], which is [with self._conn()]: it commits, or
      puts the old database back.
    - What is outside a program is a class from the tick and the arguments of a call
      to an answer: [Env] (portal), [MemEnv] and [QmsEnv] (assistant), [FlowEnv]
      (upload of the graph), [EvalEnv] (harness), [CanvasEnv] (canvas). Every
      consultation advances the tick, so no two answers have to agree. Clocks,
      identifiers, salts, RAGFlow, models, templates, files and the calls of other
      tools are such answers.
    - The cryptography is the class [Crypto]. [sha256_crypto] (Digest) is the
      implementation the code runs, evaluated against known digests; theorems hold
      for every instance, with the properties of hashes they need as hypotheses.
    - Tables are lists of rows in insertion order, and statements are
      [fetchone]/[filter]/[update_where]/[delete_where] of this file. Columns that
      hold JSON stay text, parsed where the code parses them, except in the harness,
      where a column holds the value that was dumped into it. Flags stored as 0/1
      are booleans; masks are [Z] with [Z.land] and [Z.lor]. Unicode text is its
      UTF-8 bytes, and a list of code points where the code counts or matches
      characters. A float is a double of 53 bits (Float), rounded after every
      operation.
    - Values that the canvas passes around are [pyv]: None, booleans, integers,
      floats, texts, lists, dicts, and objects by their class name and attributes. A
      component object is a record; a stream that has not been read is a value that
      holds its method and argument. A value stored at two places is two values.
    - The chunking is pure: functions on [text], a list of code points, that return
      [res]. The encoder that counts tokens is the class [Tokens], about which nothing
      is assumed. A mutable list whose last element is worked on is the pair of its
      front and its last element; the stack of [Node.build_tree] is the list of its
      open nodes, each of which becomes a child of the next when it is closed.
    - Output of [print] and of loggers is ignored.

    ** Fuel

    - [get_share_chain] and the paging of agents are not bounded in the code. They
      take fuel and end in [OutOfFuel], which is no exception and which no handler
      catches; [share_chain_ends] and [ensure_agent_policies_ends] say which fuel is
      enough, and [share_chain_loops] when none is.
    - The loops of the assistant that find a chat end: [ensure_chat_ends].
    - [Canvas.run] goes around while its path has components left. [run] returns
      [None] when its fuel did not suffice; [run_ends] gives the number of rounds
      that is enough on a graph whose components lead upwards, and that more fuel is
      the same run. A graph with a loop may run forever.
    - A message may show the stream of another message, or of itself: such nested
      reading is bounded by the recursion limit of Python, 1000, behind which it is
      an error, as in the code.
    - The binary search of [hierarchical_merge] has the length of its list as fuel, and
      halves it; [binary_search_spec] says that it suffices.
    - The walks over agent DSLs carry the depth limits of the code itself. The parser
      of JSON runs on twice as much fuel as its input has characters, and each
      character is entered by at most two nested calls. Splitting, matching and
      replacing in texts have the length of the text as fuel and use up a character
      in each step.

    ** Files

    Shared:
    - Prelude: tables and their lemmas, a stable sort ([isort]), deduplication
      ([dict_fromkeys]), the hint database [portal] and the tactics.
    - PyText, Json, Base64, Digest, Float, Regex, PyNum, PyOps: the parts of Python
      the source calls: [str] methods and SQLite's text functions, [json.dumps] and
      [json.loads], the URL-safe base64 codec, SHA-256, HMAC and PBKDF2, doubles,
      regular expressions, numbers, and the operators on values.
    - Effects, Steps, Run: exceptions, services, worlds, the monad and transactions of
      the portal. Steps reasons forward ("every run relates the worlds by [R]"), Run
      about one run, in both directions. Comp: the same for the other programs
      ([steps], [runs], and [sat] for what holds of every end).

    The portal:
    - Dsl: [_base_to_dict], [_extract_kb_ids_from_dsl], [_patch_dsl_kb_ids],
      [_find_reference]. Schema: the tables of [PortalStore._init_db], and [Db].
    - StoreUsers, StorePolicy, StoreSessions, StoreRequests: the methods of
      [PortalStore], in the order of portal_store.py.
    - StoreStep: [stmt], the effect of one SQL statement of the store, and that
      every operation of the store is a sequence of them ([evolves]). StoreInv: what
      every statement keeps, hence every operation, handler and run.
    - GatewayToken, GatewayAccess, GatewayShare, GatewayChat, GatewaySession: the
      methods of [PortalGateway]: configuration, tokens and login; accounts,
      policies and the resource list; sharing, review, revocation and deletion;
      language model, retrieval and prompts; sessions, uploads and questions.
    - Routes, App: the view functions of [create_app]; App makes them one
      transition system: [Endpoint], [serve], [app_reaches], [portal_world].
    - Demo: a concrete environment and database, on which theorems are applied.

    The assistant:
    - MemoryStore: [MemoryStore], its four tables and their operations. QmsService:
      [QMSAgentService]. QmsServer: its HTTP handler, and [qms_reaches].
    - Flow: [build_qms_3core_dsl] and [main] of create_qms_agent_flow.py.

    The evaluation harness:
    - EvalStore (models.py), EvalMetrics (metrics/), EvalRunner (runner.py),
      EvalReport (reporter.py), EvalServer (server.py, and [harness_reaches]: the
      requests and the background runs as one transition system). EvalProps holds
      a small harness on which its theorems are applied.

    The canvas:
    - Refs: references between components in texts. Migration: dsl_migration.py.
    - Canvas: the state, [get_variable_value], [set_variable_value], references.
      LlmStream: [delta] of component/llm.py. Components: the components that route,
      transform, assign and answer. CanvasLoad: [load], [reset], the parameters of
      each class and their checks. CanvasRun: [run] with [_run_batch] and the walk.
    - CanvasRefine: the path machine [mstep] on the static graph, and that the turns
      move along it; CanvasSteps: what a component leaves alone; CanvasWalk:
      invariants of the machine; CanvasTable: the machine of a graph computed from a
      table of its components, with a concrete environment and graphs.

    The chunking:
    - Texts: [str] methods and regular expressions on code points, and delimiters in
      backticks. Chunks: [naive_merge], [naive_merge_with_images], [naive_merge_docx]
      with its context, [get_delimiters]. Bullets: the patterns of headings, languages
      and titles. Outline: [tree_merge] with [Node], [hierarchical_merge].
    - PdfPositions: pdf_chunk_metadata.py. TokenChunker: token_chunker.py.
      TitleChunker: title_chunker/, whose trees of indexes are simulated by the trees of
      lines (TitleProps, [erase]).
    - Metadata: metadata_utils.py. Prompts: [message_fit_in], [kb_prompt],
      [memory_prompt] and [chunks_format] of generator.py. Both hold their theorems.

    ** Theorems

    - AccessProps. [grants] is the specification of access to a knowledge base
      (owner, visibility, shares) in terms of [visible], [owns_kb] and [sees_kb];
      [effective_kb_permission] refines it on a well-formed store. Clients of the
      access rules are verified against [grants] where they decide about rights.
    - TokenProps. Tokens and passwords go round; what [parse_token] accepts carries
      the server's MAC; login and registration.
    - ShareProps. Sharing and reviewing grant no more than the owner, or the
      requester's own permission, allows.
    - RevokeProps and UnshareProps. Deleting needs the right to write; a deleted
      knowledge base is forgotten by every table ([forgets]); unsharing leaves no
      approved share; what a failed listing does to policies.
    - StatusProps. The parse status counts; the chain of shares ends, or loops.
    - SessionProps and ChatProps. A session searches what its user may read,
      belongs to its user, survives a restart; retrieval uses the owner's keys and
      ranks the chunks; a question records two messages.
    - ResourceProps. The resource list shows what its reader may read; discovery of
      agents ends.
    - AppProps. For every sequence of served requests: the store stays well formed
      ([store_wf]), the audit log grows, a reviewed request is final; without a
      token every endpoint but login and registration answers 401 and does nothing.
    - QmsProps. For every sequence of requests the memory stays well formed, with
      weights and scores in their bounds; it refines a map of weights; users do not
      touch each other's rows; what a question, a lesson and a correction record.
    - FlowProps. The graph of the script is consistent and has no cycle.
    - MigrationProps. Migrating twice is migrating once.
    - EvalMetricProps. Scores lie in their scale, also after rounding; retrieval
      scores are ratios of sets; a summary is computed without an error.
    - EvalProps. For every sequence of requests and runs the store stays well formed;
      a run ends completed or failed; the cache of the judge; what imports and
      deletions leave.
    - CanvasProps. A turn moves along the path machine; a component has what it names
      in front of it; without a cycle a turn ends.
    - CanvasSpecs and LlmStream. Variables, switches, loops, iterations, lists
      without duplicates; the deltas of a stream.
    - FlowRun. The script's graph on the canvas: what a first turn can reach.
    - ChunkProps. Merging by size refines grouping: consecutive groups, closed exactly
      when they exceed the limit, with nothing lost; what a docx keeps, and where its
      order is not kept; the texts that are never cut.
    - OutlineProps and HeadingProps. Trees of headings keep their lines in order, each on
      a branch with the headings that enclose it; chunks along an outline or headings
      hold the document; the search of headings ends and is right; a document gets a
      family of patterns that exists, and what the tests of languages and titles see.
    - Metadata. The documents that conditions select, as sets; merging is idempotent;
      schemas are fixed points. Prompts: which cut messages fit the context of a model,
      and how many chunks and memories are written.
    - TitleProps. The hierarchy of titles loses no line and no heading over it; groups of
      sections are closed exactly where their sizes and sections ask.

    Some theorems state what the code does where it differs from what it means:
    [relisted_kb_published], [selective_revoke_foreign],
    [review_cap_failure_commits], [chat_history_frozen], [share_chain_loops],
    [delete_suite_orphans], [titled_run_raises], [flow_never_answers],
    [nested_write_misses], [loop_rounds], [iteration_first_item],
    [delta_repeats_text], [token_chunker_one_chunk], [docx_order], [stale_heading],
    [tree_merge_stop], [is_english_texts], [make_colon_as_title_idle],
    [empty_pattern_wins], [first_condition_ignored], [order_of_values], [over_limit],
    [kb_prompt_overflows].

    ** Not modelled

    - Portal: the migrations of older database files (the model starts from the
      current schema) and connection settings (pragmas, timeouts, threads:
      operations run one after the other), static files, CORS headers and the
      command line. portal_web is JavaScript.
    - Assistant: the headers of its HTTP answers; requests are served one by one.
    - Harness: the command line and its printed tables, the format of CSV. Regular
      expressions that come from a suite are matched by the environment.
    - Canvas: [str(canvas)] (saving a running canvas), the references of retrievals,
      the callbacks of tools, files; [_append] and [_combine] on a list that another
      variable shares; timeouts; the cleaning of texts before they are read aloud;
      attributes of numbers in the path of a variable. A batch runs its components
      one after the other in an order of the environment. Agents, tools and language
      models are answers of [CanvasEnv]: outputs, inputs and how they end.
    - Chunking: what sections and images a parser finds in a file, the outline a PDF
      reader gives (a parameter), the syntax of patterns, the validation of the input, the pasting of images (a parameter) and the previews of PDF
      pages (a parameter), the media context and the contents tables of parsed files,
      the numbering of questions, the splitting into words. Sizes of contexts are
      integers.
    - Metadata and prompts: Python literals and the repair of JSON (parameters), the
      prompts that are rendered from templates and answered by a model.
    - The rest of RAGFlow (retrieval, document parsing, its HTTP API, web client and
      services, the Go server, sandboxes, data sources) is reached over HTTP or as a
      library; its answers are oracles.

    Open: the preparation of prompts of the language model component and of agents,
    the ranking of RAGFlow (rag/nlp/search.py), the properties of the DSL walks
    (a patched DSL holds the given knowledge bases), of the takeover of a policy by
    an upload, of the recall dashboard and of the visibility of the audit log. *)
From stdpp Require Export prelude gmap strings list sorting.
From Stdlib Require Export ZArith Lia.

(** ** Tables: lists of rows in insertion (rowid) order *)

Section table.
Context {A : Type}.
Implicit Types (t : list A) (f : A → A).

(** [SELECT ... WHERE P] followed by [fetchone()]. *)
Definition fetchone (P : A → Prop) {Pdec : ∀ x, Decision (P x)} t : option A :=
  head (filter P t).

(** [UPDATE ... SET f WHERE P]. *)
Definition update_where (P : A → Prop) {Pdec : ∀ x, Decision (P x)} f t : list A :=
  (λ r, if decide (P r) then f r else r) <$> t.

(** [DELETE ... WHERE P]. *)
Definition delete_where (P : A → Prop) {Pdec : ∀ x, Decision (P x)} t : list A :=
  filter (λ r, ¬ P r) t.

(** [cursor.rowcount] of an [UPDATE] or a [DELETE] with the condition [P]. *)
Definition rowcount (P : A → Prop) {Pdec : ∀ x, Decision (P x)} t : nat :=
  length (filter P t).

Section pred.
Context (P : A → Prop) {Pdec : ∀ x, Decision (P x)}.

Lemma fetchone_Some t x : fetchone P t = Some x → x ∈ t ∧ P x.
Proof.
  unfold fetchone. intros Hhd.
  assert (x ∈ filter P t) as Hx by (by apply head_Some_elem_of).
  apply list_elem_of_filter in Hx. tauto.
Qed.

Lemma fetchone_None t : fetchone P t = None ↔ ∀ x, x ∈ t → ¬ P x.
Proof.
  unfold fetchone. split.
  - intros H x Hx HP.
    assert (x ∈ filter P t) as Hf by (apply list_elem_of_filter; tauto).
    destruct (filter P t); [by apply elem_of_nil in Hf|done].
  - intros H. destruct (filter P t) as [|y l] eqn:E; [done|].
    assert (y ∈ filter P t) as Hf by (rewrite E; left).
    apply list_elem_of_filter in Hf as [HP Hy]. by destruct (H y).
Qed.

Lemma fetchone_is_Some t x : x ∈ t → P x → is_Some (fetchone P t).
Proof.
  intros Hx HP. destruct (fetchone P t) as [y|] eqn:E; [by eexists|].
  rewrite fetchone_None in E. by destruct (E x).
Qed.

Lemma fetchone_app_None t t' :
  fetchone P t = None → fetchone P (t ++ t') = fetchone P t'.
Proof.
  unfold fetchone. rewrite filter_app. by destruct (filter P t).
Qed.

Lemma fetchone_app_Some t t' x :
  fetchone P t = Some x → fetchone P (t ++ t') = Some x.
Proof.
  unfold fetchone. rewrite filter_app. by destruct (filter P t).
Qed.

Lemma elem_of_update_where f t y :
  y ∈ update_where P f t ↔ ∃ x, x ∈ t ∧ y = (if decide (P x) then f x else x).
Proof.
  unfold update_where. rewrite list_elem_of_fmap.
  split; intros (x & ? & ?); eauto.
Qed.

Lemma elem_of_delete_where t x : x ∈ delete_where P t ↔ x ∈ t ∧ ¬ P x.
Proof. unfold delete_where. rewrite list_elem_of_filter. tauto. Qed.

(** The row a query finds after an update that hits it and keeps the query's
    answer on every row *)
Lemma fetchone_update_where (Q : A → Prop) {Qdec : ∀ x, Decision (Q x)} f t x :
  fetchone P t = Some x → Q x → (∀ y, P (f y) ↔ P y) →
  fetchone P (update_where Q f t) = Some (f x).
Proof.
  unfold fetchone, update_where. intros Hx HQ Hf. induction t as [|y t IH]; [done|].
  rewrite filter_cons in Hx. rewrite fmap_cons. destruct (decide (P y)) as [HP|HP].
  - injection Hx as ->. rewrite decide_True by done.
    by rewrite filter_cons_True by (by apply Hf).
  - rewrite filter_cons_False; [by apply IH|]. by case_decide; rewrite ?Hf.
Qed.

Lemma update_where_id f t : (∀ x, x ∈ t → ¬ P x) → update_where P f t = t.
Proof.
  intros H. unfold update_where. induction t as [|x t IH]; [done|]; csimpl.
  rewrite decide_False by (apply H; left).
  f_equal. apply IH. intros y Hy. apply H. by right.
Qed.

Lemma delete_where_id t : (∀ x, x ∈ t → ¬ P x) → delete_where P t = t.
Proof.
  intros H. unfold delete_where. induction t as [|x t IH]; [done|].
  rewrite filter_cons_True by (apply H; left). f_equal. apply IH. intros y Hy. apply H. by right.
Qed.

Lemma update_where_key {K} (key : A → K) f t :
  (∀ x, key (f x) = key x) → key <$> update_where P f t = key <$> t.
Proof.
  intros H. unfold update_where. rewrite <-list_fmap_compose.
  apply list_fmap_ext. intros i x _. simpl. by destruct (decide (P x)).
Qed.

Lemma delete_where_sublist t : delete_where P t `sublist_of` t.
Proof. apply sublist_filter. Qed.

Lemma delete_where_key_NoDup {K} (key : A → K) t :
  NoDup (key <$> t) → NoDup (key <$> delete_where P t).
Proof.
  intros Hnd. eapply sublist_NoDup; [exact Hnd|].
  apply (fmap_sublist key), delete_where_sublist.
Qed.

Lemma rowcount_pos t : 0 < rowcount P t ↔ ∃ x, x ∈ t ∧ P x.
Proof.
  unfold rowcount. split.
  - destruct (filter P t) as [|y l] eqn:E; simpl; [lia|]. intros _.
    exists y. assert (y ∈ filter P t) as Hf by (rewrite E; left).
    apply list_elem_of_filter in Hf. tauto.
  - intros (x & Hx & HP).
    assert (x ∈ filter P t) as Hf by (apply list_elem_of_filter; tauto).
    destruct (filter P t); simpl; [by apply elem_of_nil in Hf|lia].
Qed.
End pred.

(** A key that is unique in the table picks the row it names. *)
Lemma fetchone_unique {K} (key : A → K) (P : A → Prop) {Pdec : ∀ x, Decision (P x)} t x :
  NoDup (key <$> t) → (∀ y, P y → key y = key x) → x ∈ t → P x → fetchone P t = Some x.
Proof.
  intros Hnd Hkey Hx HP.
  destruct (fetchone_is_Some P t x Hx HP) as [y Hy]. rewrite Hy. f_equal.
  apply fetchone_Some in Hy as [Hyt HPy].
  apply list_elem_of_lookup in Hx as [i Hi], Hyt as [j Hj].
  assert (i = j) as ->; [|congruence].
  eapply (NoDup_lookup (key <$> t)); [done| |].
  - rewrite list_lookup_fmap, Hi. done.
  - rewrite list_lookup_fmap, Hj. simpl. by rewrite (Hkey y HPy).
Qed.

Lemma NoDup_key_eq {K} (key : A → K) t x y :
  NoDup (key <$> t) → x ∈ t → y ∈ t → key x = key y → x = y.
Proof.
  intros Hnd Hx Hy Hk.
  apply list_elem_of_lookup in Hx as [i Hi], Hy as [j Hj].
  assert (i = j) as ->; [|congruence].
  eapply (NoDup_lookup (key <$> t)); [done| |].
  - rewrite list_lookup_fmap, Hi. done.
  - rewrite list_lookup_fmap, Hj. simpl. by rewrite Hk.
Qed.

Lemma Forall_update_where (Q P : A → Prop) {Pdec : ∀ x, Decision (P x)} f t :
  Forall Q t → (∀ x, Q x → Q (f x)) → Forall Q (update_where P f t).
Proof.
  rewrite !Forall_forall. intros HQ Hf y Hy. apply elem_of_update_where in Hy as (x & Hx & ->).
  destruct (decide (P x)); auto.
Qed.

Lemma Forall_delete_where (Q P : A → Prop) {Pdec : ∀ x, Decision (P x)} t :
  Forall Q t → Forall Q (delete_where P t).
Proof.
  rewrite !Forall_forall. intros HQ y Hy. apply elem_of_delete_where in Hy as [Hy _]. auto.
Qed.

Lemma Forall_snoc (Q : A → Prop) t x : Forall Q t → Q x → Forall Q (t ++ [x]).
Proof. intros Ht Hx. apply Forall_app. auto. Qed.

Lemma NoDup_key_snoc {K} (key : A → K) t x :
  NoDup (key <$> t) → (∀ y, y ∈ t → key y ≠ key x) → NoDup (key <$> (t ++ [x])).
Proof.
  intros Hnd Hx. rewrite fmap_app. apply NoDup_app. split_and!; [done| |].
  - intros k Hk1 Hk2. simpl in Hk2. apply list_elem_of_singleton in Hk2 as ->.
    apply list_elem_of_fmap in Hk1 as (y & Hy & Hyt). by destruct (Hx y Hyt).
  - simpl. apply NoDup_singleton.
Qed.
End table.

(** A row whose key no row has can be added. *)
Lemma insert_key {A K} `{!EqDecision K} (key : A → K) t x :
  fetchone (λ r, key r = key x) t = None → NoDup (key <$> t) → NoDup (key <$> (t ++ [x])).
Proof. intros Hk Hnd. apply NoDup_key_snoc; [done|]. by apply (fetchone_None (λ r, key r = key x)). Qed.

Lemma fetchone_ext {A} (P Q : A → Prop) `{!∀ x, Decision (P x)} `{!∀ x, Decision (Q x)} t :
  (∀ x, x ∈ t → P x ↔ Q x) → fetchone P t = fetchone Q t.
Proof.
  intros Hpq. unfold fetchone. induction t as [|x t IH]; [done|]. rewrite !filter_cons.
  pose proof (Hpq x (list_elem_of_here x t)). do 2 case_decide; try tauto.
  apply IH. intros y Hy. apply Hpq. by right.
Qed.

(** A row update under a key touches no row with another key. *)
Lemma update_where_other {A} (P : A → Prop) `{!∀ x, Decision (P x)} (f : A → A)
    (key : A → string) k t x :
  (∀ y, P y → key y = k) → (∀ y, key (f y) = key y) → key x ≠ k →
  x ∈ update_where P f t ↔ x ∈ t.
Proof.
  intros HP Hf Hk. rewrite elem_of_update_where. split.
  - intros (y & Hy & ->). case_decide as HPy; [|done]. apply HP in HPy. by rewrite Hf in Hk.
  - intros Hx. exists x. split; [done|]. rewrite decide_False; [done|]. intros HPx. by apply HP in HPx.
Qed.

Lemma length_delete_where {A} (P : A → Prop) `{!∀ x, Decision (P x)} t :
  length (delete_where P t) + rowcount P t = length t.
Proof.
  unfold delete_where, rowcount. induction t as [|x t IH]; [done|]. rewrite !filter_cons.
  destruct (decide (P x)).
  - rewrite decide_False by tauto. simpl. lia.
  - rewrite decide_True by done. simpl. lia.
Qed.

(** Two deletions, or two updates to the same effect, are one. *)
Lemma delete_where_compose {A} (P Q R : A → Prop) `{!∀ x, Decision (P x)}
    `{!∀ x, Decision (Q x)} `{!∀ x, Decision (R x)} t :
  (∀ x, R x ↔ P x ∨ Q x) → delete_where P (delete_where Q t) = delete_where R t.
Proof.
  intros HR. unfold delete_where. rewrite list_filter_filter. apply list_filter_iff.
  intros x. rewrite HR. tauto.
Qed.

Lemma update_where_compose {A} (P Q R : A → Prop) `{!∀ x, Decision (P x)}
    `{!∀ x, Decision (Q x)} `{!∀ x, Decision (R x)} f t :
  (∀ x, R x ↔ P x ∨ Q x) → (∀ x, P (f x) ↔ P x) → (∀ x, f (f x) = f x) →
  update_where P f (update_where Q f t) = update_where R f t.
Proof.
  intros HR HP Hf. unfold update_where. rewrite <-list_fmap_compose.
  apply list_fmap_ext. intros i x _. simpl. specialize (HR x).
  destruct (decide (Q x)), (decide (R x)); try tauto.
  - destruct (decide (P (f x))); [by rewrite Hf|done].
  - by rewrite decide_True by tauto.
  - by rewrite decide_False by tauto.
Qed.

(** ** Stable sorting by a boolean order ([ORDER BY], [sorted], [list.sort]) *)

Section isort.
Context {A : Type} (le : A → A → bool).

Fixpoint insert_by (x : A) (l : list A) : list A :=
  match l with
  | [] => [x]
  | y :: l' => if le x y then x :: l else y :: insert_by x l'
  end.

Definition isort (l : list A) : list A := foldr insert_by [] l.

Lemma insert_by_Permutation x l : insert_by x l ≡ₚ x :: l.
Proof.
  induction l as [|y l IH]; simpl; [done|].
  destruct (le x y); [done|]. rewrite IH. apply Permutation_swap.
Qed.

Lemma isort_Permutation l : isort l ≡ₚ l.
Proof.
  induction l as [|x l IH]; simpl; [done|].
  by rewrite insert_by_Permutation, IH.
Qed.

Lemma elem_of_isort l x : x ∈ isort l ↔ x ∈ l.
Proof. by rewrite (isort_Permutation l). Qed.

Context (le_total : ∀ x y, le x y = true ∨ le y x = true).

Lemma insert_by_sorted x l :
  Sorted (λ a b, le a b = true) l → Sorted (λ a b, le a b = true) (insert_by x l).
Proof using le_total.
  induction 1 as [|y l Hs IH Hhd]; simpl; [by repeat constructor|].
  destruct (le x y) eqn:E; [by repeat constructor|].
  constructor; [done|].
  destruct (le_total x y) as [?|Hyx]; [congruence|].
  destruct l as [|z l]; simpl; [by constructor|].
  destruct (le x z); constructor; [done|]. by inversion Hhd.
Qed.

Lemma isort_sorted l : Sorted (λ a b, le a b = true) (isort l).
Proof using le_total.
  induction l as [|x l IH]; simpl; [constructor|]. by apply insert_by_sorted.
Qed.
End isort.

Lemma Sorted_take {A} (R : relation A) n l : Sorted R l → Sorted R (take n l).
Proof.
  intros Hs. revert n. induction Hs as [|x l Hs IH Hhd]; intros [|n]; simpl; try by constructor.
  constructor; [done|]. destruct Hhd; destruct n; by constructor.
Qed.

Lemma Sorted_fmap {A B} (R : relation B) (f : A → B) l :
  Sorted (λ x y, R (f x) (f y)) l → Sorted R (f <$> l).
Proof.
  induction 1 as [|x l Hs IH Hhd]; csimpl; [constructor|]. constructor; [done|].
  destruct Hhd; by constructor.
Qed.

(** ** First-occurrence deduplication: [list(dict.fromkeys(l))] *)

Section dedup.
Context {A : Type} `{!EqDecision A}.

Fixpoint dedup_go (seen : list A) (l : list A) : list A :=
  match l with
  | [] => []
  | x :: l' =>
      if decide (x ∈ seen) then dedup_go seen l' else x :: dedup_go (x :: seen) l'
  end.

Definition dict_fromkeys (l : list A) : list A := dedup_go [] l.

Lemma elem_of_dedup_go seen l x : x ∈ dedup_go seen l ↔ x ∈ l ∧ x ∉ seen.
Proof.
  revert seen. induction l as [|y l IH]; intros seen; simpl; [set_solver|].
  destruct (decide (y ∈ seen)); set_unfold; rewrite IH; set_unfold;
    destruct (decide (x = y)); naive_solver.
Qed.

Lemma NoDup_dedup_go seen l : NoDup (dedup_go seen l).
Proof.
  revert seen. induction l as [|y l IH]; intros seen; simpl; [constructor|].
  destruct (decide (y ∈ seen)); [done|]. constructor; [|done].
  rewrite elem_of_dedup_go. set_solver.
Qed.

Lemma elem_of_dict_fromkeys l x : x ∈ dict_fromkeys l ↔ x ∈ l.
Proof. unfold dict_fromkeys. rewrite elem_of_dedup_go. set_solver. Qed.

Lemma NoDup_dict_fromkeys l : NoDup (dict_fromkeys l).
Proof. apply NoDup_dedup_go. Qed.
End dedup.

(** ** Automation *)

Create HintDb portal discriminated.

#[export] Hint Rewrite @elem_of_update_where @elem_of_delete_where
  @elem_of_isort @elem_of_dict_fromkeys : portal.

(** Case analysis on every [match]/[if] of the goal and the hypotheses. *)
Ltac split_matches :=
  repeat (case_match; simplify_eq/=; try done).
