(* ===== verification/Float.v ===== *)
(** Double-precision arithmetic: the operations of [SpecFloat] at 53 bits, their
    values as rationals, and what rounding keeps: a result lies between any two
    doubles its exact value lies between. *)
From S2P Require Import Prelude.
From Stdlib Require Export SpecFloat.
From Stdlib Require Import QArith Qpower Lqa.

Local Open Scope Z_scope.

(** ** Operations *)

Abbreviation double := spec_float.

Definition fadd : double → double → double := SFadd 53 1024.
Definition fsub : double → double → double := SFsub 53 1024.
Definition fmul : double → double → double := SFmul 53 1024.
Definition fdiv : double → double → double := SFdiv 53 1024.
(** [x < y], [x <= y] *)
Definition flt : double → double → bool := SFltb.
Definition fle : double → double → bool := SFleb.
Definition feqb : double → double → bool := SFeqb.

(** [float(z)] *)
Definition double_of_Z (z : Z) : double := binary_normalize 53 1024 z 0 false.

(** [n / d] of integers, and [float(Fraction(n, d))], for [0 < d] *)
Definition Z_ratio (n d : Z) : double :=
  match n, d with
  | Z0, _ => S754_zero false
  | Z.pos p, Z.pos q => SFdiv 53 1024 (S754_finite false p 0) (S754_finite false q 0)
  | Z.neg p, Z.pos q => SFdiv 53 1024 (S754_finite true p 0) (S754_finite false q 0)
  | _, _ => S754_nan
  end.

(** [max(a, b)], [min(a, b)] of two floats: the first unless the second is
    strictly better *)
Definition py_max (a b : double) : double := if flt a b then b else a.
Definition py_min (a b : double) : double := if flt b a then b else a.

(** ** Values *)

Definition b2 (e : Z) : Q := Qpower 2 e.

Definition fval (x : double) : Q :=
  match x with
  | S754_finite s m e => ((if s then Z.neg m else Z.pos m) # 1) * b2 e
  | _ => 0
  end%Q.

(** A finite double *)
Definition fin (x : double) : bool :=
  match x with
  | S754_zero _ => true
  | S754_finite _ m e => bounded 53 1024 m e
  | _ => false
  end.

Local Open Scope Q_scope.

Lemma b2_pos e : 0 < b2 e.
Proof. apply Qpower_0_lt. reflexivity. Qed.

Lemma b2_plus e k : b2 (e + k) == b2 e * b2 k.
Proof. apply Qpower_plus. discriminate. Qed.

Lemma b2_Z k : (0 <= k)%Z → b2 k == inject_Z (2 ^ k).
Proof. intros Hk. symmetry. by apply (Zpower_Qpower 2 k). Qed.

Lemma b2_split e e' : (e' <= e)%Z → b2 e == inject_Z (2 ^ (e - e')) * b2 e'.
Proof.
  intros He. rewrite <-b2_Z by lia. rewrite <-b2_plus.
  by replace (e - e' + e')%Z with e by lia.
Qed.

Lemma b2_le e e' : (e' <= e)%Z → b2 e' <= b2 e.
Proof.
  intros He. rewrite (b2_split e e') by done. pose proof (b2_pos e').
  assert (1 <= inject_Z (2 ^ (e - e'))) by
    (change 1 with (inject_Z 1); rewrite <-Zle_Qle; pose proof (Z.pow_pos_nonneg 2 (e - e')); lia).
  nra.
Qed.

(** ** Binary digits *)

Lemma digits2_spec p :
  (2 ^ (Z.pos (digits2_pos p) - 1) <= Z.pos p < 2 ^ Z.pos (digits2_pos p))%Z.
Proof.
  induction p as [p IH|p IH|]; simpl digits2_pos; [| |lia].
  1-2: rewrite Pos2Z.inj_succ; replace (Z.succ (Z.pos (digits2_pos p)) - 1)%Z
      with (Z.succ (Z.pos (digits2_pos p) - 1)) by lia;
    rewrite !Z.pow_succ_r by lia; lia.
Qed.

Lemma digits2_lt m k : (0 <= m < 2 ^ k)%Z → (0 <= k)%Z → (Zdigits2 m <= k)%Z.
Proof.
  intros [Hm Hk] H0. destruct m as [|p|]; simpl; [done| |lia].
  pose proof (digits2_spec p) as [Hp _].
  apply Z.nlt_ge. intros Hlt.
  assert (2 ^ k <= 2 ^ (Z.pos (digits2_pos p) - 1))%Z by (apply Z.pow_le_mono_r; lia). lia.
Qed.

Lemma digits2_ge m k : (2 ^ k <= m)%Z → (0 <= k)%Z → (k < Zdigits2 m)%Z.
Proof.
  intros Hm Hk. destruct m as [|p|]; simpl.
  - pose proof (Z.pow_pos_nonneg 2 k). lia.
  - pose proof (digits2_spec p) as [_ Hp]. apply Z.nle_gt. intros Hle.
    assert (2 ^ Z.pos (digits2_pos p) <= 2 ^ k)%Z by (apply Z.pow_le_mono_r; lia). lia.
  - pose proof (Z.pow_pos_nonneg 2 k). lia.
Qed.

Lemma Zdigits2_spec m :
  (0 < m)%Z → (2 ^ (Zdigits2 m - 1) <= m < 2 ^ Zdigits2 m)%Z ∧ (0 < Zdigits2 m)%Z.
Proof. destruct m; try lia. intros _. split; [apply digits2_spec|simpl; lia]. Qed.

(** ** Shifting *)

(** [y] lies at the place the record describes, between [shr_m] and its successor. *)
Definition located (r : shr_record) (y : Q) : Prop :=
  let m := inject_Z (shr_m r) in
  match shr_r r, shr_s r with
  | false, false => y == m
  | false, true => m < y /\ y < m + (1 # 2)
  | true, false => y == m + (1 # 2)
  | true, true => m + (1 # 2) < y /\ y < m + 1
  end.

Lemma inject_Z_le a b : (a <= b)%Z → inject_Z a <= inject_Z b.
Proof. by rewrite <-Zle_Qle. Qed.

Lemma located_shr_1 r y :
  (0 <= shr_m r)%Z → located r y →
  located (shr_1 r) (y / 2) ∧ shr_m (shr_1 r) = (shr_m r / 2)%Z.
Proof.
  destruct r as [m b s]. simpl. intros Hm Hloc. unfold located in *. simpl in Hloc.
  assert (Hhalf : y / 2 == y * (1 # 2)) by (field; discriminate).
  destruct m as [|p|]; [| |lia].
  - change (inject_Z 0) with 0 in Hloc. destruct b, s; simpl; (split; [|done]); change (inject_Z 0) with 0; lra.
  - assert (Hp : match p with
      | xI q => inject_Z (Z.pos p) == 2 * inject_Z (Z.pos q) + 1 ∧ (Z.pos p / 2 = Z.pos q)%Z
      | xO q => inject_Z (Z.pos p) == 2 * inject_Z (Z.pos q) ∧ (Z.pos p / 2 = Z.pos q)%Z
      | xH => inject_Z (Z.pos p) == 1 ∧ (Z.pos p / 2 = 0)%Z
      end).
    { destruct p as [q|q|]; [| |done]; split.
      - rewrite Pos2Z.inj_xI, inject_Z_plus, inject_Z_mult. reflexivity.
      - symmetry. apply (Z.div_unique _ _ _ 1); lia.
      - rewrite Pos2Z.inj_xO, inject_Z_mult. reflexivity.
      - symmetry. apply (Z.div_unique _ _ _ 0); lia. }
    destruct p as [q|q|]; destruct Hp as [Hp ->]; destruct b, s; simpl; (split; [|done]);
      try change (inject_Z 0) with 0; repeat (rewrite Hp in Hloc); lra.
Qed.

Lemma located_iter p : ∀ r y,
  (0 <= shr_m r)%Z → located r y →
  located (SpecFloat.iter_pos shr_1 p r) (y / b2 (Z.pos p)) ∧
  shr_m (SpecFloat.iter_pos shr_1 p r) = (shr_m r / 2 ^ Z.pos p)%Z.
Proof.
  assert (Hdiv : ∀ r y a b, located r (y / b2 a / b2 b) → located r (y / b2 (a + b))).
  { intros r y a b. assert (E : y / b2 a / b2 b == y / b2 (a + b)).
    { rewrite b2_plus. pose proof (b2_pos a). pose proof (b2_pos b). field. split; lra. }
    unfold located. destruct (shr_r r), (shr_s r); by rewrite E. }
  assert (Hz : ∀ m a b, (0 <= a)%Z → (0 <= b)%Z → (m / 2 ^ a / 2 ^ b = m / 2 ^ (a + b))%Z).
  { intros m a b Ha Hb. rewrite Z.pow_add_r by done. apply Z.div_div; [apply Z.pow_nonzero; lia|].
    by apply Z.pow_pos_nonneg. }
  assert (Hpos : ∀ m a, (0 <= m)%Z → (0 <= a)%Z → (0 <= m / 2 ^ a)%Z).
  { intros m a Hm Ha. apply Z.div_pos; [done|]. by apply Z.pow_pos_nonneg. }
  induction p as [p IH|p IH|]; intros r y Hm Hloc; cbn [SpecFloat.iter_pos].
  - destruct (located_shr_1 r y Hm Hloc) as [H1 E1].
    destruct (IH (shr_1 r) (y / 2)) as [H2 E2]; [rewrite E1; apply (Hpos _ 1%Z); lia|done|].
    destruct (IH _ _ ltac:(rewrite E2; apply Hpos; [rewrite E1; apply (Hpos _ 1%Z); lia|lia]) H2) as [H3 E3].
    split.
    + replace (Z.pos p~1) with (1 + (Z.pos p + Z.pos p))%Z by lia. apply Hdiv. by apply Hdiv.
    + rewrite E3, E2, E1, Hz by lia. rewrite (Hz _ 1%Z) by lia.
      by replace (1 + (Z.pos p + Z.pos p))%Z with (Z.pos p~1) by lia.
  - destruct (IH r y Hm Hloc) as [H2 E2].
    destruct (IH _ _ ltac:(rewrite E2; apply Hpos; lia) H2) as [H3 E3]. split.
    + replace (Z.pos p~0) with (Z.pos p + Z.pos p)%Z by lia. by apply Hdiv.
    + rewrite E3, E2, Hz by lia. by replace (Z.pos p + Z.pos p)%Z with (Z.pos p~0) by lia.
  - by apply located_shr_1.
Qed.

Abbreviation fexp53 := (fexp 53 1024).
Definition emin53 : Z := (-1074)%Z.

Lemma fexp53_eq d : fexp53 d = Z.max (d - 53) emin53.
Proof. reflexivity. Qed.

Lemma div_b2 y e k : y * b2 e / b2 (e + k) == y / b2 k.
Proof. rewrite b2_plus. pose proof (b2_pos e). pose proof (b2_pos k). field. split; lra. Qed.

Lemma located_proper r y y' : y == y' → located r y → located r y'.
Proof. intros E. unfold located. destruct (shr_r r), (shr_s r); by rewrite E. Qed.

Lemma shr_spec r e n r' e' y :
  (0 <= shr_m r)%Z → located r y → shr r e n = (r', e') →
  e' = Z.max e (e + n) ∧ located r' (y * b2 e / b2 e') ∧ shr_m r' = (shr_m r / 2 ^ (e' - e))%Z.
Proof.
  intros Hm Hloc Hs.
  assert (Hsame : located r (y * b2 e / b2 (e + 0)) ∧ shr_m r = (shr_m r / 2 ^ (e - e))%Z).
  { split.
    - eapply located_proper; [|done]. rewrite div_b2. change (b2 0) with 1. field.
    - by rewrite Z.sub_diag, Z.pow_0_r, Z.div_1_r. }
  rewrite Z.add_0_r in Hsame.
  destruct n as [|p|p]; simpl in Hs; injection Hs as <- <-.
  - split; [lia|done].
  - destruct (located_iter p r y Hm Hloc) as [H1 H2]. split; [lia|]. split.
    + eapply located_proper; [|done]. by rewrite div_b2.
    + by replace (e + Z.pos p - e)%Z with (Z.pos p) by lia.
  - split; [lia|done].
Qed.

Lemma located_bounds r y :
  located r y → inject_Z (shr_m r) <= y ∧ y < inject_Z (shr_m r) + 1.
Proof. unfold located. destruct (shr_r r), (shr_s r); simpl; intros; split; lra. Qed.

(** [n] is [y] rounded to the nearer of its two neighbours. *)
Definition neighbour (m n : Z) (y : Q) : Prop :=
  inject_Z m <= y ∧ y < inject_Z m + 1 ∧
  (n = m ∧ y <= inject_Z m + (1 # 2) ∨
   n = (m + 1)%Z ∧ inject_Z m < y ∧ inject_Z m + (1 # 2) <= y).

Lemma round_nearest_even_spec r y :
  located r y →
  neighbour (shr_m r) (round_nearest_even (shr_m r) (loc_of_shr_record r)) y.
Proof.
  intros Hloc. pose proof (located_bounds r y Hloc) as [H1 H2]. split; [done|]. split; [done|].
  unfold located in Hloc. destruct r as [m [] []]; simpl in *;
    try (left; split; [done|lra]); try (right; split; [done|lra]).
  destruct (Z.even m); [left|right]; (split; [done|lra]).
Qed.

(** The double [n * 2^e], for [n <= 2^53] *)
Definition assemble (s : bool) (n e : Z) : double :=
  match n with
  | Z.pos p =>
      if (n <? 2 ^ 53)%Z then
        if (e <=? 971)%Z then S754_finite s p e else S754_infinity s
      else if (e + 1 <=? 971)%Z then S754_finite s (2 ^ 52) (e + 1) else S754_infinity s
  | _ => S754_zero s
  end.

Lemma shr_fexp_exact n e :
  (0 <= n <= 2 ^ 53)%Z → (emin53 <= e)%Z →
  shr_fexp 53 1024 n e loc_Exact =
  if (n <? 2 ^ 53)%Z then ({| shr_m := n; shr_r := false; shr_s := false |}, e)
  else ({| shr_m := 2 ^ 52; shr_r := false; shr_s := false |}, (e + 1)%Z).
Proof.
  intros Hn He. unfold shr_fexp. destruct (Z.ltb_spec n (2 ^ 53)) as [Hlt|Hge].
  - pose proof (digits2_lt n 53 ltac:(lia) ltac:(lia)).
    assert (fexp53 (Zdigits2 n + e) - e <= 0)%Z as Hle.
    { rewrite fexp53_eq. lia. }
    unfold shr. destruct (_ - _)%Z; [done|lia|done].
  - assert (n = 2 ^ 53)%Z as -> by lia.
    replace (fexp53 (Zdigits2 (2 ^ 53) + e) - e)%Z with 1%Z; [done|].
    rewrite fexp53_eq. change (Zdigits2 (2 ^ 53)) with 54%Z. unfold emin53 in *. lia.
Qed.

(** What [binary_round_aux] computes, for a mantissa with digits enough *)
Lemma round_aux_spec s m e l y :
  (0 <= m)%Z → located (shr_record_of_loc m l) y → (e <= fexp53 (Zdigits2 m + e))%Z →
  ∃ M n, let e' := fexp53 (Zdigits2 m + e) in
    binary_round_aux 53 1024 s m e l = assemble s n e' ∧
    neighbour M n (y * b2 e / b2 e') ∧ (0 <= n <= 2 ^ 53)%Z ∧
    (e' = emin53 ∨ 2 ^ 52 <= M)%Z ∧ (emin53 <= e')%Z ∧ (0 <= M)%Z.
Proof.
  intros Hm Hloc He. unfold binary_round_aux.
  destruct (shr_fexp 53 1024 m e l) as [r e'] eqn:Hs. unfold shr_fexp in Hs.
  assert (Hm' : shr_m (shr_record_of_loc m l) = m) by (by destruct l as [|[]]).
  apply (shr_spec _ _ _ _ _ y) in Hs as (He' & Hloc' & HM); [|by rewrite Hm'|done].
  rewrite Hm' in HM.
  replace (Z.max e (e + (fexp53 (Zdigits2 m + e) - e)))%Z
    with (fexp53 (Zdigits2 m + e)) in He' by lia.
  pose proof (round_nearest_even_spec _ _ Hloc') as Hn.
  set (n := round_nearest_even _ _) in *. exists (shr_m r), n. cbv zeta. rewrite <-He'.
  rewrite fexp53_eq in He', He.
  assert (HM0 : (0 <= shr_m r)%Z).
  { rewrite HM. apply Z.div_pos; [done|]. apply Z.pow_pos_nonneg; lia. }
  assert (HM53 : (shr_m r < 2 ^ 53)%Z).
  { rewrite HM. apply Z.div_lt_upper_bound; [apply Z.pow_pos_nonneg; lia|].
    destruct (Z.eq_dec m 0) as [->|Hm0]; [apply Z.mul_pos_pos; apply Z.pow_pos_nonneg; lia|].
    pose proof (Zdigits2_spec m ltac:(lia)) as [[_ H2] H3].
    rewrite <-Z.pow_add_r by lia. eapply Z.lt_le_trans; [exact H2|].
    apply Z.pow_le_mono_r; lia. }
  assert (Hn53 : (0 <= n <= 2 ^ 53)%Z) by (destruct Hn as (_ & _ & [[-> _]|[-> _]]); lia).
  assert (Hemin : (emin53 <= e')%Z) by lia.
  split; [|split; [done|split; [done|split; [|done]]]].
  - rewrite shr_fexp_exact by done. unfold assemble.
    destruct (Z.ltb_spec n (2 ^ 53)); simpl; destruct n; try lia; try done; simpl;
      by destruct (Z.leb_spec _ 971).
  - destruct (Z.eq_dec e' emin53); [by left|right].
    rewrite HM. assert (0 < m)%Z as Hm0.
    { destruct (Z.eq_dec m 0) as [->|]; [|lia]. simpl in He', He. lia. }
    pose proof (Zdigits2_spec m Hm0) as [[H2 _] H3].
    apply Z.div_le_lower_bound; [apply Z.pow_pos_nonneg; lia|].
    rewrite <-Z.pow_add_r by lia. etrans; [|exact H2]. apply Z.pow_le_mono_r; lia.
Qed.

(** ** The order of doubles is the order of their values *)

Lemma bounded_spec m e :
  bounded 53 1024 m e = true →
  (Z.pos m < 2 ^ 53)%Z ∧ (emin53 <= e <= 971)%Z ∧ (e = emin53 ∨ 2 ^ 52 <= Z.pos m)%Z.
Proof.
  unfold bounded, canonical_mantissa. rewrite andb_true_iff, Z.eqb_eq, Z.leb_le.
  rewrite fexp53_eq. intros [He Hmax]. pose proof (digits2_spec m) as [H1 H2].
  assert (Z.pos (digits2_pos m) <= 53)%Z as Hd by lia.
  split; [|split; [lia|]].
  - eapply Z.lt_le_trans; [exact H2|]. apply Z.pow_le_mono_r; lia.
  - destruct (Z.eq_dec e emin53); [by left|right]. etrans; [|exact H1].
    apply Z.pow_le_mono_r; lia.
Qed.

Lemma bounded_intro m e :
  (Z.pos m < 2 ^ 53)%Z → (emin53 <= e <= 971)%Z → (e = emin53 ∨ 2 ^ 52 <= Z.pos m)%Z →
  bounded 53 1024 m e = true.
Proof.
  intros Hm He Hc. unfold bounded, canonical_mantissa.
  rewrite andb_true_iff, Z.eqb_eq, Z.leb_le, fexp53_eq. split; [|lia].
  pose proof (digits2_lt (Z.pos m) 53 ltac:(lia) ltac:(lia)) as H1. simpl Zdigits2 in H1.
  destruct Hc as [->|Hc]; [lia|].
  pose proof (digits2_ge (Z.pos m) 52 Hc ltac:(lia)) as H2. simpl Zdigits2 in H2. lia.
Qed.

Lemma Zpos_pos m : 0 < inject_Z (Z.pos m).
Proof. by rewrite <-(Zlt_Qlt 0). Qed.

(** A canonical value below one with a larger exponent *)
Lemma exponent_lt m e m' e' :
  (Z.pos m < 2 ^ 53)%Z → (e < e')%Z → (2 ^ 52 <= m')%Z →
  inject_Z (Z.pos m) * b2 e < inject_Z m' * b2 e'.
Proof.
  intros Hm He Hm'. rewrite (b2_split e' e) by lia. pose proof (b2_pos e).
  rewrite Qmult_assoc, <-inject_Z_mult. apply Qmult_lt_compat_r; [done|].
  rewrite <-Zlt_Qlt. assert (2 <= 2 ^ (e' - e))%Z by (apply (Z.pow_le_mono_r 2 1); lia). nia.
Qed.

Lemma compare_pos m e m' e' :
  bounded 53 1024 m e = true → bounded 53 1024 m' e' = true →
  match (e ?= e')%Z with Lt => Lt | Gt => Gt | Eq => Pos.compare_cont Eq m m' end =
  (inject_Z (Z.pos m) * b2 e ?= inject_Z (Z.pos m') * b2 e').
Proof.
  intros (H1 & H2 & H3)%bounded_spec (H1' & H2' & H3')%bounded_spec.
  destruct (Z.compare_spec e e') as [<-|Hlt|Hgt].
  - change (Pos.compare_cont Eq m m') with (Z.pos m ?= Z.pos m')%Z. pose proof (b2_pos e).
    destruct (Z.compare_spec (Z.pos m) (Z.pos m')) as [->|Hlt|Hgt]; symmetry.
    + rewrite <-Qeq_alt. reflexivity.
    + rewrite <-Qlt_alt; apply Qmult_lt_compat_r; [done|]. by rewrite <-Zlt_Qlt.
    + rewrite <-Qgt_alt; apply Qmult_lt_compat_r; [done|]. by rewrite <-Zlt_Qlt.
  - symmetry. rewrite <-Qlt_alt; apply exponent_lt; lia.
  - symmetry. rewrite <-Qgt_alt; apply exponent_lt; lia.
Qed.

Lemma fval_finite s m e :
  fval (S754_finite s m e) ==
  if s then - (inject_Z (Z.pos m) * b2 e) else inject_Z (Z.pos m) * b2 e.
Proof.
  destruct s; simpl; unfold inject_Z; [|reflexivity].
  change (Z.neg m # 1) with (- (Z.pos m # 1)). ring.
Qed.

Lemma Qopp_compare x y : (- x ?= - y) = CompOpp (x ?= y).
Proof.
  destruct (Qcompare_spec x y); simpl; [rewrite <-Qeq_alt|rewrite <-Qgt_alt|rewrite <-Qlt_alt]; lra.
Qed.

(** The order of the values *)
Lemma SFcompare_fin x y : fin x = true → fin y = true → SFcompare x y = Some (fval x ?= fval y).
Proof.
  destruct x as [s| | |s m e]; try done; destruct y as [s'| | |s' m' e']; try done; intros Hx Hy;
    unfold SFcompare; f_equal.
  - change (fval (S754_zero s)) with 0. rewrite fval_finite.
    pose proof (Zpos_pos m'). pose proof (b2_pos e').
    symmetry; destruct s'; [rewrite <-Qgt_alt|rewrite <-Qlt_alt]; simpl; nra.
  - change (fval (S754_zero s')) with 0. rewrite fval_finite. pose proof (Zpos_pos m). pose proof (b2_pos e).
    symmetry; destruct s; [rewrite <-Qlt_alt|rewrite <-Qgt_alt]; simpl; nra.
  - rewrite !fval_finite. pose proof (compare_pos m e m' e' Hx Hy) as Hc.
    pose proof (Zpos_pos m). pose proof (b2_pos e). pose proof (Zpos_pos m'). pose proof (b2_pos e').
    destruct s, s'.
    + rewrite Qopp_compare, <-Hc. by destruct (e ?= e')%Z.
    + symmetry. rewrite <-Qlt_alt. nra.
    + symmetry. rewrite <-Qgt_alt. nra.
    + done.
Qed.

Lemma fle_fval x y : fin x = true → fin y = true → fle x y = true ↔ fval x <= fval y.
Proof.
  intros Hx Hy. unfold fle, SFleb. rewrite SFcompare_fin by done.
  destruct (Qcompare_spec (fval x) (fval y)); split; intros; try done; lra.
Qed.

Lemma flt_fval x y : fin x = true → fin y = true → flt x y = true ↔ fval x < fval y.
Proof.
  intros Hx Hy. unfold flt, SFltb. rewrite SFcompare_fin by done.
  destruct (Qcompare_spec (fval x) (fval y)); split; intros; try done; lra.
Qed.

(** ** Rounding *)

(** No double lies strictly between two neighbours. *)
Lemma no_double_between M e mv ev :
  (0 <= M)%Z → (e = emin53 ∨ 2 ^ 52 <= M)%Z → (emin53 <= e)%Z →
  (0 < mv < 2 ^ 53)%Z → (emin53 <= ev)%Z →
  inject_Z M * b2 e < inject_Z mv * b2 ev →
  inject_Z (M + 1) * b2 e <= inject_Z mv * b2 ev.
Proof.
  intros HM Hc He Hmv Hev. pose proof (b2_pos e). pose proof (b2_pos ev).
  destruct (Z.le_gt_cases e ev) as [Hle|Hgt].
  - rewrite (b2_split ev e) by done. rewrite Qmult_assoc, <-inject_Z_mult. intros Hlt.
    apply Qmult_lt_r in Hlt; [|done]. rewrite <-Zlt_Qlt in Hlt.
    apply Qmult_le_compat_r; [|lra]. rewrite <-Zle_Qle. lia.
  - rewrite (b2_split e ev) by lia. rewrite !Qmult_assoc, <-!inject_Z_mult. intros Hlt.
    apply Qmult_lt_r in Hlt; [|done]. rewrite <-Zlt_Qlt in Hlt.
    assert (2 <= 2 ^ (e - ev))%Z by (apply (Z.pow_le_mono_r 2 1); lia).
    exfalso. destruct Hc as [->|Hc]; [lia|]. nia.
Qed.

Section neighbour.
Context (M n e : Z) (y : Q) (mv ev : Z).
Context (Hn : neighbour M n y) (HM : (0 <= M)%Z) (Hc : (e = emin53 ∨ 2 ^ 52 <= M)%Z)
  (He : (emin53 <= e)%Z) (Hmv : (0 < mv < 2 ^ 53)%Z) (Hev : (emin53 <= ev)%Z).

Lemma neighbour_le : y * b2 e <= inject_Z mv * b2 ev → inject_Z n * b2 e <= inject_Z mv * b2 ev.
Proof.
  intros Hle. pose proof (b2_pos e). destruct Hn as (H1 & H2 & [[-> _]|[-> [H3 _]]]); [nra|].
  apply no_double_between; try done. nra.
Qed.

Lemma neighbour_ge : inject_Z mv * b2 ev <= y * b2 e → inject_Z mv * b2 ev <= inject_Z n * b2 e.
Proof.
  intros Hge. pose proof (b2_pos e). destruct Hn as (H1 & H2 & Hn').
  assert (inject_Z mv * b2 ev <= inject_Z M * b2 e ∨ inject_Z M * b2 e < inject_Z mv * b2 ev)
    as [Hle|Hlt] by (destruct (Qlt_le_dec (inject_Z M * b2 e) (inject_Z mv * b2 ev)); auto).
  - destruct Hn' as [[-> _]|[-> _]]; [done|]. rewrite inject_Z_plus. change (inject_Z 1) with 1. nra.
  - apply no_double_between in Hlt; try done. rewrite inject_Z_plus in Hlt.
    change (inject_Z 1) with 1 in Hlt. nra.
Qed.
End neighbour.

(** A canonical double that is a number *)
Definition numeric (x : double) : bool :=
  match x with S754_infinity _ => true | _ => fin x end.

(** [r] is a rounding of [x]: on the same side of every double as [x], and no
    double on the other side of [x] is nearer. *)
Definition rounds (x : Q) (r : double) : Prop :=
  numeric r = true ∧
  (∀ v, fin v = true → (x <= fval v → fle r v = true) ∧ (fval v <= x → fle v r = true)) ∧
  (fin r = true → ∀ v, fin v = true →
     (x <= fval r → fval v <= x → fval r - x <= x - fval v) ∧
     (fval r <= x → x <= fval v → x - fval r <= fval v - x)).

(** Every double is on one side of a gap between neighbours. *)
Lemma gap_side M e v :
  (0 <= M)%Z → (e = emin53 ∨ 2 ^ 52 <= M)%Z → (emin53 <= e)%Z → fin v = true →
  fval v <= inject_Z M * b2 e ∨ inject_Z (M + 1) * b2 e <= fval v.
Proof.
  intros HM Hc He Hv. pose proof (b2_pos e) as Hbe.
  assert (HM' : 0 <= inject_Z M) by (by apply (inject_Z_le 0)).
  assert (HMe : 0 <= inject_Z M * b2 e) by (apply Qmult_le_0_compat; lra).
  destruct v as [s| | |[] p ev]; try done.
  - left. by change (fval (S754_zero s)) with 0.
  - left. rewrite fval_finite. pose proof (b2_pos ev). pose proof (Zpos_pos p). nra.
  - apply bounded_spec in Hv as (H1 & H2 & H3). rewrite fval_finite.
    destruct (Qlt_le_dec (inject_Z M * b2 e) (inject_Z (Z.pos p) * b2 ev)) as [Hlt|Hle]; [right|by left].
    apply no_double_between; try done; lia.
Qed.

(** What [assemble] builds is canonical and has the value it is built from. *)
Lemma assemble_cases n e :
  (0 <= n <= 2 ^ 53)%Z → (emin53 <= e)%Z → (e = emin53 ∨ 2 ^ 52 <= n)%Z →
  (fin (assemble false n e) = true ∧ fval (assemble false n e) == inject_Z n * b2 e) ∨
  assemble false n e = S754_infinity false ∧ inject_Z (2 ^ 53) * b2 971 <= inject_Z n * b2 e.
Proof.
  intros Hn He Hc. destruct n as [|p|]; [| |lia].
  { left. split; [done|]. change (inject_Z 0) with 0. simpl. ring. }
  unfold assemble. destruct (Z.ltb_spec (Z.pos p) (2 ^ 53)).
  - destruct (Z.leb_spec e 971).
    + left. split; [by apply bounded_intro|]. by rewrite fval_finite.
    + right. split; [done|]. rewrite (b2_split e 971) by lia.
      rewrite Qmult_assoc, <-inject_Z_mult. pose proof (b2_pos 971).
      apply Qmult_le_compat_r; [|lra]. rewrite <-Zle_Qle.
      assert (2 <= 2 ^ (e - 971))%Z by (apply (Z.pow_le_mono_r 2 1); lia). unfold emin53 in *. nia.
  - assert (Z.pos p = 2 ^ 53)%Z as -> by lia.
    assert (inject_Z (2 ^ 53) * b2 e == inject_Z (2 ^ 52) * b2 (e + 1)) as E.
    { rewrite b2_plus. change (b2 1) with 2. change (inject_Z (2 ^ 53)) with (inject_Z (2 ^ 52) * 2).
      ring. }
    destruct (Z.leb_spec (e + 1) 971).
    + left. split; [apply bounded_intro; unfold emin53 in *; lia|]. rewrite fval_finite, E. done.
    + right. split; [done|]. apply Qmult_le_l; [done|]. apply b2_le. lia.
Qed.

(** The sandwich for a result without sign *)
Lemma rounds_assemble M n e y :
  neighbour M n y → (0 <= M)%Z → (0 <= n <= 2 ^ 53)%Z → (e = emin53 ∨ 2 ^ 52 <= M)%Z →
  (emin53 <= e)%Z → 0 <= y → rounds (y * b2 e) (assemble false n e).
Proof.
  intros Hnb HM Hn Hc He Hy. pose proof (b2_pos e) as Hbe.
  assert (Hn' : (e = emin53 ∨ 2 ^ 52 <= n)%Z) by (destruct Hnb as (_ & _ & [[-> _]|[-> _]]); lia).
  split; [|split].
  { destruct (assemble_cases n e Hn He Hn') as [[Hf _]|[-> _]]; [|done].
    by destruct (assemble _ _ _). }
  2: { intros Hfin v Hv.
    destruct (assemble_cases n e Hn He Hn') as [[_ Hfv]|[Hinf _]]; [|by rewrite Hinf in Hfin].
    rewrite Hfv. pose proof (gap_side M e v HM Hc He Hv) as Hgap.
    rewrite inject_Z_plus in Hgap. change (inject_Z 1) with 1 in Hgap.
    destruct Hnb as (H1 & H2 & [[-> H3]|[-> [H3 H4]]]).
    - split; intros; destruct Hgap; nra.
    - rewrite inject_Z_plus. change (inject_Z 1) with 1. split; intros; destruct Hgap; nra. }
  intros v Hv.
  assert (Hn0 : 0 <= inject_Z n) by (apply (inject_Z_le 0); lia).
  assert (Hval : y * b2 e <= fval v → inject_Z n * b2 e <= fval v).
  { destruct v as [?| | |[] p ev]; try done.
    - simpl. intros Hle. assert (y == 0) as Hy0 by nra.
      destruct Hnb as (H1 & H2 & Hor). rewrite Hy0 in H1, H2.
      assert (M = 0)%Z as -> by (apply Z.le_antisymm; [by rewrite Zle_Qle|done]).
      destruct Hor as [[-> _]|[-> [H3 _]]]; [change (inject_Z 0) with 0; lra|].
      change (inject_Z 0) with 0 in H3. lra.
    - rewrite fval_finite. pose proof (b2_pos ev). pose proof (Zpos_pos p). intros. nra.
    - apply bounded_spec in Hv as (H1 & H2 & H3). rewrite fval_finite.
      apply (neighbour_le M); try done; lia. }
  assert (Hval' : fval v <= y * b2 e → fval v <= inject_Z n * b2 e).
  { destruct v as [?| | |[] p ev]; try done; [simpl; nra| |].
    - rewrite fval_finite. pose proof (b2_pos ev). pose proof (Zpos_pos p). intros. nra.
    - apply bounded_spec in Hv as (H1 & H2 & H3). rewrite fval_finite.
      apply (neighbour_ge M); try done; lia. }
  destruct (assemble_cases n e Hn He Hn') as [[Hf Hfv]|[Hinf Hbig]].
  - rewrite !fle_fval, Hfv by done. auto.
  - rewrite Hinf. split; [|intros _; by destruct v as [|?| |[]]].
    intros Hle%Hval. exfalso. destruct v as [?| | |[] p ev]; try done.
    + simpl in Hle. pose proof (b2_pos 971). assert (0 < inject_Z (2 ^ 53)) by done. nra.
    + rewrite fval_finite in Hle. pose proof (b2_pos ev). pose proof (Zpos_pos p). nra.
    + apply bounded_spec in Hv as (H1 & H2 & H3). rewrite fval_finite in Hle.
      assert (inject_Z (Z.pos p) * b2 ev < inject_Z (2 ^ 53) * b2 971); [|lra].
      apply Qlt_le_trans with (inject_Z (2 ^ 53) * b2 ev).
      * apply Qmult_lt_compat_r; [apply b2_pos|]. by rewrite <-Zlt_Qlt.
      * apply Qmult_le_l; [done|]. apply b2_le. lia.
Qed.

Lemma fle_SFopp x y : fle (SFopp x) (SFopp y) = fle y x.
Proof.
  unfold fle, SFleb. destruct x as [a|a| |a m e], y as [b|b| |b m' e'];
    try destruct a; try destruct b; try done; simpl;
    rewrite (Z.compare_antisym e e'); destruct (e ?= e')%Z; simpl; try done;
    change (Pos.compare_cont Eq m m') with (m ?= m')%positive;
    change (Pos.compare_cont Eq m' m) with (m' ?= m)%positive;
    rewrite (Pos.compare_antisym m m'); by destruct (m ?= m')%positive.
Qed.

Lemma SFopp_invol x : SFopp (SFopp x) = x.
Proof. destruct x; simpl; by rewrite ?negb_involutive. Qed.

Lemma fin_SFopp x : fin (SFopp x) = fin x.
Proof. by destruct x. Qed.

Lemma fval_SFopp x : fval (SFopp x) == - fval x.
Proof.
  destruct x as [| | |s m e]; try done. simpl SFopp. rewrite !fval_finite. destruct s; simpl; ring.
Qed.

Lemma rounds_opp x r : rounds x r → rounds (- x) (SFopp r).
Proof.
  intros (Hnum & Hr & Hnear). split; [by destruct r|]. split.
  - intros v Hv. rewrite <-(SFopp_invol v), !fle_SFopp.
    destruct (Hr (SFopp v)) as [H1 H2]; [by rewrite fin_SFopp|].
    rewrite fval_SFopp in H1, H2. rewrite SFopp_invol. split; intros; [apply H2|apply H1]; lra.
  - rewrite fin_SFopp. intros Hf v Hv.
    destruct (Hnear Hf (SFopp v)) as [H1 H2]; [by rewrite fin_SFopp|].
    rewrite fval_SFopp in H1, H2. rewrite fval_SFopp. split; intros; [cut (x - fval r <= - fval v - x)|
      cut (fval r - x <= x - - fval v)]; [lra|apply H2; lra|lra|apply H1; lra].
Qed.

#[export] Instance rounds_proper : Proper (Qeq ==> eq ==> iff) rounds.
Proof.
  intros x x' Hx r ? <-. unfold rounds. split; intros (Hnum & Hr & Hnear); (split; [done|split]);
    intros; [rewrite <-Hx; by apply Hr|rewrite <-Hx; by apply Hnear|
             rewrite Hx; by apply Hr|rewrite Hx; by apply Hnear].
Qed.

Lemma round_aux_sign m e l :
  binary_round_aux 53 1024 true m e l = SFopp (binary_round_aux 53 1024 false m e l) ∨
  (m < 0)%Z.
Proof.
  left. unfold binary_round_aux. destruct (shr_fexp _ _ m e l) as [r e'].
  destruct (shr_fexp _ _ _ e' _) as [r' e'']. destruct (shr_m r'); try done.
  by destruct (e'' <=? 1024 - 53)%Z.
Qed.

(** The value the arguments of [binary_round_aux] stand for is rounded. *)
Lemma round_aux_rounds (s : bool) m e l y :
  (0 <= m)%Z → located (shr_record_of_loc m l) y → (e <= fexp53 (Zdigits2 m + e))%Z →
  rounds (if s then - (y * b2 e) else y * b2 e) (binary_round_aux 53 1024 s m e l).
Proof.
  intros Hm Hloc He.
  assert (rounds (y * b2 e) (binary_round_aux 53 1024 false m e l)) as H.
  { destruct (round_aux_spec false m e l y Hm Hloc He) as (M & n & Hr & Hnb & Hn & Hc & He' & HM).
    rewrite Hr. set (e' := fexp53 (Zdigits2 m + e)) in *. pose proof (b2_pos e').
    assert (E : y * b2 e == y * b2 e / b2 e' * b2 e') by (field; lra). rewrite E.
    apply (rounds_assemble M); try done.
    apply Qle_shift_div_l; [done|]. apply located_bounds in Hloc as [Hl _].
    assert (0 <= inject_Z (shr_m (shr_record_of_loc m l))).
    { apply (inject_Z_le 0). by destruct l as [|[]]. }
    pose proof (b2_pos e). nra. }
  destruct s; [|done]. destruct (round_aux_sign m e l) as [->|]; [by apply rounds_opp|lia].
Qed.

(** ** The operations round *)

Lemma rounds_zero s : rounds 0 (S754_zero s).
Proof.
  split; [done|]. split; [|simpl; split; intros; lra].
  intros v Hv. rewrite !fle_fval by done. simpl. auto.
Qed.

Lemma iter_xO p d : Z.pos (Pos.iter xO p d) = (Z.pos p * 2 ^ Z.pos d)%Z.
Proof.
  induction d as [|d IH] using Pos.peano_ind; [simpl; lia|].
  rewrite Pos.iter_succ, Pos2Z.inj_xO, IH, Pos2Z.inj_succ, Z.pow_succ_r by lia. lia.
Qed.

Lemma normalize_rounds m e s :
  rounds (inject_Z m * b2 e) (binary_normalize 53 1024 m e s).
Proof.
  assert (Hpos : ∀ (b : bool) p, rounds (if b then - (inject_Z (Z.pos p) * b2 e) else inject_Z (Z.pos p) * b2 e)
    (binary_round 53 1024 b p e)).
  { intros b p. unfold binary_round, shl_align.
    pose proof (digits2_spec p) as [D1 D2].
    destruct (fexp53 (Z.pos (digits2_pos p) + e) - e)%Z as [|d|d] eqn:Hd;
      try (apply round_aux_rounds; [done|done|simpl Zdigits2; lia]).
    set (e' := fexp53 (Z.pos (digits2_pos p) + e)) in *.
    assert (Hm : Z.pos (Pos.iter xO p d) = (Z.pos p * 2 ^ Z.pos d)%Z).
    { apply iter_xO. }
    assert (E : inject_Z (Z.pos p) * b2 e == inject_Z (Z.pos (Pos.iter xO p d)) * b2 e').
    { rewrite Hm, (b2_split e e') by lia. replace (e - e')%Z with (Z.pos d) by lia.
      rewrite inject_Z_mult. ring. }
    assert (rounds (if b then - (inject_Z (Z.pos (Pos.iter xO p d)) * b2 e')
      else inject_Z (Z.pos (Pos.iter xO p d)) * b2 e')
      (binary_round_aux 53 1024 b (Z.pos (Pos.iter xO p d)) e' loc_Exact)) as H.
    { apply round_aux_rounds; [done|done|].
      assert (Z.pos (digits2_pos p) + e <= Zdigits2 (Z.pos (Pos.iter xO p d)) + e')%Z as Hdig.
      { assert (Z.pos (digits2_pos p) - 1 + Z.pos d < Zdigits2 (Z.pos (Pos.iter xO p d)))%Z; [|lia].
        apply digits2_ge; [|lia]. rewrite Hm, Z.pow_add_r by lia. nia. }
      rewrite fexp53_eq. assert (e' = fexp53 (Z.pos (digits2_pos p) + e)) as He' by done.
      rewrite fexp53_eq in He'. lia. }
    destruct b; by rewrite E. }
  unfold binary_normalize. destruct m as [|p|p].
  - eapply rounds_proper; [|done|apply rounds_zero]. change (inject_Z 0) with 0. ring.
  - apply (Hpos false).
  - eapply rounds_proper; [|done|apply (Hpos true)]. unfold inject_Z.
    change (Z.neg p # 1) with (- (Z.pos p # 1)). ring.
Qed.

Lemma double_of_Z_rounds z : rounds (inject_Z z) (double_of_Z z).
Proof.
  eapply rounds_proper; [|done|apply normalize_rounds]. change (b2 0) with 1. ring.
Qed.

Lemma shl_align_value m e e' :
  (e' <= e)%Z → inject_Z (Z.pos (fst (shl_align m e e'))) * b2 e' == inject_Z (Z.pos m) * b2 e.
Proof.
  intros He. unfold shl_align. destruct (e' - e)%Z as [|d|d] eqn:Hd; simpl.
  - by replace e' with e by lia.
  - lia.
  - rewrite (b2_split e e') by done. replace (e - e')%Z with (Z.pos d) by lia.
    by rewrite Qmult_assoc, <-inject_Z_mult, iter_xO.
Qed.

Lemma cond_Zopp_fval s m e :
  inject_Z (cond_Zopp s (Z.pos m)) * b2 e == fval (S754_finite s m e).
Proof.
  rewrite fval_finite. destruct s; simpl cond_Zopp; [|reflexivity].
  rewrite inject_Z_opp. ring.
Qed.

Lemma shl_align_fval s m e e' :
  (e' <= e)%Z →
  inject_Z (cond_Zopp s (Z.pos (fst (shl_align m e e')))) * b2 e' == fval (S754_finite s m e).
Proof.
  intros He. rewrite cond_Zopp_fval, !fval_finite.
  destruct s; rewrite shl_align_value by done; reflexivity.
Qed.

Lemma fin_rounds x : fin x = true → rounds (fval x) x.
Proof.
  intros Hx. split; [by destruct x|]. split; [|split; intros; lra].
  intros v Hv. rewrite !fle_fval by done. auto.
Qed.

Lemma fadd_rounds x y : fin x = true → fin y = true → rounds (fval x + fval y) (fadd x y).
Proof.
  destruct x as [s| | |s m e]; try done; destruct y as [s'| | |s' m' e']; try done; intros Hx Hy.
  - change (fval (S754_zero s) + fval (S754_zero s')) with (0 + 0).
    eapply rounds_proper; [|done|]; [|by destruct s, s'; apply rounds_zero]. reflexivity.
  - eapply rounds_proper; [|done|by apply (fin_rounds (S754_finite s' m' e'))].
    change (fval (S754_zero s)) with 0. ring.
  - eapply rounds_proper; [|done|by apply (fin_rounds (S754_finite s m e))].
    change (fval (S754_zero s')) with 0. ring.
  - eapply rounds_proper; [|done|apply normalize_rounds].
    rewrite inject_Z_plus, Qmult_plus_distr_l, !shl_align_fval by lia. reflexivity.
Qed.

Lemma fsub_rounds x y : fin x = true → fin y = true → rounds (fval x - fval y) (fsub x y).
Proof.
  destruct x as [s| | |s m e]; try done; destruct y as [s'| | |s' m' e']; try done; intros Hx Hy.
  - change (fval (S754_zero s) - fval (S754_zero s')) with (0 - 0).
    eapply rounds_proper; [|done|]; [|by destruct s, s'; apply rounds_zero]. reflexivity.
  - eapply rounds_proper; [|done|by apply (fin_rounds (S754_finite (negb s') m' e'))].
    change (fval (S754_zero s)) with 0.
    change (S754_finite (negb s') m' e') with (SFopp (S754_finite s' m' e')). rewrite fval_SFopp. ring.
  - eapply rounds_proper; [|done|by apply (fin_rounds (S754_finite s m e))].
    change (fval (S754_zero s')) with 0. ring.
  - eapply rounds_proper; [|done|apply normalize_rounds].
    unfold Z.sub. rewrite inject_Z_plus, inject_Z_opp, Qmult_plus_distr_l, shl_align_fval by lia.
    rewrite <-(shl_align_fval s' m' e' (Z.min e e')) by lia. ring.
Qed.

(** A product of canonical mantissas has digits enough. *)
Lemma mul_digits m e m' e' :
  bounded 53 1024 m e = true → bounded 53 1024 m' e' = true →
  (e + e' <= fexp53 (Z.pos (digits2_pos (m * m')) + (e + e')))%Z.
Proof.
  intros (H1 & H2 & H3)%bounded_spec (H1' & H2' & H3')%bounded_spec. rewrite fexp53_eq.
  destruct (Z.le_gt_cases (2 ^ 52) (Z.pos m)) as [Hm|Hm].
  { pose proof (digits2_ge (Z.pos (m * m')) 52 ltac:(lia) ltac:(lia)) as Hd. simpl Zdigits2 in Hd. lia. }
  destruct (Z.le_gt_cases (2 ^ 52) (Z.pos m')) as [Hm'|Hm'].
  { pose proof (digits2_ge (Z.pos (m * m')) 52 ltac:(lia) ltac:(lia)) as Hd. simpl Zdigits2 in Hd. lia. }
  unfold emin53 in *. lia.
Qed.

Lemma fmul_rounds x y : fin x = true → fin y = true → rounds (fval x * fval y) (fmul x y).
Proof.
  destruct x as [s| | |s m e]; try done; destruct y as [s'| | |s' m' e']; try done; intros Hx Hy;
    try (eapply rounds_proper; [|done|apply rounds_zero];
      repeat change (fval (S754_zero _)) with 0; ring).
  eapply rounds_proper; [|done|eapply (round_aux_rounds _ _ _ _ (inject_Z (Z.pos (m * m'))))];
    [|done|done|by apply mul_digits].
  rewrite !fval_finite.
  destruct s, s'; cbv [xorb]; rewrite b2_plus, Pos2Z.inj_mul, inject_Z_mult; ring.
Qed.

(** The place of a quotient *)
Lemma new_location_located q r d :
  (0 < d)%Z → (0 <= r < d)%Z →
  located (shr_record_of_loc q (new_location d r)) (inject_Z q + inject_Z r / inject_Z d).
Proof.
  intros Hd Hr. set (f := inject_Z r / inject_Z d).
  assert (Hd' : 0 < inject_Z d) by (by rewrite <-(Zlt_Qlt 0)).
  assert (Hf : f * inject_Z d == inject_Z r) by (unfold f; field; lra).
  assert (H0 : 0 <= inject_Z r) by (apply (inject_Z_le 0); lia).
  assert (H1 : inject_Z r < inject_Z d) by (rewrite <-Zlt_Qlt; lia).
  assert (Hlt : (2 * r < d)%Z → f < 1 # 2).
  { intros H. rewrite Zlt_Qlt, inject_Z_mult in H. change (inject_Z 2) with 2 in H. nra. }
  assert (Heq : (2 * r = d)%Z → f == 1 # 2).
  { intros H. assert (inject_Z (2 * r) == inject_Z d) as H' by (by rewrite H).
    rewrite inject_Z_mult in H'. change (inject_Z 2) with 2 in H'. nra. }
  assert (Hgt : (d < 2 * r)%Z → (1 # 2) < f).
  { intros H. rewrite Zlt_Qlt, inject_Z_mult in H. change (inject_Z 2) with 2 in H. nra. }
  assert (Hf1 : f < 1) by nra.
  destruct (Z.eq_dec r 0) as [->|Hr0].
  { assert (f == 0) by (change (inject_Z 0) with 0 in Hf; nra).
    unfold new_location, new_location_even, new_location_odd. destruct (Z.even d); simpl;
      unfold located; simpl; lra. }
  assert (Hf0 : 0 < f) by (assert (0 < inject_Z r) by (rewrite <-(Zlt_Qlt 0); lia); nra).
  unfold new_location, new_location_even, new_location_odd.
  destruct (Z.even d) eqn:Heven; cbv beta; rewrite (proj2 (Z.eqb_neq r 0)) by done.
  - destruct (Z.compare_spec (2 * r) d) as [E|E|E]; unfold located; simpl.
    + specialize (Heq E). lra.
    + specialize (Hlt E). lra.
    + specialize (Hgt E). lra.
  - assert (2 * r ≠ d)%Z as Hne.
    { intros <-. by rewrite Z.even_mul in Heven. }
    destruct (Z.compare_spec (2 * r + 1) d) as [E|E|E]; unfold located; simpl.
    + specialize (Hlt ltac:(lia)). lra.
    + specialize (Hlt ltac:(lia)). lra.
    + specialize (Hgt ltac:(lia)). lra.
Qed.

Lemma finite_div_rounds s m e s' m' e' :
  rounds (fval (S754_finite s m e) / fval (S754_finite s' m' e'))
    (fdiv (S754_finite s m e) (S754_finite s' m' e')).
Proof.
  unfold fdiv, SFdiv, SFdiv_core_binary.
  set (ez := Z.min (fexp53 (Zdigits2 (Z.pos m) + e - (Zdigits2 (Z.pos m') + e'))) (e - e')).
  set (k := (e - e' - ez)%Z). assert (Hk : (0 <= k)%Z) by lia.
  assert (Hm : match k with Z0 => Z.pos m | Z.pos _ => Z.shiftl (Z.pos m) k | Z.neg _ => 0%Z end =
          (Z.pos m * 2 ^ k)%Z).
  { rewrite <-Z.shiftl_mul_pow2 by done. destruct k; try done; lia. }
  rewrite Hm. pose proof (Z_div_mod (Z.pos m * 2 ^ k) (Z.pos m') ltac:(lia)) as Hdiv.
  destruct (Z.div_eucl _ _) as [q r]. destruct Hdiv as [Hq Hr].
  pose proof (Z.pow_pos_nonneg 2 k ltac:(lia) Hk) as Hp2.
  assert (Hq0 : (0 <= q)%Z) by nia.
  assert (Hy : (inject_Z q + inject_Z r / inject_Z (Z.pos m')) * b2 ez ==
    inject_Z (Z.pos m) * b2 e / (inject_Z (Z.pos m') * b2 e')).
  { pose proof (Zpos_pos m'). pose proof (b2_pos e'). pose proof (b2_pos ez).
    assert (inject_Z (Z.pos m) * inject_Z (2 ^ k) == inject_Z (Z.pos m') * inject_Z q + inject_Z r)
      as Hqr by (rewrite <-!inject_Z_mult, <-inject_Z_plus; by rewrite Hq).
    assert (b2 e == inject_Z (2 ^ k) * (b2 ez * b2 e')) as E.
    { rewrite <-b2_plus, <-b2_Z, <-b2_plus by done. by replace (k + (ez + e'))%Z with e by lia. }
    assert (inject_Z (Z.pos m) * (inject_Z (2 ^ k) * (b2 ez * b2 e')) ==
      (inject_Z (Z.pos m') * inject_Z q + inject_Z r) * (b2 ez * b2 e')) as E'
      by (rewrite <-Hqr; ring).
    rewrite E, E'. field. split; lra. }
  eapply rounds_proper; [|done|apply (round_aux_rounds _ _ _ _ (inject_Z q + inject_Z r / inject_Z (Z.pos m')))].
  - rewrite !fval_finite. pose proof (Zpos_pos m'). pose proof (b2_pos e').
    destruct s, s'; cbv [xorb]; rewrite Hy; field; split; lra.
  - done.
  - apply new_location_located; lia.
  - assert (Zdigits2 (Z.pos m) + e - (Zdigits2 (Z.pos m') + e') <= Zdigits2 q + ez)%Z as Hdig.
    { pose proof (Zdigits2_spec (Z.pos m) ltac:(lia)) as [[D1 _] _].
      pose proof (Zdigits2_spec (Z.pos m') ltac:(lia)) as [[_ D2] D3].
      assert (0 <= Zdigits2 q)%Z by (destruct q; simpl; lia).
      set (g := (Zdigits2 (Z.pos m) - 1 + k - Zdigits2 (Z.pos m'))%Z).
      destruct (Z.le_gt_cases 0 g) as [Hg|Hg]; [|lia].
      assert (g < Zdigits2 q)%Z; [|lia]. apply digits2_ge; [|done].
      assert (2 ^ g * Z.pos m' <= Z.pos m * 2 ^ k)%Z as Hle.
      { transitivity (2 ^ g * 2 ^ Zdigits2 (Z.pos m'))%Z; [nia|].
        rewrite <-Z.pow_add_r by lia.
        replace (g + Zdigits2 (Z.pos m'))%Z with (Zdigits2 (Z.pos m) - 1 + k)%Z by lia.
        rewrite Z.pow_add_r by (simpl Zdigits2; lia). nia. }
      nia. }
    rewrite fexp53_eq. unfold ez in Hdig |- *. rewrite fexp53_eq in *. lia.
Qed.

Lemma fdiv_rounds x y :
  fin x = true → fin y = true → ¬ fval y == 0 → rounds (fval x / fval y) (fdiv x y).
Proof.
  destruct x as [s| | |s m e]; try done; destruct y as [s'| | |s' m' e']; try done;
    intros Hx Hy Hy0; try (by destruct Hy0).
  - eapply rounds_proper; [|done|apply rounds_zero]. change (fval (S754_zero s)) with 0.
    field. done.
  - apply finite_div_rounds.
Qed.

Lemma fval_int s p : fval (S754_finite s p 0) == inject_Z (if s then Z.neg p else Z.pos p).
Proof. simpl. unfold inject_Z. change (b2 0) with 1. ring. Qed.

Lemma Z_ratio_rounds n d : (0 < d)%Z → rounds (inject_Z n / inject_Z d) (Z_ratio n d).
Proof.
  intros Hd. destruct d as [|d|d]; try lia. pose proof (Zpos_pos d). destruct n as [|n|n].
  - eapply rounds_proper; [|done|apply rounds_zero]. change (inject_Z 0) with 0. field. lra.
  - eapply rounds_proper; [|done|apply (finite_div_rounds false n 0 false d 0)].
    by rewrite !fval_int.
  - eapply rounds_proper; [|done|apply (finite_div_rounds true n 0 false d 0)].
    by rewrite !fval_int.
Qed.

(** ** Bounds *)

(** [x] is finite and between [a] and [b]. *)
Definition fin_between (a b x : double) : Prop :=
  fin x = true ∧ fle a x = true ∧ fle x b = true.

Lemma fin_between_fval a b x :
  fin a = true → fin b = true →
  fin_between a b x ↔ fin x = true ∧ fval a <= fval x ∧ fval x <= fval b.
Proof.
  intros Ha Hb. unfold fin_between. split; intros (H & H1 & H2); (split; [done|]);
    by rewrite !fle_fval in *.
Qed.

(** A rounding between two doubles is finite. *)
Lemma rounds_between x r a b :
  rounds x r → fin a = true → fin b = true → fval a <= x → x <= fval b → fin_between a b r.
Proof.
  intros (Hnum & Hr & _) Ha Hb Hax Hxb.
  destruct (Hr a Ha) as [_ H1]. destruct (Hr b Hb) as [H2 _].
  specialize (H1 Hax). specialize (H2 Hxb). split; [|done].
  destruct r as [| [] | |]; try done; [by destruct a as [|[]| |[]]|by destruct b as [|[]| |[]]].
Qed.

Lemma rounds_ge x r a : rounds x r → fin a = true → fval a <= x → fle a r = true.
Proof. intros (_ & Hr & _) Ha. by apply Hr. Qed.

Lemma rounds_le x r a : rounds x r → fin a = true → x <= fval a → fle r a = true.
Proof. intros (_ & Hr & _) Ha. by apply Hr. Qed.

Definition f0 : double := S754_zero false.
Definition f1 : double := S754_finite false 4503599627370496 (-52).

Lemma fval_f1 : fval f1 == 1.
Proof. reflexivity. Qed.

(** A proportion is between 0 and 1. *)
Lemma Z_ratio_unit n d : (0 <= n <= d)%Z → (0 < d)%Z → fin_between f0 f1 (Z_ratio n d).
Proof.
  intros Hn Hd. apply (rounds_between (inject_Z n / inject_Z d)); [by apply Z_ratio_rounds|done|done| |].
  - change (fval f0) with 0. apply Qle_shift_div_l; [by rewrite <-(Zlt_Qlt 0)|].
    rewrite Qmult_0_l. apply (inject_Z_le 0). lia.
  - rewrite fval_f1. apply Qle_shift_div_r; [by rewrite <-(Zlt_Qlt 0)|].
    rewrite Qmult_1_l. apply inject_Z_le. lia.
Qed.

Lemma py_max_between a b x y :
  fin a = true → fin b = true → fin_between a b x → fin_between a b y →
  fin_between a b (py_max x y).
Proof. unfold py_max. by case_match. Qed.

Lemma py_min_between a b x y :
  fin a = true → fin b = true → fin_between a b x → fin_between a b y →
  fin_between a b (py_min x y).
Proof. unfold py_min. by case_match. Qed.

(** ** Order *)

(** Rounding respects the order. *)
Lemma rounds_mono x y r s :
  rounds x r → rounds y s → x < y → fin r = true → fin s = true → fle r s = true.
Proof.
  intros (_ & Hr & Hnr) (_ & Hs & Hns) Hxy Hfr Hfs.
  destruct (Qlt_le_dec y (fval r)) as [H1|H1]; [|by apply (Hs r Hfr)].
  destruct (Qlt_le_dec (fval s) x) as [H2|H2]; [|by apply (Hr s Hfs)].
  destruct (Hnr Hfr s Hfs) as [H3 _]. destruct (Hns Hfs r Hfr) as [_ H4].
  specialize (H3 ltac:(lra) ltac:(lra)). specialize (H4 ltac:(lra) ltac:(lra)). lra.
Qed.

Definition is_zero (x : double) : bool := match x with S754_zero _ => true | _ => false end.

(** Two doubles of the same value are the same, or zeros. *)
Lemma fin_eq x y :
  fin x = true → fin y = true → fval x == fval y → x = y ∨ is_zero x = true ∧ is_zero y = true.
Proof.
  intros Hx Hy Heq. pose proof (SFcompare_fin x y Hx Hy) as Hc.
  rewrite (proj1 (Qeq_alt _ _) Heq) in Hc.
  destruct x as [a| | |a m e], y as [b| | |b m' e']; try done; [by right| | |];
    simpl in Hc; try (by destruct a); try (by destruct b). left.
  destruct a, b; try done; destruct (Z.compare_spec e e') as [->|?|?]; try done;
    f_equal; injection Hc as Hc; change (Pos.compare_cont Eq m m') with (m ?= m')%positive in Hc;
    apply Pos.compare_eq; [by destruct (m ?= m')%positive|done].
Qed.

Lemma fadd_fval_eq a b c d :
  fin a = true → fin b = true → fin c = true → fin d = true →
  fval a == fval c → fval b == fval d → fval (fadd a b) == fval (fadd c d).
Proof.
  intros Ha Hb Hc Hd Hac Hbd.
  apply fin_eq in Hac as [->|[Hza Hzc]]; [| |done|done];
    (apply fin_eq in Hbd as [->|[Hzb Hzd]]; [| |done|done]); try done.
  - destruct b as [s| | |], d as [s'| | |]; try done. by destruct c as [[]| | |], s, s'.
  - destruct a as [s| | |], c as [s'| | |]; try done. by destruct d as [[]| | |], s, s'.
  - destruct a as [s| | |], c as [s'| | |], b as [s1| | |], d as [s2| | |]; try done.
    by destruct s, s', s1, s2.
Qed.

Lemma fadd_mono a b c d :
  fin a = true → fin b = true → fin c = true → fin d = true →
  fin (fadd a b) = true → fin (fadd c d) = true →
  fle a c = true → fle b d = true → fle (fadd a b) (fadd c d) = true.
Proof.
  intros Ha Hb Hc Hd Hab Hcd. rewrite !fle_fval by done. intros Hac Hbd.
  destruct (Qlt_le_dec (fval a + fval b) (fval c + fval d)) as [Hlt|Hle].
  - apply fle_fval; [done|done|].
    by apply (rounds_mono _ _ _ _ (fadd_rounds _ _ Ha Hb) (fadd_rounds _ _ Hc Hd)).
  - rewrite (fadd_fval_eq a b c d) by (try done; lra). lra.
Qed.

(** A proper fraction of two doubles *)
Lemma fdiv_unit x y :
  fin x = true → fin y = true → 0 <= fval x → fval x <= fval y → 0 < fval y →
  fin_between f0 f1 (fdiv x y).
Proof.
  intros Hx Hy H0 Hle Hpos.
  apply (rounds_between (fval x / fval y)); [apply fdiv_rounds; [done|done|lra]|done|done| |].
  - change (fval f0) with 0. apply Qle_shift_div_l; [done|]. lra.
  - rewrite fval_f1. apply Qle_shift_div_r; [done|]. lra.
Qed.

(** A factor below one shrinks. *)
Lemma fmul_shrink x y :
  fin x = true → fin y = true → 0 <= fval x → fval x <= 1 → 0 <= fval y →
  fin_between f0 y (fmul x y).
Proof.
  intros Hx Hy H0 H1 Hy0.
  apply (rounds_between (fval x * fval y)); [by apply fmul_rounds|done|done| |].
  - change (fval f0) with 0. by apply Qmult_le_0_compat.
  - nra.
Qed.

(** ** Exact values *)

Lemma exact_double z e :
  (0 < z < 2 ^ 53)%Z → (-1074 <= e <= 900)%Z →
  ∃ v, fin v = true ∧ fval v == inject_Z z * b2 e.
Proof.
  intros Hz He. destruct (Zdigits2_spec z ltac:(lia)) as [[D1 D2] D3].
  pose proof (digits2_lt z 53 ltac:(lia) ltac:(lia)) as D4.
  set (k := Z.min (53 - Zdigits2 z) (e + 1074)).
  assert (Hk : (0 <= k)%Z) by (unfold k; lia).
  pose proof (Z.pow_pos_nonneg 2 k ltac:(lia) Hk) as Hp.
  assert (Hzk : (z * 2 ^ k < 2 ^ 53)%Z).
  { assert (z * 2 ^ k < 2 ^ Zdigits2 z * 2 ^ k)%Z by nia.
    assert (2 ^ Zdigits2 z * 2 ^ k <= 2 ^ 53)%Z; [|lia].
    rewrite <-Z.pow_add_r by lia. apply Z.pow_le_mono_r; unfold k; lia. }
  destruct (z * 2 ^ k)%Z as [|p|p] eqn:Hp'; [nia| |nia].
  exists (S754_finite false p (e - k)). split.
  - apply bounded_intro; unfold emin53; [lia|unfold k; lia|].
    destruct (Z.le_gt_cases (53 - Zdigits2 z) (e + 1074)); [right|left; unfold k; lia].
    rewrite <-Hp'. assert (2 ^ 52 = 2 ^ (Zdigits2 z - 1) * 2 ^ k)%Z as ->.
    { rewrite <-Z.pow_add_r by lia. f_equal. unfold k. lia. }
    apply Z.mul_le_mono_nonneg_r; lia.
  - rewrite fval_finite, <-Hp', inject_Z_mult, <-b2_Z by done.
    replace e with (k + (e - k))%Z at 2 by lia. rewrite b2_plus. ring.
Qed.

(** A value that is a double is its own rounding. *)
Lemma rounds_exact x r v : rounds x r → fin v = true → fval v == x → fin r = true ∧ fval r == x.
Proof.
  intros Hr Hv Hx. destruct (rounds_between x r v v Hr Hv Hv) as (Hf & H1 & H2); [lra|lra|].
  rewrite fle_fval in H1, H2 by done. split; [done|lra].
Qed.

Lemma double_of_Z_exact n :
  (0 <= n < 2 ^ 53)%Z → fin (double_of_Z n) = true ∧ fval (double_of_Z n) == inject_Z n.
Proof.
  intros Hn. destruct (Z.eq_dec n 0) as [->|]; [done|].
  destruct (exact_double n 0) as (v & Hv & Hvn); [lia|lia|].
  apply (rounds_exact _ _ v (double_of_Z_rounds n)); [done|]. rewrite Hvn. change (b2 0) with 1. ring.
Qed.

(** ** [statistics.mean] *)

(** [x * 2^1074], an integer *)
Definition scaled (x : double) : Z :=
  match x with
  | S754_finite s m e => ((if s then Z.neg m else Z.pos m) * 2 ^ (e + 1074))%Z
  | _ => 0%Z
  end.

Definition is_finite (x : double) : bool :=
  match x with S754_infinity _ | S754_nan => false | _ => true end.

(** The exact mean, rounded once; infinities and nans, if there are any, are
    summed alone. *)
Definition mean (l : list double) : double :=
  if forallb is_finite l then
    Z_ratio (foldr Z.add 0%Z (scaled <$> l)) (Z.of_nat (length l) * 2 ^ 1074)
  else fdiv (foldl fadd f0 (filter (λ x, is_finite x = false) l)) (double_of_Z (Z.of_nat (length l))).

Lemma scaled_fval x : fin x = true → inject_Z (scaled x) == fval x * b2 1074.
Proof.
  destruct x as [s| | |s m e]; try done. intros Hx.
  apply bounded_spec in Hx as (_ & He & _). unfold emin53 in He.
  unfold scaled. rewrite inject_Z_mult, <-b2_Z, b2_plus by lia.
    change (fval (S754_finite s m e)) with (inject_Z (if s then Z.neg m else Z.pos m) * b2 e). ring.
Qed.

Lemma mean_between a b l :
  fin a = true → fin b = true → l ≠ [] → Forall (fin_between a b) l → fin_between a b (mean l).
Proof.
  intros Ha Hb Hne Hall. unfold mean.
  assert (forallb is_finite l = true) as ->.
  { apply forallb_forall. intros x Hx. rewrite Forall_forall in Hall.
    apply list_elem_of_In in Hx. apply Hall in Hx as [Hx _]. by destruct x. }
  set (n := Z.of_nat (length l)).
  assert (Hn : (0 < n)%Z) by (unfold n; destruct l; [done|simpl; lia]).
  assert (Hsum : fval a * b2 1074 * inject_Z n <= inject_Z (foldr Z.add 0%Z (scaled <$> l)) ∧
    inject_Z (foldr Z.add 0%Z (scaled <$> l)) <= fval b * b2 1074 * inject_Z n).
  { unfold n. clear Hn Hne n. induction Hall as [|x l Hx Hall IH].
    - change (inject_Z (foldr Z.add 0%Z (scaled <$> []))) with 0.
      change (inject_Z (Z.of_nat (length []))) with 0. split; lra.
    - rewrite fin_between_fval in Hx by done. destruct Hx as (Hf & H1 & H2).
      rewrite fmap_cons. simpl foldr. rewrite inject_Z_plus, scaled_fval by done. simpl length.
      rewrite Nat2Z.inj_succ. unfold Z.succ. rewrite inject_Z_plus. change (inject_Z 1) with 1.
      pose proof (b2_pos 1074) as HB.
      assert (fval a * b2 1074 <= fval x * b2 1074) by (apply Qmult_le_compat_r; lra).
      assert (fval x * b2 1074 <= fval b * b2 1074) by (apply Qmult_le_compat_r; lra). lra. }
  assert (Hd : (0 < n * 2 ^ 1074)%Z) by (apply Z.mul_pos_pos; [done|by apply Z.pow_pos_nonneg]).
  assert (E : inject_Z (n * 2 ^ 1074) == b2 1074 * inject_Z n).
  { rewrite inject_Z_mult, <-b2_Z by done. ring. }
  assert (Hd' : 0 < inject_Z (n * 2 ^ 1074)) by (by rewrite <-(Zlt_Qlt 0)).
  apply (rounds_between _ _ _ _ (Z_ratio_rounds _ _ Hd)); [done|done| |].
  - apply Qle_shift_div_l; [done|]. rewrite E. lra.
  - apply Qle_shift_div_r; [done|]. rewrite E. lra.
Qed.

Example mean_3 : mean [f1; Z_ratio 1 2; Z_ratio 1 4] = Z_ratio 7 12.
Proof. vm_compute. reflexivity. Qed.
