(* ===== verification/PyText.v ===== *)
(** Text as the portal handles it: Python [str] methods and the text functions
    of SQLite.  A [str] is its UTF-8 bytes (a [string]); [strip] knows every
    Unicode white space, the case mappings are those of the ASCII range (SQLite's
    [UPPER]/[LIKE] are ASCII only; on the rest of Unicode the model leaves the
    characters as they are), and [len] counts code points. *)
From S2P Require Import Prelude.
From Stdlib Require Export Ascii.
From Stdlib Require Import DecimalString.


(** ** Bytes *)

Abbreviation bytes := (list ascii).

Definition to_bytes (s : string) : bytes := String.list_ascii_of_string s.
Definition of_bytes (b : bytes) : string := String.string_of_list_ascii b.

Lemma of_to_bytes s : of_bytes (to_bytes s) = s.
Proof. apply String.string_of_list_ascii_of_string. Qed.

Lemma to_of_bytes b : to_bytes (of_bytes b) = b.
Proof. apply String.list_ascii_of_string_of_list_ascii. Qed.

Lemma to_bytes_inj s s' : to_bytes s = to_bytes s' → s = s'.
Proof. intros H. by rewrite <-(of_to_bytes s), H, of_to_bytes. Qed.

Lemma to_bytes_app s s' : to_bytes (s +:+ s') = to_bytes s ++ to_bytes s'.
Proof. induction s as [|c s IH]; simpl; [done|]. unfold to_bytes in *. simpl. by rewrite IH. Qed.

(** ** Truth values: [x or d] *)

Definition py_or (s d : string) : string := if decide (s = "") then d else s.

Definition opt_or (o : option string) (d : string) : string :=
  match o with Some s => py_or s d | None => d end.

Definition truthy (s : string) : bool := bool_decide (s ≠ "").

(** [bool] of an optional string: [None] and [""] are false. *)
Definition opt_truthy (o : option string) : bool :=
  match o with Some s => truthy s | None => false end.

(** ** Case mappings *)

Definition lower_ascii (c : ascii) : ascii :=
  let n := N_of_ascii c in
  if (65 <=? n)%N && (n <=? 90)%N then ascii_of_N (n + 32) else c.

Definition upper_ascii (c : ascii) : ascii :=
  let n := N_of_ascii c in
  if (97 <=? n)%N && (n <=? 122)%N then ascii_of_N (n - 32) else c.

Fixpoint str_map (f : ascii → ascii) (s : string) : string :=
  match s with
  | "" => ""
  | String c s' => String (f c) (str_map f s')
  end.

Definition py_lower : string → string := str_map lower_ascii.
Definition py_upper : string → string := str_map upper_ascii.
(** SQLite's [UPPER] *)
Definition sql_upper : string → string := str_map upper_ascii.

Lemma upper_ascii_idemp c : upper_ascii (upper_ascii c) = upper_ascii c.
Proof. by destruct c as [[|] [|] [|] [|] [|] [|] [|] [|]]. Qed.

Lemma lower_ascii_idemp c : lower_ascii (lower_ascii c) = lower_ascii c.
Proof. by destruct c as [[|] [|] [|] [|] [|] [|] [|] [|]]. Qed.

Lemma sql_upper_idemp s : sql_upper (sql_upper s) = sql_upper s.
Proof.
  unfold sql_upper. induction s as [|c s IH]; simpl; [done|].
  by rewrite upper_ascii_idemp, IH.
Qed.

(** ** Searching and slicing *)

(** [s.startswith(p)] as a prefix split: the rest of [s] after [p]. *)
Fixpoint bytes_strip_prefix (p b : bytes) : option bytes :=
  match p, b with
  | [], _ => Some b
  | c :: p', d :: b' => if decide (c = d) then bytes_strip_prefix p' b' else None
  | _, [] => None
  end.

Definition py_startswith (s p : string) : bool :=
  bool_decide (is_Some (bytes_strip_prefix (to_bytes p) (to_bytes s))).

Definition py_endswith (s p : string) : bool :=
  bool_decide (is_Some (bytes_strip_prefix (rev (to_bytes p)) (rev (to_bytes s)))).

Fixpoint bytes_contains (b p : bytes) : bool :=
  match bytes_strip_prefix p b with
  | Some _ => true
  | None => match b with [] => false | _ :: b' => bytes_contains b' p end
  end.

(** [p in s] *)
Definition py_in (p s : string) : bool := bytes_contains (to_bytes s) (to_bytes p).

(** [s.replace(old, new)] for a non-empty [old]; the fuel is the length of [s]. *)
Fixpoint bytes_replace (fuel : nat) (old new b : bytes) : bytes :=
  match fuel with
  | O => b
  | S fuel' =>
      match b with
      | [] => []
      | c :: b' =>
          match bytes_strip_prefix old b with
          | Some rest => new ++ bytes_replace fuel' old new rest
          | None => c :: bytes_replace fuel' old new b'
          end
      end
  end.

Definition py_replace (s old new : string) : string :=
  of_bytes (bytes_replace (String.length s) (to_bytes old) (to_bytes new) (to_bytes s)).

(** [s.split(c, 1)] for a one-character separator: [None] when it is absent. *)
Fixpoint bytes_split1 (c : ascii) (b : bytes) : option (bytes * bytes) :=
  match b with
  | [] => None
  | d :: b' =>
      if decide (d = c) then Some ([], b')
      else match bytes_split1 c b' with
           | Some (x, y) => Some (d :: x, y)
           | None => None
           end
  end.

Definition py_split1 (c : ascii) (s : string) : option (string * string) :=
  match bytes_split1 c (to_bytes s) with
  | Some (x, y) => Some (of_bytes x, of_bytes y)
  | None => None
  end.

(** [s.split(c)] *)
Fixpoint bytes_split (c : ascii) (b : bytes) : list bytes :=
  match b with
  | [] => [[]]
  | d :: b' =>
      if decide (d = c) then [] :: bytes_split c b'
      else match bytes_split c b' with
           | [] => [[d]]
           | x :: xs => (d :: x) :: xs
           end
  end.

Definition py_split (c : ascii) (s : string) : list string :=
  map of_bytes (bytes_split c (to_bytes s)).

Fixpoint bytes_rstrip1 (c : ascii) (rb : bytes) : bytes :=
  match rb with
  | d :: rb' => if decide (d = c) then bytes_rstrip1 c rb' else rb
  | [] => []
  end.

(** [s.rstrip(c)] for one character *)
Definition py_rstrip (c : ascii) (s : string) : string :=
  of_bytes (rev (bytes_rstrip1 c (rev (to_bytes s)))).

(** [sep.join(l)] *)
Definition py_join (sep : string) (l : list string) : string := String.concat sep l.

Lemma bytes_split1_app c (x y : bytes) :
  c ∉ x → bytes_split1 c (x ++ c :: y) = Some (x, y).
Proof.
  induction x as [|d x IH]; simpl; intros Hc; [by rewrite decide_True|].
  rewrite decide_False by (intros ->; set_solver). rewrite IH; set_solver.
Qed.

Lemma py_split1_app c x y :
  c ∉ to_bytes x → py_split1 c (x +:+ String c y) = Some (x, y).
Proof.
  intros Hc. unfold py_split1. rewrite to_bytes_app.
  change (to_bytes (String c y)) with (c :: to_bytes y).
  rewrite bytes_split1_app by done. by rewrite !of_to_bytes.
Qed.

(** ** White space *)

(** The UTF-8 encodings of the characters [str.isspace] accepts. *)
Definition ws_encodings : list bytes :=
  map (map ascii_of_nat)
  [ [9]; [10]; [11]; [12]; [13]; [28]; [29]; [30]; [31]; [32];
    [194; 133]; [194; 160]; [225; 154; 128];
    [226; 128; 128]; [226; 128; 129]; [226; 128; 130]; [226; 128; 131];
    [226; 128; 132]; [226; 128; 133]; [226; 128; 134]; [226; 128; 135];
    [226; 128; 136]; [226; 128; 137]; [226; 128; 138]; [226; 128; 168];
    [226; 128; 169]; [226; 128; 175]; [226; 129; 159]; [227; 128; 128] ]%nat.

Fixpoint strip_one_of (encs : list bytes) (b : bytes) : option bytes :=
  match encs with
  | [] => None
  | e :: encs' =>
      match bytes_strip_prefix e b with
      | Some rest => Some rest
      | None => strip_one_of encs' b
      end
  end.

(** Drops leading characters of [encs]; the fuel is the length of [b]. *)
Fixpoint lstrip_encs (fuel : nat) (encs : list bytes) (b : bytes) : bytes :=
  match fuel with
  | O => b
  | S fuel' =>
      match strip_one_of encs b with
      | Some rest => lstrip_encs fuel' encs rest
      | None => b
      end
  end.

Definition bytes_lstrip (b : bytes) : bytes := lstrip_encs (length b) ws_encodings b.
Definition bytes_rstrip (b : bytes) : bytes :=
  rev (lstrip_encs (length b) (map (@rev ascii) ws_encodings) (rev b)).

(** [s.strip()] *)
Definition py_strip (s : string) : string :=
  of_bytes (bytes_rstrip (bytes_lstrip (to_bytes s))).

(** ** Length and slices, in code points *)

Definition is_cont (c : ascii) : bool :=
  let n := N_of_ascii c in (128 <=? n)%N && (n <? 192)%N.

Fixpoint py_len (s : string) : nat :=
  match s with
  | "" => 0%nat
  | String c s' => if is_cont c then py_len s' else S (py_len s')
  end.

(** [s[:n]] *)
Fixpoint py_take (n : nat) (s : string) : string :=
  match s with
  | "" => ""
  | String c s' =>
      if is_cont c then String c (py_take n s')
      else match n with O => "" | S n' => String c (py_take n' s') end
  end.

(** ** Integers *)

(** [str(z)] *)
Definition str_of_Z (z : Z) : string := NilEmpty.string_of_int (Z.to_int z).

Definition digit_of (c : ascii) : option Z :=
  let n := N_of_ascii c in
  if (48 <=? n)%N && (n <=? 57)%N then Some (Z.of_N n - 48)%Z else None.

(** Digits with single underscores between them; [pend]: a digit is required. *)
Fixpoint int_digits (acc : Z) (pend : bool) (b : bytes) : option Z :=
  match b with
  | [] => if pend then None else Some acc
  | c :: b' =>
      match digit_of c with
      | Some d => int_digits (acc * 10 + d)%Z false b'
      | None =>
          if decide (c = "_"%char) then
            if pend then None else int_digits acc true b'
          else None
      end
  end.

(** [int(s)]: [None] is the [ValueError]. *)
Definition py_int (s : string) : option Z :=
  match to_bytes (py_strip s) with
  | [] => None
  | c :: b =>
      if decide (c = "-"%char) then Z.opp <$> int_digits 0 true b
      else if decide (c = "+"%char) then int_digits 0 true b
      else int_digits 0 true (c :: b)
  end.

(** ** SQLite [LIKE] *)

(** Drops the continuation bytes of the current character. *)
Fixpoint skip_cont (b : bytes) : bytes :=
  match b with
  | c :: b' => if is_cont c then skip_cont b' else b
  | [] => []
  end.

(** [s LIKE p] with ['%'] and ['_'], ASCII letters compared without case; the
    fuel bounds the number of steps. *)
Fixpoint like_go (fuel : nat) (p s : bytes) : bool :=
  match fuel with
  | O => false
  | S fuel' =>
      match p with
      | [] => match s with [] => true | _ => false end
      | c :: p' =>
          if decide (c = "%"%char) then
            like_go fuel' p' s ||
            match s with [] => false | _ :: s' => like_go fuel' p (skip_cont s') end
          else
            match s with
            | [] => false
            | d :: s' =>
                if decide (c = "_"%char) then like_go fuel' p' (skip_cont s')
                else bool_decide (lower_ascii c = lower_ascii d) && like_go fuel' p' s'
            end
      end
  end.

Definition sql_like (s p : string) : bool :=
  like_go (S (String.length p + String.length s)) (to_bytes p) (to_bytes s).

(** ** Order of strings (code points; UTF-8 keeps it): [sorted], [ORDER BY] *)

Definition str_leb (a b : string) : bool := String.leb a b.

Lemma str_leb_total a b : str_leb a b = true ∨ str_leb b a = true.
Proof. unfold str_leb. destruct (String.leb_total a b); auto. Qed.

(** [sorted(set(l))] *)
Definition sorted_set (l : list string) : list string := isort str_leb (dict_fromkeys l).

Lemma elem_of_sorted_set l x : x ∈ sorted_set l ↔ x ∈ l.
Proof. unfold sorted_set. by autorewrite with portal. Qed.

Lemma NoDup_sorted_set l : NoDup (sorted_set l).
Proof. unfold sorted_set. rewrite isort_Permutation. apply NoDup_dict_fromkeys. Qed.

#[export] Hint Rewrite elem_of_sorted_set : portal.
