(* ===== verification/Digest.v ===== *)
(** The parts of [hashlib], [hmac] and [base64] that the portal uses: SHA-256,
    HMAC-SHA-256, PBKDF2 with HMAC-SHA-256, [bytes.hex] and the URL-safe base64
    codec with CPython's lenient decoder.  The class [Crypto] is what the portal
    relies on; [sha256_crypto] is the standard library's implementation of it. *)
From S2P Require Import Prelude PyText.

(** ** Words modulo 2^32 *)

Module Sha256.
Local Open Scope N_scope.

Definition w32 (x : N) : N := N.land x 4294967295.
Definition add32 (x y : N) : N := w32 (x + y).
Definition rotr (n x : N) : N :=
  w32 (N.lor (N.shiftr x n) (N.shiftl x (32 - n))).
Definition not32 (x : N) : N := N.lxor x 4294967295.

Definition ch (x y z : N) : N := N.lxor (N.land x y) (N.land (not32 x) z).
Definition maj (x y z : N) : N :=
  N.lxor (N.land x y) (N.lxor (N.land x z) (N.land y z)).
Definition bsig0 (x : N) : N := N.lxor (rotr 2 x) (N.lxor (rotr 13 x) (rotr 22 x)).
Definition bsig1 (x : N) : N := N.lxor (rotr 6 x) (N.lxor (rotr 11 x) (rotr 25 x)).
Definition ssig0 (x : N) : N := N.lxor (rotr 7 x) (N.lxor (rotr 18 x) (N.shiftr x 3)).
Definition ssig1 (x : N) : N := N.lxor (rotr 17 x) (N.lxor (rotr 19 x) (N.shiftr x 10)).

Definition K : list N :=
  [1116352408; 1899447441; 3049323471; 3921009573; 961987163; 1508970993;
   2453635748; 2870763221; 3624381080; 310598401; 607225278; 1426881987;
   1925078388; 2162078206; 2614888103; 3248222580; 3835390401; 4022224774;
   264347078; 604807628; 770255983; 1249150122; 1555081692; 1996064986;
   2554220882; 2821834349; 2952996808; 3210313671; 3336571891; 3584528711;
   113926993; 338241895; 666307205; 773529912; 1294757372; 1396182291;
   1695183700; 1986661051; 2177026350; 2456956037; 2730485921; 2820302411;
   3259730800; 3345764771; 3516065817; 3600352804; 4094571909; 275423344;
   430227734; 506948616; 659060556; 883997877; 958139571; 1322822218;
   1537002063; 1747873779; 1955562222; 2024104815; 2227730452; 2361852424;
   2428436474; 2756734187; 3204031479; 3329325298].

Definition H0 : list N :=
  [1779033703; 3144134277; 1013904242; 2773480762; 1359893119; 2600822924;
   528734635; 1541459225].

(** Big-endian words and bytes *)
Definition be_word (b : bytes) : N :=
  fold_left (λ acc c, acc * 256 + N_of_ascii c) b 0.

Fixpoint be_bytes (n : nat) (x : N) : bytes :=
  match n with
  | O => []
  | S n' => be_bytes n' (N.shiftr x 8) ++ [ascii_of_N (N.land x 255)]
  end.

(** Splits in pieces of [k]; the fuel is the length of the list. *)
Fixpoint chunks {A} (fuel k : nat) (l : list A) : list (list A) :=
  match fuel, l with
  | S fuel', _ :: _ => take k l :: chunks fuel' k (drop k l)
  | _, _ => []
  end.

Definition pad (m : bytes) : bytes :=
  let len := length m in
  let zeros := ((119 - len mod 64) mod 64)%nat in
  m ++ ascii_of_N 128 :: replicate zeros (ascii_of_N 0)
    ++ be_bytes 8 (8 * N.of_nat len).

(** The 64 scheduled words, the last 16 kept most recent first. *)
Fixpoint schedule (n : nat) (recent : list N) : list N :=
  match n with
  | O => []
  | S n' =>
      let g i := nth i recent 0 in
      let w := add32 (add32 (ssig1 (g 1%nat)) (g 6%nat)) (add32 (ssig0 (g 14%nat)) (g 15%nat)) in
      w :: schedule n' (w :: take 15 recent)
  end.

Definition round (st : list N) (kw : N * N) : list N :=
  match st with
  | [a; b; c; d; e; f; g; h] =>
      let t1 := add32 (add32 h (bsig1 e)) (add32 (ch e f g) (add32 kw.1 kw.2)) in
      let t2 := add32 (bsig0 a) (maj a b c) in
      [add32 t1 t2; a; b; c; add32 d t1; e; f; g]
  | _ => st
  end.

Definition compress (st : list N) (block : bytes) : list N :=
  let w16 := be_word <$> chunks 64 4 block in
  let ws := w16 ++ schedule 48 (rev w16) in
  zip_with add32 st (fold_left round (zip K ws) st).

Definition digest (m : bytes) : bytes :=
  let p := pad m in
  concat (be_bytes 4 <$> fold_left compress (chunks (length p) 64 p) H0).
End Sha256.

(** ** HMAC and PBKDF2 *)

Definition xor_byte (x y : ascii) : ascii := ascii_of_N (N.lxor (N_of_ascii x) (N_of_ascii y)).

Definition hmac_sha256 (key msg : bytes) : bytes :=
  let k0 := if decide (64 < length key) then Sha256.digest key else key in
  let k := k0 ++ replicate (64 - length k0) (ascii_of_N 0) in
  Sha256.digest (map (xor_byte (ascii_of_N 92)) k ++
                 Sha256.digest (map (xor_byte (ascii_of_N 54)) k ++ msg)).

(** One 32-byte block: [U1 xor ... xor Un]. *)
Fixpoint pbkdf2_go (n : nat) (key u acc : bytes) : bytes :=
  match n with
  | O => acc
  | S n' => let u' := hmac_sha256 key u in pbkdf2_go n' key u' (zip_with xor_byte acc u')
  end.

Definition pbkdf2_sha256 (password salt : bytes) (iterations : N) : bytes :=
  let u1 := hmac_sha256 password (salt ++ Sha256.be_bytes 4 1) in
  pbkdf2_go (N.to_nat (iterations - 1)) password u1 u1.

(** ** [bytes.hex()] *)

Definition hex_digit (n : N) : ascii :=
  if (n <? 10)%N then ascii_of_N (48 + n) else ascii_of_N (87 + n).

Definition hex (b : bytes) : string :=
  of_bytes (concat (map (λ c, let n := N_of_ascii c in
                              [hex_digit (N.shiftr n 4); hex_digit (N.land n 15)]) b)).

(** ** What the portal relies on *)

Class Crypto := {
  crypto_hmac : bytes → bytes → bytes;      (* hmac.new(key, msg, sha256).digest() *)
  crypto_pbkdf2 : bytes → bytes → N → bytes; (* hashlib.pbkdf2_hmac("sha256", pw, salt, n) *)
  crypto_sha256 : bytes → bytes             (* hashlib.sha256(m).digest() *)
}.

#[export] Instance sha256_crypto : Crypto := {|
  crypto_hmac := hmac_sha256;
  crypto_pbkdf2 := pbkdf2_sha256;
  crypto_sha256 := Sha256.digest
|}.

(** The NIST and RFC test vectors. *)
Example sha256_abc :
  hex (Sha256.digest (to_bytes "abc")) =
  "ba7816bf8f01cfea414140de5dae2223b00361a396177a9cb410ff61f20015ad".
Proof. vm_compute. reflexivity. Qed.

Example hmac_sha256_fox :
  hex (hmac_sha256 (to_bytes "key") (to_bytes "The quick brown fox jumps over the lazy dog")) =
  "f7bc83f430538424b13298e6aa6fb143ef4d59a14946175997479dbc2d1a3cd8".
Proof. vm_compute. reflexivity. Qed.
