(* ===== verification/Base64.v ===== *)
(** URL-safe base64 as the portal's tokens use it: [base64.urlsafe_b64encode]
    with the padding stripped, and CPython's lenient decoder
    ([binascii.a2b_base64] without strict mode, which skips the characters
    outside the alphabet). A byte is its eight bits and a digit its six, so
    encoding and decoding are regroupings of bits. *)
From S2P Require Import Prelude PyText.

(** A base64 digit: six bits, most significant first. *)
Record sextet := Sextet { sx5 : bool; sx4 : bool; sx3 : bool; sx2 : bool; sx1 : bool; sx0 : bool }.

Definition sextet_val (s : sextet) : nat :=
  let 'Sextet a b c d e f := s in
  32 * Nat.b2n a + 16 * Nat.b2n b + 8 * Nat.b2n c + 4 * Nat.b2n d + 2 * Nat.b2n e + Nat.b2n f.

Definition sextet_of (n : nat) : sextet :=
  Sextet (Nat.testbit n 5) (Nat.testbit n 4) (Nat.testbit n 3)
         (Nat.testbit n 2) (Nat.testbit n 1) (Nat.testbit n 0).

Definition b64_alphabet : bytes :=
  to_bytes "ABCDEFGHIJKLMNOPQRSTUVWXYZabcdefghijklmnopqrstuvwxyz0123456789-_".

Definition sextet_char (s : sextet) : ascii := nth (sextet_val s) b64_alphabet "="%char.

(** The digit of a character; [urlsafe_b64decode] maps ["-_"] to ["+/"] first,
    so both spellings are digits. *)
Definition char_sextet (c : ascii) : option sextet :=
  let n := nat_of_ascii c in
  if (65 <=? n) && (n <=? 90) then Some (sextet_of (n - 65))
  else if (97 <=? n) && (n <=? 122) then Some (sextet_of (n - 71))
  else if (48 <=? n) && (n <=? 57) then Some (sextet_of (n + 4))
  else if (n =? 43) || (n =? 45) then Some (sextet_of 62)
  else if (n =? 47) || (n =? 95) then Some (sextet_of 63)
  else None.

Lemma char_sextet_char s : char_sextet (sextet_char s) = Some s.
Proof. by destruct s as [[|] [|] [|] [|] [|] [|]]. Qed.

Lemma sextet_char_not_dot s : sextet_char s ≠ "."%char ∧ sextet_char s ≠ "="%char
  ∧ (N_of_ascii (sextet_char s) < 128)%N.
Proof. by destruct s as [[|] [|] [|] [|] [|] [|]]. Qed.

(** ** Encoding *)

Fixpoint b64_digits (b : bytes) : list sextet :=
  match b with
  | [] => []
  | [Ascii a0 a1 a2 a3 a4 a5 a6 a7] =>
      [Sextet a7 a6 a5 a4 a3 a2; Sextet a1 a0 false false false false]
  | [Ascii a0 a1 a2 a3 a4 a5 a6 a7; Ascii b0 b1 b2 b3 b4 b5 b6 b7] =>
      [Sextet a7 a6 a5 a4 a3 a2; Sextet a1 a0 b7 b6 b5 b4; Sextet b3 b2 b1 b0 false false]
  | Ascii a0 a1 a2 a3 a4 a5 a6 a7 :: Ascii b0 b1 b2 b3 b4 b5 b6 b7
      :: Ascii c0 c1 c2 c3 c4 c5 c6 c7 :: b' =>
      Sextet a7 a6 a5 a4 a3 a2 :: Sextet a1 a0 b7 b6 b5 b4
        :: Sextet b3 b2 b1 b0 c7 c6 :: Sextet c5 c4 c3 c2 c1 c0 :: b64_digits b'
  end.

(** [base64.urlsafe_b64encode], padding included *)
Definition urlsafe_b64encode (b : bytes) : string :=
  let ds := map sextet_char (b64_digits b) in
  of_bytes (ds ++ replicate ((4 - length ds mod 4) mod 4) "="%char).

(** ** Decoding *)

(** The decoder between two characters: the bits of the current group that are
    not written yet, by [quad_pos]. *)
Inductive quad :=
  | Q0
  | Q1 (b5 b4 b3 b2 b1 b0 : bool)
  | Q2 (b3 b2 b1 b0 : bool)
  | Q3 (b1 b0 : bool).

Definition quad_pos (q : quad) : nat :=
  match q with Q0 => 0 | Q1 _ _ _ _ _ _ => 1 | Q2 _ _ _ _ => 2 | Q3 _ _ => 3 end.

Definition quad_step (q : quad) (s : sextet) : quad * bytes :=
  let 'Sextet s5 s4 s3 s2 s1 s0 := s in
  match q with
  | Q0 => (Q1 s5 s4 s3 s2 s1 s0, [])
  | Q1 b5 b4 b3 b2 b1 b0 => (Q2 s3 s2 s1 s0, [Ascii s4 s5 b0 b1 b2 b3 b4 b5])
  | Q2 b3 b2 b1 b0 => (Q3 s1 s0, [Ascii s2 s3 s4 s5 b0 b1 b2 b3])
  | Q3 b1 b0 => (Q0, [Ascii s0 s1 s2 s3 s4 s5 b0 b1])
  end.

(** [binascii.a2b_base64]: [None] is [binascii.Error]. *)
Fixpoint a2b_go (q : quad) (pads : nat) (b : bytes) : option bytes :=
  match b with
  | [] => match q with Q0 => Some [] | _ => None end
  | c :: b' =>
      if decide (c = "="%char) then
        if 2 <=? quad_pos q then
          if 4 <=? quad_pos q + S pads then Some [] else a2b_go q (S pads) b'
        else a2b_go q pads b'
      else match char_sextet c with
           | None => a2b_go q pads b'
           | Some s =>
               let '(q', out) := quad_step q s in
               app out <$> a2b_go q' 0 b'
           end
  end.

(** [base64.urlsafe_b64decode] of a [str]: non-ASCII text is a [ValueError]. *)
Definition urlsafe_b64decode (s : string) : option bytes :=
  if forallb (λ c, (N_of_ascii c <? 128)%N) (to_bytes s)
  then a2b_go Q0 0 (to_bytes s) else None.

(** ** Round trip *)

Lemma a2b_go_digit q pads s b :
  a2b_go q pads (sextet_char s :: b) =
  (let '(q', out) := quad_step q s in app out <$> a2b_go q' 0 b).
Proof.
  simpl. rewrite decide_False by apply sextet_char_not_dot.
  by rewrite char_sextet_char.
Qed.

(** Three bytes at a time. *)
Lemma bytes_ind3 (P : bytes → Prop) :
  P [] → (∀ a, P [a]) → (∀ a b, P [a; b]) →
  (∀ a b c l, P l → P (a :: b :: c :: l)) → ∀ l, P l.
Proof.
  intros H0 H1 H2 H3.
  assert (∀ l, P l ∧ (∀ a, P (a :: l)) ∧ (∀ a b, P (a :: b :: l))) as H; [|apply H].
  intros l. induction l as [|c l (IH0 & IH1 & IH2)]; split_and!; auto.
Qed.

Lemma b64_digits_length b : length (b64_digits b) mod 4 ≠ 1.
Proof.
  induction b as [|[] |[] []|[] [] [] b IH] using bytes_ind3; try done; simpl length.
  replace (S (S (S (S (length (b64_digits b)))))) with (length (b64_digits b) + 1 * 4) by lia.
  rewrite Nat.Div0.mod_add. done.
Qed.

(** Decoding the digits followed by the padding their number asks for. *)
Lemma a2b_go_digits pads b :
  a2b_go Q0 pads (map sextet_char (b64_digits b) ++
    replicate ((4 - length (b64_digits b) mod 4) mod 4) "="%char) = Some b.
Proof.
  revert pads. induction b as [|[] |[] []|[] [] [] b IH] using bytes_ind3; intros pads;
    [done|cbn [b64_digits map app]; repeat (rewrite a2b_go_digit; cbn [quad_step]); done..|].
  cbn [b64_digits map app length].
  replace (S (S (S (S (length (b64_digits b)))))) with (length (b64_digits b) + 1 * 4) by lia.
  rewrite Nat.Div0.mod_add.
  do 4 (rewrite a2b_go_digit; cbn [quad_step]). by rewrite IH.
Qed.

Lemma b64_text_ascii (ds : list sextet) n :
  forallb (λ c, (N_of_ascii c <? 128)%N) (map sextet_char ds ++ replicate n "="%char) = true.
Proof.
  apply forallb_forall. intros c Hc. apply list_elem_of_In, elem_of_app in Hc as [Hc|Hc].
  - apply list_elem_of_In, in_map_iff in Hc as (s & <- & _).
    apply N.ltb_lt, sextet_char_not_dot.
  - by apply elem_of_replicate in Hc as [-> _].
Qed.

Lemma urlsafe_b64_roundtrip_padded b : urlsafe_b64decode (urlsafe_b64encode b) = Some b.
Proof.
  unfold urlsafe_b64decode, urlsafe_b64encode.
  rewrite to_of_bytes, b64_text_ascii, length_map. apply a2b_go_digits.
Qed.

Lemma bytes_rstrip1_replicate c n l :
  (∀ d l', l = d :: l' → d ≠ c) → bytes_rstrip1 c (replicate n c ++ l) = l.
Proof.
  intros Hl. induction n as [|n IH]; simpl; [|by rewrite decide_True].
  destruct l as [|d l']; simpl; [done|]. rewrite decide_False; [done|by eapply Hl].
Qed.

Lemma rev_replicate {A} n (x : A) : rev (replicate n x) = replicate n x.
Proof. rewrite rev_alt. apply reverse_replicate. Qed.

(** Stripping the padding keeps exactly the digits. *)
Lemma rstrip_b64encode b :
  py_rstrip "=" (urlsafe_b64encode b) = of_bytes (map sextet_char (b64_digits b)).
Proof.
  unfold py_rstrip, urlsafe_b64encode. rewrite to_of_bytes, rev_app_distr, rev_replicate.
  rewrite bytes_rstrip1_replicate; [by rewrite rev_involutive|].
  intros d l' Hd. assert (d ∈ map sextet_char (b64_digits b)) as Hin.
  { apply list_elem_of_In, in_rev. rewrite Hd. by left. }
  apply list_elem_of_In, in_map_iff in Hin as (s & <- & _). apply sextet_char_not_dot.
Qed.
