(* ===== verification/Json.v ===== *)
(** JSON as the portal uses it: [json.dumps] (with [ensure_ascii=False], the
    default or the compact separators, optionally [sort_keys]) and [json.loads].
    A float is kept as its JSON literal, which Python's [repr] round-trips; a
    dict is the association list of its items in insertion order. *)
From S2P Require Import Prelude PyText.
From Stdlib Require Import DecimalString.
From Stdlib Require Export SpecFloat.
From Stdlib Require Decimal DecimalFacts DecimalPos DecimalZ.

Unset Elimination Schemes.
Inductive json :=
  | JNull
  | JBool (b : bool)
  | JInt (z : Z)
  | JFloat (lit : string)
  | JStr (s : string)
  | JArr (l : list json)
  | JObj (kvs : list (string * json)).
Set Elimination Schemes.

Section json_ind.
Context (P : json → Prop).
Context (Hnull : P JNull) (Hbool : ∀ b, P (JBool b)) (Hint : ∀ z, P (JInt z))
  (Hfloat : ∀ s, P (JFloat s)) (Hstr : ∀ s, P (JStr s))
  (Harr : ∀ l, Forall P l → P (JArr l))
  (Hobj : ∀ kvs, Forall (λ kv, P kv.2) kvs → P (JObj kvs)).

Fixpoint json_ind (j : json) : P j :=
  match j with
  | JNull => Hnull
  | JBool b => Hbool b
  | JInt z => Hint z
  | JFloat s => Hfloat s
  | JStr s => Hstr s
  | JArr l =>
      Harr l ((fix go l : Forall P l :=
        match l with
        | [] => Forall_nil_2 P
        | x :: l' => Forall_cons_2 P x l' (json_ind x) (go l')
        end) l)
  | JObj kvs =>
      Hobj kvs ((fix go l : Forall (λ kv, P kv.2) l :=
        match l with
        | [] => Forall_nil_2 _
        | x :: l' => Forall_cons_2 (λ kv, P kv.2) x l' (json_ind x.2) (go l')
        end) kvs)
  end.
End json_ind.

(** ** Dictionaries *)

(** [d.get(k)] *)
Definition dict_get {V} (k : string) (d : list (string * V)) : option V :=
  snd <$> fetchone (λ kv, kv.1 = k) d.

(** [d[k] = v]: in place when the key is there, at the end otherwise. *)
Fixpoint dict_set {V} (k : string) (v : V) (d : list (string * V)) : list (string * V) :=
  match d with
  | [] => [(k, v)]
  | (k', v') :: d' => if decide (k' = k) then (k', v) :: d' else (k', v') :: dict_set k v d'
  end.

(** [j.get(k)] of a JSON object; [None] also when [j] is not an object. *)
Definition json_get (k : string) (j : json) : option json :=
  match j with JObj kvs => dict_get k kvs | _ => None end.

(** ** Serialization *)

Definition hex4 (n : N) : bytes :=
  let h x := if (x <? 10)%N then ascii_of_N (48 + x) else ascii_of_N (87 + x) in
  [h (N.land (N.shiftr n 12) 15); h (N.land (N.shiftr n 8) 15);
   h (N.land (N.shiftr n 4) 15); h (N.land n 15)].

(** The escape of one character in [ESCAPE_DCT] (not [ensure_ascii]). *)
Definition escape_char (c : ascii) : bytes :=
  let n := N_of_ascii c in
  if (n =? 34)%N then to_bytes "\" ++ [c]
  else if (n =? 92)%N then to_bytes "\\"
  else if (n =? 10)%N then to_bytes "\n"
  else if (n =? 13)%N then to_bytes "\r"
  else if (n =? 9)%N then to_bytes "\t"
  else if (n =? 12)%N then to_bytes "\f"
  else if (n =? 8)%N then to_bytes "\b"
  else if (n <? 32)%N then to_bytes "\u" ++ hex4 n
  else [c].

Definition quote : ascii := ascii_of_N 34.
Definition backslash : ascii := ascii_of_N 92.

Definition dumps_str (s : string) : bytes :=
  quote :: concat (map escape_char (to_bytes s)) ++ [quote].

Fixpoint join_bytes (sep : bytes) (l : list bytes) : bytes :=
  match l with
  | [] => []
  | [x] => x
  | x :: l' => x ++ sep ++ join_bytes sep l'
  end.

(** [separators=(isep, ksep)] *)
Fixpoint dumps_bytes (isep ksep : bytes) (j : json) : bytes :=
  match j with
  | JNull => to_bytes "null"
  | JBool true => to_bytes "true"
  | JBool false => to_bytes "false"
  | JInt z => to_bytes (str_of_Z z)
  | JFloat lit => to_bytes lit
  | JStr s => dumps_str s
  | JArr l => "["%char :: join_bytes isep (map (dumps_bytes isep ksep) l) ++ ["]"%char]
  | JObj kvs =>
      "{"%char :: join_bytes isep
        (map (λ kv, dumps_str kv.1 ++ ksep ++ dumps_bytes isep ksep kv.2) kvs) ++ ["}"%char]
  end.

(** [sort_keys=True], at every level *)
Fixpoint json_sort_keys (j : json) : json :=
  match j with
  | JArr l => JArr (map json_sort_keys l)
  | JObj kvs =>
      JObj (isort (λ a b, str_leb a.1 b.1) (map (λ kv, (kv.1, json_sort_keys kv.2)) kvs))
  | _ => j
  end.

(** [json.dumps(j, ensure_ascii=False)] *)
Definition json_dumps (j : json) : string :=
  of_bytes (dumps_bytes (to_bytes ", ") (to_bytes ": ") j).

(** [json.dumps(j, ensure_ascii=False, separators=(",", ":"), sort_keys=True)] *)
Definition json_dumps_compact_sorted (j : json) : string :=
  of_bytes (dumps_bytes (to_bytes ",") (to_bytes ":") (json_sort_keys j)).

(** ** Parsing *)

Definition is_json_ws (c : ascii) : bool :=
  let n := N_of_ascii c in (n =? 32)%N || (n =? 9)%N || (n =? 10)%N || (n =? 13)%N.

Fixpoint skip_ws (b : bytes) : bytes :=
  match b with
  | c :: b' => if is_json_ws c then skip_ws b' else b
  | [] => []
  end.

Definition is_digit (c : ascii) : bool :=
  let n := N_of_ascii c in (48 <=? n)%N && (n <=? 57)%N.

Fixpoint span_digits (b : bytes) : bytes * bytes :=
  match b with
  | c :: b' => if is_digit c then let '(x, y) := span_digits b' in (c :: x, y) else ([], b)
  | [] => ([], [])
  end.

(** [(-?(?:0|[1-9][0-9]* ))]: sign, digits and the rest. *)
Definition scan_int (b : bytes) : option (bytes * bytes) :=
  let '(sign, b1) := match b with
                     | c :: b' => if decide (c = "-"%char) then ([c], b') else ([], b)
                     | [] => ([], [])
                     end in
  match b1 with
  | [] => None
  | c :: b' =>
      if decide (c = "0"%char) then Some (sign ++ [c], b')
      else if is_digit c then let '(x, y) := span_digits b1 in Some (sign ++ x, y)
      else None
  end.

(** [(\.[0-9]+)?] *)
Definition scan_frac (b : bytes) : bytes * bytes :=
  match b with
  | c :: b' =>
      if decide (c = "."%char) then
        match span_digits b' with
        | ([], _) => ([], b)
        | (x, y) => (c :: x, y)
        end
      else ([], b)
  | [] => ([], [])
  end.

(** [[-+]?] *)
Definition scan_sign (b : bytes) : bytes * bytes :=
  match b with
  | d :: b' => if decide (d = "-"%char ∨ d = "+"%char) then ([d], b') else ([], b)
  | [] => ([], [])
  end.

(** [([eE][-+]?[0-9]+)?] *)
Definition scan_exp (b : bytes) : bytes * bytes :=
  match b with
  | c :: b' =>
      if decide (c = "e"%char ∨ c = "E"%char) then
        let '(sign, b1) := scan_sign b' in
        match span_digits b1 with
        | ([], _) => ([], b)
        | (x, y) => (c :: sign ++ x, y)
        end
      else ([], b)
  | [] => ([], [])
  end.

Definition parse_number (b : bytes) : option (json * bytes) :=
  match scan_int b with
  | None => None
  | Some (int, b1) =>
      let '(frac, b2) := scan_frac b1 in
      let '(exp, b3) := scan_exp b2 in
      match frac, exp with
      | [], [] =>
          match NilEmpty.int_of_string (of_bytes int) with
          | Some d => Some (JInt (Z.of_int d), b3)
          | None => None
          end
      | _, _ => Some (JFloat (of_bytes (int ++ frac ++ exp)), b3)
      end
  end.

Definition hex_val (c : ascii) : option N :=
  let n := N_of_ascii c in
  if (48 <=? n)%N && (n <=? 57)%N then Some (n - 48)%N
  else if (97 <=? n)%N && (n <=? 102)%N then Some (n - 87)%N
  else if (65 <=? n)%N && (n <=? 70)%N then Some (n - 55)%N
  else None.

Definition hex4_val (a b c d : ascii) : option N :=
  x ← hex_val a; y ← hex_val b; z ← hex_val c; w ← hex_val d;
  Some (x * 4096 + y * 256 + z * 16 + w)%N.

Definition utf8_encode (n : N) : bytes :=
  if (n <? 128)%N then [ascii_of_N n]
  else if (n <? 2048)%N then [ascii_of_N (192 + N.shiftr n 6); ascii_of_N (128 + N.land n 63)]
  else if (n <? 65536)%N then
    [ascii_of_N (224 + N.shiftr n 12); ascii_of_N (128 + N.land (N.shiftr n 6) 63);
     ascii_of_N (128 + N.land n 63)]
  else
    [ascii_of_N (240 + N.shiftr n 18); ascii_of_N (128 + N.land (N.shiftr n 12) 63);
     ascii_of_N (128 + N.land (N.shiftr n 6) 63); ascii_of_N (128 + N.land n 63)].

(** The character of a simple escape. *)
Definition unescape (c : ascii) : option ascii :=
  let n := N_of_ascii c in
  if (n =? 34)%N || (n =? 92)%N || (n =? 47)%N then Some c
  else if (n =? 110)%N then Some (ascii_of_N 10)
  else if (n =? 114)%N then Some (ascii_of_N 13)
  else if (n =? 116)%N then Some (ascii_of_N 9)
  else if (n =? 102)%N then Some (ascii_of_N 12)
  else if (n =? 98)%N then Some (ascii_of_N 8)
  else None.

(** The body of a string after its opening quote, in strict mode. *)
Fixpoint parse_str (b : bytes) : option (bytes * bytes) :=
  match b with
  | [] => None
  | c :: b' =>
      if decide (c = quote) then Some ([], b')
      else if decide (c = backslash) then
        match b' with
        | [] => None
        | e :: b1 =>
            if decide (e = "u"%char) then
              match b1 with
              | h1 :: h2 :: h3 :: h4 :: b2 =>
                  match hex4_val h1 h2 h3 h4 with
                  | None => None
                  | Some n =>
                      let single := '(x, y) ← parse_str b2; Some (utf8_encode n ++ x, y) in
                      if (55296 <=? n)%N && (n <? 56320)%N then
                        match b2 with
                        | s :: u :: g1 :: g2 :: g3 :: g4 :: b3 =>
                            if decide (s = backslash ∧ u = "u"%char) then
                              match hex4_val g1 g2 g3 g4 with
                              | Some m =>
                                  if (56320 <=? m)%N && (m <? 57344)%N then
                                    '(x, y) ← parse_str b3;
                                    Some (utf8_encode (65536 + (n - 55296) * 1024 + (m - 56320))
                                            ++ x, y)
                                  else single
                              | None => None
                              end
                            else single
                        | _ => single
                        end
                      else single
                  end
              | _ => None
              end
            else
              match unescape e with
              | Some d => '(x, y) ← parse_str b1; Some (d :: x, y)
              | None => None
              end
        end
      else if (N_of_ascii c <? 32)%N then None
      else '(x, y) ← parse_str b'; Some (c :: x, y)
  end.

(** [NaN], [Infinity] and [-Infinity] *)
Definition parse_constant (b : bytes) : option (json * bytes) :=
  foldr (λ c acc, match bytes_strip_prefix (to_bytes c) b with
                  | Some r => Some (JFloat c, r)
                  | None => acc
                  end) None ["NaN"; "Infinity"; "-Infinity"].

(** [scan_once]; the fuel bounds the nesting and the number of items. *)
Fixpoint parse_value (fuel : nat) (b : bytes) : option (json * bytes) :=
  match fuel with
  | O => None
  | S fuel' =>
      match b with
      | [] => None
      | c :: b' =>
          if decide (c = quote) then
            '(s, r) ← parse_str b'; Some (JStr (of_bytes s), r)
          else if decide (c = "{"%char) then
            match skip_ws b' with
            | d :: b1 => if decide (d = "}"%char) then Some (JObj [], b1)
                         else '(kvs, r) ← parse_members fuel' [] (d :: b1); Some (JObj kvs, r)
            | [] => None
            end
          else if decide (c = "["%char) then
            match skip_ws b' with
            | d :: b1 => if decide (d = "]"%char) then Some (JArr [], b1)
                         else '(l, r) ← parse_items fuel' (d :: b1); Some (JArr l, r)
            | [] => None
            end
          else match bytes_strip_prefix (to_bytes "null") b with
          | Some r => Some (JNull, r)
          | None =>
          match bytes_strip_prefix (to_bytes "true") b with
          | Some r => Some (JBool true, r)
          | None =>
          match bytes_strip_prefix (to_bytes "false") b with
          | Some r => Some (JBool false, r)
          | None =>
          match parse_number b with
          | Some x => Some x
          | None => parse_constant b
          end end end end
      end
  end
with parse_items (fuel : nat) (b : bytes) : option (list json * bytes) :=
  match fuel with
  | O => None
  | S fuel' =>
      '(v, b1) ← parse_value fuel' b;
      match skip_ws b1 with
      | c :: b2 =>
          if decide (c = "]"%char) then Some ([v], b2)
          else if decide (c = ","%char) then
            '(l, r) ← parse_items fuel' (skip_ws b2); Some (v :: l, r)
          else None
      | [] => None
      end
  end
with parse_members (fuel : nat) (acc : list (string * json)) (b : bytes)
    : option (list (string * json) * bytes) :=
  match fuel with
  | O => None
  | S fuel' =>
      match b with
      | c :: b' =>
          if decide (c = quote) then
            '(k, b1) ← parse_str b';
            match skip_ws b1 with
            | d :: b2 =>
                if decide (d = ":"%char) then
                  '(v, b3) ← parse_value fuel' (skip_ws b2);
                  let acc' := dict_set (of_bytes k) v acc in
                  match skip_ws b3 with
                  | e :: b4 =>
                      if decide (e = "}"%char) then Some (acc', b4)
                      else if decide (e = ","%char) then parse_members fuel' acc' (skip_ws b4)
                      else None
                  | [] => None
                  end
                else None
            | [] => None
            end
          else None
      | [] => None
      end
  end.

(** [json.loads(s)]: [None] is [json.JSONDecodeError]. Each call of the parser
    but the two that close a value consumes a byte, so twice the length is
    enough fuel. *)
Definition json_loads (s : string) : option json :=
  let b := skip_ws (to_bytes s) in
  match parse_value (2 * S (length b)) b with
  | Some (j, r) => match skip_ws r with [] => Some j | _ => None end
  | None => None
  end.

(** ** Round trip *)

(** What may follow a value: the end, or the next token of an array or object. *)
Definition delim (r : bytes) : Prop :=
  match r with
  | [] => True
  | c :: _ => c = ","%char ∨ c = "]"%char ∨ c = "}"%char
  end.

Lemma span_digits_app b r x y :
  delim r → span_digits b = (x, y) → span_digits (b ++ r) = (x, y ++ r).
Proof.
  intros Hr. revert x y. induction b as [|c b IH]; simpl; intros x y H; simplify_eq.
  - destruct r as [|c r]; [done|]. simpl in *. by destruct Hr as [->|[->| ->]].
  - destruct (is_digit c); [|by simplify_eq].
    destruct (span_digits b) as [x' y']. rewrite (IH x' y'); by simplify_eq.
Qed.

Lemma scan_frac_app b r x y :
  delim r → scan_frac b = (x, y) → scan_frac (b ++ r) = (x, y ++ r).
Proof.
  intros Hr. destruct b as [|c b]; simpl; intros H; simplify_eq.
  - destruct r as [|c r]; [done|]. simpl in *. by destruct Hr as [->|[->| ->]].
  - destruct (decide _); [|by simplify_eq].
    destruct (span_digits b) as [d y'] eqn:E. rewrite (span_digits_app _ _ _ _ Hr E).
    destruct d; by simplify_eq.
Qed.

Lemma scan_sign_app b r x y :
  delim r → scan_sign b = (x, y) → scan_sign (b ++ r) = (x, y ++ r).
Proof.
  intros Hr. destruct b as [|d b]; simpl; intros H; simplify_eq.
  - destruct r as [|d r]; [done|]. simpl in *. by destruct Hr as [->|[->| ->]].
  - by destruct (decide _); simplify_eq.
Qed.

Lemma scan_exp_app b r x y :
  delim r → scan_exp b = (x, y) → scan_exp (b ++ r) = (x, y ++ r).
Proof.
  intros Hr. destruct b as [|c b]; simpl; intros H; simplify_eq.
  - destruct r as [|c r]; [done|]. simpl in *. by destruct Hr as [->|[->| ->]].
  - destruct (decide _); [|by simplify_eq].
    destruct (scan_sign b) as [sign b1] eqn:Es. rewrite (scan_sign_app _ _ _ _ Hr Es).
    destruct (span_digits b1) as [d y'] eqn:E. rewrite (span_digits_app _ _ _ _ Hr E).
    destruct d; by simplify_eq.
Qed.

Lemma scan_int_app b r x y :
  delim r → scan_int b = Some (x, y) → scan_int (b ++ r) = Some (x, y ++ r).
Proof.
  intros Hr. unfold scan_int. destruct b as [|c b]; simpl; [done|].
  destruct (decide (c = "-"%char)); simpl.
  - destruct b as [|d b]; simpl; [done|]. destruct (decide _); [naive_solver|].
    destruct (is_digit d); [|done].
    destruct (span_digits b) as [u v] eqn:E. rewrite (span_digits_app _ _ _ _ Hr E). naive_solver.
  - destruct (decide _); [naive_solver|]. destruct (is_digit c); [|done].
    destruct (span_digits b) as [u v] eqn:E. rewrite (span_digits_app _ _ _ _ Hr E). naive_solver.
Qed.

Lemma parse_number_app b r v y :
  delim r → parse_number b = Some (v, y) → parse_number (b ++ r) = Some (v, y ++ r).
Proof.
  intros Hr. unfold parse_number.
  destruct (scan_int b) as [[i b1]|] eqn:E1; [|done].
  rewrite (scan_int_app _ _ _ _ Hr E1).
  destruct (scan_frac b1) as [f b2] eqn:E2. rewrite (scan_frac_app _ _ _ _ Hr E2).
  destruct (scan_exp b2) as [e b3] eqn:E3. rewrite (scan_exp_app _ _ _ _ Hr E3).
  repeat case_match; naive_solver.
Qed.

(** *** Integers *)

Lemma span_digits_uint d :
  span_digits (to_bytes (NilEmpty.string_of_uint d)) = (to_bytes (NilEmpty.string_of_uint d), []).
Proof. induction d as [|d IH|d IH|d IH|d IH|d IH|d IH|d IH|d IH|d IH|d IH]; simpl; by rewrite ?IH. Qed.

(** The digits of a positive number do not start with a zero. *)
Lemma pos_uint_cases p :
  ∃ c b, to_bytes (NilEmpty.string_of_uint (Pos.to_uint p)) = c :: b ∧
    c ≠ "0"%char ∧ c ≠ "-"%char ∧ is_digit c = true.
Proof.
  assert (Pos.to_uint p = Decimal.unorm (Pos.to_uint p)) as Hn.
  { by rewrite <-DecimalPos.Unsigned.to_of, DecimalPos.Unsigned.of_to. }
  assert (Decimal.nzhead (Pos.to_uint p) ≠ Decimal.Nil) as Hnz.
  { intros E. unfold Decimal.unorm in Hn. rewrite E in Hn.
    by apply DecimalPos.Unsigned.to_uint_nonzero in Hn. }
  pose proof (DecimalFacts.nzhead_nonzero (Pos.to_uint p)) as Hd0.
  unfold Decimal.unorm in Hn. rewrite Hn. clear Hn.
  destruct (Decimal.nzhead (Pos.to_uint p)) as [| d | | | | | | | | | ] eqn:E; try done;
    [by destruct (Hd0 d)|simpl; eauto 10 ..].
Qed.

Lemma scan_int_Z z : scan_int (to_bytes (str_of_Z z)) = Some (to_bytes (str_of_Z z), []).
Proof.
  destruct z as [|p|p]; [done| |]; unfold str_of_Z, scan_int; simpl;
    pose proof (span_digits_uint (Pos.to_uint p)) as Hs;
    destruct (pos_uint_cases p) as (c & b & E & Hc0 & Hcm & Hd).
  - rewrite E in *. rewrite decide_False, decide_False, Hd, Hs by done. done.
  - change (String.list_ascii_of_string ?x) with (to_bytes x). rewrite E in *.
    rewrite decide_False, Hd, Hs by done. done.
Qed.

Lemma parse_number_Z z : parse_number (to_bytes (str_of_Z z)) = Some (JInt z, []).
Proof.
  unfold parse_number. rewrite scan_int_Z. simpl. rewrite of_to_bytes.
  unfold str_of_Z. by rewrite NilEmpty.isi, DecimalZ.of_to.
Qed.

(** *** Strings *)

Lemma parse_str_escape c b :
  parse_str (escape_char c ++ b) = '(x, y) ← parse_str b; Some (c :: x, y).
Proof. by destruct c as [[|] [|] [|] [|] [|] [|] [|] [|]]. Qed.

Lemma parse_str_dumps (s : bytes) r :
  parse_str (concat (map escape_char s) ++ quote :: r) = Some (s, r).
Proof.
  induction s as [|c s IH]; [done|]. simpl. rewrite <-app_assoc, parse_str_escape.
  by rewrite IH.
Qed.

(** *** Values *)

(** The values the round trip covers: float literals the parser reads back, and
    no key twice in a dict (a Python dict has none). *)
Definition float_ok (lit : string) : Prop :=
  parse_number (to_bytes lit) = Some (JFloat lit, []).

Fixpoint json_ok (j : json) : Prop :=
  match j with
  | JFloat lit => float_ok lit
  | JArr l => foldr (λ x acc, json_ok x ∧ acc) True l
  | JObj kvs =>
      NoDup (fst <$> kvs) ∧ foldr (λ kv acc, json_ok kv.2 ∧ acc) True kvs
  | _ => True
  end.

Fixpoint json_size (j : json) : nat :=
  match j with
  | JArr l => S (foldr (λ x acc, S (json_size x) + acc) 0 l)
  | JObj kvs => S (foldr (λ kv acc, S (json_size kv.2) + acc) 0 kvs)
  | _ => 1
  end.

Lemma dict_set_fresh {V} k (v : V) d :
  k ∉ d.*1 → dict_set k v d = d ++ [(k, v)].
Proof.
  induction d as [|[k' v'] d IH]; csimpl; intros H; [done|].
  rewrite decide_False by set_solver. rewrite IH; set_solver.
Qed.

Lemma skip_ws_nows c b : is_json_ws c = false → skip_ws (c :: b) = c :: b.
Proof. simpl. by intros ->. Qed.

Lemma skip_ws_app w b : forallb is_json_ws w = true → skip_ws (w ++ b) = skip_ws b.
Proof. induction w as [|c w IH]; simpl; [done|]. destruct (is_json_ws c); [apply IH|done]. Qed.

Lemma strip_prefix_ne d p c b : c ≠ d → bytes_strip_prefix (d :: p) (c :: b) = None.
Proof. intros H. simpl. by rewrite decide_False. Qed.

Lemma join_map_cons2 {A} (f : A → bytes) sep x y l :
  join_bytes sep (map f (x :: y :: l)) = f x ++ sep ++ join_bytes sep (map f (y :: l)).
Proof. done. Qed.

Lemma join_map_head {A} (f : A → bytes) sep x l c b :
  f x = c :: b → ∃ b', join_bytes sep (map f (x :: l)) = c :: b'.
Proof. intros H. simpl. rewrite H. destruct (map f l); simpl; eauto. Qed.

Lemma parse_value_quote fuel b :
  parse_value (S fuel) (quote :: b) = '(s, r) ← parse_str b; Some (JStr (of_bytes s), r).
Proof. done. Qed.

Lemma parse_value_brace fuel c b b' :
  skip_ws b = c :: b' → c ≠ "}"%char →
  parse_value (S fuel) ("{"%char :: b) =
  '(kvs, r) ← parse_members fuel [] (c :: b'); Some (JObj kvs, r).
Proof.
  intros Hb Hc. cbn [parse_value]. rewrite Hb.
  rewrite decide_False, decide_True, decide_False by done. done.
Qed.

Lemma parse_value_bracket fuel c b b' :
  skip_ws b = c :: b' → c ≠ "]"%char →
  parse_value (S fuel) ("["%char :: b) =
  '(l, r) ← parse_items fuel (c :: b'); Some (JArr l, r).
Proof.
  intros Hb Hc. cbn [parse_value]. rewrite Hb.
  rewrite decide_False, decide_False, decide_True, decide_False by done. done.
Qed.

(** One member of an object, after its key and its colon. *)
Lemma parse_members_key fuel acc k b :
  parse_members (S fuel) acc (dumps_str k ++ ":"%char :: b) =
  '(v, b3) ← parse_value fuel (skip_ws b);
  match skip_ws b3 with
  | e :: b4 =>
      if decide (e = "}"%char) then Some (dict_set k v acc, b4)
      else if decide (e = ","%char) then parse_members fuel (dict_set k v acc) (skip_ws b4)
      else None
  | [] => None
  end.
Proof.
  unfold dumps_str. rewrite <-app_comm_cons, <-app_assoc. cbn [parse_members].
  rewrite decide_True by done. change ([quote] ++ ?l) with (quote :: l).
  rewrite parse_str_dumps. cbn [mbind option_bind].
  by rewrite skip_ws_nows, decide_True, of_to_bytes.
Qed.

Section roundtrip.
Context (wi wk : bytes) (Hwi : forallb is_json_ws wi = true)
  (Hwk : forallb is_json_ws wk = true).
Let isep : bytes := ","%char :: wi.
Let ksep : bytes := ":"%char :: wk.
Let dumps := dumps_bytes isep ksep.

(** The first character of a number tells it from every other value. *)
Lemma scan_int_head b x y :
  scan_int b = Some (x, y) →
  ∃ c b', b = c :: b' ∧ (c = "-"%char ∨ is_digit c = true).
Proof.
  unfold scan_int. destruct b as [|c b]; [done|]. destruct (decide _); [eauto 10|].
  destruct (decide (c = "0"%char)); [subst; eauto 10|].
  destruct (is_digit c) eqn:E; [eauto 10|done].
Qed.

Lemma number_head b v y :
  parse_number b = Some (v, y) →
  ∃ c b', b = c :: b' ∧ (c = "-"%char ∨ is_digit c = true).
Proof.
  unfold parse_number. destruct (scan_int b) as [[x y']|] eqn:E; [|done].
  intros _. by eapply scan_int_head.
Qed.

Lemma parse_value_number fuel c b v y :
  (c = "-"%char ∨ is_digit c = true) → parse_number (c :: b) = Some (v, y) →
  parse_value (S fuel) (c :: b) = Some (v, y).
Proof.
  intros Hc Hp. assert (c ≠ quote ∧ c ≠ "{"%char ∧ c ≠ "["%char ∧ c ≠ "n"%char
    ∧ c ≠ "t"%char ∧ c ≠ "f"%char) as (?&?&?&?&?&?).
  { destruct Hc as [->|Hc]; [done|]. split_and!; intros ->; done. }
  cbn [parse_value]. rewrite !decide_False by done.
  change (to_bytes "null") with ("n"%char :: to_bytes "ull").
  change (to_bytes "true") with ("t"%char :: to_bytes "rue").
  change (to_bytes "false") with ("f"%char :: to_bytes "alse").
  by rewrite !strip_prefix_ne, Hp by done.
Qed.

Lemma dumps_head j :
  json_ok j → ∃ c b, dumps j = c :: b ∧ is_json_ws c = false ∧ c ≠ "]"%char.
Proof.
  assert (∀ c, c = "-"%char ∨ is_digit c = true → is_json_ws c = false ∧ c ≠ "]"%char) as Hnum.
  { intros c [->|Hc]; [done|]. by destruct c as [[|] [|] [|] [|] [|] [|] [|] [|]]. }
  destruct j as [|[]|z|lit|s|l|kvs]; unfold dumps; cbn [dumps_bytes]; intros Hok;
    try (eexists _, _; split; [reflexivity|done]).
  - destruct (number_head _ _ _ (parse_number_Z z)) as (c & b & -> & Hc). naive_solver.
  - destruct (number_head _ _ _ Hok) as (c & b & -> & Hc). naive_solver.
Qed.

Let RT (j : json) : Prop := ∀ fuel r,
  json_size j ≤ fuel → delim r → parse_value fuel (dumps j ++ r) = Some (j, r).

Lemma parse_items_roundtrip l x fuel r :
  Forall (λ j, json_ok j ∧ RT j) (x :: l) →
  foldr (λ x acc, S (json_size x) + acc) 0 (x :: l) ≤ fuel →
  parse_items fuel (join_bytes isep (map dumps (x :: l)) ++ "]"%char :: r) = Some (x :: l, r).
Proof.
  revert x fuel. induction l as [|y l IH]; intros x fuel HF Hf;
    inversion HF as [|?? [Hok Hx] HF']; subst; (destruct fuel as [|fuel]; [simpl in Hf; lia|]).
  - cbn [map join_bytes parse_items].
    rewrite Hx; [|simpl in Hf; lia|naive_solver]. cbn [mbind option_bind].
    by rewrite skip_ws_nows, decide_True.
  - rewrite join_map_cons2, <-!app_assoc. cbn [parse_items].
    rewrite Hx; [|simpl in Hf; lia|left; done]. unfold isep at 1. cbn [mbind option_bind].
    rewrite <-app_comm_cons.
    rewrite skip_ws_nows, decide_False, decide_True, skip_ws_app by done.
    destruct (dumps_head y) as (c & b & Ey & Hws & _); [inversion HF'; naive_solver|].
    destruct (join_map_head dumps isep y l c b Ey) as [b' Ej].
    rewrite Ej, <-app_comm_cons, skip_ws_nows by done.
    rewrite app_comm_cons, <-Ej, IH; [done|done|]. simpl in *. lia.
Qed.

Let dump_kv (kv : string * json) : bytes := dumps_str kv.1 ++ ksep ++ dumps kv.2.

Lemma parse_members_roundtrip kvs kv acc fuel r :
  NoDup ((acc ++ kv :: kvs).*1) →
  Forall (λ kv, json_ok kv.2 ∧ RT kv.2) (kv :: kvs) →
  foldr (λ kv acc, S (json_size kv.2) + acc) 0 (kv :: kvs) ≤ fuel →
  parse_members fuel acc (join_bytes isep (map dump_kv (kv :: kvs)) ++ "}"%char :: r)
    = Some (acc ++ kv :: kvs, r).
Proof.
  revert kv acc fuel. induction kvs as [|kv' kvs IH]; intros [k v] acc fuel Hnd HF Hf;
    inversion HF as [|?? [Hok Hx] HF']; subst; (destruct fuel as [|fuel]; [simpl in Hf; lia|]);
    destruct (dumps_head v) as (c & b & Ev & Hws & _); [done| |done|];
    (assert (k ∉ acc.*1) as Hk by
      (rewrite fmap_app in Hnd; apply NoDup_app in Hnd; set_solver));
    assert (∀ b', skip_ws (wk ++ dumps v ++ b') = dumps v ++ b') as Hskip
      by (intros b'; rewrite skip_ws_app, Ev by done; by apply skip_ws_nows).
  - cbn [map join_bytes]. unfold dump_kv, ksep. cbn [fst snd].
    rewrite <-!app_assoc, <-app_comm_cons, parse_members_key.
    rewrite Hskip, Hx; [|simpl in Hf; simpl; lia|naive_solver]. cbn [mbind option_bind].
    by rewrite skip_ws_nows, decide_True, dict_set_fresh.
  - rewrite join_map_cons2. unfold dump_kv at 1, ksep at 1, isep at 1. cbn [fst snd].
    rewrite <-!app_assoc, <-!app_comm_cons, <-?app_assoc, parse_members_key.
    rewrite Hskip, Hx; [|simpl in Hf; simpl; lia|left; done]. cbn [mbind option_bind].
    rewrite skip_ws_nows, decide_False, decide_True by done.
    rewrite dict_set_fresh, skip_ws_app by done.
    destruct (join_map_head dump_kv isep kv' kvs quote _ eq_refl) as [b' Ej].
    rewrite Ej, <-app_comm_cons, skip_ws_nows by done.
    rewrite app_comm_cons, <-Ej, IH; [by rewrite <-app_assoc|by rewrite <-app_assoc|done|].
    simpl in *. lia.
Qed.

Lemma json_ok_arr l : json_ok (JArr l) ↔ Forall json_ok l.
Proof.
  simpl. induction l as [|x l IH]; simpl; [by rewrite Forall_nil|].
  by rewrite Forall_cons, IH.
Qed.

Lemma json_ok_obj kvs :
  json_ok (JObj kvs) ↔ NoDup kvs.*1 ∧ Forall (λ kv, json_ok kv.2) kvs.
Proof.
  simpl. apply and_iff_compat_l. induction kvs as [|x l IH]; simpl; [by rewrite Forall_nil|].
  by rewrite Forall_cons, IH.
Qed.

Lemma parse_value_roundtrip j : json_ok j → RT j.
Proof.
  induction j as [|[]|z|lit|s|l IH|kvs IH] using json_ind; intros Hok fuel r Hf Hr;
    (destruct fuel as [|fuel]; [simpl in Hf; lia|]); try done.
  - destruct (number_head _ _ _ (parse_number_Z z)) as (c & b & E & Hc).
    unfold dumps. cbn [dumps_bytes]. rewrite E, <-app_comm_cons.
    apply parse_value_number; [done|]. rewrite app_comm_cons, <-E.
    by rewrite (parse_number_app _ _ _ _ Hr (parse_number_Z z)).
  - destruct (number_head _ _ _ Hok) as (c & b & E & Hc).
    unfold dumps. cbn [dumps_bytes]. rewrite E, <-app_comm_cons.
    apply parse_value_number; [done|]. rewrite app_comm_cons, <-E.
    by rewrite (parse_number_app _ _ _ _ Hr Hok).
  - unfold dumps. cbn [dumps_bytes]. unfold dumps_str.
    rewrite <-app_comm_cons, <-app_assoc, parse_value_quote.
    change ([quote] ++ r) with (quote :: r).
    rewrite parse_str_dumps. cbn [mbind option_bind]. by rewrite of_to_bytes.
  - apply json_ok_arr in Hok. unfold dumps. cbn [dumps_bytes].
    rewrite <-app_comm_cons, <-app_assoc. fold dumps.
    destruct l as [|x l]; [done|].
    destruct (dumps_head x) as (c & b & Ex & Hws & Hc); [by inversion Hok|].
    destruct (join_map_head dumps isep x l c b Ex) as [b' Ej].
    erewrite parse_value_bracket; [|rewrite Ej; by apply skip_ws_nows|done].
    rewrite app_comm_cons, <-Ej. change (["]"%char] ++ r) with ("]"%char :: r).
    rewrite parse_items_roundtrip; [done| |simpl in *; lia].
    clear -IH Hok. induction IH; inversion Hok; constructor; auto.
  - apply json_ok_obj in Hok as [Hnd Hok]. unfold dumps. cbn [dumps_bytes].
    rewrite <-app_comm_cons, <-app_assoc.
    destruct kvs as [|kv kvs]; [done|].
    change (map _ (kv :: kvs)) with (map dump_kv (kv :: kvs)).
    destruct (join_map_head dump_kv isep kv kvs quote _ eq_refl) as [b' Ej].
    erewrite parse_value_brace; [|rewrite Ej; by apply skip_ws_nows|done].
    rewrite app_comm_cons, <-Ej. change (["}"%char] ++ r) with ("}"%char :: r).
    rewrite (parse_members_roundtrip kvs kv []); [done|done| |simpl in *; lia].
    clear -IH Hok. induction IH; inversion Hok; constructor; auto.
Qed.
End roundtrip.

(** *** The fuel is enough *)

Lemma dumps_length isep ksep j :
  0 < length isep → json_ok j → json_size j ≤ 2 * length (dumps_bytes isep ksep j).
Proof.
  intros Hi. induction j as [|[]|z|lit|s|l IH|kvs IH] using json_ind; intros Hok; try (simpl; lia).
  - destruct (number_head _ _ _ (parse_number_Z z)) as (c & b & E & _).
    cbn [dumps_bytes json_size]. rewrite E. simpl. lia.
  - destruct (number_head _ _ _ Hok) as (c & b & E & _).
    cbn [dumps_bytes json_size]. rewrite E. simpl. lia.
  - apply json_ok_arr in Hok. cbn [dumps_bytes json_size].
    assert (foldr (λ x acc, S (json_size x) + acc) 0 l
      ≤ 2 * length (join_bytes isep (map (dumps_bytes isep ksep) l)) + 1).
    { clear -Hi IH Hok. induction l as [|x l IHl]; simpl; [lia|].
      inversion IH as [|?? Hx IH']; inversion Hok as [|?? Hox Hok']; subst.
      specialize (Hx Hox). specialize (IHl IH' Hok').
      destruct l as [|y l]; simpl in *; rewrite ?length_app in *; lia. }
    rewrite length_cons, length_app. simpl in *. lia.
  - apply json_ok_obj in Hok as [_ Hok]. cbn [dumps_bytes json_size].
    assert (foldr (λ kv acc, S (json_size kv.2) + acc) 0 kvs
      ≤ 2 * length (join_bytes isep
          (map (λ kv, dumps_str kv.1 ++ ksep ++ dumps_bytes isep ksep kv.2) kvs)) + 1).
    { clear -Hi IH Hok. induction kvs as [|x l IHl]; simpl; [lia|].
      inversion IH as [|?? Hx IH']; inversion Hok as [|?? Hox Hok']; subst.
      specialize (Hx Hox). specialize (IHl IH' Hok').
      destruct l as [|y l]; simpl in *; rewrite ?length_app in *; simpl in *; lia. }
    rewrite length_cons, length_app. simpl in *. lia.
Qed.

(** Parsing what was printed, for separators that are a comma and a colon
    followed by white space. *)
Lemma loads_dumps wi wk j :
  forallb is_json_ws wi = true → forallb is_json_ws wk = true → json_ok j →
  json_loads (of_bytes (dumps_bytes (","%char :: wi) (":"%char :: wk) j)) = Some j.
Proof.
  intros Hwi Hwk Hok. unfold json_loads. rewrite to_of_bytes.
  destruct (dumps_head wi wk j) as (c & b & E & Hws & _); [done|].
  rewrite E, skip_ws_nows by done. rewrite <-E.
  pose proof (dumps_length (","%char :: wi) (":"%char :: wk) j ltac:(simpl; lia) Hok).
  pose proof (parse_value_roundtrip wi wk Hwi Hwk j Hok
    (2 * S (length (dumps_bytes (","%char :: wi) (":"%char :: wk) j))) []
    ltac:(lia) I) as Hp.
  rewrite app_nil_r in Hp. by rewrite Hp.
Qed.

(** The sorted value is as well formed as the original. *)
Lemma json_ok_sort_keys j : json_ok j → json_ok (json_sort_keys j).
Proof.
  induction j as [| | | | |l IH|kvs IH] using json_ind; intros Hok; try done.
  - apply json_ok_arr in Hok. cbn [json_sort_keys]. apply json_ok_arr, Forall_map.
    clear -IH Hok. induction IH; inversion Hok; constructor; auto.
  - apply json_ok_obj in Hok as [Hnd Hok]. cbn [json_sort_keys]. apply json_ok_obj.
    rewrite isort_Permutation. split.
    + change (map ?f ?l) with (f <$> l). rewrite <-list_fmap_compose. done.
    + apply Forall_map. clear -IH Hok. induction IH; inversion Hok; constructor; auto.
Qed.

Lemma json_loads_dumps j : json_ok j → json_loads (json_dumps j) = Some j.
Proof. by apply (loads_dumps [" "%char] [" "%char]). Qed.

Lemma json_loads_dumps_compact j :
  json_ok j → json_loads (json_dumps_compact_sorted j) = Some (json_sort_keys j).
Proof. intros Hok. by apply (loads_dumps [] []), json_ok_sort_keys. Qed.

(** *** Lookups *)

Lemma elem_dict_get {V} k (m : list (string * V)) o : dict_get k m = Some o → (k, o) ∈ m.
Proof.
  unfold dict_get. intros ([k' o'] & Hkv & ->)%fmap_Some.
  by apply fetchone_Some in Hkv as [Hin <-].
Qed.

Lemma dict_get_nil {V} k : dict_get k ([] : list (string * V)) = None.
Proof. done. Qed.

Lemma dict_get_cons {V} k k' (v : V) l :
  dict_get k ((k', v) :: l) = if decide (k' = k) then Some v else dict_get k l.
Proof.
  unfold dict_get, fetchone. rewrite filter_cons. simpl. by case_decide.
Qed.

Lemma dict_get_set {V} k k' (v : V) l :
  dict_get k (dict_set k' v l) = if decide (k' = k) then Some v else dict_get k l.
Proof.
  induction l as [|[k1 v1] l IH]; simpl; [by rewrite dict_get_cons|].
  destruct (decide (k1 = k')) as [->|]; rewrite !dict_get_cons; [by case_decide|].
  rewrite IH. repeat case_decide; congruence.
Qed.

Lemma dict_get_app {V} k (l l' : list (string * V)) :
  dict_get k (l ++ l') = match dict_get k l with Some v => Some v | None => dict_get k l' end.
Proof.
  induction l as [|[k1 v1] l IH]; [done|]. simpl. rewrite !dict_get_cons, IH. by case_decide.
Qed.

Lemma Forall_dict_get {V} (P : string * V → Prop) k l v :
  Forall P l → dict_get k l = Some v → P (k, v).
Proof. intros Hl Hk%elem_dict_get. by apply (proj1 (Forall_forall _ _) Hl). Qed.

Lemma Forall_dict_set {V} (P : string * V → Prop) k v l :
  Forall P l → P (k, v) → Forall P (dict_set k v l).
Proof.
  intros Hl Hk. induction Hl as [|[k' v'] l Hx Hl IH]; simpl; [by constructor|].
  case_decide as Hkk; [subst|]; by constructor.
Qed.

Lemma NoDup_dict_set {V} k (v : V) l : NoDup l.*1 → NoDup (dict_set k v l).*1.
Proof.
  induction l as [|[k' v'] l IH]; simpl; intros Hnd; [by apply NoDup_singleton|].
  apply NoDup_cons in Hnd as [Hk' Hnd]. case_decide as Hk; simpl; [by constructor|].
  constructor; [|by apply IH]. intros Hin. apply Hk'. clear IH Hk' Hnd.
  induction l as [|[k1 v1] l IH]; simpl in *; [by apply list_elem_of_singleton in Hin|].
  case_decide; simpl in *; [done|]. apply elem_of_cons in Hin as [->|Hin]; [by left|right; auto].
Qed.

Lemma dict_set_same {V} k (v : V) d : dict_get k d = Some v → dict_set k v d = d.
Proof.
  induction d as [|[k' v'] d IH]; [done|]. rewrite dict_get_cons. simpl.
  destruct (decide (k' = k)); [by intros [= ->]|]. intros H. by rewrite IH.
Qed.

Lemma elem_of_dict_set {V} k k' (v : V) d : k ∈ (dict_set k' v d).*1 ↔ k = k' ∨ k ∈ d.*1.
Proof.
  induction d as [|[k1 v1] d IH]; simpl; [set_solver|]. case_decide; simpl; rewrite ?elem_of_cons, ?IH; set_solver.
Qed.

(** Looking up a key does not see the order of the items. *)
Lemma dict_get_Permutation {V} k (d d' : list (string * V)) :
  NoDup d.*1 → d ≡ₚ d' → dict_get k d = dict_get k d'.
Proof.
  intros Hnd Hp. unfold dict_get. destruct (fetchone (λ kv, kv.1 = k) d) as [kv|] eqn:E.
  - apply fetchone_Some in E as [Hin Hk].
    erewrite (fetchone_unique fst _ d' kv); [done| |intros; congruence| |done].
    + by rewrite <-Hp.
    + by rewrite <-Hp.
  - rewrite fetchone_None in E. destruct (fetchone _ d') as [kv|] eqn:E'; [|done].
    apply fetchone_Some in E' as [Hin Hk]. exfalso. eapply E; [|done]. by rewrite Hp.
Qed.

(** ** JSON columns: lists of strings *)

Definition json_strs (l : list string) : json := JArr (JStr <$> l).

Definition json_dumps_strs (l : list string) : string := json_dumps (json_strs l).

(** [str(x)] of the items that are read back from a list column; the portal only
    ever writes strings there. *)
Definition json_str_items (j : json) : option (list string) :=
  match j with
  | JArr l => mapM (λ x, match x with JStr s => Some s | _ => None end) l
  | _ => None
  end.

(** [json.loads] of a column that holds a list of strings. *)
Definition json_loads_strs (s : string) : option (list string) :=
  json_loads s ≫= json_str_items.

Lemma json_loads_dumps_strs l : json_loads_strs (json_dumps_strs l) = Some l.
Proof.
  unfold json_loads_strs, json_dumps_strs. rewrite json_loads_dumps.
  - simpl. rewrite mapM_fmap_Some; [done|]. done.
  - apply json_ok_arr, Forall_fmap, Forall_forall. done.
Qed.

Local Open Scope Z_scope.

(** ** Floats *)

(** The double nearest to [m * 10^e]. *)
Definition decimal_float (neg : bool) (m e : Z) : spec_float :=
  match m with
  | Z.pos p =>
      if (0 <=? e)%Z then
        binary_normalize 53 1024 ((if neg then Z.neg p else Z.pos p) * 10 ^ e) 0 neg
      else match 10 ^ (- e) with
           | Z.pos q => SFdiv 53 1024 (S754_finite neg p 0) (S754_finite false q 0)
           | _ => S754_nan
           end
  | _ => S754_zero neg
  end.

Definition digits_Z (b : bytes) : Z :=
  foldl (λ acc c, acc * 10 + (Z.of_N (N_of_ascii c) - 48)) 0 b.

(** The value of a JSON float literal *)
Definition lit_float (lit : string) : spec_float :=
  if decide (lit = "NaN") then S754_nan
  else if decide (lit = "Infinity") then S754_infinity false
  else if decide (lit = "-Infinity") then S754_infinity true
  else
    match scan_int (to_bytes lit) with
    | None => S754_nan
    | Some (int, b1) =>
        let '(frac, b2) := scan_frac b1 in
        let '(exp, _) := scan_exp b2 in
        let neg := match int with c :: _ => bool_decide (c = "-"%char) | [] => false end in
        let int_digits := if neg then tail int else int in
        let frac_digits := tail frac in
        let e := match tail exp with
                 | [] => 0
                 | c :: ds => if decide (c = "-"%char) then - digits_Z ds
                              else if decide (c = "+"%char) then digits_Z ds
                              else digits_Z (c :: ds)
                 end in
        decimal_float neg (digits_Z (int_digits ++ frac_digits)) (e - Z.of_nat (length frac_digits))
    end.

(** [int(x)] of a float; [None] is the error on infinities and nan *)
Definition float_int (f : spec_float) : option Z :=
  match f with
  | S754_zero _ => Some 0
  | S754_finite s m e =>
      let a := if (0 <=? e)%Z then Z.pos m * 2 ^ e else Z.pos m / 2 ^ (- e) in
      Some (if s then - a else a)
  | _ => None
  end.
