(* ===== verification/Dsl.v ===== *)
(** The Python values the RAGFlow SDK hands over, and the walks over them
    (portal_server.py): [_base_to_dict], [_extract_kb_ids_from_dsl],
    [_patch_dsl_kb_ids] and [_find_reference].

    The SDK wraps a dict in a [Base] object whose attributes are the items of the
    dict, so a value mixes dicts, lists and such objects. *)
From S2P Require Import Prelude PyText Json.

Unset Elimination Schemes.
Inductive pyv :=
  | PNone
  | PBool (b : bool)
  | PInt (z : Z)
  | PFloat (lit : string)
  | PStr (s : string)
  | PList (l : list pyv)
  | PDict (kvs : list (string * pyv))
  | PBase (attrs : list (string * pyv)).   (* an object with a [__dict__] *)
Set Elimination Schemes.

Section pyv_ind.
Context (P : pyv → Prop).
Context (Hnone : P PNone) (Hbool : ∀ b, P (PBool b)) (Hint : ∀ z, P (PInt z))
  (Hfloat : ∀ s, P (PFloat s)) (Hstr : ∀ s, P (PStr s))
  (Hlist : ∀ l, Forall P l → P (PList l))
  (Hdict : ∀ kvs, Forall (λ kv, P kv.2) kvs → P (PDict kvs))
  (Hbase : ∀ kvs, Forall (λ kv, P kv.2) kvs → P (PBase kvs)).

Fixpoint pyv_ind (v : pyv) : P v :=
  let items := fix go l : Forall (λ kv : string * pyv, P kv.2) l :=
    match l with
    | [] => Forall_nil_2 _
    | x :: l' => Forall_cons_2 (λ kv, P kv.2) x l' (pyv_ind x.2) (go l')
    end in
  match v with
  | PNone => Hnone
  | PBool b => Hbool b
  | PInt z => Hint z
  | PFloat s => Hfloat s
  | PStr s => Hstr s
  | PList l =>
      Hlist l ((fix go l : Forall P l :=
        match l with
        | [] => Forall_nil_2 P
        | x :: l' => Forall_cons_2 P x l' (pyv_ind x) (go l')
        end) l)
  | PDict kvs => Hdict kvs (items kvs)
  | PBase kvs => Hbase kvs (items kvs)
  end.
End pyv_ind.

(** ** Values and JSON *)

Fixpoint of_json (j : json) : pyv :=
  match j with
  | JNull => PNone
  | JBool b => PBool b
  | JInt z => PInt z
  | JFloat s => PFloat s
  | JStr s => PStr s
  | JArr l => PList (map of_json l)
  | JObj kvs => PDict (map (λ kv, (kv.1, of_json kv.2)) kvs)
  end.

(** What [json.dumps] serializes: [None] (a [TypeError]) on an SDK object. *)
Fixpoint to_json (v : pyv) : option json :=
  match v with
  | PNone => Some JNull
  | PBool b => Some (JBool b)
  | PInt z => Some (JInt z)
  | PFloat s => Some (JFloat s)
  | PStr s => Some (JStr s)
  | PList l =>
      JArr <$> foldr (λ x acc, j ← to_json x; l' ← acc; Some (j :: l')) (Some []) l
  | PDict kvs =>
      JObj <$> foldr (λ kv acc, j ← to_json kv.2; l' ← acc; Some ((kv.1, j) :: l')) (Some []) kvs
  | PBase _ => None
  end.

Lemma to_of_json j : to_json (of_json j) = Some j.
Proof.
  induction j as [| | | | |l IH|kvs IH] using json_ind; simpl; try done.
  - enough (foldr (λ x acc, j ← to_json x; l' ← acc; Some (j :: l')) (Some [])
              (map of_json l) = Some l) as -> by done.
    induction IH as [|x l Hx _ IHl]; simpl; [done|]. by rewrite Hx, IHl.
  - enough (foldr (λ kv acc, j ← to_json kv.2; l' ← acc; Some ((kv.1, j) :: l')) (Some [])
              (map (λ kv, (kv.1, of_json kv.2)) kvs) = Some kvs) as -> by done.
    induction IH as [|[k x] l Hx _ IHl]; simpl in *; [done|]. by rewrite Hx, IHl.
Qed.

(** ** [bool(v)] and [str(v)] *)

Definition py_bool (v : pyv) : bool :=
  match v with
  | PNone => false
  | PBool b => b
  | PInt z => negb (z =? 0)%Z
  | PFloat lit => match lit_float lit with S754_zero _ => false | _ => true end
  | PStr s => truthy s
  | PList l => match l with [] => false | _ => true end
  | PDict kvs => match kvs with [] => false | _ => true end
  | PBase _ => true
  end.

Section str.
(** The default [repr] of an object names its address. *)
Context (base_repr : list (string * pyv) → string).

Definition single_quote : ascii := ascii_of_N 39.

Definition repr_char (q c : ascii) : bytes :=
  let n := N_of_ascii c in
  if decide (c = q ∨ c = backslash) then [backslash; c]
  else if (n =? 10)%N then to_bytes "\n"
  else if (n =? 13)%N then to_bytes "\r"
  else if (n =? 9)%N then to_bytes "\t"
  else if (n <? 32)%N || (n =? 127)%N then to_bytes "\x" ++ drop 2 (hex4 n)
  else [c].

Definition repr_str (s : string) : string :=
  let b := to_bytes s in
  let q := if decide (single_quote ∈ b ∧ quote ∉ b) then quote else single_quote in
  of_bytes (q :: concat (map (repr_char q) b) ++ [q]).

Fixpoint py_repr (v : pyv) : string :=
  match v with
  | PNone => "None"
  | PBool b => if b then "True" else "False"
  | PInt z => str_of_Z z
  | PFloat lit => lit
  | PStr s => repr_str s
  | PList l => "[" +:+ py_join ", " (map py_repr l) +:+ "]"
  | PDict kvs =>
      "{" +:+ py_join ", " (map (λ kv, repr_str kv.1 +:+ ": " +:+ py_repr kv.2) kvs) +:+ "}"
  | PBase attrs => base_repr attrs
  end.

Definition py_str (v : pyv) : string := match v with PStr s => s | _ => py_repr v end.
End str.

(** ** [_base_to_dict] *)

Fixpoint base_to_dict (max_depth : nat) (v : pyv) : pyv :=
  match max_depth with
  | O => v
  | S d =>
      match v with
      | PBase kvs | PDict kvs => PDict (map (λ kv, (kv.1, base_to_dict d kv.2)) kvs)
      | PList l => PList (map (base_to_dict d) l)
      | _ => v
      end
  end.

(** ** [_extract_kb_ids_from_dsl] *)

Section extract.
Context (base_repr : list (string * pyv) → string).

(** [result.extend(str(x) for x in val if x)] for a list [val] *)
Definition id_list (v : option pyv) : list string :=
  match v with
  | Some (PList l) => map (py_str base_repr) (filter (λ x, py_bool x = true) l)
  | _ => []
  end.

Fixpoint extract_kb_ids_from_dsl (max_depth : nat) (dsl : pyv) : list string :=
  match max_depth with
  | O => []
  | S d =>
      match base_to_dict 10 dsl with
      | PDict kvs =>
          let sub v := match v with PDict _ => extract_kb_ids_from_dsl d v | _ => [] end in
          dict_fromkeys
            (id_list (dict_get "kb_ids" kvs) ++ id_list (dict_get "dataset_ids" kvs) ++
             concat (map (λ kv, match kv.2 with
                                | PDict _ => extract_kb_ids_from_dsl d kv.2
                                | PList l => concat (map sub l)
                                | _ => []
                                end) kvs))
      | _ => []
      end
  end.
End extract.

(** ** [_patch_dsl_kb_ids] *)

(** [d.get(k, dflt)]: [None] (an [AttributeError]) when [d] is not a dict. *)
Definition get_or (k : string) (dflt : json) (d : json) : option json :=
  match d with JObj kvs => Some (default dflt (dict_get k kvs)) | _ => None end.

Definition json_is (s : string) (j : json) : bool :=
  match j with JStr s' => bool_decide (s' = s) | _ => false end.

(** [params["kb_ids"] = ...; params["dataset_ids"] = ...] *)
Definition set_kbs (ids : list string) (params : json) : option json :=
  match params with
  | JObj kvs =>
      Some (JObj (dict_set "dataset_ids" (json_strs ids) (dict_set "kb_ids" (json_strs ids) kvs)))
  | _ => None
  end.

(** Writes [v] back where the dict [d] holds the object under [k]: an update of
    the fresh default of [d.get(k, {})] is lost. *)
Definition write_back (k : string) (v d : json) : json :=
  match d with
  | JObj kvs => match dict_get k kvs with Some _ => JObj (dict_set k v kvs) | None => d end
  | _ => d
  end.

(** The tool loop body *)
Definition patch_tool (ids : list string) (tool : json) : option json :=
  match tool with
  | JObj _ =>
      tool_params ← get_or "params" (JObj []) tool;
      tool_name ← get_or "component_name" (JStr "") tool;
      if json_is "Retrieval" tool_name then
        p ← set_kbs ids tool_params; Some (write_back "params" p tool)
      else Some tool
  | _ => Some tool
  end.

Definition patch_component (ids : list string) (comp : json) : option json :=
  obj ← get_or "obj" (JObj []) comp;
  params ← get_or "params" (JObj []) obj;
  comp_name ← get_or "component_name" (JStr "") obj;
  params ← (if json_is "Retrieval" comp_name then set_kbs ids params else Some params);
  tools ← get_or "tools" (JArr []) params;
  params ← match tools with
           | JArr l => l' ← mapM (patch_tool ids) l; Some (write_back "tools" (JArr l') params)
           | _ => Some params
           end;
  Some (write_back "obj" (write_back "params" params obj) comp).

Definition patch_dsl_kb_ids (dsl : json) (new_kb_ids : list string) : option json :=
  components ← get_or "components" (JObj []) dsl;
  match components with
  | JObj kvs =>
      kvs' ← mapM (λ kv, c ← patch_component new_kb_ids kv.2; Some (kv.1, c)) kvs;
      Some (write_back "components" (JObj kvs') dsl)
  | _ => None
  end.

(** ** [_find_reference] *)

Fixpoint find_reference (max_depth : nat) (obj : json) : option json :=
  match max_depth with
  | O => None
  | S d =>
      match obj with
      | JObj kvs =>
          match dict_get "chunks" kvs with
          | Some (JObj []) | Some (JArr []) => None
          | Some _ => Some obj
          | None =>
              if bool_decide (is_Some (dict_get "content" kvs)) &&
                 (bool_decide (is_Some (dict_get "document_name" kvs)) ||
                  bool_decide (is_Some (dict_get "docnm_kwd" kvs)))
              then Some (JObj [("chunks", obj)])
              else
                foldr (λ kv acc,
                  match kv.2 with
                  | JObj _ => match find_reference d kv.2 with Some r => Some r | None => acc end
                  | JArr l => foldr (λ x acc, match find_reference d x with
                                              | Some r => Some r | None => acc end) acc l
                  | _ => acc
                  end) None kvs
          end
      | _ => None
      end
  end.
