(* ===== verification/Schema.v ===== *)
(** The SQLite schema of the portal: one record per table of
    [PortalStore._init_db] (nullable columns are options, the 0/1 flags are
    booleans) and the database as the lists of their rows in insertion order.
    The [id] columns of [user_departments] and [portal_messages] only order
    their rows and are the position in the list; the one of [kb_shares] is data,
    with the counter SQLite's AUTOINCREMENT keeps. *)
From S2P Require Import Prelude PyText.

Record UserRow := {
  u_user_id : string; u_login_id : string; u_password_hash : string;
  u_display_name : string; u_email : option string; u_is_active : bool;
  u_created_at : string; u_updated_at : string;
  u_ragflow_user_id : option string; u_ragflow_token : option string }.

Record DeptRow := {
  d_dept_id : string; d_dept_code : string; d_dept_name : string;
  d_parent_dept_id : option string; d_is_public : bool; d_is_active : bool;
  d_created_at : string; d_updated_at : string }.

Record UserDeptRow := {
  ud_user_id : string; ud_dept_id : string; ud_role : string;
  ud_is_default : bool; ud_is_active : bool;
  ud_created_at : string; ud_updated_at : string }.

Record PolicyRow := {
  p_policy_id : string; p_resource_type : string; p_resource_id : string;
  p_owner_dept_id : string; p_owner_user_id : option string; p_visibility : string;
  p_allow_roles_json : string; p_allow_dept_ids_json : string; p_deny_dept_ids_json : string;
  p_is_active : bool; p_created_by : option string;
  p_created_at : string; p_updated_at : string; p_category : string }.

Record AuditRow := {
  a_audit_id : string; a_request_id : string; a_event_time : string;
  a_user_id : option string; a_dept_id : option string; a_action : string;
  a_resource_type : option string; a_resource_id : option string;
  a_session_id : option string; a_status : string; a_error_code : option string;
  a_error_message : option string; a_payload_digest : option string }.

Record SessionRow := {
  s_session_id : string; s_user_id : string; s_dept_id : string; s_agent_id : string;
  s_kb_ids_json : string; s_is_private : bool; s_kb_overridden : bool;
  s_created_at : string; s_updated_at : string; s_is_active : bool }.

Record MessageRow := {
  m_session_id : string; m_role : string; m_content : string;
  m_references_json : string; m_created_at : string }.

Record RequestRow := {
  r_request_id : string; r_kb_id : string; r_owner_dept_id : string;
  r_requester_user_id : string; r_target_scope : string; r_target_dept_ids_json : string;
  r_target_user_id : option string; r_reason : string; r_status : string;
  r_reviewer_user_id : option string; r_review_comment : option string;
  r_created_at : string; r_updated_at : string;
  r_requested_permission : Z; r_parent_share_id : option Z }.

Record ShareRow := {
  k_id : Z; k_kb_id : string; k_target_user_id : string; k_permission_mask : Z;
  k_shared_by : string; k_approved_by : option string; k_parent_share_id : option Z;
  k_status : string; k_created_at : string; k_updated_at : string }.

Record Db := {
  t_users : list UserRow; t_departments : list DeptRow;
  t_user_departments : list UserDeptRow; t_policies : list PolicyRow;
  t_audit : list AuditRow; t_sessions : list SessionRow; t_messages : list MessageRow;
  t_requests : list RequestRow; t_shares : list ShareRow;
  (* sqlite_sequence of kb_shares: the largest id handed out *)
  t_share_seq : Z }.

Definition empty_db : Db := {|
  t_users := []; t_departments := []; t_user_departments := []; t_policies := [];
  t_audit := []; t_sessions := []; t_messages := []; t_requests := []; t_shares := [];
  t_share_seq := 0 |}.

(** Updates of one table *)
Definition on_users (f : list UserRow → list UserRow) (d : Db) : Db := {|
  t_users := f (t_users d); t_departments := t_departments d;
  t_user_departments := t_user_departments d; t_policies := t_policies d;
  t_audit := t_audit d; t_sessions := t_sessions d; t_messages := t_messages d;
  t_requests := t_requests d; t_shares := t_shares d; t_share_seq := t_share_seq d |}.
Definition on_departments (f : list DeptRow → list DeptRow) (d : Db) : Db := {|
  t_users := t_users d; t_departments := f (t_departments d);
  t_user_departments := t_user_departments d; t_policies := t_policies d;
  t_audit := t_audit d; t_sessions := t_sessions d; t_messages := t_messages d;
  t_requests := t_requests d; t_shares := t_shares d; t_share_seq := t_share_seq d |}.
Definition on_user_departments (f : list UserDeptRow → list UserDeptRow) (d : Db) : Db := {|
  t_users := t_users d; t_departments := t_departments d;
  t_user_departments := f (t_user_departments d); t_policies := t_policies d;
  t_audit := t_audit d; t_sessions := t_sessions d; t_messages := t_messages d;
  t_requests := t_requests d; t_shares := t_shares d; t_share_seq := t_share_seq d |}.
Definition on_policies (f : list PolicyRow → list PolicyRow) (d : Db) : Db := {|
  t_users := t_users d; t_departments := t_departments d;
  t_user_departments := t_user_departments d; t_policies := f (t_policies d);
  t_audit := t_audit d; t_sessions := t_sessions d; t_messages := t_messages d;
  t_requests := t_requests d; t_shares := t_shares d; t_share_seq := t_share_seq d |}.
Definition on_audit (f : list AuditRow → list AuditRow) (d : Db) : Db := {|
  t_users := t_users d; t_departments := t_departments d;
  t_user_departments := t_user_departments d; t_policies := t_policies d;
  t_audit := f (t_audit d); t_sessions := t_sessions d; t_messages := t_messages d;
  t_requests := t_requests d; t_shares := t_shares d; t_share_seq := t_share_seq d |}.
Definition on_sessions (f : list SessionRow → list SessionRow) (d : Db) : Db := {|
  t_users := t_users d; t_departments := t_departments d;
  t_user_departments := t_user_departments d; t_policies := t_policies d;
  t_audit := t_audit d; t_sessions := f (t_sessions d); t_messages := t_messages d;
  t_requests := t_requests d; t_shares := t_shares d; t_share_seq := t_share_seq d |}.
Definition on_messages (f : list MessageRow → list MessageRow) (d : Db) : Db := {|
  t_users := t_users d; t_departments := t_departments d;
  t_user_departments := t_user_departments d; t_policies := t_policies d;
  t_audit := t_audit d; t_sessions := t_sessions d; t_messages := f (t_messages d);
  t_requests := t_requests d; t_shares := t_shares d; t_share_seq := t_share_seq d |}.
Definition on_requests (f : list RequestRow → list RequestRow) (d : Db) : Db := {|
  t_users := t_users d; t_departments := t_departments d;
  t_user_departments := t_user_departments d; t_policies := t_policies d;
  t_audit := t_audit d; t_sessions := t_sessions d; t_messages := t_messages d;
  t_requests := f (t_requests d); t_shares := t_shares d; t_share_seq := t_share_seq d |}.
Definition on_shares (f : list ShareRow → list ShareRow) (d : Db) : Db := {|
  t_users := t_users d; t_departments := t_departments d;
  t_user_departments := t_user_departments d; t_policies := t_policies d;
  t_audit := t_audit d; t_sessions := t_sessions d; t_messages := t_messages d;
  t_requests := t_requests d; t_shares := f (t_shares d); t_share_seq := t_share_seq d |}.
(** The next AUTOINCREMENT value of [kb_shares] *)
Definition bump_share_seq (d : Db) : Db := {|
  t_users := t_users d; t_departments := t_departments d;
  t_user_departments := t_user_departments d; t_policies := t_policies d;
  t_audit := t_audit d; t_sessions := t_sessions d; t_messages := t_messages d;
  t_requests := t_requests d; t_shares := t_shares d; t_share_seq := t_share_seq d + 1 |}.
