(* ===== verification/Effects.v ===== *)
(** The effects of the portal: exceptions, the SQLite database with its
    transactions, the in-memory session registry, the clock and the identifier
    supply, and the RAGFlow server and the language model as an environment.

    A computation maps a [World] to a result and the next world. What the
    portal does not control is an oracle of the [Env] class, consulted at the
    current tick: every consultation advances the tick, so the environment may
    answer differently each time, and every outgoing call is logged. *)
From S2P Require Import Prelude PyText Json Dsl Schema.

(** ** Exceptions *)

Inductive exn :=
  | ValueError (msg : string)        (* also json.JSONDecodeError, its subclass *)
  | PermissionError (msg : string)
  | IntegrityError (msg : string)    (* sqlite3.IntegrityError *)
  | RuntimeError (msg : string)
  | OtherError (msg : string)        (* any other exception *)
  | OutOfFuel.                       (* no exception: a loop that has not ended *)

#[export] Instance exn_eq_dec : EqDecision exn.
Proof. solve_decision. Defined.

(** [str(e)] *)
Definition exn_str (e : exn) : string :=
  match e with
  | ValueError m | PermissionError m | IntegrityError m | RuntimeError m | OtherError m => m
  | OutOfFuel => ""
  end.

Inductive res (A : Type) := Ok (a : A) | Err (e : exn).
Arguments Ok {_} _.
Arguments Err {_} _.

(** ** What the services return *)

Record Agent := { ag_id : string; ag_title : string; ag_description : option string;
                  ag_dsl : option pyv }.
Record Dataset := { ds_id : string; ds_name : string; ds_description : option string }.
Record Doc := { doc_run : option string; doc_progress : option spec_float;
                doc_name : option string; doc_progress_msg : option string }.
Record Chunk := { ck_content : option string; ck_document_name : option string;
                  ck_similarity : option string; ck_id : string }.
(** A RAGFlow session object: the client's key, the agent and the session. *)
Record RagSession := { rs_key : string; rs_agent_id : string; rs_id : string }.
Record Answer := { an_content : option string; an_reference : option pyv }.
Record HttpResponse := { hr_status : Z; hr_text : string; hr_json : option json;
                         hr_auth : string }.

(** ** Outgoing calls *)

Inductive ExtCall :=
  | CallListAgents (key : string) (page page_size : Z) (id : option string)
  | CallAgentCreateSession (key agent_id name : string)
  | CallAgentListSessions (key agent_id : string) (page_size : Z) (id : string)
  | CallListDatasets (key : string) (id : option string)
  | CallCreateDataset (key name description : string)
  | CallUpload (key ds : string) (names : list string)
  | CallParse (key ds : string) (doc_ids : list string)
  | CallListDocuments (key ds doc_id : string)
  | CallDeleteDatasets (key : string) (ids : list string)
  | CallRetrieve (key : string) (ids : list string) (question : string) (page_size : Z)
  | CallSessionAsk (s : RagSession) (question : string) (inputs : option string)
  | CallChat (url : string) (header : string * string) (body : json)
  | CallHttp (what url : string) (auth : option string) (body : json).

(** ** The environment *)

Class Env := {
  env_now : nat → string;     (* datetime.now(timezone.utc).isoformat() *)
  env_time : nat → Z;         (* int(time.time()) *)
  env_uuid : nat → string;    (* uuid.uuid4().hex *)
  env_salt : nat → string;    (* os.urandom(16).hex() *)
  env_answer_agents : nat → string → Z → Z → option string → res (list Agent);
  env_answer_create_session : nat → string → string → string → res RagSession;
  env_answer_sessions : nat → string → string → Z → string → res (list RagSession);
  env_answer_datasets : nat → string → option string → res (list Dataset);
  env_answer_create_dataset : nat → string → string → string → res Dataset;
  env_answer_upload : nat → string → string → list string → res (list string);
  env_answer_parse : nat → string → string → list string → res unit;
  env_answer_documents : nat → string → string → string → res (list Doc);
  env_answer_delete : nat → string → list string → res unit;
  env_answer_retrieve : nat → string → list string → string → Z → res (list Chunk);
  env_answer_ask : nat → RagSession → string → option string → res (list Answer);
  env_answer_chat : nat → string → string * string → json → res HttpResponse;
  env_answer_http : nat → string → string → option string → json → res HttpResponse;
  env_rsa : nat → bytes → option bytes; (* PKCS1_v1_5; None: the package is missing *)
  env_system_prompt : option string;   (* agent_system_prompt.md *)
  env_azure_version : string           (* AZURE_API_VERSION *)
}.

(** ** Worlds *)

(** An entry of [PortalGateway._session_registry]. *)
Record RegEntry := {
  g_session : option RagSession; g_user_id : option string; g_dept_id : string;
  g_agent_id : string; g_kb_ids : list string; g_agent_owner_id : string;
  g_kb_overridden : bool; g_created_at : option Z; g_is_private : option bool }.

Record World := {
  w_db : Db; w_registry : gmap string RegEntry; w_tick : nat; w_calls : list ExtCall }.

Definition set_db (d : Db) (w : World) : World :=
  {| w_db := d; w_registry := w_registry w; w_tick := w_tick w; w_calls := w_calls w |}.
Definition set_registry (g : gmap string RegEntry) (w : World) : World :=
  {| w_db := w_db w; w_registry := g; w_tick := w_tick w; w_calls := w_calls w |}.
Definition next_tick (w : World) : World :=
  {| w_db := w_db w; w_registry := w_registry w; w_tick := S (w_tick w); w_calls := w_calls w |}.
Definition log_call (c : ExtCall) (w : World) : World :=
  {| w_db := w_db w; w_registry := w_registry w; w_tick := S (w_tick w);
     w_calls := w_calls w ++ [c] |}.

(** ** The monad *)

Definition M (A : Type) : Type := World → res A * World.

#[export] Instance M_ret : MRet M := λ A a w, (Ok a, w).
#[export] Instance M_bind : MBind M := λ A B f m w,
  match m w with
  | (Ok a, w') => f a w'
  | (Err e, w') => (Err e, w')
  end.
#[export] Instance M_fmap : FMap M := λ A B f m w,
  match m w with
  | (Ok a, w') => (Ok (f a), w')
  | (Err e, w') => (Err e, w')
  end.

Definition raise {A} (e : exn) : M A := λ w, (Err e, w).

(** [try: m except Exception as e: h(e)] *)
Definition try_except {A} (m : M A) (h : exn → M A) : M A := λ w,
  match m w with
  | (Ok a, w') => (Ok a, w')
  | (Err OutOfFuel, w') => (Err OutOfFuel, w')
  | (Err e, w') => h e w'
  end.

(** The outcome of [m] as a value, for a loop whose variables survive the
    exception that ends it *)
Definition attempt {A} (m : M A) : M (A + exn) :=
  try_except (inl <$> m) (λ e, mret (inr e)).

(** [for x in l: f(x)] *)
Fixpoint for_each {A} (f : A → M unit) (l : list A) : M unit :=
  match l with
  | [] => mret ()
  | x :: l' => f x ;; for_each f l'
  end.

(** The loop with an accumulator. *)
Fixpoint for_fold {A B} (f : B → A → M B) (acc : B) (l : list A) : M B :=
  match l with
  | [] => mret acc
  | x :: l' => acc' ← f acc x; for_fold f acc' l'
  end.

(** The loop with an accumulator that keeps its value when an iteration raises *)
Fixpoint for_until {A B} (f : B → A → M (B * option exn)) (acc : B) (l : list A)
    : M (B * option exn) :=
  match l with
  | [] => mret (acc, None)
  | x :: l' =>
      r ← f acc x;
      match r.2 with
      | Some e => mret (r.1, Some e)
      | None => for_until f r.1 l'
      end
  end.

Definition when (b : bool) (m : M unit) : M unit := if b then m else mret ().

(** ** SQLite *)

(** A [SELECT]. *)
Definition sql_query {A} (q : Db → A) : M A := λ w, (Ok (q (w_db w)), w).
(** An [UPDATE] or a [DELETE]. *)
Definition sql_exec (f : Db → Db) : M unit := λ w, (Ok (), set_db (f (w_db w)) w).
(** A statement that a constraint may refuse. *)
Definition sql_try (f : Db → res Db) : M unit := λ w,
  match f (w_db w) with
  | Ok d => (Ok (), set_db d w)
  | Err e => (Err e, w)
  end.
(** [with self._connect() as conn:] commits, or rolls back on an exception. *)
Definition with_conn {A} (m : M A) : M A := λ w,
  match m w with
  | (Ok a, w') => (Ok a, w')
  | (Err e, w') => (Err e, set_db (w_db w) w')
  end.

(** ** The registry *)

Definition registry_get (sid : string) : M (option RegEntry) := λ w,
  (Ok (w_registry w !! sid), w).
Definition registry_set (sid : string) (e : RegEntry) : M unit := λ w,
  (Ok (), set_registry (<[sid := e]> (w_registry w)) w).
Definition registry_pop (sid : string) : M unit := λ w,
  (Ok (), set_registry (delete sid (w_registry w)) w).

Section env.
Context `{Env}.

(** [PortalStore._utc_now] *)
Definition utc_now : M string := λ w, (Ok (env_now (w_tick w)), next_tick w).
Definition time_now : M Z := λ w, (Ok (env_time (w_tick w)), next_tick w).
Definition new_uuid : M string := λ w, (Ok (env_uuid (w_tick w)), next_tick w).
Definition urandom_hex : M string := λ w, (Ok (env_salt (w_tick w)), next_tick w).
(** [PortalStore._new_id] *)
Definition new_id (prefix : string) : M string := u ← new_uuid; mret (prefix +:+ u).

Definition ext {A} (c : ExtCall) (answer : nat → res A) : M A := λ w,
  (answer (w_tick w), log_call c w).

Definition rag_list_agents key page page_size id : M (list Agent) :=
  ext (CallListAgents key page page_size id)
      (λ n, env_answer_agents n key page page_size id).
Definition rag_agent_create_session key agent_id name : M RagSession :=
  ext (CallAgentCreateSession key agent_id name)
      (λ n, env_answer_create_session n key agent_id name).
Definition rag_agent_list_sessions key agent_id page_size id : M (list RagSession) :=
  ext (CallAgentListSessions key agent_id page_size id)
      (λ n, env_answer_sessions n key agent_id page_size id).
Definition rag_list_datasets key id : M (list Dataset) :=
  ext (CallListDatasets key id) (λ n, env_answer_datasets n key id).
Definition rag_create_dataset key name desc : M Dataset :=
  ext (CallCreateDataset key name desc) (λ n, env_answer_create_dataset n key name desc).
Definition rag_upload key ds names : M (list string) :=
  ext (CallUpload key ds names) (λ n, env_answer_upload n key ds names).
Definition rag_parse key ds ids : M unit :=
  ext (CallParse key ds ids) (λ n, env_answer_parse n key ds ids).
Definition rag_list_documents key ds doc_id : M (list Doc) :=
  ext (CallListDocuments key ds doc_id) (λ n, env_answer_documents n key ds doc_id).
Definition rag_delete_datasets key ids : M unit :=
  ext (CallDeleteDatasets key ids) (λ n, env_answer_delete n key ids).
Definition rag_retrieve key ids question page_size : M (list Chunk) :=
  ext (CallRetrieve key ids question page_size)
      (λ n, env_answer_retrieve n key ids question page_size).
Definition rag_session_ask s question inputs : M (list Answer) :=
  ext (CallSessionAsk s question inputs) (λ n, env_answer_ask n s question inputs).
Definition chat_post url header body : M HttpResponse :=
  ext (CallChat url header body) (λ n, env_answer_chat n url header body).
(** A request to the RAGFlow server: [what] is its method. *)
Definition http_send what url auth body : M HttpResponse :=
  ext (CallHttp what url auth body) (λ n, env_answer_http n what url auth body).
Definition rsa_encrypt (b : bytes) : M bytes := λ w,
  (match env_rsa (w_tick w) b with
   | Some c => Ok c
   | None => Err (OtherError "Missing dependency for registration password encryption. Install 'pycryptodome' (or 'pycryptodomex').")
   end, next_tick w).
End env.
