(* ===== verification/Steps.v ===== *)
(** Computations as steps: a rule for every construct of the monad, which reduces
    "every run of [m] relates the world before to the world after by [R]" to its
    statements, for any preorder [R] that ignores the tick and the log of calls. *)
From S2P Require Import Prelude Json Schema Effects.

(** Every run of [m] moves the world along [R]. *)
Definition steps {A} (R : relation World) (m : M A) : Prop := ∀ w, R w (m w).2.

(** A preorder on the parts of the world that queries and calls leave alone *)
Class StepOrder (R : relation World) : Prop := {
  step_preorder :: PreOrder R;
  step_tick w : R w (next_tick w);
  step_call c w : R w (log_call c w) }.

(** The preorder a relation on databases induces *)
Definition on_db (R : relation Db) : relation World := λ w w', R (w_db w) (w_db w').

#[export] Instance on_db_order R : PreOrder R → StepOrder (on_db R).
Proof.
  intros HR. split; [|intros ?; apply HR|intros ??; apply HR].
  split; [intros ?; apply HR|]. intros ???. unfold on_db. apply HR.
Qed.

Section rules.
Context {R : relation World} `{!StepOrder R}.

Lemma steps_ret {A} (a : A) : steps R (mret a).
Proof. intros w. simpl. reflexivity. Qed.

Lemma steps_raise {A} e : steps R (@raise A e).
Proof. intros w. simpl. reflexivity. Qed.

Lemma steps_bind {A B} (m : M A) (f : A → M B) :
  steps R m → (∀ a, steps R (f a)) → steps R (m ≫= f).
Proof.
  intros Hm Hf w. unfold mbind, M_bind. specialize (Hm w).
  destruct (m w) as [[a|e] w']; simpl in *; [|done]. etrans; [done|apply Hf].
Qed.

Lemma steps_fmap {A B} (f : A → B) (m : M A) : steps R m → steps R (f <$> m).
Proof.
  intros Hm w. unfold fmap, M_fmap. specialize (Hm w). by destruct (m w) as [[a|e] w'].
Qed.

Lemma steps_try {A} (m : M A) h :
  steps R m → (∀ e, steps R (h e)) → steps R (try_except m h).
Proof.
  intros Hm Hh w. unfold try_except. specialize (Hm w).
  destruct (m w) as [[a|[]] w']; simpl in *; try done; (etrans; [done|apply Hh]).
Qed.

Lemma steps_attempt {A} (m : M A) : steps R m → steps R (attempt m).
Proof. intros Hm. apply steps_try; [by apply steps_fmap|intros e; apply steps_ret]. Qed.

Lemma steps_for_each {A} (f : A → M unit) l : (∀ x, steps R (f x)) → steps R (for_each f l).
Proof.
  intros Hf. induction l as [|x l IH]; simpl; [apply steps_ret|by apply steps_bind].
Qed.

Lemma steps_for_fold {A B} (f : B → A → M B) acc l :
  (∀ b x, steps R (f b x)) → steps R (for_fold f acc l).
Proof.
  intros Hf. revert acc. induction l as [|x l IH]; intros acc; simpl; [apply steps_ret|].
  by apply steps_bind.
Qed.

Lemma steps_for_until {A B} (f : B → A → M (B * option exn)) acc l :
  (∀ b x, steps R (f b x)) → steps R (for_until f acc l).
Proof.
  intros Hf. revert acc. induction l as [|x l IH]; intros acc; simpl; [apply steps_ret|].
  apply steps_bind; [done|]. intros r. case_match; [apply steps_ret|apply IH].
Qed.

Lemma steps_when b m : steps R m → steps R (when b m).
Proof. intros Hm. destruct b; [done|apply steps_ret]. Qed.

Lemma steps_query {A} (q : Db → A) : steps R (sql_query q).
Proof. intros w. simpl. reflexivity. Qed.

Lemma steps_lift {A} (r : res A) : steps R (λ w, (r, w)).
Proof. intros w. simpl. reflexivity. Qed.

Lemma steps_registry_get sid : steps R (registry_get sid).
Proof. intros w. simpl. reflexivity. Qed.

Lemma steps_tick {A} (f : nat → res A) : steps R (λ w, (f (w_tick w), next_tick w)).
Proof. intros w. apply step_tick. Qed.

Lemma steps_ext {A} c (f : nat → res A) : steps R (ext c f).
Proof. intros w. apply step_call. Qed.
End rules.

(** Rules of the database, for a preorder on databases *)
Section db_rules.
Context {R : relation Db} `{!PreOrder R}.

Lemma steps_exec f : (∀ d, R d (f d)) → steps (on_db R) (sql_exec f).
Proof. intros Hf w. apply Hf. Qed.

Lemma steps_sql_try f :
  (∀ d d', f d = Ok d' → R d d') → steps (on_db R) (sql_try f).
Proof.
  intros Hf w. unfold sql_try, on_db. destruct (f (w_db w)) as [d|e] eqn:E; simpl; [eauto|].
  reflexivity.
Qed.

Lemma steps_conn {A} (m : M A) : steps (on_db R) m → steps (on_db R) (with_conn m).
Proof.
  intros Hm w. unfold with_conn, on_db. specialize (Hm w).
  destruct (m w) as [[a|e] w']; simpl; [done|reflexivity].
Qed.

Lemma steps_registry_set sid e : steps (on_db R) (registry_set sid e).
Proof. intros w. unfold on_db. simpl. reflexivity. Qed.

Lemma steps_registry_pop sid : steps (on_db R) (registry_pop sid).
Proof. intros w. unfold on_db. simpl. reflexivity. Qed.
End db_rules.

Create HintDb steps discriminated.
#[export] Hint Constants Opaque : steps.

(** Walks through a computation; what is left are its statements. *)
Ltac step1 :=
  lazymatch goal with
  | |- steps _ (mret _) => apply steps_ret
  | |- steps _ (raise _) => apply steps_raise
  | |- steps _ (mbind _ _) => apply steps_bind; [|intros ?]
  | |- steps _ (fmap _ _) => apply steps_fmap
  | |- steps _ (try_except _ _) => apply steps_try; [|intros ?]
  | |- steps _ (attempt _) => apply steps_attempt
  | |- steps _ (for_each _ _) => apply steps_for_each; intros ?
  | |- steps _ (for_fold _ _ _) => apply steps_for_fold; intros ??
  | |- steps _ (for_until _ _ _) => apply steps_for_until; intros ??
  | |- steps _ (when _ _) => apply steps_when
  | |- steps _ (with_conn _) => apply steps_conn
  | |- steps _ (sql_query _) => apply steps_query
  | |- steps _ (ext _ _) => apply steps_ext
  | |- steps _ (registry_get _) => apply steps_registry_get
  | |- steps _ (registry_set _ _) => apply steps_registry_set
  | |- steps _ (registry_pop _) => apply steps_registry_pop
  | |- steps _ (λ w, (_ (w_tick w), next_tick w)) => apply steps_tick
  | |- steps _ (match ?x with _ => _ end) => destruct x
  | |- steps _ (let _ := _ in _) => cbv zeta
  end.
Ltac steps_tac := repeat first [progress cbv zeta | step1 | solve [eauto with steps nocore]].
