(* ===== verification/Comp.v ===== *)
(** Computations of the components beside the portal: exceptions and a state, over
    a machine that counts the consultations of its environment and logs the calls
    to other services. The rules for [steps] reduce a relation between the states
    before and after every run to the statements of the computation; the rules for
    runs read a run backwards. *)
From S2P Require Import Prelude Json Schema Effects.

(** ** Results *)

#[export] Instance res_ret : MRet res := λ A a, Ok a.
#[export] Instance res_bind : MBind res := λ A B f m, match m with Ok a => f a | Err e => Err e end.
#[export] Instance res_fmap : FMap res := λ A B f m, match m with Ok a => Ok (f a) | Err e => Err e end.

(** [[f(x) for x in l]] when [f] may raise *)
Fixpoint res_mapM {A B} (f : A → res B) (l : list A) : res (list B) :=
  match l with
  | [] => Ok []
  | x :: l' => match f x with
               | Ok y => match res_mapM f l' with Ok ys => Ok (y :: ys) | Err e => Err e end
               | Err e => Err e
               end
  end.

(** ** Machines and computations *)

(** The state of a component, the tick of its environment, its outgoing calls *)
Record Mach (S C : Type) := { m_state : S; m_tick : nat; m_calls : list C }.
Arguments m_state {_ _} _.
Arguments m_tick {_ _} _.
Arguments m_calls {_ _} _.

Definition set_state {S C} (s : S) (w : Mach S C) : Mach S C :=
  {| m_state := s; m_tick := m_tick w; m_calls := m_calls w |}.
Definition tick {S C} (w : Mach S C) : Mach S C :=
  {| m_state := m_state w; m_tick := 1 + m_tick w; m_calls := m_calls w |}.
Definition record_call {S C} (c : C) (w : Mach S C) : Mach S C :=
  {| m_state := m_state w; m_tick := 1 + m_tick w; m_calls := m_calls w ++ [c] |}.

Definition Act (S C A : Type) : Type := Mach S C → res A * Mach S C.

#[export] Instance Act_ret S C : MRet (Act S C) := λ A a w, (Ok a, w).
#[export] Instance Act_bind S C : MBind (Act S C) := λ A B f m w,
  match m w with
  | (Ok a, w') => f a w'
  | (Err e, w') => (Err e, w')
  end.
#[export] Instance Act_fmap S C : FMap (Act S C) := λ A B f m w,
  match m w with
  | (Ok a, w') => (Ok (f a), w')
  | (Err e, w') => (Err e, w')
  end.

Section ops.
Context {S C : Type}.
Notation Act := (Act S C).

Definition fails {A} (e : exn) : Act A := λ w, (Err e, w).

(** A value or an exception computed without effects *)
Definition ofres {A} (r : res A) : Act A := λ w, (r, w).

(** [try: m except Exception as e: h(e)]: every exception is caught. The loops under
    a handler here have fuel that is proved to be enough. *)
Definition catch {A} (m : Act A) (h : exn → Act A) : Act A := λ w,
  match m w with
  | (Ok a, w') => (Ok a, w')
  | (Err e, w') => h e w'
  end.

Definition gets {A} (f : S → A) : Act A := λ w, (Ok (f (m_state w)), w).
Definition modify (f : S → S) : Act unit := λ w, (Ok (), set_state (f (m_state w)) w).
(** A statement that a constraint may refuse *)
Definition modify_try (f : S → res S) : Act unit := λ w,
  match f (m_state w) with
  | Ok s => (Ok (), set_state s w)
  | Err e => (Err e, w)
  end.

(** [with conn:] commits, or puts the database of the state back: [restore old new]
    is [new] with the database of [old]. *)
Definition transaction (restore : S → S → S) {A} (m : Act A) : Act A := λ w,
  match m w with
  | (Ok a, w') => (Ok a, w')
  | (Err e, w') => (Err e, set_state (restore (m_state w) (m_state w')) w')
  end.

(** A value of the environment: the clock, an identifier *)
Definition observe {A} (f : nat → A) : Act A := λ w, (Ok (f (m_tick w)), tick w).

(** A call of another service *)
Definition call {A} (c : C) (answer : nat → res A) : Act A := λ w,
  (answer (m_tick w), record_call c w).

Fixpoint each {A} (f : A → Act unit) (l : list A) : Act unit :=
  match l with
  | [] => mret ()
  | x :: l' => f x ;; each f l'
  end.

Fixpoint folding {A B} (f : B → A → Act B) (acc : B) (l : list A) : Act B :=
  match l with
  | [] => mret acc
  | x :: l' => acc' ← f acc x; folding f acc' l'
  end.

(** The loop that stops at an exception and keeps the accumulator it had reached *)
Fixpoint folding_until {A B} (f : B → A → Act (B * option exn)) (acc : B) (l : list A)
    : Act (B * option exn) :=
  match l with
  | [] => mret (acc, None)
  | x :: l' =>
      r ← f acc x;
      match r.2 with
      | Some e => mret (r.1, Some e)
      | None => folding_until f r.1 l'
      end
  end.
End ops.

(** A computation on a part of the state: the store an object holds *)
Definition zoom {S T C A} (get : T → S) (put : S → T → T) (m : Act S C A) : Act T C A := λ w,
  let '(r, w') := m {| m_state := get (m_state w); m_tick := m_tick w; m_calls := m_calls w |} in
  (r, {| m_state := put (m_state w') (m_state w); m_tick := m_tick w'; m_calls := m_calls w' |}).

(** ** What every run does *)

Definition runs {S C A} (R : relation (Mach S C)) (m : Act S C A) : Prop := ∀ w, R w (m w).2.

Class MachOrder {S C} (R : relation (Mach S C)) : Prop := {
  mach_preorder :: PreOrder R;
  mach_tick w : R w (tick w);
  mach_call c w : R w (record_call c w) }.

(** The preorder a relation on states induces *)
Definition on_state {S} (C : Type) (R : relation S) : relation (Mach S C) :=
  λ w w', R (m_state w) (m_state w').

#[export] Instance on_state_order {S C} (R : relation S) : PreOrder R → MachOrder (on_state C R).
Proof.
  intros HR. split; [|intros ?; apply HR|intros ??; apply HR].
  split; [intros ?; apply HR|]. intros ???. unfold on_state. apply HR.
Qed.

Section rules.
Context {S C : Type} {R : relation (Mach S C)} `{!MachOrder R}.

Lemma runs_ret {A} (a : A) : runs R (mret a : Act S C A).
Proof. intros w. simpl. reflexivity. Qed.

Lemma runs_fails {A} e : runs R (fails e : Act S C A).
Proof. intros w. simpl. reflexivity. Qed.

Lemma runs_ofres {A} (r : res A) : runs R (ofres r : Act S C A).
Proof. intros w. simpl. reflexivity. Qed.

Lemma runs_bind {A B} (m : Act S C A) (f : A → Act S C B) :
  runs R m → (∀ a, runs R (f a)) → runs R (m ≫= f).
Proof.
  intros Hm Hf w. unfold mbind, Act_bind. specialize (Hm w).
  destruct (m w) as [[a|e] w']; simpl in *; [|done]. etrans; [done|apply Hf].
Qed.

Lemma runs_fmap {A B} (f : A → B) (m : Act S C A) : runs R m → runs R (f <$> m).
Proof.
  intros Hm w. unfold fmap, Act_fmap. specialize (Hm w). by destruct (m w) as [[a|e] w'].
Qed.

Lemma runs_catch {A} (m : Act S C A) h :
  runs R m → (∀ e, runs R (h e)) → runs R (catch m h).
Proof.
  intros Hm Hh w. unfold catch. specialize (Hm w).
  destruct (m w) as [[a|e] w']; simpl in *; [done|]. etrans; [done|apply Hh].
Qed.

Lemma runs_gets {A} (f : S → A) : runs R (gets f).
Proof. intros w. simpl. reflexivity. Qed.

Lemma runs_observe {A} (f : nat → A) : runs R (observe f).
Proof. intros w. apply mach_tick. Qed.

Lemma runs_call {A} c (f : nat → res A) : runs R (call c f).
Proof. intros w. apply mach_call. Qed.

Lemma runs_each {A} (f : A → Act S C unit) l : (∀ x, runs R (f x)) → runs R (each f l).
Proof.
  intros Hf. induction l as [|x l IH]; simpl; [apply runs_ret|by apply runs_bind].
Qed.

Lemma runs_folding {A B} (f : B → A → Act S C B) acc l :
  (∀ b x, runs R (f b x)) → runs R (folding f acc l).
Proof.
  intros Hf. revert acc. induction l as [|x l IH]; intros acc; simpl; [apply runs_ret|].
  by apply runs_bind.
Qed.

Lemma runs_folding_until {A B} (f : B → A → Act S C (B * option exn)) acc l :
  (∀ b x, runs R (f b x)) → runs R (folding_until f acc l).
Proof.
  intros Hf. revert acc. induction l as [|x l IH]; intros acc; simpl; [apply runs_ret|].
  apply runs_bind; [done|]. intros r. case_match; [apply runs_ret|apply IH].
Qed.
End rules.

Section state_rules.
Context {S C : Type} {R : relation S} `{!PreOrder R}.

Lemma runs_modify f : (∀ s, R s (f s)) → runs (on_state C R) (modify f).
Proof. intros Hf w. apply Hf. Qed.

Lemma runs_modify_try f :
  (∀ s s', f s = Ok s' → R s s') → runs (on_state C R) (modify_try f).
Proof.
  intros Hf w. unfold modify_try, on_state. destruct (f (m_state w)) as [s|e] eqn:E; simpl; [eauto|].
  reflexivity.
Qed.

Lemma runs_transaction restore {A} (m : Act S C A) :
  (∀ s s', R s s' → R s (restore s s')) →
  runs (on_state C R) m → runs (on_state C R) (transaction restore m).
Proof.
  intros Hr Hm w. unfold transaction, on_state. specialize (Hm w).
  destruct (m w) as [[a|e] w']; simpl; [done|by apply Hr].
Qed.
End state_rules.

Create HintDb runs discriminated.
#[export] Hint Constants Opaque : runs.

(** Walks through a computation; what is left are its statements. *)
Ltac runs1 :=
  lazymatch goal with
  | |- runs _ (mret _) => apply runs_ret
  | |- runs _ (fails _) => apply runs_fails
  | |- runs _ (ofres _) => apply runs_ofres
  | |- runs _ (mbind _ _) => apply runs_bind; [|intros ?]
  | |- runs _ (fmap _ _) => apply runs_fmap
  | |- runs _ (catch _ _) => apply runs_catch; [|intros ?]
  | |- runs _ (gets _) => apply runs_gets
  | |- runs _ (observe _) => apply runs_observe
  | |- runs _ (call _ _) => apply runs_call
  | |- runs _ (each _ _) => apply runs_each; intros ?
  | |- runs _ (folding _ _ _) => apply runs_folding; intros ??
  | |- runs _ (folding_until _ _ _) => apply runs_folding_until; intros ??
  | |- runs _ (match ?x with _ => _ end) => destruct x
  | |- runs _ (let _ := _ in _) => cbv zeta
  end.
Ltac runs_tac := repeat first [progress cbv zeta | runs1 | solve [eauto with runs nocore]].

(** ** Reading a run *)

Section run.
Context {S C A B : Type}.
Implicit Types (w : Mach S C) (m : Act S C A) (f : A → Act S C B).

Lemma act_ok f m w a w' : m w = (Ok a, w') → (m ≫= f) w = f a w'.
Proof. intros Hm. unfold mbind, Act_bind. by rewrite Hm. Qed.

Lemma act_err f m w e w' : m w = (Err e, w') → (m ≫= f) w = (Err e, w').
Proof. intros Hm. unfold mbind, Act_bind. by rewrite Hm. Qed.

Lemma act_ok_inv f m w b w' :
  (m ≫= f) w = (Ok b, w') → ∃ a w1, m w = (Ok a, w1) ∧ f a w1 = (Ok b, w').
Proof. unfold mbind, Act_bind. destruct (m w) as [[a|e] w1]; [eauto|done]. Qed.
End run.

(** Runs the first parts of a bind whose outcome is known by computation. *)
Ltac act_goal := repeat (erewrite act_ok by reflexivity; cbv beta).
Ltac act_in H := repeat (erewrite act_ok in H by reflexivity; cbv beta in H).
(** From a run of [m ≫= f] that ended well to its two parts *)
Ltac act_inv H a w1 Hm := apply act_ok_inv in H as (a & w1 & Hm & H); cbv beta in H.

(** A loop that ends well keeps what each of its iterations keeps. *)
Lemma folding_inv {S C A B} (f : B → A → Act S C B) (I : B → Mach S C → Prop) acc l w acc' w' :
  I acc w →
  (∀ b x w b' w', x ∈ l → I b w → f b x w = (Ok b', w') → I b' w') →
  folding f acc l w = (Ok acc', w') → I acc' w'.
Proof.
  revert acc w. induction l as [|x l IH]; intros acc w HI Hf; cbn [folding].
  - by intros [= <- <-].
  - intros Hrun. act_inv Hrun b w1 Hx. eapply IH; [| |exact Hrun].
    + eapply (Hf acc x); [by left|done|done].
    + intros ????? Hin. apply Hf. by right.
Qed.

(** ** Invariants and results *)

(** A run of [m] keeps [I], also when it raises, and a value it returns is in [Q]. *)
Definition sat {S C A} (I : S → Prop) (m : Act S C A) (Q : A → Prop) : Prop :=
  ∀ w, I (m_state w) →
    I (m_state (m w).2) ∧ ∀ a, (m w).1 = Ok a → Q a.

Section sat.
Context {S C : Type} {I : S → Prop}.

Lemma sat_ret {A} (a : A) (Q : A → Prop) : Q a → sat I (mret a : Act S C A) Q.
Proof. intros HQ w Hw. split; [done|]. by intros ? [= <-]. Qed.

Lemma sat_fails {A} e (Q : A → Prop) : sat I (fails e : Act S C A) Q.
Proof. intros w Hw. by split. Qed.

Lemma sat_ofres {A} (r : res A) (Q : A → Prop) :
  (∀ a, r = Ok a → Q a) → sat I (ofres r : Act S C A) Q.
Proof. intros HQ w Hw. by split. Qed.

Lemma sat_bind {A B} (m : Act S C A) (f : A → Act S C B) P (Q : B → Prop) :
  sat I m P → (∀ a, P a → sat I (f a) Q) → sat I (m ≫= f) Q.
Proof.
  intros Hm Hf w Hw. unfold mbind, Act_bind. destruct (Hm w Hw) as [H1 H2].
  destruct (m w) as [[a|e] w']; simpl in *; [|by split]. by apply Hf; [apply H2|].
Qed.

Lemma sat_fmap {A B} (f : A → B) (m : Act S C A) (Q : B → Prop) :
  sat I m (Q ∘ f) → sat I (f <$> m) Q.
Proof.
  intros Hm w Hw. unfold fmap, Act_fmap. destruct (Hm w Hw) as [H1 H2].
  destruct (m w) as [[a|e] w']; simpl in *; (split; [done|]); [|done].
  intros b [= <-]. by apply H2.
Qed.

Lemma sat_catch {A} (m : Act S C A) h (Q : A → Prop) :
  sat I m Q → (∀ e, sat I (h e) Q) → sat I (catch m h) Q.
Proof.
  intros Hm Hh w Hw. unfold catch. destruct (Hm w Hw) as [H1 H2].
  destruct (m w) as [[a|e] w']; simpl in *; [by split|]. by apply Hh.
Qed.

Lemma sat_gets {A} (f : S → A) (Q : A → Prop) :
  (∀ s, I s → Q (f s)) → sat I (gets f : Act S C A) Q.
Proof. intros HQ w Hw. split; [done|]. intros ? [= <-]. by apply HQ. Qed.

Lemma sat_modify f (Q : unit → Prop) :
  (∀ s, I s → I (f s)) → Q () → sat I (modify f : Act S C unit) Q.
Proof. intros Hf HQ w Hw. split; [by apply Hf|]. by intros [] _. Qed.

Lemma sat_modify_try f (Q : unit → Prop) :
  (∀ s s', I s → f s = Ok s' → I s') → Q () → sat I (modify_try f : Act S C unit) Q.
Proof.
  intros Hf HQ w Hw. unfold modify_try. destruct (f (m_state w)) as [s|e] eqn:E; simpl.
  - split; [by eapply Hf|]. by intros [] _.
  - by split.
Qed.

Lemma sat_transaction restore {A} (m : Act S C A) Q :
  (∀ s s', I s → I s' → I (restore s s')) → sat I m Q → sat I (transaction restore m) Q.
Proof.
  intros Hr Hm w Hw. unfold transaction. destruct (Hm w Hw) as [H1 H2].
  destruct (m w) as [[a|e] w']; simpl in *; [by split|]. split; [by apply Hr|done].
Qed.

Lemma sat_observe {A} (f : nat → A) (Q : A → Prop) :
  (∀ n, Q (f n)) → sat I (observe f : Act S C A) Q.
Proof. intros HQ w Hw. split; [done|]. by intros ? [= <-]. Qed.

Lemma sat_call {A} c (f : nat → res A) (Q : A → Prop) :
  (∀ n a, f n = Ok a → Q a) → sat I (call c f : Act S C A) Q.
Proof. intros HQ w Hw. split; [done|]. intros a. apply HQ. Qed.

Lemma sat_each {A} (f : A → Act S C unit) l :
  (∀ x, sat I (f x) (λ _, True)) → sat I (each f l) (λ _, True).
Proof.
  intros Hf. induction l as [|x l IH]; simpl; [by apply sat_ret|].
  by apply (sat_bind _ _ (λ _, True)).
Qed.

Lemma sat_folding {A B} (f : B → A → Act S C B) (J : B → Prop) acc l :
  J acc → (∀ b x, x ∈ l → J b → sat I (f b x) J) → sat I (folding f acc l) J.
Proof.
  intros HJ Hf. revert acc HJ. induction l as [|x l IH]; intros acc HJ; simpl; [by apply sat_ret|].
  apply (sat_bind _ _ J); [apply Hf; [by left|done]|]. apply IH. intros b y Hy. apply Hf. by right.
Qed.

Lemma sat_folding_until {A B} (f : B → A → Act S C (B * option exn)) (J : B → Prop) acc l :
  J acc → (∀ b x, J b → sat I (f b x) (λ r, J r.1)) →
  sat I (folding_until f acc l) (λ r, J r.1).
Proof.
  intros HJ Hf. revert acc HJ. induction l as [|x l IH]; intros acc HJ; simpl; [by apply sat_ret|].
  apply (sat_bind _ _ (λ r, J r.1)); [by apply Hf|]. intros r Hr.
  case_match; [by apply sat_ret|by apply IH].
Qed.

Lemma sat_conseq {A} (m : Act S C A) (P Q : A → Prop) :
  (∀ a, P a → Q a) → sat I m P → sat I m Q.
Proof. intros HPQ Hm w Hw. destruct (Hm w Hw). split; [done|]. auto. Qed.
End sat.

(** An invariant of the whole state from one of the part, when the rest keeps it *)
Lemma sat_zoom {S T C A} (I : S → Prop) (J : T → Prop) get put (m : Act S C A) (Q : A → Prop) :
  (∀ t, J t → I (get t)) → (∀ s t, J t → I s → J (put s t)) →
  sat I m Q → sat J (zoom get put m) Q.
Proof.
  intros Hget Hput Hm w Hw. unfold zoom.
  destruct (Hm {| m_state := get (m_state w); m_tick := m_tick w; m_calls := m_calls w |} (Hget _ Hw))
    as [H1 H2]. destruct (m _) as [r w']; simpl in *. auto.
Qed.

Create HintDb sat discriminated.
#[export] Hint Constants Opaque : sat.

(** Walks through a computation whose results do not matter. *)
Ltac sat1 :=
  lazymatch goal with
  | |- sat _ (mret _) _ => apply sat_ret
  | |- sat _ (fails _) _ => apply sat_fails
  | |- sat _ (ofres _) _ => apply sat_ofres; intros ??
  | |- sat _ (mbind _ _) _ => apply sat_bind with (λ _, True); [|intros ? _]
  | |- sat _ (fmap _ _) _ => apply sat_fmap
  | |- sat _ (catch _ _) _ => apply sat_catch; [|intros ?]
  | |- sat _ (gets _) _ => apply sat_gets; intros ??
  | |- sat _ (observe _) _ => apply sat_observe; intros ?
  | |- sat _ (call _ _) _ => apply sat_call; intros ???
  | |- sat _ (each _ _) _ => apply sat_each; intros ?
  | |- sat _ (folding _ _ _) _ => apply sat_folding; [|intros ????]
  | |- sat _ (match ?x with _ => _ end) _ => destruct x eqn:?
  | |- sat _ (let _ := _ in _) _ => cbv zeta
  end.
Ltac sat_tac := repeat first [exact I | progress cbv zeta | sat1 | solve [eauto with sat nocore]].
