(* ===== verification/Regex.v ===== *)
(** Code points and regular expressions: [str] as the list of its code points, and
    the part of Python's [re] the source uses. A pattern denotes the list of all
    its matches at a position in the order a backtracking matcher tries them, so
    that the first is Python's; the language of a pattern is the relation [lang],
    and the list is shown to enumerate it. *)
From S2P Require Import Prelude PyText Json.

Local Open Scope N_scope.

(** ** UTF-8 *)

(** The low six bits of a continuation byte *)
Definition cont (c : ascii) : N := N.land (N_of_ascii c) 63.

(** The code points of a text; a byte that starts no character stands for itself. *)
Fixpoint decode (b : bytes) : list N :=
  match b with
  | [] => []
  | c :: b1 =>
      let n := N_of_ascii c in
      if n <? 192 then n :: decode b1
      else match b1 with
      | [] => [n]
      | c1 :: b2 =>
          if n <? 224 then (N.land n 31 * 64 + cont c1) :: decode b2
          else match b2 with
          | [] => [n]
          | c2 :: b3 =>
              if n <? 240 then (N.land n 15 * 4096 + cont c1 * 64 + cont c2) :: decode b3
              else match b3 with
              | [] => [n]
              | c3 :: b4 =>
                  (N.land n 7 * 262144 + cont c1 * 4096 + cont c2 * 64 + cont c3) :: decode b4
              end
          end
      end
  end.

Definition encode (l : list N) : bytes := concat (utf8_encode <$> l).

Definition codes (s : string) : list N := decode (to_bytes s).
Definition of_codes (l : list N) : string := of_bytes (encode l).

(** Arithmetic with quotients and remainders by constants *)
Ltac ndiv := zify; Z.to_euclidean_division_equations; lia.

Lemma cont_encode x : x < 64 → cont (ascii_of_N (128 + x)) = x.
Proof.
  intros Hx. unfold cont. rewrite N_ascii_embedding by lia.
  rewrite (N.land_ones _ 6). change (2 ^ 6) with 64. ndiv.
Qed.

(** The lead byte of a character of two, three or four bytes *)
Lemma lead_encode base k x :
  (base = 192 ∧ k = 5 ∨ base = 224 ∧ k = 4 ∨ base = 240 ∧ k = 3) → x < 2 ^ k →
  N_of_ascii (ascii_of_N (base + x)) = base + x ∧ N.land (base + x) (N.ones k) = x.
Proof.
  intros [[-> ->]|[[-> ->]|[-> ->]]] Hx;
    match type of Hx with _ < ?p => let q := eval vm_compute in p in change p with q in Hx end;
    (split; [apply N_ascii_embedding; lia|]); rewrite N.land_ones;
    match goal with |- _ mod ?p = _ => let q := eval vm_compute in p in change p with q end; ndiv.
Qed.

Lemma decode_utf8 n b : n < 2097152 → decode (utf8_encode n ++ b) = n :: decode b.
Proof.
  intros Hn. unfold utf8_encode.
  rewrite !(N.land_ones _ 6), !N.shiftr_div_pow2. change (2 ^ 6) with 64.
  change (2 ^ 12) with 4096. change (2 ^ 18) with 262144.
  destruct (N.ltb_spec n 128); [|destruct (N.ltb_spec n 2048); [|destruct (N.ltb_spec n 65536)]].
  - simpl. rewrite N_ascii_embedding by lia. by destruct (N.ltb_spec n 192); [|lia].
  - destruct (lead_encode 192 5 (n / 64)) as [E1 E2]; [auto|change (2 ^ 5) with 32; change (2 ^ 4) with 16; change (2 ^ 3) with 8; ndiv|].
    cbn [app decode]. rewrite E1, !cont_encode by ndiv. change 31 with (N.ones 5). rewrite E2.
    destruct (N.ltb_spec (192 + n / 64) 192); [lia|].
    destruct (N.ltb_spec (192 + n / 64) 224); [|ndiv]. f_equal. ndiv.
  - destruct (lead_encode 224 4 (n / 4096)) as [E1 E2]; [auto|change (2 ^ 5) with 32; change (2 ^ 4) with 16; change (2 ^ 3) with 8; ndiv|].
    cbn [app decode]. rewrite E1, !cont_encode by ndiv. change 15 with (N.ones 4). rewrite E2.
    destruct (N.ltb_spec (224 + n / 4096) 192); [lia|].
    destruct (N.ltb_spec (224 + n / 4096) 224); [lia|].
    destruct (N.ltb_spec (224 + n / 4096) 240); [|ndiv]. f_equal. ndiv.
  - destruct (lead_encode 240 3 (n / 262144)) as [E1 E2]; [auto|change (2 ^ 5) with 32; change (2 ^ 4) with 16; change (2 ^ 3) with 8; ndiv|].
    cbn [app decode]. rewrite E1, !cont_encode by ndiv. change 7 with (N.ones 3). rewrite E2.
    destruct (N.ltb_spec (240 + n / 262144) 192); [lia|].
    destruct (N.ltb_spec (240 + n / 262144) 224); [lia|].
    destruct (N.ltb_spec (240 + n / 262144) 240); [lia|]. f_equal. ndiv.
Qed.

(** Decoding what was encoded *)
Lemma decode_encode l : Forall (λ n, n < 2097152) l → decode (encode l) = l.
Proof.
  unfold encode. induction 1 as [|n l Hn Hl IH]; [done|].
  rewrite fmap_cons. cbn [concat]. by rewrite decode_utf8, IH.
Qed.

Lemma land_ones_lt n k m : m = N.ones k → N.land n m < 2 ^ k.
Proof. intros ->. rewrite N.land_ones. by apply N.mod_lt, N.pow_nonzero. Qed.

Lemma decode_bound b : Forall (λ n, n < 2097152) (decode b).
Proof.
  induction b as [b IH] using (induction_ltof1 _ length). unfold ltof in IH.
  assert (∀ c, N_of_ascii c < 256) as Hc by (intros c; apply N_ascii_bounded).
  assert (∀ c, cont c < 64) as Hk by (intros c; by apply (land_ones_lt _ 6)).
  destruct b as [|c b1]; cbn [decode]; [done|]. pose proof (Hc c).
  destruct (N.ltb_spec (N_of_ascii c) 192); [constructor; [lia|apply IH; simpl; lia]|].
  destruct b1 as [|c1 b2]; [repeat constructor; lia|]. pose proof (Hk c1).
  destruct (N.ltb_spec (N_of_ascii c) 224).
  { constructor; [|apply IH; simpl; lia].
    pose proof (land_ones_lt (N_of_ascii c) 5 31 eq_refl). change (2 ^ 5) with 32 in *. lia. }
  destruct b2 as [|c2 b3]; [repeat constructor; lia|]. pose proof (Hk c2).
  destruct (N.ltb_spec (N_of_ascii c) 240).
  { constructor; [|apply IH; simpl; lia].
    pose proof (land_ones_lt (N_of_ascii c) 4 15 eq_refl). change (2 ^ 4) with 16 in *. lia. }
  destruct b3 as [|c3 b4]; [repeat constructor; lia|]. pose proof (Hk c3).
  constructor; [|apply IH; simpl; lia].
  pose proof (land_ones_lt (N_of_ascii c) 3 7 eq_refl). change (2 ^ 3) with 8 in *. lia.
Qed.

(** Encoding what was decoded gives a text that is decoded to the same. *)
Lemma codes_of_codes l : Forall (λ n, n < 2097152) l → codes (of_codes l) = l.
Proof. intros Hl. unfold codes, of_codes. by rewrite to_of_bytes, decode_encode. Qed.

(** ** Patterns *)

Inductive re :=
  | Eps
  | Cls (P : N → bool)                                  (* one character *)
  | Seq (r1 r2 : re)
  | Alt (r1 r2 : re)
  | Rep (greedy : bool) (lo : nat) (hi : option nat) (r : re)
  | Grp (r : re).                                       (* the capturing group *)

(** A literal text *)
Definition lit (s : string) : re := foldr (λ c r, Seq (Cls (N.eqb c)) r) Eps (codes s).
Definition alts (rs : list re) (r : re) : re := foldr Alt r rs.

(** A match: what the group captured, if it took part, and the rest of the text *)
Definition hit : Type := option (list N) * list N.

(** The text before a suffix *)
Definition before (s s' : list N) : list N := take (length s - length s') s.

(** All matches of [r] at the start of [s], the preferred first. An iteration that
    matches the empty text ends a repetition. *)
Fixpoint matches (r : re) (g : option (list N)) (s : list N) : list hit :=
  match r with
  | Eps => [(g, s)]
  | Cls P => match s with c :: s' => if P c then [(g, s')] else [] | [] => [] end
  | Seq r1 r2 => matches r1 g s ≫= λ h, matches r2 h.1 h.2
  | Alt r1 r2 => matches r1 g s ++ matches r2 g s
  | Grp r => (λ h, (Some (before s h.2), h.2)) <$> matches r g s
  | Rep greedy lo hi r =>
      (fix loop (fuel lo : nat) (hi : option nat) (g : option (list N)) (s : list N) : list hit :=
        let stop := match lo with O => [(g, s)] | S _ => [] end in
        let more :=
          match fuel, hi with
          | O, _ | _, Some O => []
          | S fuel', _ =>
              filter (λ h, length h.2 < length s)%nat (matches r g s)
                ≫= λ h, loop fuel' (pred lo) (pred <$> hi) h.1 h.2
          end in
        if greedy then more ++ stop else stop ++ more) (length s) lo hi g s
  end.

(** [re.match]: the group and the rest *)
Definition match_at (r : re) (s : list N) : option hit := head (matches r None s).

(** [re.search]: the text before the match, the match, what the group captured,
    and the rest *)
Fixpoint search (r : re) (s : list N) : option (list N * hit) :=
  match match_at r s with
  | Some h => Some (s, h)
  | None => match s with [] => None | _ :: s' => search r s' end
  end.

(** [re.findall] with one group; after an empty match the search goes on one
    character later. *)
Fixpoint findall_go (fuel : nat) (r : re) (s : list N) : list (list N) :=
  match fuel with
  | O => []
  | S fuel' =>
      match search r s with
      | None => []
      | Some (s', (g, rest)) =>
          default [] g ::
          (if decide (length rest < length s')%nat then findall_go fuel' r rest
           else match s' with [] => [] | _ :: s'' => findall_go fuel' r s'' end)
      end
  end.

Definition findall (r : re) (s : string) : list string :=
  of_codes <$> findall_go (S (length (codes s))) r (codes s).

(** [re.search(r, s).group(1)] *)
Definition search_group (r : re) (s : string) : option (string) :=
  '(_, (g, _)) ← search r (codes s); of_codes <$> g.

(** ** Character classes *)

Definition range (a b : N) (c : N) : bool := (a <=? c) && (c <=? b).
Definition one_of (s : string) (c : N) : bool := existsb (N.eqb c) (codes s).

(** The zeros of the decimal digits of Unicode 14, ten in a row each *)
Definition digit_zeros : list N :=
  [48; 1632; 1776; 1984; 2406; 2534; 2662; 2790; 2918; 3046; 3174; 3302; 3430; 3558; 3664; 3792;
   3872; 4160; 4240; 6112; 6160; 6470; 6608; 6784; 6800; 6992; 7088; 7232; 7248; 42528; 43216;
   43264; 43472; 43504; 43600; 44016; 65296; 66720; 68912; 69734; 69872; 69942; 70096; 70384;
   70736; 70864; 71248; 71360; 71472; 71904; 72016; 72784; 73040; 73120; 92768; 92864; 93008;
   120782; 120792; 120802; 120812; 120822; 123200; 123632; 125264; 130032].

(** [\d] *)
Definition is_digit_code (c : N) : bool := existsb (λ z, range z (z + 9) c) digit_zeros.
(** The value of a decimal digit *)
Definition digit_value (c : N) : N :=
  foldr (λ z acc, if range z (z + 9) c then c - z else acc) 0 digit_zeros.

(** [\s] *)
Definition is_space_code (c : N) : bool := existsb (λ e, bool_decide (decode e = [c])) ws_encodings.

(** [.] without [DOTALL] *)
Definition dot : re := Cls (λ c, negb (c =? 10)).
Definition any : re := Cls (λ _, true).

(** ** The language of a pattern *)

(** The texts a pattern matches; the texts a repetition is made of are not empty. *)
Fixpoint lang (r : re) (w : list N) : Prop :=
  match r with
  | Eps => w = []
  | Cls P => ∃ c, w = [c] ∧ P c = true
  | Seq r1 r2 => ∃ w1 w2, w = w1 ++ w2 ∧ lang r1 w1 ∧ lang r2 w2
  | Alt r1 r2 => lang r1 w ∨ lang r2 w
  | Grp r => lang r w
  | Rep _ lo hi r =>
      ∃ ws, w = concat ws ∧ (lo ≤ length ws)%nat ∧ (∀ h, hi = Some h → (length ws ≤ h)%nat) ∧
            Forall (λ v, v ≠ [] ∧ lang r v) ws
  end.

(** The loop of a repetition *)
Definition rep_loop (m : option (list N) → list N → list hit) (greedy : bool) :=
  fix loop (fuel lo : nat) (hi : option nat) (g : option (list N)) (s : list N) : list hit :=
    let stop := match lo with O => [(g, s)] | S _ => [] end in
    let more :=
      match fuel, hi with
      | O, _ | _, Some O => []
      | S fuel', _ =>
          filter (λ h, length h.2 < length s)%nat (m g s)
            ≫= λ h, loop fuel' (pred lo) (pred <$> hi) h.1 h.2
      end in
    if greedy then more ++ stop else stop ++ more.

Definition ends_at (l : list hit) (s' : list N) : Prop := ∃ g, (g, s') ∈ l.

Lemma ends_at_app l1 l2 s' : ends_at (l1 ++ l2) s' ↔ ends_at l1 s' ∨ ends_at l2 s'.
Proof. unfold ends_at. setoid_rewrite elem_of_app. naive_solver. Qed.

Lemma ends_at_bind l (f : hit → list hit) s' :
  ends_at (l ≫= f) s' ↔ ∃ h, h ∈ l ∧ ends_at (f h) s'.
Proof. unfold ends_at. setoid_rewrite list_elem_of_bind. naive_solver. Qed.

Lemma ends_at_one g s s' : ends_at [(g, s)] s' ↔ s' = s.
Proof. unfold ends_at. setoid_rewrite list_elem_of_singleton. naive_solver. Qed.

Lemma ends_at_nil s' : ends_at [] s' ↔ False.
Proof. unfold ends_at. setoid_rewrite elem_of_nil. naive_solver. Qed.

(** A repetition of a matcher that enumerates [L] enumerates the concatenations. *)
Lemma rep_loop_lang m greedy (L : list N → Prop) :
  (∀ g s s', ends_at (m g s) s' ↔ ∃ w, s = w ++ s' ∧ L w) →
  ∀ fuel lo hi g s s', (length s ≤ fuel)%nat →
  ends_at (rep_loop m greedy fuel lo hi g s) s' ↔
  ∃ ws, s = concat ws ++ s' ∧ (lo ≤ length ws)%nat ∧
    (∀ h, hi = Some h → (length ws ≤ h)%nat) ∧ Forall (λ v, v ≠ [] ∧ L v) ws.
Proof.
  intros Hm fuel. induction fuel as [|fuel IH]; intros lo hi g s s' Hf.
  - assert (s = []) as -> by (by apply nil_length_inv; lia).
    assert (ends_at (rep_loop m greedy 0 lo hi g []) s' ↔ lo = 0%nat ∧ s' = []) as ->.
    { simpl. destruct greedy, lo; simpl; rewrite ?ends_at_one, ?ends_at_nil; naive_solver lia. }
    split.
    + intros [-> ->]. exists []. simpl. split; [done|]. split; [done|]. split; [lia|constructor].
    + intros (ws & Hs & Hlo & _ & HF). symmetry in Hs. apply app_eq_nil in Hs as [Hs ->].
      destruct ws as [|v ws]; [by destruct lo; [|simpl in *; lia]|].
      inversion HF as [|?? [Hv _]]; subst. by destruct v.
  - assert (ends_at (rep_loop m greedy (S fuel) lo hi g s) s' ↔
      (lo = 0%nat ∧ s' = s) ∨ (hi ≠ Some 0%nat ∧
        ∃ h, h ∈ m g s ∧ (length h.2 < length s)%nat ∧
          ends_at (rep_loop m greedy fuel (pred lo) (pred <$> hi) h.1 h.2) s')) as ->.
    { cbn [rep_loop]. fold (rep_loop m greedy).
      assert (∀ l1 l2 : list hit, ends_at (if greedy then l1 ++ l2 else l2 ++ l1) s' ↔
        ends_at l2 s' ∨ ends_at l1 s') as Hg.
      { intros. destruct greedy; rewrite ends_at_app; naive_solver. }
      rewrite Hg. apply Morphisms_Prop.or_iff_morphism.
      - destruct lo; rewrite ?ends_at_one, ?ends_at_nil; naive_solver.
      - destruct hi as [[|h]|]; rewrite ?ends_at_nil, ?ends_at_bind; [naive_solver| |];
          setoid_rewrite list_elem_of_filter; naive_solver. }
    split.
    + intros [[-> ->]|(Hhi & h & Hh & Hlen & Hend)].
      * exists []. split; [done|]. split; [done|]. split; [simpl; lia|constructor].
      * apply IH in Hend as (ws & Hs & Hlo & Hhi' & HF); [|lia].
        destruct (proj1 (Hm g s h.2)) as (w & Hw & HL); [by exists h.1; destruct h|].
        exists (w :: ws). simpl. rewrite Hw, Hs, app_assoc. split; [done|]. split; [lia|].
        split.
        -- intros h' ->. destruct h' as [|h']; [done|]. specialize (Hhi' h' eq_refl). lia.
        -- constructor; [|done]. split; [|done]. intros ->. simpl in Hw. rewrite Hw in Hlen. lia.
    + intros (ws & Hs & Hlo & Hhi & HF). destruct ws as [|v ws].
      { left. simpl in *. split; [lia|done]. }
      right. inversion HF as [|?? [Hv HL] HF']; subst.
      split; [intros ->; specialize (Hhi _ eq_refl); simpl in Hhi; lia|].
      destruct (proj2 (Hm g (concat (v :: ws) ++ s') (concat ws ++ s'))) as [g' Hg'].
      { exists v. simpl. by rewrite app_assoc. }
      exists (g', concat ws ++ s'). split; [done|].
      assert (0 < length v)%nat by (destruct v; [done|simpl; lia]).
      split; [simpl; rewrite !length_app; lia|]. apply IH; [simpl in *; rewrite !length_app in *; lia|].
      exists ws. split; [done|]. simpl in Hlo. split; [lia|]. split; [|done].
      intros h Hh. destruct hi as [[|h0]|]; simplify_eq/=; specialize (Hhi _ eq_refl); simpl in Hhi; lia.
Qed.

(** The matches of a pattern are the texts of its language. *)
Theorem matches_lang r : ∀ g s s', ends_at (matches r g s) s' ↔ ∃ w, s = w ++ s' ∧ lang r w.
Proof.
  induction r as [|P|r1 IH1 r2 IH2|r1 IH1 r2 IH2|greedy lo hi r IH|r IH]; intros g s s'.
  - simpl. rewrite ends_at_one. split; [intros ->; by exists []|by intros (w & -> & ->)].
  - simpl. destruct s as [|c s].
    + rewrite ends_at_nil. split; [done|]. by intros (w & E & c & -> & _).
    + destruct (P c) eqn:HP; rewrite ?ends_at_one, ?ends_at_nil.
      * split; [intros ->; exists [c]; naive_solver|]. intros (w & E & c' & -> & _). by injection E.
      * split; [done|]. intros (w & E & c' & -> & H). injection E as -> _. congruence.
  - simpl. rewrite ends_at_bind. split.
    + intros ([g1 s1] & Hh & Hend). destruct (proj1 (IH1 g s s1)) as (w1 & -> & H1); [by exists g1|].
      apply IH2 in Hend as (w2 & E & H2). simpl in E. subst s1.
      exists (w1 ++ w2). rewrite app_assoc. naive_solver.
    + intros (w & -> & w1 & w2 & -> & H1 & H2).
      destruct (proj2 (IH1 g ((w1 ++ w2) ++ s') (w2 ++ s'))) as [g1 Hg1].
      { exists w1. by rewrite app_assoc. }
      exists (g1, w2 ++ s'). split; [done|]. apply IH2. naive_solver.
  - simpl. rewrite ends_at_app, IH1, IH2. naive_solver.
  - change (matches (Rep greedy lo hi r) g s)
      with (rep_loop (matches r) greedy (length s) lo hi g s).
    rewrite (rep_loop_lang _ _ (lang r)) by done. simpl. split.
    + intros (ws & -> & H). exists (concat ws). eauto.
    + intros (w & -> & ws & -> & H). eauto.
  - simpl. rewrite <-(IH g s s'). unfold ends_at. setoid_rewrite list_elem_of_fmap. split.
    + intros (g' & h & [= -> ->] & Hh). exists h.1. by destruct h.
    + intros (g' & Hg). eexists _, (g', s'). eauto.
Qed.

(** ** Searching *)

Lemma before_app w s : before (w ++ s) s = w.
Proof.
  unfold before. rewrite length_app. replace (length w + length s - length s)%nat with (length w) by lia.
  apply take_app_length.
Qed.

Lemma match_at_lang r s g s' : match_at r s = Some (g, s') → ∃ w, s = w ++ s' ∧ lang r w.
Proof.
  unfold match_at. intros Hh%head_Some_elem_of. apply (matches_lang r None). by exists g.
Qed.

Lemma match_at_None r s : match_at r s = None → ∀ w s', s = w ++ s' → ¬ lang r w.
Proof.
  unfold match_at. intros Hn w s' -> Hw.
  destruct (proj2 (matches_lang r None (w ++ s') s')) as [g Hg]; [eauto|].
  destruct (matches r None (w ++ s')); [by apply elem_of_nil in Hg|done].
Qed.

(** What [re.search] finds is the leftmost match. *)
Lemma search_Some r s s1 h :
  search r s = Some (s1, h) → ∃ x, s = x ++ s1 ∧ match_at r s1 = Some h.
Proof.
  induction s as [|c s IH]; simpl.
  - destruct (match_at r []) eqn:E; [|done]. intros [= <- <-]. by exists [].
  - destruct (match_at r (c :: s)) eqn:E; [intros [= <- <-]; by exists []|].
    intros (x & -> & Hm)%IH. by exists (c :: x).
Qed.

(** [re.search] fails only when no part of the text is in the language. *)
Lemma search_None r s : search r s = None ↔ ∀ x w y, s = x ++ w ++ y → ¬ lang r w.
Proof.
  induction s as [|c s IH]; simpl.
  - destruct (match_at r []) as [[g s']|] eqn:E.
    + split; [done|]. intros H. apply match_at_lang in E as (w & Hw & Hl).
      by destruct (H [] w s').
    + split; [|done]. intros _ x w y Hs. symmetry in Hs. apply app_eq_nil in Hs as [-> Hs].
      apply (match_at_None _ _ E w y). by symmetry.
  - destruct (match_at r (c :: s)) as [[g s']|] eqn:E.
    + split; [done|]. intros H. apply match_at_lang in E as (w & Hw & Hl).
      by destruct (H [] w s').
    + rewrite IH. split; intros H x w y Hs.
      * destruct x as [|d x]; [by eapply match_at_None|]. injection Hs as -> Hs. by eapply H.
      * apply (H (c :: x) w y). by rewrite Hs.
Qed.

(** The capture of a pattern that ends with its group *)
Lemma capture_lang p q s g s' :
  match_at (Seq p (Grp q)) s = Some (g, s') →
  ∃ wp w, g = Some w ∧ s = wp ++ w ++ s' ∧ lang p wp ∧ lang q w.
Proof.
  unfold match_at. intros Hh%head_Some_elem_of. simpl in Hh.
  apply list_elem_of_bind in Hh as ([g1 s1] & Hh & H1). simpl in Hh.
  apply list_elem_of_fmap in Hh as ([g2 s2] & [= -> ->] & H2). simpl.
  destruct (proj1 (matches_lang p None s s1)) as (wp & -> & Hp); [by exists g1|].
  destruct (proj1 (matches_lang q g1 s1 s2)) as (w & -> & Hq); [by exists g2|].
  exists wp, w. rewrite before_app. auto.
Qed.

(** What [re.findall] returns are parts of the text, in the language of the group. *)
Lemma findall_lang p q fuel : ∀ s v,
  v ∈ findall_go fuel (Seq p (Grp q)) s → lang q v ∧ ∃ x y, s = x ++ v ++ y.
Proof.
  induction fuel as [|fuel IH]; intros s v; [by intros Hv%elem_of_nil|]. cbn [findall_go].
  destruct (search _ s) as [[s1 [g rest]]|] eqn:Hs; [|by intros Hv%elem_of_nil].
  apply search_Some in Hs as (x & -> & Hm).
  apply capture_lang in Hm as (wp & w & -> & -> & Hp & Hq). simpl.
  intros [->|Hv]%elem_of_cons.
  - split; [done|]. exists (x ++ wp), rest. by rewrite <-!app_assoc.
  - case_decide.
    + apply IH in Hv as [Hv (x' & y' & ->)]. split; [done|].
      exists (x ++ wp ++ w ++ x'), y'. by rewrite <-!app_assoc.
    + destruct (wp ++ w ++ rest) as [|c s2] eqn:E; [by apply elem_of_nil in Hv|].
      apply IH in Hv as [Hv (x' & y' & ->)]. split; [done|].
      exists (x ++ c :: x'), y'. by rewrite <-app_assoc.
Qed.

Example findall_ex :
  findall (Seq (Alt (lit "a") (lit "b")) (Grp (Rep true 1 (Some 2%nat) (Cls is_digit_code)))) "a12b3x"
  = ["12"; "3"].
Proof. vm_compute. reflexivity. Qed.
