(* ===== verification/PyNum.v ===== *)
(** Python numbers: [float] of a text or of a JSON value, [round], [sum], the order
    [sorted] uses on floats, and the keys of sets and dicts, which compare numbers
    by their values. *)
From S2P Require Import Prelude Float PyText Json Dsl Schema Effects Regex.
From Stdlib Require Import QArith Lqa.

Local Open Scope Z_scope.

(** ** [float(s)] *)

(** Every decimal digit of Unicode as its ASCII digit *)
Definition ascii_digits (l : list N) : list N :=
  (λ c, if is_digit_code c then (48 + digit_value c)%N else c) <$> l.

(** Digits with single underscores between them: their value, their number, and
    the rest; [None] when an underscore stands wrong. [pend]: a digit must follow. *)
Fixpoint scan_digits (acc : Z) (n : nat) (pend : bool) (b : bytes) : option (Z * nat * bytes) :=
  match b with
  | [] => if pend then None else Some (acc, n, [])
  | c :: b' =>
      match digit_of c with
      | Some d => scan_digits (acc * 10 + d) (S n) false b'
      | None =>
          if decide (c = "_"%char) then
            match n with
            | O => if pend then None else Some (acc, n, b)
            | S _ => if pend then None else scan_digits acc n true b'
            end
          else if pend then None else Some (acc, n, b)
      end
  end.

Definition scan_sign_of (b : bytes) : bool * bytes :=
  match b with
  | c :: b' => if decide (c = "-"%char) then (true, b')
               else if decide (c = "+"%char) then (false, b') else (false, b)
  | [] => (false, b)
  end.

(** The exponent of a literal, when all of the rest is one *)
Definition scan_exponent (b : bytes) : option Z :=
  match b with
  | [] => Some 0
  | c :: b' =>
      if decide (c = "e"%char ∨ c = "E"%char) then
        let '(neg, b1) := scan_sign_of b' in
        match scan_digits 0 0 false b1 with
        | Some (e, S _, []) => Some (if neg then - e else e)
        | _ => None
        end
      else None
  end.

(** [float(s)]: [None] is the [ValueError]. *)
Definition py_float (s : string) : option double :=
  let b := to_bytes (of_codes (ascii_digits (codes (py_strip s)))) in
  let '(neg, b1) := scan_sign_of b in
  let word := py_lower (of_bytes b1) in
  let signed x := if neg then SFopp x else x in
  if decide (word = "inf" ∨ word = "infinity") then Some (signed (S754_infinity false))
  else if decide (word = "nan") then Some S754_nan
  else
    match scan_digits 0 0 false b1 with
    | Some (int, ni, b2) =>
        match b2 with
        | c :: b3 =>
            if decide (c = "."%char) then
              match scan_digits int 0 false b3 with
              | Some (m, nf, b4) =>
                  if decide (ni + nf = 0)%nat then None
                  else e ← scan_exponent b4; Some (decimal_float neg m (e - Z.of_nat nf))
              | None => None
              end
            else if decide (ni = 0)%nat then None
            else e ← scan_exponent b2; Some (decimal_float neg int e)
        | [] => if decide (ni = 0)%nat then None else Some (decimal_float neg int 0)
        end
    | None => None
    end.

Definition exn_type : exn := OtherError "TypeError".

(** [float(j)] of a JSON value *)
Definition float_of_json (j : json) : res double :=
  match j with
  | JBool b => Ok (if b then f1 else f0)
  | JInt z =>
      match double_of_Z z with
      | S754_infinity _ => Err (OtherError "int too large to convert to float")
      | x => Ok x
      end
  | JFloat l => Ok (lit_float l)
  | JStr s =>
      match py_float s with
      | Some x => Ok x
      | None => Err (ValueError ("could not convert string to float: " +:+ s))
      end
  | _ => Err exn_type
  end.

Example py_float_ex :
  (py_float " 1_0.5e1 ", py_float ".5", py_float "1e", py_float "_1", py_float "-inf", py_float "３")
  = (Some (double_of_Z 105), Some (Z_ratio 1 2), None, None, Some (S754_infinity true),
     Some (double_of_Z 3)).
Proof. vm_compute. reflexivity. Qed.

(** ** What [float] returns *)

(** A double: a number or [nan] *)
Definition is_double (x : double) : Prop := numeric x = true ∨ x = S754_nan.

Lemma rounds_double q x : rounds q x → is_double x.
Proof. intros [H _]. by left. Qed.

Lemma is_double_SFopp x : is_double x → is_double (SFopp x).
Proof. intros [H| ->]; [|by right]. left. destruct x as [|[]| |]; try done; by rewrite <-H. Qed.

Lemma decimal_float_double neg m e : is_double (decimal_float neg m e).
Proof.
  unfold decimal_float. destruct m as [|p|p]; [by left| |by left].
  case_match; [eapply rounds_double, normalize_rounds|].
  destruct (10 ^ - e); [by right| |by right]. eapply rounds_double, finite_div_rounds.
Qed.

Lemma lit_float_double l : is_double (lit_float l).
Proof.
  unfold lit_float. repeat (case_decide; [by (left + right)|]).
  repeat case_match; try apply decimal_float_double; by right.
Qed.

Lemma py_float_double s x : py_float s = Some x → is_double x.
Proof.
  unfold py_float. intros Hs. destruct (scan_sign_of _) as [neg b]; cbv zeta in Hs.
  repeat (case_match; try done); simplify_option_eq; try apply decimal_float_double; try (by left);
    by right.
Qed.

Lemma float_of_json_double j x : float_of_json j = Ok x → is_double x.
Proof.
  destruct j as [|[]|z|l|s|l|l]; simpl; try done; try (intros [= <-]; by left).
  - pose proof (rounds_double _ _ (double_of_Z_rounds z)). repeat case_match; by intros [= <-].
  - intros [= <-]. apply lit_float_double.
  - destruct (py_float s) as [y|] eqn:Hs; [|done]. intros [= <-]. by eapply py_float_double.
Qed.

(** Between two numbers there is no [nan] and no infinity. *)
Lemma double_between a b x :
  is_double x → fin a = true → fin b = true → fle a x = true → fle x b = true →
  fin_between a b x.
Proof.
  intros [Hx| ->] Ha Hb H1 H2; [|by destruct a].
  split; [|done]. destruct x as [|[]| |]; try done; [by destruct a as [|[]| |[]]|by destruct b as [|[]| |[]]].
Qed.

(** Clamping brings every double between the bounds, [nan] and infinities too. *)
Lemma flt_fle x y : flt x y = true → fle x y = true.
Proof. unfold flt, fle, SFltb, SFleb. by destruct (SFcompare x y) as [[]|]. Qed.

Lemma clamp_between lo hi x :
  fin lo = true → fin hi = true → fle lo hi = true → is_double x →
  fin_between lo hi (py_min hi (py_max lo x)) ∧ fin_between lo hi (py_max lo (py_min hi x)).
Proof.
  intros Hlo Hhi Hle Hx. rewrite fle_fval in Hle by done.
  assert (fle lo lo = true ∧ fle hi hi = true ∧ fle lo hi = true) as (H1 & H2 & H3)
    by (rewrite !fle_fval by done; split_and!; [apply Qle_refl|apply Qle_refl|done]).
  unfold py_min, py_max. split.
  - destruct (flt lo x) eqn:Hl; simpl; (case_match eqn:Hu; [|by split_and!]).
    + apply double_between; try done; by apply flt_fle.
    + by split_and!.
  - destruct (flt x hi) eqn:Hu; simpl; (case_match eqn:Hl; [|by split_and!]).
    + apply double_between; try done; by apply flt_fle.
    + by split_and!.
Qed.

(** ** [round(x, k)] *)

(** [n / d] rounded to an integer, ties to even *)
Definition half_even (n d : Z) : Z :=
  let q := n / d in
  match 2 * (n - q * d) ?= d with
  | Lt => q
  | Gt => q + 1
  | Eq => if Z.even q then q else q + 1
  end.

Definition round_to (k : Z) (x : double) : double :=
  match x with
  | S754_finite s m e =>
      let n := if 0 <=? e then Z.pos m * 10 ^ k * 2 ^ e
               else half_even (Z.pos m * 10 ^ k) (2 ^ (- e)) in
      if s then SFopp (Z_ratio n (10 ^ k)) else Z_ratio n (10 ^ k)
  | _ => x
  end.

(** ** [sum] of floats: compensated from Python 3.12 on *)

Definition sum_step (fc : double * double) (x : double) : double * double :=
  let '(f, c) := fc in
  let t := fadd f x in
  (t, if fle (SFabs x) (SFabs f) then fadd c (fadd (fsub f t) x)
      else fadd c (fadd (fsub x t) f)).

(** [sum(l)]; [None] is the integer 0 of an empty list. *)
Definition py_sum (l : list double) : option double :=
  match l with
  | [] => None
  | x :: l' =>
      let '(f, c) := foldl sum_step (x, f0) l' in
      Some (match c with
            | S754_finite _ _ _ => fadd f c
            | _ => f
            end)
  end.

(** [a <= b] for [sorted] without nans *)
Definition float_leb (a b : double) : bool := negb (flt b a).

(** ** Keys of sets and dicts *)

(** What a set or a dict compares values by: booleans and floats without fraction
    are the integers they equal. *)
Inductive hkey :=
  | HNone
  | HInt (z : Z)
  | HFloat (x : double)
  | HStr (s : string).

#[export] Instance double_eq_dec : EqDecision double.
Proof. solve_decision. Defined.
#[export] Instance hkey_eq_dec : EqDecision hkey.
Proof. solve_decision. Defined.

Definition hash_float (x : double) : hkey :=
  match float_int x with
  | Some z => if feqb (double_of_Z z) x then HInt z else HFloat x
  | None => HFloat x
  end.

(** [hash]: a [TypeError] on a list, a dict; an SDK object is not compared here. *)
Definition hash_of (v : pyv) : res hkey :=
  match v with
  | PNone => Ok HNone
  | PBool b => Ok (HInt (if b then 1 else 0))
  | PInt z => Ok (HInt z)
  | PFloat l => Ok (hash_float (lit_float l))
  | PStr s => Ok (HStr s)
  | _ => Err exn_type
  end.

(** ** [int] of a float: towards zero *)

Lemma float_int_floor x :
  fin x = true → (0 <= fval x)%Q →
  ∃ a, float_int x = Some a ∧ 0 ≤ a ∧ (inject_Z a <= fval x)%Q ∧ (fval x < inject_Z (a + 1))%Q.
Proof.
  intros Hx H0. destruct x as [s| | |[] m e]; try done.
  - exists 0. change (fval (S754_zero s)) with 0%Q. by repeat split.
  - exfalso. rewrite fval_finite in H0. pose proof (Zpos_pos m). pose proof (b2_pos e). nra.
  - eexists. split; [reflexivity|]. rewrite fval_finite. destruct (Z.leb_spec 0 e) as [He|He].
    + pose proof (Z.pow_pos_nonneg 2 e ltac:(lia) He).
      assert (inject_Z (Z.pos m * 2 ^ e) == inject_Z (Z.pos m) * b2 e)%Q as E
        by (by rewrite inject_Z_mult, b2_Z).
      split; [nia|]. rewrite inject_Z_plus, E. change (inject_Z 1) with 1%Q. split; lra.
    + set (d := 2 ^ (- e)). assert (Hd : 0 < d) by (apply Z.pow_pos_nonneg; lia).
      pose proof (Z.mul_div_le (Z.pos m) d Hd). pose proof (Z.mul_succ_div_gt (Z.pos m) d Hd).
      assert (b2 e * inject_Z d == 1)%Q as Hb.
      { unfold d. rewrite <-b2_Z, <-b2_plus by lia. by rewrite Z.add_opp_diag_r. }
      assert (0 < inject_Z d)%Q by (by rewrite <-(Zlt_Qlt 0)). pose proof (b2_pos e).
      assert (inject_Z d * (inject_Z (Z.pos m) * b2 e) == inject_Z (Z.pos m))%Q as E.
      { transitivity (inject_Z (Z.pos m) * (b2 e * inject_Z d))%Q; [ring|]. rewrite Hb. ring. }
      split; [apply Z.div_pos; lia|]. split.
      * apply (Qmult_le_l _ _ (inject_Z d)); [done|]. rewrite E, <-inject_Z_mult.
        by apply inject_Z_le.
      * apply (Qmult_lt_l _ _ (inject_Z d)); [done|]. rewrite E, <-inject_Z_mult, <-Zlt_Qlt. lia.
Qed.
