(* ===== verification/PyOps.v ===== *)
(** Python's operators on the values the agent canvas computes with: arithmetic,
    comparison, [in], [sorted], [int], [float], and the text of a float. *)
From S2P Require Import Prelude Float PyText Json Dsl Effects Comp PyNum.
From Stdlib Require Import QArith.
Local Open Scope Z_scope.

(** ** [repr] of a float: the shortest decimal that reads back *)

Definition digits_of (z : Z) : nat := String.length (str_of_Z z).

(** The decimals of [k] digits next to [m * 2^e], which has [p] digits before its
    point: each with its distance from the value, as multiples of one unit *)
Definition near_decimals (k p : Z) (m : positive) (e : Z) : list (Z * Z) :=
  let q := k - p in
  let n := Z.pos m * 2 ^ (Z.max e 0) * 10 ^ (Z.max q 0) in
  let d := 2 ^ (Z.max (- e) 0) * 10 ^ (Z.max (- q) 0) in
  let lo := n / d in
  [(lo, n - lo * d); (lo + 1, (lo + 1) * d - n)].

(** The shortest decimal that reads back, of several the nearest: its digits and the
    power of ten they are multiplied with. 17 digits always read back. *)
Fixpoint shortest (fuel : nat) (k p : Z) (m : positive) (e : Z) : Z * Z :=
  let good := filter (λ c, decimal_float false c.1 (p - k) = S754_finite false m e)
                (near_decimals k p m e) in
  match good, fuel with
  | [c], _ => (c.1, p - k)
  | c1 :: c2 :: _, _ =>
      (if decide (c1.2 < c2.2 ∨ c1.2 = c2.2 ∧ Z.even c1.1) then c1.1 else c2.1, p - k)
  | [], O => (fst (hd (0, 0) (near_decimals k p m e)), p - k)
  | [], S fuel' => shortest fuel' (k + 1) p m e
  end.

Definition zeros (n : Z) : string := of_bytes (replicate (Z.to_nat n) "0"%char).

(** The notation of [float.__repr__]: an exponent below 1e-4 and from 1e16 on *)
Definition place_point (n p : Z) : string :=
  let ds := str_of_Z n in
  let len := Z.of_nat (String.length ds) in
  if decide (-4 < p ∧ p <= 16) then
    if decide (p <= 0) then "0." +:+ zeros (- p) +:+ ds
    else if decide (len <= p) then ds +:+ zeros (p - len) +:+ ".0"
    else String.substring 0 (Z.to_nat p) ds +:+ "." +:+ String.substring (Z.to_nat p) (Z.to_nat (len - p)) ds
  else
    let e := p - 1 in
    let ae := str_of_Z (Z.abs e) in
    String.substring 0 1 ds +:+ (if decide (1 < len) then "." +:+ String.substring 1 (Z.to_nat (len - 1)) ds else "")
      +:+ "e" +:+ (if decide (e < 0) then "-" else "+")
      +:+ (if decide (Z.abs e < 10) then "0" else "") +:+ ae.

Definition strip_zeros (n : Z) : Z :=
  (fix go (fuel : nat) (n : Z) :=
     match fuel with
     | O => n
     | S fuel' => if decide (n ≠ 0 ∧ n mod 10 = 0) then go fuel' (n / 10) else n
     end) 20%nat n.

(** The literal of a float in the JSON the canvas writes, and its [repr] but for
    [nan] and the infinities *)
Definition float_lit (x : double) : string :=
  match x with
  | S754_zero s => if s then "-0.0" else "0.0"
  | S754_infinity s => if s then "-Infinity" else "Infinity"
  | S754_nan => "NaN"
  | S754_finite s m e =>
      (* the value has as many digits before its point as 10^400 times it, less 400 *)
      let p := Z.of_nat (digits_of (Z.pos m * 2 ^ (Z.max e 0) * 10 ^ 400 / 2 ^ (Z.max (- e) 0))) - 400 in
      let '(n, q) := shortest 16 1 p m e in
      (if s then "-" else "") +:+ place_point (strip_zeros n) (Z.of_nat (digits_of n) + q)
  end.

Example float_lit_ex :
  (λ l, float_lit (lit_float l)) <$> ["0.1"; "3.14"; "1e22"; "1.5e300"; "5e-324"; "0.0001"; "0.00001";
     "123456789012345680.0"; "100.0"; "0.30000000000000004"; "9.5"; "9007199254740993.0"]
  = ["0.1"; "3.14"; "1e+22"; "1.5e+300"; "5e-324"; "0.0001"; "1e-05"; "1.2345678901234568e+17"; "100.0";
     "0.30000000000000004"; "9.5"; "9007199254740992.0"].
Proof. vm_compute. reflexivity. Qed.

(** ** Numbers *)

(** A number as the operators see it: a boolean is the integer it equals. *)
Inductive num := NInt (z : Z) | NFlt (x : double).

Definition num_of (v : pyv) : option num :=
  match v with
  | PBool b => Some (NInt (if b then 1 else 0))
  | PInt z => Some (NInt z)
  | PFloat l => Some (NFlt (lit_float l))
  | _ => None
  end.

(** [isinstance(v, numbers.Number)] *)
Definition is_number (v : pyv) : bool := match num_of v with Some _ => true | None => false end.

Definition pfloat (x : double) : pyv := PFloat (float_lit x).

Definition overflow : exn := OtherError "int too large to convert to float".

(** [float(z)]: an integer out of the range of doubles is an [OverflowError]. *)
Definition int_to_double (z : Z) : res double :=
  match double_of_Z z with S754_infinity _ => Err overflow | x => Ok x end.

Definition num_to_double (n : num) : res double :=
  match n with NInt z => int_to_double z | NFlt x => Ok x end.

Definition arith (iop : Z → Z → Z) (fop : double → double → double) (a b : pyv) : res pyv :=
  match num_of a, num_of b with
  | Some (NInt x), Some (NInt y) => Ok (PInt (iop x y))
  | Some m, Some n => x ← num_to_double m; y ← num_to_double n; Ok (pfloat (fop x y))
  | _, _ => Err exn_type
  end.

Definition py_add : pyv → pyv → res pyv := arith Z.add fadd.
Definition py_sub : pyv → pyv → res pyv := arith Z.sub fsub.
Definition py_mul : pyv → pyv → res pyv := arith Z.mul fmul.

Definition zero_division : exn := OtherError "division by zero".

(** [a / b]: the quotient of integers is rounded once. *)
Definition py_div (a b : pyv) : res pyv :=
  match num_of a, num_of b with
  | Some (NInt x), Some (NInt y) =>
      if decide (y = 0) then Err zero_division
      else match Z_ratio (x * Z.sgn y) (Z.abs y) with
           | S754_infinity _ => Err (OtherError "integer division result too large for a float")
           | r => Ok (pfloat r)
           end
  | Some m, Some n =>
      x ← num_to_double m; y ← num_to_double n;
      if feqb y f0 then Err zero_division else Ok (pfloat (fdiv x y))
  | _, _ => Err exn_type
  end.

(** [float(v)] *)
Definition py_float_of (v : pyv) : res double :=
  match v with
  | PStr s =>
      match py_float s with
      | Some x => Ok x
      | None => Err (ValueError ("could not convert string to float: " +:+ s))
      end
  | _ => match num_of v with Some n => num_to_double n | None => Err exn_type end
  end.

(** [int(v)] *)
Definition py_int_of (v : pyv) : res Z :=
  match v with
  | PStr s =>
      match py_int s with
      | Some z => Ok z
      | None => Err (ValueError ("invalid literal for int() with base 10: " +:+ s))
      end
  | PFloat l =>
      match float_int (lit_float l) with
      | Some z => Ok z
      | None => Err (OtherError "cannot convert float to integer")
      end
  | PBool b => Ok (if b then 1 else 0)
  | PInt z => Ok z
  | _ => Err exn_type
  end.

(** ** [==] and [<] *)

(** The order of two numbers by their exact values; [None] when one is a nan *)
Definition num_compare (a b : num) : option comparison :=
  match a, b with
  | NInt x, NInt y => Some (x ?= y)
  | NFlt x, NFlt y => SFcompare x y
  | NInt x, NFlt (S754_infinity s) => Some (if s then Gt else Lt)
  | NFlt (S754_infinity s), NInt y => Some (if s then Lt else Gt)
  | NInt _, NFlt S754_nan | NFlt S754_nan, NInt _ => None
  | NInt x, NFlt y => Some (Qcompare (inject_Z x) (fval y))
  | NFlt x, NInt y => Some (Qcompare (fval x) (inject_Z y))
  end.

(** [a == b]. An object of the program equals itself only; two that hold the same
    here are taken for the same object. *)
Fixpoint py_eq (a b : pyv) : bool :=
  let items (sub : list (string * pyv)) (kvs' : list (string * pyv)) : bool :=
    bool_decide (length sub = length kvs') in
  match a, b with
  | PNone, PNone => true
  | PStr s, PStr t => bool_decide (s = t)
  | PList l, PList l' =>
      (fix go l l' :=
         match l, l' with
         | [], [] => true
         | x :: l, y :: l' => py_eq x y && go l l'
         | _, _ => false
         end) l l'
  | PDict kvs, PDict kvs' | PBase kvs, PBase kvs' =>
      items kvs kvs' &&
      forallb (λ kv, match dict_get kv.1 kvs' with Some y => py_eq kv.2 y | None => false end) kvs
  | _, _ =>
      match num_of a, num_of b with
      | Some m, Some n => match num_compare m n with Some Eq => true | _ => false end
      | _, _ => false
      end
  end.

(** [a < b]: lists compare at the first place where they differ. *)
Fixpoint py_lt (a b : pyv) : res bool :=
  match a, b with
  | PStr s, PStr t => Ok (str_leb s t && bool_decide (s ≠ t))
  | PList l, PList l' =>
      (fix go l l' :=
         match l, l' with
         | _, [] => Ok false
         | [], _ :: _ => Ok true
         | x :: l, y :: l' => if py_eq x y then go l l' else py_lt x y
         end) l l'
  | _, _ =>
      match num_of a, num_of b with
      | Some m, Some n => Ok (match num_compare m n with Some Lt => true | _ => false end)
      | _, _ => Err exn_type
      end
  end.

(** [a <= b] *)
Definition py_le (a b : pyv) : res bool :=
  match a, b with
  | PList _, PList _ => if py_eq a b then Ok true else py_lt a b
  | PStr s, PStr t => Ok (str_leb s t)
  | _, _ =>
      match num_of a, num_of b with
      | Some m, Some n =>
          Ok (match num_compare m n with Some Lt | Some Eq => true | _ => false end)
      | _, _ => Err exn_type
      end
  end.

(** [x in c] *)
Definition py_contains (c x : pyv) : res bool :=
  match c with
  | PStr s => match x with PStr p => Ok (py_in p s) | _ => Err exn_type end
  | PList l => Ok (existsb (λ y, py_eq y x) l)
  | PDict kvs =>
      match x with
      | PStr k => Ok (bool_decide (is_Some (dict_get k kvs)))
      | PList _ | PDict _ => Err exn_type
      | _ => Ok false
      end
  | _ => Err exn_type
  end.

(** ** [sorted] *)

(** Insertion behind the elements that are not greater: [before a b] is [b < a]. *)
Fixpoint insert_res {A} (lt : A → A → res bool) (x : A) (l : list A) : res (list A) :=
  match l with
  | [] => Ok [x]
  | y :: l' =>
      b ← lt x y;
      if b : bool then Ok (x :: y :: l') else l'' ← insert_res lt x l'; Ok (y :: l'')
  end.

Definition sort_res {A} (lt : A → A → res bool) (l : list A) : res (list A) :=
  foldl (λ acc x, s ← acc; insert_res lt x s) (Ok []) l.

Fixpoint pairs_of {A} (l : list A) : list (A * A) :=
  match l with [] => [] | x :: l => ((x,.) <$> l) ++ pairs_of l end.

(** [sorted(l, key=key, reverse=reverse)], stable in both directions. It raises when
    two of the keys do not compare. *)
Definition py_sorted {A} (key : A → pyv) (reverse : bool) (l : list A) : res (list A) :=
  let lt x y := if reverse then py_lt (key y) (key x) else py_lt (key x) (key y) in
  _ ← res_mapM (λ p, lt p.1 p.2) (pairs_of l);
  sort_res lt l.

Definition pints (l : list Z) : pyv := PList (PInt <$> l).
Example ops_ex :
  (py_add (PFloat "0.1") (PFloat "0.2"), py_div (PInt 7) (PInt (-2)), py_lt (PInt 3) (PFloat "3.5"),
   py_lt (PStr "a") (PInt 1), py_eq (PDict [("a", PInt 1); ("b", PNone)]) (PDict [("b", PNone); ("a", PBool true)]),
   py_sorted (λ v, v) true [PInt 1; PFloat "2.5"; PBool true; PInt 3])
  = (Ok (PFloat "0.30000000000000004"), Ok (PFloat "-3.5"), Ok true, Err exn_type, true,
     Ok [PInt 3; PFloat "2.5"; PInt 1; PBool true]).
Proof. vm_compute. reflexivity. Qed.
