(* ===== verification/Flow.v ===== *)
(** The agent graph of the assistant (create_qms_agent_flow.py): the DSL the script
    builds, and the upload of it to RAGFlow.

    [build_qms_3core_dsl] gives the same JSON as the source, in the order of its
    keys. A branch of the graph is the same for the three scenarios but for its
    texts; the loops over [branch_desc] are maps over the three records. *)
From S2P Require Import Prelude PyText Json Effects Comp.
Open Scope Z_scope.

Definition nl : string := String (ascii_of_N 10) "".

Definition _parse_csv_ids (raw : option string) : list string :=
  match raw with
  | Some raw => filter (λ x, x ≠ "") (py_strip <$> py_split ","%char raw)
  | None => []
  end.

Definition _retrieval_tool (kb_ids : list string) (description : string) : json :=
  JObj [("component_name", JStr "Retrieval"); ("name", JStr "Retrieval");
    ("params", JObj [
      ("cross_languages", JArr []);
      ("description", JStr description);
      ("empty_response", JStr "知识库未检索到直接证据，请提示用户补充关键词或上传相关文档。");
      ("kb_ids", json_strs kb_ids);
      ("keywords_similarity_weight", JFloat "0.7");
      ("outputs", JObj [("formalized_content", JObj [("type", JStr "string"); ("value", JStr "")])]);
      ("rerank_id", JStr "");
      ("similarity_threshold", JFloat "0.2");
      ("top_k", JInt 1024);
      ("top_n", JInt 8);
      ("use_kg", JBool false)])].

(** ** The shapes of the entries *)

Definition retrieval_desc : string := "SSME DX & SSME US QMS文档库，含QM/TP/WI、模板及法规要求。".

Definition _agent_common (llm_id : string) (max_rounds history_window : Z) (temperature : string)
    : list (string * json) :=
  [("llm_id", JStr llm_id); ("max_rounds", JInt max_rounds);
   ("message_history_window_size", JInt history_window); ("max_retries", JInt 2);
   ("delay_after_error", JFloat "1.5"); ("cite", JBool true); ("temperatureEnabled", JBool true);
   ("temperature", JFloat temperature); ("maxTokensEnabled", JBool true); ("max_tokens", JInt 1800);
   ("topPEnabled", JBool true); ("top_p", JFloat "0.7");
   ("outputs", JObj [("content", JObj [("type", JStr "string"); ("value", JStr "")])])].

Definition _nid (cpn_id : string) : string := py_replace cpn_id ":" "_".

Definition component (name : string) (params : json) (downstream upstream : list string) : json :=
  JObj [("obj", JObj [("component_name", JStr name); ("params", params)]);
        ("downstream", json_strs downstream); ("upstream", json_strs upstream)].

Definition user_prompt (content : string) : json :=
  JObj [("role", JStr "user"); ("content", JStr content)].

Definition condition_item (cpn_id operator value : string) : json :=
  JObj [("cpn_id", JStr cpn_id); ("operator", JStr operator); ("value", JStr value)].

Definition condition (logical_operator : string) (items : list json) (to : list string) : json :=
  JObj [("logical_operator", JStr logical_operator); ("items", JArr items); ("to", json_strs to)].

Definition node_at (source target id type : string) (x y : Z) (label name : string) (form : json) : json :=
  JObj [("id", JStr id); ("type", JStr type); ("position", JObj [("x", JInt x); ("y", JInt y)]);
        ("sourcePosition", JStr source); ("targetPosition", JStr target);
        ("data", JObj [("label", JStr label); ("name", JStr name); ("form", form)])].
Definition begin_node := node_at "left" "right".
Definition node := node_at "right" "left".

(** The value of a branch in [branch_desc], with its key *)
Record Branch := {
  br_name : string; br_title : string; br_st_script : string; br_skill_prompt : string; br_y : Z }.

(** ** The entries, as the source writes them *)

Definition begin_params : json :=
  JObj [("mode", JStr "conversational"); ("prologue", JStr "你好，我是QMS企业智能助手。已启用分层编排：理解-记忆-检索-推理-生成-学习。");
    ("inputs", JObj [("sys.query", JObj [("type", JStr "line"); ("name", JStr "问题")]); ("sys.files", JObj
    [("type", JStr "file"); ("name", JStr "附件"); ("optional", JBool true)])])].

Definition st_input_parse_params : json :=
  JObj [("method", JStr "merge"); ("script", JStr
    ("【SSME-QMS 输入理解包】\n原始问题：{sys.query}\n用户ID：{sys.user_id}\n日期：{sys.date}\n附件状态：{sys.files}\n\n【改写目标】\n1) 保留用户业务意图，不改写事实含义；\n2) 补齐场景标签：process_qa / learning / precheck；\n3) 生成中英检索关键词（术语优先：NCM/CAPA/ISO13485/ISO14971等）；\n4) 标注回答约束：evidence_first, no_fabrication, actionable_steps。\n\n【输出格式要求】\n- rewrite_query: <改写后的标准问题>\n- scenario_hint: <process_qa|learning|precheck>\n- retrieval_terms_zh: <中文关键词，逗号分隔>\n- retrieval_terms_en: <英文关键词，逗号分隔>\n- constraints: <证据优先|禁止编造|可执行步骤>\n- note: <若信息不足，说明缺口>"
    +:+ nl)); ("delimiters", JArr [JStr (nl)]); ("outputs", JObj [("result", JObj [("value", JStr "");
    ("type", JStr "string")])])].

Definition intent_classify_params (llm_id : string) : json :=
  JObj (_agent_common llm_id 4 6 "0.1" ++ [("tools", JArr []); ("prompts", JArr [user_prompt
    "{st:input_parse@result}"]); ("sys_prompt", JStr
    "你是意图识别器。输出结构化意图JSON（intent/category/urgency/keywords），不要解释。")]).

Definition entity_extract_params (llm_id : string) : json :=
  JObj (_agent_common llm_id 4 6 "0.1" ++ [("tools", JArr []); ("prompts", JArr [user_prompt
    "意图识别结果：{agent:intent_classify@content}\n问题：{sys.query}"]); ("sys_prompt", JStr
    "你是实体提取器。提取部门、流程、文档、术语、时间、产品，输出JSON数组。")]).

Definition memory_hot_params (llm_id : string) : json :=
  JObj (_agent_common llm_id 3 12 "0.1" ++ [("tools", JArr []); ("prompts", JArr [user_prompt
    "历史：{sys.history}\n问题：{sys.query}\n实体：{agent:entity_extract@content}"]); ("sys_prompt", JStr
    "你是热记忆检索器。输出用户偏好、输出风格、避免点、近期目标（最多6条）。")]).

Definition memory_warm_params (llm_id : string) : json :=
  JObj (_agent_common llm_id 3 14 "0.1" ++ [("tools", JArr []); ("prompts", JArr [user_prompt
    "意图：{agent:intent_classify@content}\n实体：{agent:entity_extract@content}"]); ("sys_prompt", JStr
    "你是温记忆检索器。输出场景规则、SOP提醒、适用约束（最多6条）。")]).

Definition switch_intent_params : json :=
  JObj [("conditions", JArr [condition "or" [condition_item "sys.query" "contains" "培训"; condition_item
    "sys.query" "contains" "学习"; condition_item "sys.query" "contains" "讲解"] ["st:learning"]; condition "or"
    [condition_item "sys.query" "contains" "预审"; condition_item "sys.query" "contains" "附件"; condition_item
    "sys.query" "contains" "文档审查"; condition_item "sys.query" "contains" "文件审查"]
    ["switch:precheck_files"]]); ("end_cpn_ids", JArr [JStr "st:process"])].

Definition switch_precheck_files_params : json :=
  JObj [("conditions", JArr [condition "and" [condition_item "sys.files" "not empty" ""]
    ["list:precheck"]]); ("end_cpn_ids", JArr [JStr "msg:precheckneedfile"])].

Definition list_precheck_params : json :=
  JObj [("query", JStr "sys.files"); ("operations", JStr "topN"); ("n", JInt 3)].

Definition st_params (m : Branch) : json :=
  JObj [("method", JStr "merge"); ("script", JStr (br_st_script m)); ("delimiters", JArr [JStr (nl)]);
    ("outputs", JObj [("result", JObj [("value", JStr ""); ("type", JStr "string")])])].

Definition memory_params (llm_id : string) (b : string) : json :=
  JObj (_agent_common llm_id 3 16 "0.1" ++ [("tools", JArr []); ("prompts", JArr [user_prompt ("规范问题：{st:"
    +:+ b +:+ "@result}\n历史：{sys.history}")]); ("sys_prompt", JStr "你是记忆整理器。提炼本轮可复用规则、偏好和未决项（最多6条）。")]).

Definition assign_params (b : string) : json :=
  JObj [("variables", JArr [JObj [("variable", JStr "sys.query"); ("operator", JStr "overwrite");
    ("parameter", JStr ("memory:" +:+ b +:+ "@content"))]])].

Definition knowledge_params (llm_id : string) (kb_ids : list string) (b : string) : json :=
  JObj (_agent_common llm_id 6 14 "0.1" ++ [("tools", JArr [_retrieval_tool kb_ids retrieval_desc]);
    ("prompts", JArr [user_prompt ("检索问题：{st:" +:+ b +:+ "@result}")]); ("sys_prompt", JStr
    "你是知识处理器。完成检索、重排、摘要，并输出关键证据。")]).

Definition strategy_switch_params (b : string) : json :=
  JObj [("conditions", JArr [condition "or" [condition_item "sys.query" "contains" "计算"; condition_item
    "sys.query" "contains" "统计"; condition_item "sys.query" "contains" "对比"; condition_item "sys.query"
    "contains" "清单"] ["agent:plan_" +:+ b]]); ("end_cpn_ids", JArr [JStr ("agent:direct_" +:+ b)])].

Definition direct_params (llm_id : string) (m : Branch) (b : string) : json :=
  JObj (_agent_common llm_id 6 12 "0.15" ++ [("tools", JArr []); ("prompts", JArr [user_prompt
    ("知识摘要：{agent:knowledge_" +:+ b +:+ "@content}\n用户问题：{st:" +:+ b +:+ "@result}")]); ("sys_prompt", JStr
    (br_skill_prompt m))]).

Definition plan_params (llm_id : string) (b : string) : json :=
  JObj (_agent_common llm_id 4 10 "0.1" ++ [("tools", JArr []); ("prompts", JArr [user_prompt
    ("知识摘要：{agent:knowledge_" +:+ b +:+ "@content}\n用户问题：{st:" +:+ b +:+ "@result}")]); ("sys_prompt", JStr
    "你是工具规划器。输出多步执行计划，标明依赖关系与顺序。")]).

Definition exec_params (llm_id : string) (b : string) : json :=
  JObj (_agent_common llm_id 5 10 "0.1" ++ [("tools", JArr []); ("prompts", JArr [user_prompt
    ("执行计划：{agent:plan_" +:+ b +:+ "@content}\n知识摘要：{agent:knowledge_" +:+ b +:+ "@content}")]);
    ("sys_prompt", JStr "你是执行调度器。按计划产出可执行结果，遇到不确定项需标注。")]).

Definition integrate_params (llm_id : string) (b : string) : json :=
  JObj (_agent_common llm_id 5 12 "0.1" ++ [("tools", JArr []); ("prompts", JArr [user_prompt
    ("直接结果：{agent:direct_" +:+ b +:+ "@content}\n计划执行结果：{agent:exec_" +:+ b +:+ "@content}")]);
    ("sys_prompt", JStr "你是结果整合器。合并多源结果，去重并保持一致性。")]).

Definition format_params (llm_id : string) (b : string) : json :=
  JObj (_agent_common llm_id 3 8 "0.1" ++ [("tools", JArr []); ("prompts", JArr [user_prompt
    ("整合结果：{agent:integrate_" +:+ b +:+ "@content}")]); ("sys_prompt", JStr
    "你是格式优化器。按Markdown输出：结论、步骤、控制点、引用证据。")]).

Definition eval_params (llm_id : string) (b : string) : json :=
  JObj (_agent_common llm_id 3 8 "0.1" ++ [("tools", JArr []); ("prompts", JArr [user_prompt
    ("输出草稿：{agent:format_" +:+ b +:+ "@content}\n原问题：{st:" +:+ b +:+ "@result}")]); ("sys_prompt", JStr
    "你是质量评估器。输出最终答案，并在首行严格输出 NEED_IMPROVE: YES 或 NEED_IMPROVE: NO。")]).

Definition need_improve_params (b : string) : json :=
  JObj [("conditions", JArr [condition "or" [condition_item ("eval:" +:+ b +:+ "@content") "contains"
    "NEED_IMPROVE: YES"] ["agent:reflect_" +:+ b]]); ("end_cpn_ids", JArr [JStr ("assign:final_eval_" +:+
    b)])].

Definition reflect_params (llm_id : string) (b : string) : json :=
  JObj (_agent_common llm_id 3 8 "0.1" ++ [("tools", JArr []); ("prompts", JArr [user_prompt ("待改进答案：{eval:"
    +:+ b +:+ "@content}")]); ("sys_prompt", JStr "你是反思分析器。给出根因诊断：理解/检索/推理/表达。")]).

Definition rule_params (llm_id : string) (b : string) : json :=
  JObj (_agent_common llm_id 3 8 "0.1" ++ [("tools", JArr []); ("prompts", JArr [user_prompt
    ("反思结果：{agent:reflect_" +:+ b +:+ "@content}")]); ("sys_prompt", JStr
    "你是规则提炼器。输出IF-THEN-BECAUSE规则（最多3条）。")]).

Definition memory_update_params (llm_id : string) (b : string) : json :=
  JObj (_agent_common llm_id 3 8 "0.1" ++ [("tools", JArr []); ("prompts", JArr [user_prompt
    ("规则：{agent:rule_" +:+ b +:+ "@content}\n原答案：{eval:" +:+ b +:+ "@content}")]); ("sys_prompt", JStr
    "你是记忆更新器。在不改变事实证据前提下输出改进后的最终答案。")]).

Definition base_components (llm_id : string) : list (string * json) :=
  [("begin", component "Begin" begin_params ["st:input_parse"] []);
   ("st:input_parse", component "StringTransform" st_input_parse_params ["agent:intent_classify"] ["begin"]);
   ("agent:intent_classify", component "Agent" (intent_classify_params llm_id) ["agent:entity_extract"]
     ["st:input_parse"]);
   ("agent:entity_extract", component "Agent" (entity_extract_params llm_id) ["agent:memory_hot"]
     ["agent:intent_classify"]);
   ("agent:memory_hot", component "Agent" (memory_hot_params llm_id) ["agent:memory_warm"]
     ["agent:entity_extract"]);
   ("agent:memory_warm", component "Agent" (memory_warm_params llm_id) ["switch:intent"]
     ["agent:memory_hot"]);
   ("switch:intent", component "Switch" switch_intent_params ["st:process"; "st:learning";
     "switch:precheck_files"] ["agent:memory_warm"]);
   ("switch:precheck_files", component "Switch" switch_precheck_files_params ["list:precheck";
     "msg:precheckneedfile"] ["switch:intent"]);
   ("list:precheck", component "ListOperations" list_precheck_params ["st:precheck"]
     ["switch:precheck_files"]);
   ("msg:precheckneedfile", component "Message" (JObj [("content", JArr [JStr
     "当前未检测到附件。请上传待预审文件（如NCM、CAPA、风险评估、管理评审记录）后再进行符合性审查。"])]) [] ["switch:precheck_files"])].

Definition branch_components (llm_id : string) (kb_ids : list string) (m : Branch) : list (string * json) :=
  let b := br_name m in
  [("st:" +:+ b, component "StringTransform" (st_params m) ["memory:" +:+ b] [(if decide (b = "precheck")
     then "list:precheck" else "switch:intent")]);
   ("memory:" +:+ b, component "Agent" (memory_params llm_id b) ["assign:" +:+ b] ["st:" +:+ b]);
   ("assign:" +:+ b, component "VariableAssigner" (assign_params b) ["agent:knowledge_" +:+ b] ["memory:"
     +:+ b]);
   ("agent:knowledge_" +:+ b, component "Agent" (knowledge_params llm_id kb_ids b) ["switch:strategy_" +:+
     b] ["assign:" +:+ b]);
   ("switch:strategy_" +:+ b, component "Switch" (strategy_switch_params b) ["agent:direct_" +:+ b;
     "agent:plan_" +:+ b] ["agent:knowledge_" +:+ b]);
   ("agent:direct_" +:+ b, component "Agent" (direct_params llm_id m b) ["agent:integrate_" +:+ b]
     ["switch:strategy_" +:+ b]);
   ("agent:plan_" +:+ b, component "Agent" (plan_params llm_id b) ["agent:exec_" +:+ b] ["switch:strategy_"
     +:+ b]);
   ("agent:exec_" +:+ b, component "Agent" (exec_params llm_id b) ["agent:integrate_" +:+ b] ["agent:plan_"
     +:+ b]);
   ("agent:integrate_" +:+ b, component "Agent" (integrate_params llm_id b) ["agent:format_" +:+ b]
     ["agent:direct_" +:+ b; "agent:exec_" +:+ b]);
   ("agent:format_" +:+ b, component "Agent" (format_params llm_id b) ["eval:" +:+ b] ["agent:integrate_"
     +:+ b]);
   ("eval:" +:+ b, component "Agent" (eval_params llm_id b) ["switch:need_improve_" +:+ b] ["agent:format_"
     +:+ b]);
   ("switch:need_improve_" +:+ b, component "Switch" (need_improve_params b) ["assign:final_eval_" +:+ b;
     "agent:reflect_" +:+ b] ["eval:" +:+ b]);
   ("assign:final_eval_" +:+ b, component "VariableAssigner" (JObj [("variables", JArr [JObj [("variable",
     JStr "sys.query"); ("operator", JStr "overwrite"); ("parameter", JStr ("eval:" +:+ b +:+
     "@content"))]])]) ["msg:" +:+ b] ["switch:need_improve_" +:+ b]);
   ("agent:reflect_" +:+ b, component "Agent" (reflect_params llm_id b) ["agent:rule_" +:+ b]
     ["switch:need_improve_" +:+ b]);
   ("agent:rule_" +:+ b, component "Agent" (rule_params llm_id b) ["agent:memory_update_" +:+ b]
     ["agent:reflect_" +:+ b]);
   ("agent:memory_update_" +:+ b, component "Agent" (memory_update_params llm_id b) ["assign:final_update_"
     +:+ b] ["agent:rule_" +:+ b]);
   ("assign:final_update_" +:+ b, component "VariableAssigner" (JObj [("variables", JArr [JObj [("variable",
     JStr "sys.query"); ("operator", JStr "overwrite"); ("parameter", JStr ("agent:memory_update_" +:+ b +:+
     "@content"))]])]) ["msg:" +:+ b] ["agent:memory_update_" +:+ b]);
   ("msg:" +:+ b, component "Message" (JObj [("stream", JBool false); ("content", JArr [JStr
     "{sys.query}"])]) [] ["assign:final_eval_" +:+ b; "assign:final_update_" +:+ b])].

Definition base_chain : list (string * string) :=
  [("begin", "st:input_parse");
   ("st:input_parse", "agent:intent_classify");
   ("agent:intent_classify", "agent:entity_extract");
   ("agent:entity_extract", "agent:memory_hot");
   ("agent:memory_hot", "agent:memory_warm");
   ("agent:memory_warm", "switch:intent");
   ("switch:intent", "st:process");
   ("switch:intent", "st:learning");
   ("switch:intent", "switch:precheck_files");
   ("switch:precheck_files", "list:precheck");
   ("switch:precheck_files", "msg:precheckneedfile");
   ("list:precheck", "st:precheck")].

Definition branch_chain (b : string) : list (string * string) :=
  [("st:" +:+ b, "memory:" +:+ b);
   ("memory:" +:+ b, "assign:" +:+ b);
   ("assign:" +:+ b, "agent:knowledge_" +:+ b);
   ("agent:knowledge_" +:+ b, "switch:strategy_" +:+ b);
   ("switch:strategy_" +:+ b, "agent:direct_" +:+ b);
   ("switch:strategy_" +:+ b, "agent:plan_" +:+ b);
   ("agent:plan_" +:+ b, "agent:exec_" +:+ b);
   ("agent:direct_" +:+ b, "agent:integrate_" +:+ b);
   ("agent:exec_" +:+ b, "agent:integrate_" +:+ b);
   ("agent:integrate_" +:+ b, "agent:format_" +:+ b);
   ("agent:format_" +:+ b, "eval:" +:+ b);
   ("eval:" +:+ b, "switch:need_improve_" +:+ b);
   ("switch:need_improve_" +:+ b, "assign:final_eval_" +:+ b);
   ("switch:need_improve_" +:+ b, "agent:reflect_" +:+ b);
   ("agent:reflect_" +:+ b, "agent:rule_" +:+ b);
   ("agent:rule_" +:+ b, "agent:memory_update_" +:+ b);
   ("agent:memory_update_" +:+ b, "assign:final_update_" +:+ b);
   ("assign:final_eval_" +:+ b, "msg:" +:+ b);
   ("assign:final_update_" +:+ b, "msg:" +:+ b)].

Definition base_nodes (llm_id : string) : list json :=
  [begin_node "begin" "beginNode" 40 360 "Begin" "begin" begin_params;
   node "st_input_parse" "ragNode" 260 360 "StringTransform" "输入预处理" st_input_parse_params;
   node "agent_intent_classify" "agentNode" 500 360 "Agent" "意图识别" (intent_classify_params llm_id);
   node "agent_entity_extract" "agentNode" 740 360 "Agent" "实体提取" (entity_extract_params llm_id);
   node "agent_memory_hot" "agentNode" 980 360 "Agent" "热记忆检索" (memory_hot_params llm_id);
   node "agent_memory_warm" "agentNode" 1220 360 "Agent" "温记忆检索" (memory_warm_params llm_id);
   node "switch_intent" "switchNode" 1460 360 "Switch" "意图路由" switch_intent_params;
   node "switch_precheck_files" "switchNode" 1700 680 "Switch" "附件检测" switch_precheck_files_params;
   node "list_precheck" "listOperationsNode" 1940 680 "ListOperations" "附件抽样" list_precheck_params;
   node "msg_precheckneedfile" "messageNode" 1940 800 "Message" "缺附件提示" (JObj [("content", JArr [JStr
     "当前未检测到附件。请上传待预审文件（如NCM、CAPA、风险评估、管理评审记录）后再进行符合性审查。"])])].

Definition branch_nodes (form : string → json) (m : Branch) : list json :=
  let b := br_name m in
  [node (_nid ("st:" +:+ b)) "ragNode" 1700 (br_y m) "StringTransform" ("输入理解-" +:+ br_title m) (form ("st:"
     +:+ b));
   node (_nid ("memory:" +:+ b)) "agentNode" 1940 (br_y m) "Agent" ("记忆检索-" +:+ br_title m) (form ("memory:"
     +:+ b));
   node (_nid ("assign:" +:+ b)) "variableAssignerNode" 2180 (br_y m) "VariableAssigner" ("记忆注入-" +:+
     br_title m) (form ("assign:" +:+ b));
   node (_nid ("agent:knowledge_" +:+ b)) "agentNode" 2420 (br_y m) "Agent" ("知识处理-" +:+ br_title m) (form
     ("agent:knowledge_" +:+ b));
   node (_nid ("switch:strategy_" +:+ b)) "switchNode" 2660 (br_y m) "Switch" ("策略选择-" +:+ br_title m) (form
     ("switch:strategy_" +:+ b));
   node (_nid ("agent:direct_" +:+ b)) "agentNode" 2900 (br_y m - 70) "Agent" ("直接回答-" +:+ br_title m) (form
     ("agent:direct_" +:+ b));
   node (_nid ("agent:plan_" +:+ b)) "agentNode" 2900 (br_y m + 40) "Agent" ("工具规划-" +:+ br_title m) (form
     ("agent:plan_" +:+ b));
   node (_nid ("agent:exec_" +:+ b)) "agentNode" 3140 (br_y m + 40) "Agent" ("执行调度-" +:+ br_title m) (form
     ("agent:exec_" +:+ b));
   node (_nid ("agent:integrate_" +:+ b)) "agentNode" 3380 (br_y m) "Agent" ("结果整合-" +:+ br_title m) (form
     ("agent:integrate_" +:+ b));
   node (_nid ("agent:format_" +:+ b)) "agentNode" 3620 (br_y m) "Agent" ("格式优化-" +:+ br_title m) (form
     ("agent:format_" +:+ b));
   node (_nid ("eval:" +:+ b)) "agentNode" 3860 (br_y m) "Agent" ("质量评估-" +:+ br_title m) (form ("eval:" +:+
     b));
   node (_nid ("switch:need_improve_" +:+ b)) "switchNode" 4100 (br_y m) "Switch" ("是否改进-" +:+ br_title m)
     (form ("switch:need_improve_" +:+ b));
   node (_nid ("assign:final_eval_" +:+ b)) "variableAssignerNode" 4340 (br_y m - 70) "VariableAssigner"
     ("输出直通-" +:+ br_title m) (form ("assign:final_eval_" +:+ b));
   node (_nid ("agent:reflect_" +:+ b)) "agentNode" 4340 (br_y m + 40) "Agent" ("反思分析-" +:+ br_title m)
     (form ("agent:reflect_" +:+ b));
   node (_nid ("agent:rule_" +:+ b)) "agentNode" 4580 (br_y m + 40) "Agent" ("规则提炼-" +:+ br_title m) (form
     ("agent:rule_" +:+ b));
   node (_nid ("agent:memory_update_" +:+ b)) "agentNode" 4820 (br_y m + 40) "Agent" ("记忆更新-" +:+ br_title
     m) (form ("agent:memory_update_" +:+ b));
   node (_nid ("assign:final_update_" +:+ b)) "variableAssignerNode" 5060 (br_y m + 40) "VariableAssigner"
     ("输出改进-" +:+ br_title m) (form ("assign:final_update_" +:+ b));
   node (_nid ("msg:" +:+ b)) "messageNode" 5300 (br_y m) "Message" ("最终输出-" +:+ br_title m) (JObj
     [("content", JArr [JStr "{sys.query}"])])].

Definition branch_desc : list Branch :=
  [{| br_name := "process"; br_title := "流程问答"; br_st_script :=
     "【流程问答】\n问题：{sys.query}\n热记忆：{agent:memory_hot@content}\n温记忆：{agent:memory_warm@content}\n实体：{agent:entity_extract@content}";
     br_skill_prompt := "你是QMS流程专家。基于知识库给出步骤、控制点、职责、模板、常见错误。"; br_y := 100 |};
   {| br_name := "learning"; br_title := "体系学习"; br_st_script :=
     "【体系学习】\n问题：{sys.query}\n热记忆：{agent:memory_hot@content}\n温记忆：{agent:memory_warm@content}\n实体：{agent:entity_extract@content}";
     br_skill_prompt := "你是QMS培训专家。输出：学习目标、输入-活动-输出、岗位落地建议、3道自测题。"; br_y := 380 |};
   {| br_name := "precheck"; br_title := "文件预审"; br_st_script :=
     "【文件预审】\n问题：{sys.query}\n附件：{list:precheck@result}\n热记忆：{agent:memory_hot@content}\n温记忆：{agent:memory_warm@content}";
     br_skill_prompt := "你是QMS预审专家。输出：结论、问题分级、证据条款、整改建议。"; br_y := 680 |}].

(** ** The whole graph *)

(** [components[k] = v] for the entries of the three branches *)
Definition components (llm_id : string) (kb_ids : list string) : list (string * json) :=
  foldl (λ c kv, dict_set kv.1 kv.2 c) (base_components llm_id)
    (concat (branch_components llm_id kb_ids <$> branch_desc)).

Definition add_edge (e : string * string) : json :=
  let '(src, tgt) := e in
  JObj [("id", JStr ("xy-edge__" +:+ _nid src +:+ "start-" +:+ _nid tgt +:+ "end"));
        ("source", JStr (_nid src)); ("sourceHandle", JStr "start");
        ("target", JStr (_nid tgt)); ("targetHandle", JStr "end");
        ("data", JObj [("isHovered", JBool false)])].

Definition edge_pairs : list (string * string) :=
  base_chain ++ concat (branch_chain <$> ["process"; "learning"; "precheck"]).

(** [components[k]["obj"]["params"]] *)
Definition form (comps : list (string * json)) (k : string) : json :=
  match dict_get k comps with
  | Some (JObj cpn) =>
      match dict_get "obj" cpn with
      | Some (JObj obj) => default JNull (dict_get "params" obj)
      | _ => JNull
      end
  | _ => JNull
  end.

Definition nodes (llm_id : string) (kb_ids : list string) : list json :=
  base_nodes llm_id ++ concat (branch_nodes (form (components llm_id kb_ids)) <$> branch_desc).

Definition build_qms_3core_dsl (llm_id : string) (kb_ids : list string) : json :=
  JObj [("components", JObj (components llm_id kb_ids));
        ("history", JArr []); ("path", JArr []); ("retrieval", JArr []);
        ("graph", JObj [("edges", JArr (add_edge <$> edge_pairs)); ("nodes", JArr (nodes llm_id kb_ids))]);
        ("globals", JObj [("sys.query", JStr ""); ("sys.user_id", JStr "");
                          ("sys.conversation_turns", JInt 0); ("sys.files", JArr []);
                          ("sys.history", JArr []); ("sys.date", JStr "")]);
        ("variables", JArr [])].

(** ** The upload *)

(** An agent as the SDK lists it; its title may be missing. *)
Record ListedAgent := { la_id : string; la_title : option string }.

Inductive FlowCall :=
  | FListAgents (title : string)
  | FUpdateAgent (id title description : string) (dsl : json)
  | FCreateAgent (title description : string) (dsl : json).

(** The answers of RAGFlow *)
Class FlowEnv := {
  fl_list_agents : nat → string → res (list ListedAgent);
  fl_update_agent : nat → string → string → string → json → res unit;
  fl_create_agent : nat → string → string → json → res unit }.

(** What [main] prints at the end *)
Record FlowReport := {
  fr_action : string; fr_title : string; fr_agent_id : string; fr_kb_count : nat; fr_llm_id : string }.

Section upload.
Context `{FlowEnv}.
Notation F := (Act unit FlowCall).

Definition _find_agent_by_title (title : string) : F (option ListedAgent) :=
  catch
    (agents ← call (FListAgents title) (λ n, fl_list_agents n title);
     mret (fetchone (λ a, default "" (la_title a) = title) agents))
    (λ e, let msg := exn_str e in
          if py_in "doesn't exist" msg || py_in "does not exist" msg then mret None else fails e).

Definition main (getenv : string → option string) : F FlowReport :=
  let env k d := py_strip (default d (getenv k)) in
  if decide (env "RAGFLOW_API_KEY" "" = "") then fails (ValueError "RAGFLOW_API_KEY 未设置") else
  let llm_id := env "QMS_AGENT_LLM_ID" "qwen-plus@Tongyi-Qianwen" in
  let title := env "QMS_AGENT_TITLE" "QMS Copilot - 3 Core Flows" in
  let description := env "QMS_AGENT_DESC" "覆盖流程问答、体系学习、文件预审的QMS智能体（代码自动生成）。" in
  let kb_ids := _parse_csv_ids (getenv "QMS_DATASET_IDS") in
  let dsl := build_qms_3core_dsl llm_id kb_ids in
  let report action agent_id := {| fr_action := action; fr_title := title; fr_agent_id := agent_id;
                                   fr_kb_count := length kb_ids; fr_llm_id := llm_id |} in
  existing ← _find_agent_by_title title;
  match existing with
  | Some a =>
      call (FUpdateAgent (la_id a) title description dsl)
        (λ n, fl_update_agent n (la_id a) title description dsl) ;;
      mret (report "updated" (la_id a))
  | None =>
      call (FCreateAgent title description dsl) (λ n, fl_create_agent n title description dsl) ;;
      created ← _find_agent_by_title title;
      mret (report "created" (match created with Some a => la_id a | None => "<unknown>" end))
  end.
End upload.
