(* ===== verification/Refs.v ===== *)
(** References between components in the texts of an agent graph: all the matches of
    a pattern in a text ([re.finditer], [re.sub]), and a pattern of four groups. *)
From S2P Require Import Prelude PyText Regex.

(** [re.finditer]: for every match the text since the match before it, the match
    and what the group captured; and the text after the last one. The patterns here
    match no empty text. *)
Fixpoint finditer_go (fuel : nat) (r : re) (s : list N)
    : list (list N * list N * list N) * list N :=
  match fuel with
  | O => ([], s)
  | S fuel' =>
      match search r s with
      | Some (s', (g, rest)) =>
          if decide (length rest < length s')%nat then
            let '(l, tail) := finditer_go fuel' r rest in
            ((before s s', before s' rest, default [] g) :: l, tail)
          else ([], s)
      | None => ([], s)
      end
  end.

Definition finditer (r : re) (s : list N) := finditer_go (length s) r s.

(** [re.sub(r, f, s)], where [f] gets what the group captured *)
Definition sub_group (r : re) (f : list N → list N) (s : string) : string :=
  let '(l, tail) := finditer r (codes s) in
  of_codes (concat ((λ m, m.1.1 ++ f m.2) <$> l) ++ tail).

(** A pattern of four groups in a row, the matches in the order of the search *)
Definition groups4 : Type := list N * list N * list N * list N.
Definition match4 (r1 r2 r3 r4 : re) (s : list N) : option (groups4 * list N) :=
  head (h1 ← matches r1 None s; h2 ← matches r2 None h1.2; h3 ← matches r3 None h2.2;
        h4 ← matches r4 None h3.2;
        [(before s h1.2, before h1.2 h2.2, before h2.2 h3.2, before h3.2 h4.2, h4.2)]).

(** [re.sub] with such a pattern *)
Fixpoint sub4_go (fuel : nat) (r1 r2 r3 r4 : re) (f : groups4 → list N) (s : list N) : list N :=
  match fuel with
  | O => s
  | S fuel' =>
      match match4 r1 r2 r3 r4 s with
      | Some (g, rest) =>
          if decide (length rest < length s)%nat then f g ++ sub4_go fuel' r1 r2 r3 r4 f rest
          else s
      | None => match s with [] => [] | c :: s' => c :: sub4_go fuel' r1 r2 r3 r4 f s' end
      end
  end.

Definition sub4 (r1 r2 r3 r4 : re) (f : groups4 → list N) (s : list N) : list N :=
  sub4_go (S (length s)) r1 r2 r3 r4 f s.

Definition groups_text (g : groups4) : list N := let '(a, b, c, d) := g in a ++ b ++ c ++ d.

Lemma matches_suffix r g s h : h ∈ matches r g s → ∃ w, s = w ++ h.2.
Proof.
  destruct h as [g' s']. intros Hh.
  destruct (proj1 (matches_lang r g s s')) as (w & Hw & _); [by exists g'|]. by exists w.
Qed.

Lemma match4_text r1 r2 r3 r4 s g rest :
  match4 r1 r2 r3 r4 s = Some (g, rest) → s = groups_text g ++ rest.
Proof.
  unfold match4. intros Hh%head_Some_elem_of.
  apply list_elem_of_bind in Hh as (h1 & Hh & (w1 & E1)%matches_suffix).
  apply list_elem_of_bind in Hh as (h2 & Hh & (w2 & E2)%matches_suffix).
  apply list_elem_of_bind in Hh as (h3 & Hh & (w3 & E3)%matches_suffix).
  apply list_elem_of_bind in Hh as (h4 & Hh & (w4 & E4)%matches_suffix).
  apply list_elem_of_singleton in Hh as [= -> ->].
  rewrite E1, E2, E3, E4, !before_app. unfold groups_text. by rewrite <-!app_assoc.
Qed.

(** Putting every match back leaves the text; [P] is what the characters are known
    to be. *)
Lemma sub4_go_id (P : N → Prop) fuel r1 r2 r3 r4 f s :
  Forall P s → (∀ g, Forall P (groups_text g) → f g = groups_text g) →
  sub4_go fuel r1 r2 r3 r4 f s = s.
Proof.
  intros Hs Hf. revert s Hs. induction fuel as [|fuel IH]; intros s Hs; [done|]. cbn [sub4_go].
  destruct (match4 r1 r2 r3 r4 s) as [[g rest]|] eqn:E.
  - apply match4_text in E as ->. apply Forall_app in Hs as [Hg Hr]. case_decide; [|done].
    by rewrite Hf, IH.
  - destruct s as [|c s]; [done|]. apply Forall_cons in Hs as [_ Hs]. by rewrite IH.
Qed.

Lemma sub4_go_Forall (P : N → Prop) fuel r1 r2 r3 r4 f s :
  Forall P s → (∀ g, Forall P (groups_text g) → Forall P (f g)) →
  Forall P (sub4_go fuel r1 r2 r3 r4 f s).
Proof.
  intros Hs Hf. revert s Hs. induction fuel as [|fuel IH]; intros s Hs; [done|]. cbn [sub4_go].
  destruct (match4 r1 r2 r3 r4 s) as [[g rest]|] eqn:E.
  - apply match4_text in E as ->. pose proof Hs as [Hg Hr]%Forall_app. case_decide; [|done].
    apply Forall_app. auto.
  - destruct s as [|c s]; [done|]. apply Forall_cons in Hs as [Hc Hs]. constructor; auto.
Qed.
