(* ===== verification/Migration.v ===== *)
(** The migration of agent graphs to the current schema (dsl_migration.py of the
    RAGFlow agent): components of the old chunker names get their new names and ids,
    wherever a graph refers to them. *)
From S2P Require Import Prelude PyText Json Effects Comp PyNum Regex Refs.

Definition COMPONENT_RENAMES : list (string * string) :=
  [("Splitter", "TokenChunker"); ("HierarchicalMerger", "TitleChunker")].

Definition NODE_TYPE_RENAMES : list (string * string) := [("splitterNode", "chunkerNode")].

(** [VARIABLE_REF_PATTERN], by its four groups *)
Definition is_alnum (c : N) : bool := range 48 57 c || range 65 90 c || range 97 122 c.
Definition blanks : re := Rep true 0 None (Cls is_space_code).
Definition ref_open : re := Seq (Rep true 1 None (lit "{")) blanks.
Definition ref_id : re := Rep true 1 None (Cls (λ c, is_alnum c || one_of ":_-" c)).
Definition ref_name : re :=
  Seq (lit "@") (Rep true 1 None (Cls (λ c, is_alnum c || one_of "_.-" c))).
Definition ref_close : re := Seq blanks (Rep true 1 None (lit "}")).

(** The loop over [COMPONENT_RENAMES], which stops at the first prefix *)
Fixpoint new_id (renames : list (string * string)) (component_id : string) : string :=
  match renames with
  | [] => component_id
  | (old, new) :: l =>
      match bytes_strip_prefix (to_bytes (old +:+ ":")) (to_bytes component_id) with
      | Some rest => new +:+ ":" +:+ of_bytes rest
      | None => new_id l component_id
      end
  end.

Definition component_id_map (components : list (string * json)) : list (string * string) :=
  (λ kv, (kv.1, new_id COMPONENT_RENAMES kv.1)) <$> components.

(** [m.get(k, k)] *)
Definition renamed (m : list (string * string)) (k : string) : string := default k (dict_get k m).

(** [m.get(v, v)] for any value: a list or a dict is no key. *)
Definition renamed_json (m : list (string * string)) (v : json) : res json :=
  match v with
  | JStr s => Ok (JStr (renamed m s))
  | JArr _ | JObj _ => Err exn_type
  | _ => Ok v
  end.

Section rewrite.
Context (m : list (string * string)).

Definition rewrite_variable_refs (text : string) : string :=
  match dict_get text m with
  | Some new => new
  | None =>
      of_codes (sub4 ref_open ref_id ref_name ref_close
        (λ g, let '(g1, g2, g3, g4) := g in g1 ++ codes (renamed m (of_codes g2)) ++ g3 ++ g4)
        (codes text))
  end.

Fixpoint rewrite_value (value : json) : json :=
  match value with
  | JStr s => JStr (rewrite_variable_refs s)
  | JArr l => JArr (map rewrite_value l)
  | JObj kvs => JObj (map (λ kv, (kv.1, rewrite_value kv.2)) kvs)
  | _ => value
  end.

(** [d[k] = f(d[k])] when [d.get(k)] is a text *)
Definition update_text (k : string) (f : string → string) (d : list (string * json)) :=
  match dict_get k d with
  | Some (JStr s) => dict_set k (JStr (f s)) d
  | _ => d
  end.

(** The same for a list of ids *)
Definition update_ids (k : string) (d : list (string * json)) : res (list (string * json)) :=
  match dict_get k d with
  | Some (JArr l) => l' ← res_mapM (renamed_json m) l; Ok (dict_set k (JArr l') d)
  | _ => Ok d
  end.

Definition rename_obj (d : list (string * json)) : res (list (string * json)) :=
  match dict_get "obj" d with
  | Some (JObj obj) =>
      name ← renamed_json COMPONENT_RENAMES (default JNull (dict_get "component_name" obj));
      Ok (dict_set "obj" (JObj (dict_set "component_name" name obj)) d)
  | _ => Ok d
  end.

(** One round of the loop over the components *)
Definition rewrite_component (component : json) : res json :=
  match rewrite_value component with
  | JObj d =>
      d ← rename_obj d;
      d ← update_ids "downstream" d;
      d ← update_ids "upstream" d;
      Ok (JObj (update_text "parent_id" (renamed m) d))
  | v => Ok v
  end.

Fixpoint rewrite_components (acc components : list (string * json)) : res (list (string * json)) :=
  match components with
  | [] => Ok acc
  | (k, c) :: l => c' ← rewrite_component c; rewrite_components (dict_set (renamed m k) c' acc) l
  end.

(** [data] of a node *)
Definition rewrite_data (data : list (string * json)) : list (string * json) :=
  let data := update_text "label" (renamed COMPONENT_RENAMES) data in
  let data := update_text "name" (renamed COMPONENT_RENAMES) data in
  match dict_get "form" data with
  | Some form => dict_set "form" (rewrite_value form) data
  | None => data
  end.

Definition rewrite_node (node : json) : json :=
  match node with
  | JObj d =>
      let d := update_text "id" (renamed m) d in
      let d := update_text "parentId" (renamed m) d in
      let d := update_text "type" (renamed NODE_TYPE_RENAMES) d in
      match dict_get "data" d with
      | Some (JObj data) => JObj (dict_set "data" (JObj (rewrite_data data)) d)
      | _ => JObj d
      end
  | _ => node
  end.

(** The longer ids are replaced first. *)
Definition replacements : list (string * string) :=
  isort (λ a b, (py_len b.1 <=? py_len a.1)%nat) m.

Definition rewrite_edge_id (edge_id : string) : string :=
  foldl (λ e r, py_replace e r.1 r.2) edge_id replacements.

Definition rewrite_edge (edge : json) : json :=
  match edge with
  | JObj d =>
      let d := update_text "source" (renamed m) d in
      let d := update_text "target" (renamed m) d in
      JObj (update_text "id" rewrite_edge_id d)
  | _ => edge
  end.

(** [d[k] = [f(x) for x in d[k]]] when [d.get(k)] is a list *)
Definition update_list (k : string) (f : json → json) (d : list (string * json)) :=
  match dict_get k d with
  | Some (JArr l) => dict_set k (JArr (map f l)) d
  | _ => d
  end.

Definition rewrite_graph (graph : list (string * json)) : list (string * json) :=
  update_list "edges" rewrite_edge (update_list "nodes" rewrite_node graph).

(** [if key in d: d[key] = rewrite_value(d[key])] *)
Definition rewrite_key (d : list (string * json)) (key : string) : list (string * json) :=
  match dict_get key d with
  | Some v => dict_set key (rewrite_value v) d
  | None => d
  end.

Definition rewrite_dsl (components d : list (string * json)) : res json :=
  components' ← rewrite_components [] components;
  d ← update_ids "path" (dict_set "components" (JObj components') d);
  let d := match dict_get "graph" d with
           | Some (JObj graph) => dict_set "graph" (JObj (rewrite_graph graph)) d
           | _ => d
           end in
  Ok (JObj (foldl rewrite_key d ["history"; "messages"; "reference"])).
End rewrite.

Definition normalize_chunker_dsl (dsl : json) : res json :=
  match dsl with
  | JObj d =>
      match dict_get "components" d with
      | Some (JObj components) => rewrite_dsl (component_id_map components) components d
      | _ => Ok dsl
      end
  | _ => Ok dsl
  end.

Definition old_graph : json :=
  JObj [("components", JObj [
     ("begin", JObj [("obj", JObj [("component_name", JStr "Begin"); ("params", JObj [])]);
        ("downstream", json_strs ["Splitter:A"]); ("upstream", JArr [])]);
     ("Splitter:A", JObj [("obj", JObj [("component_name", JStr "Splitter"); ("params", JObj [])]);
        ("downstream", json_strs ["msg"]); ("upstream", json_strs ["begin"])]);
     ("msg", JObj [("obj", JObj [("component_name", JStr "Message");
                                 ("params", JObj [("content", json_strs ["got {{Splitter:A@chunks }}"])])]);
        ("downstream", JArr []); ("upstream", json_strs ["Splitter:A"])])]);
   ("path", json_strs ["begin"; "Splitter:A"]);
   ("graph", JObj [("edges", JArr [JObj [("id", JStr "xy-begin-Splitter:A"); ("source", JStr "begin");
                                         ("target", JStr "Splitter:A")]]);
                   ("nodes", JArr [JObj [("id", JStr "Splitter:A"); ("type", JStr "splitterNode");
                      ("data", JObj [("label", JStr "Splitter"); ("name", JStr "mine")])]])])].

Example old_graph_migrated :
  json_dumps <$> normalize_chunker_dsl old_graph =
  Ok (json_dumps (JObj [("components", JObj [
     ("begin", JObj [("obj", JObj [("component_name", JStr "Begin"); ("params", JObj [])]);
        ("downstream", json_strs ["TokenChunker:A"]); ("upstream", JArr [])]);
     ("TokenChunker:A", JObj [("obj", JObj [("component_name", JStr "TokenChunker"); ("params", JObj [])]);
        ("downstream", json_strs ["msg"]); ("upstream", json_strs ["begin"])]);
     ("msg", JObj [("obj", JObj [("component_name", JStr "Message");
                                 ("params", JObj [("content", json_strs ["got {{TokenChunker:A@chunks }}"])])]);
        ("downstream", JArr []); ("upstream", json_strs ["TokenChunker:A"])])]);
   ("path", json_strs ["begin"; "TokenChunker:A"]);
   ("graph", JObj [("edges", JArr [JObj [("id", JStr "xy-begin-TokenChunker:A"); ("source", JStr "begin");
                                         ("target", JStr "TokenChunker:A")]]);
                   ("nodes", JArr [JObj [("id", JStr "TokenChunker:A"); ("type", JStr "chunkerNode");
                      ("data", JObj [("label", JStr "TokenChunker"); ("name", JStr "mine")])]])])])).
Proof. vm_compute. reflexivity. Qed.
