(* ===== verification/MigrationProps.v ===== *)
(** The migration of agent graphs is done after one pass: what it gives, it leaves
    as it is. *)
From S2P Require Import Prelude PyText Json Effects Comp PyNum Regex Refs Migration.

(** ** Dictionaries *)

Lemma dict_get_key {V} k (d : list (string * V)) : k ∈ d.*1 → is_Some (dict_get k d).
Proof.
  induction d as [|[k1 v1] d IH]; csimpl; [set_solver|]. rewrite dict_get_cons.
  case_decide; [done|]. intros [->|Hk]%elem_of_cons; [done|auto].
Qed.

(** All texts of a value but the keys *)
Fixpoint strings (j : json) : list string :=
  match j with
  | JStr s => [s]
  | JArr l => concat (map strings l)
  | JObj kvs => concat (map (λ kv, strings kv.2) kvs)
  | _ => []
  end.

Abbreviation all P j := (Forall P (strings j)).

Lemma all_arr P l : all P (JArr l) ↔ Forall (λ j, all P j) l.
Proof. simpl. induction l as [|j l IH]; simpl; [by split|]. by rewrite Forall_app, IH, Forall_cons. Qed.
Lemma all_obj P kvs : all P (JObj kvs) ↔ Forall (λ kv, all P kv.2) kvs.
Proof. simpl. induction kvs as [|kv l IH]; simpl; [by split|]. by rewrite Forall_app, IH, Forall_cons. Qed.
Lemma all_get P kvs k j : all P (JObj kvs) → dict_get k kvs = Some j → all P j.
Proof. intros H%all_obj Hk. exact (Forall_dict_get (λ kv, all P kv.2) _ _ _ H Hk). Qed.
Lemma all_set P kvs k j : all P (JObj kvs) → all P j → all P (JObj (dict_set k j kvs)).
Proof. intros H%all_obj Hj. apply all_obj. by apply (Forall_dict_set (λ kv, all P kv.2)). Qed.

Section values.
Context (m : list (string * string)).

Lemma rewrite_value_id j : all (λ s, rewrite_variable_refs m s = s) j → rewrite_value m j = j.
Proof.
  induction j as [| | | |s|l IH|kvs IH] using json_ind; try done; simpl.
  - intros Hs. apply Forall_cons in Hs as [Hs _]. by rewrite Hs.
  - intros Hall. f_equal. induction IH as [|x l Hx _ IHl]; simpl in *; [done|].
    apply Forall_app in Hall as [H1 H2]. by rewrite Hx, IHl.
  - intros Hall. f_equal. induction IH as [|[k x] l Hx _ IHl]; simpl in *; [done|].
    apply Forall_app in Hall as [H1 H2]. by rewrite Hx, IHl.
Qed.

Lemma rewrite_value_all (P : string → Prop) j :
  (∀ s, P (rewrite_variable_refs m s)) → all P (rewrite_value m j).
Proof.
  intros HP. induction j as [| | | |s|l IH|kvs IH] using json_ind; simpl; try done.
  - by constructor.
  - induction IH; simpl; [done|]. by apply Forall_app.
  - induction IH; simpl; [done|]. by apply Forall_app.
Qed.
End values.

(** ** The current schema *)

(** A map of ids that changes none *)
Definition current (m : list (string * string)) : Prop := Forall (λ r, r.2 = r.1) m.

Lemma current_get m k v : current m → dict_get k m = Some v → v = k.
Proof. intros Hm Hk. exact (Forall_dict_get _ _ _ _ Hm Hk). Qed.

Lemma renamed_current m s : current m → renamed m s = s.
Proof. intros Hm. unfold renamed. destruct (dict_get s m) eqn:E; [by eapply current_get|done]. Qed.

Abbreviation bounded := (Forall (λ n : N, (n < 2097152)%N)).

Lemma rewrite_current m s :
  current m → is_Some (dict_get s m) ∨ of_codes (codes s) = s → rewrite_variable_refs m s = s.
Proof.
  intros Hm Hs. unfold rewrite_variable_refs. destruct (dict_get s m) eqn:E; [by eapply current_get|].
  destruct Hs as [[? [=]]|Hs]. unfold sub4. rewrite (sub4_go_id (λ n, (n < 2097152)%N)); [done|apply decode_bound|].
  intros [[[g1 g2] g3] g4]. unfold groups_text. rewrite !Forall_app. intros (_ & Hg & _).
  by rewrite renamed_current, codes_of_codes.
Qed.

(** What a rewritten text is decoded to *)
Lemma rewritten_text m s :
  dict_get s m = Some (rewrite_variable_refs m s) ∨
  of_codes (codes (rewrite_variable_refs m s)) = rewrite_variable_refs m s.
Proof.
  unfold rewrite_variable_refs. destruct (dict_get s m) eqn:E; [by left|right].
  rewrite codes_of_codes; [done|]. apply sub4_go_Forall; [apply decode_bound|].
  intros [[[g1 g2] g3] g4]. unfold groups_text. rewrite !Forall_app. intros (? & ? & ? & ?).
  repeat split; try done. apply decode_bound.
Qed.

Lemma strip_prefix_head c p d b : c ≠ d → bytes_strip_prefix (c :: p) (d :: b) = None.
Proof. intros. simpl. by rewrite decide_False. Qed.

Lemma new_id_current k : new_id COMPONENT_RENAMES (new_id COMPONENT_RENAMES k) = new_id COMPONENT_RENAMES k.
Proof.
  unfold COMPONENT_RENAMES. cbn [new_id].
  destruct (bytes_strip_prefix (to_bytes ("Splitter" +:+ ":")) (to_bytes k)) as [r|] eqn:E1; [done|].
  destruct (bytes_strip_prefix (to_bytes ("HierarchicalMerger" +:+ ":")) (to_bytes k)) as [r|] eqn:E2; [done|].
  by rewrite E1, E2.
Qed.

Lemma id_map_get comps k :
  dict_get k (component_id_map comps) = (λ _, new_id COMPONENT_RENAMES k) <$> dict_get k comps.
Proof.
  induction comps as [|[k' v] l IH]; [done|]. unfold component_id_map. rewrite fmap_cons.
  rewrite !dict_get_cons. simpl. case_decide as Hk; [by subst|]. apply IH.
Qed.

Lemma renamed_names s : renamed COMPONENT_RENAMES (renamed COMPONENT_RENAMES s) = renamed COMPONENT_RENAMES s.
Proof.
  unfold renamed, COMPONENT_RENAMES. rewrite !dict_get_cons. simpl.
  repeat case_decide; subst; try done; simpl; rewrite !dict_get_cons; simpl; repeat case_decide; subst; done.
Qed.

Lemma renamed_types s : renamed NODE_TYPE_RENAMES (renamed NODE_TYPE_RENAMES s) = renamed NODE_TYPE_RENAMES s.
Proof.
  unfold renamed, NODE_TYPE_RENAMES. rewrite !dict_get_cons. simpl.
  repeat case_decide; subst; try done; simpl; rewrite !dict_get_cons; simpl; repeat case_decide; subst; done.
Qed.

(** ** One pass, and the next *)

Lemma update_text_id k f d :
  (∀ s, dict_get k d = Some (JStr s) → f s = s) → update_text k f d = d.
Proof.
  intros Hf. unfold update_text. destruct (dict_get k d) as [[]|] eqn:E; try done.
  rewrite Hf by done. by apply dict_set_same.
Qed.

Lemma update_text_current m k d : current m → update_text k (renamed m) d = d.
Proof. intros Hm. apply update_text_id. intros s _. by apply renamed_current. Qed.

Lemma update_text_get k f d k' :
  dict_get k' (update_text k f d) =
  match dict_get k' d with
  | Some (JStr s) => Some (JStr (if decide (k = k') then f s else s))
  | o => o
  end.
Proof.
  unfold update_text. destruct (dict_get k d) as [[]|] eqn:E; rewrite ?dict_get_set;
    destruct (decide (k = k')) as [<-|]; rewrite ?E; try done;
    destruct (dict_get k' d) as [[]|]; done.
Qed.

Lemma update_list_id k f d :
  (∀ l, dict_get k d = Some (JArr l) → Forall (λ x, f x = x) l) → update_list k f d = d.
Proof.
  intros Hf. unfold update_list. destruct (dict_get k d) as [[| | | | |l|]|] eqn:E; try done.
  assert (map f l = l) as ->; [|by apply dict_set_same].
  specialize (Hf l eq_refl). clear E. induction Hf as [|x l Hx _ IH]; simpl; [done|]. by rewrite Hx, IH.
Qed.

Lemma update_list_get k f d k' :
  dict_get k' (update_list k f d) =
  match dict_get k' d with
  | Some (JArr l) => Some (JArr (if decide (k = k') then map f l else l))
  | o => o
  end.
Proof.
  unfold update_list. destruct (dict_get k d) as [[]|] eqn:E; rewrite ?dict_get_set;
    destruct (decide (k = k')) as [<-|]; rewrite ?E; try done;
    destruct (dict_get k' d) as [[]|]; done.
Qed.

(** What can be looked up in a dictionary of ids *)
Definition hashable (j : json) : Prop := match j with JArr _ | JObj _ => False | _ => True end.

Lemma renamed_json_hashable m j j' : renamed_json m j = Ok j' → hashable j'.
Proof. by destruct j; intros [= <-]. Qed.

Lemma renamed_json_current m j : current m → hashable j → renamed_json m j = Ok j.
Proof. intros Hm. destruct j; try done. intros _. simpl. by rewrite renamed_current. Qed.

Lemma res_mapM_ok {A B} (f : A → res B) (P : B → Prop) l l' :
  (∀ x y, f x = Ok y → P y) → res_mapM f l = Ok l' → Forall P l'.
Proof.
  intros Hf. revert l'. induction l as [|x l IH]; intros l'; simpl; [by intros [= <-]|].
  destruct (f x) eqn:E; [|done]. destruct (res_mapM f l); [|done]. intros [= <-].
  constructor; eauto.
Qed.

Lemma res_mapM_id {A} (f : A → res A) l : Forall (λ x, f x = Ok x) l → res_mapM f l = Ok l.
Proof. induction 1 as [|x l Hx _ IH]; simpl; [done|]. by rewrite Hx, IH. Qed.

Lemma update_ids_get m k d d' k' :
  update_ids m k d = Ok d' →
  (k ≠ k' → dict_get k' d' = dict_get k' d) ∧
  ∀ l, dict_get k d' = Some (JArr l) → Forall hashable l.
Proof.
  unfold update_ids. destruct (dict_get k d) as [[| | | | |l|]|] eqn:E; intros Hd;
    try (injection Hd as <-; split; [done|by rewrite E]).
  unfold mbind, res_bind in Hd. destruct (res_mapM _ l) as [l'|] eqn:El; [|done]. injection Hd as <-.
  rewrite dict_get_set. setoid_rewrite dict_get_set. split; [intros; by rewrite decide_False|].
  rewrite decide_True by done. intros ? [= <-]. eapply res_mapM_ok, El. apply renamed_json_hashable.
Qed.

Lemma update_ids_current m k d :
  current m → (∀ l, dict_get k d = Some (JArr l) → Forall hashable l) → update_ids m k d = Ok d.
Proof.
  intros Hm Hl. unfold update_ids. destruct (dict_get k d) as [[| | | | |l|]|] eqn:E; try done.
  rewrite res_mapM_id; [|eapply Forall_impl; [by apply Hl|]; intros; by apply renamed_json_current].
  unfold mbind, res_bind. f_equal. by apply dict_set_same.
Qed.

(** *** Nodes and edges *)

Lemma bytes_replace_same fuel b old : bytes_replace fuel old old b = b.
Proof.
  revert b. induction fuel as [|fuel IH]; intros b; [done|]. destruct b as [|c b]; [done|]. cbn [bytes_replace].
  destruct (bytes_strip_prefix old (c :: b)) as [rest|] eqn:E; [|by rewrite IH].
  rewrite IH. clear IH fuel. revert E. generalize (c :: b). clear. induction old as [|c old IH]; simpl.
  - by intros b [= ->].
  - intros [|d b]; [done|]. case_decide as Hc; [subst|done]. intros E. by rewrite (IH _ E).
Qed.

Lemma rewrite_edge_current m e : current m → rewrite_edge m e = e.
Proof.
  intros Hm. destruct e as [| | | | | |d]; try done. simpl.
  rewrite !update_text_current by done. f_equal. apply update_text_id. intros s _. clear d.
  unfold rewrite_edge_id. assert (Forall (λ r, r.2 = r.1) (replacements m)) as Hr.
  { unfold replacements. unfold current in Hm. by rewrite isort_Permutation. }
  induction Hr as [|[a b] l Hab _ IH]; [done|]. simpl in *. subst b.
  unfold py_replace. by rewrite bytes_replace_same, of_to_bytes.
Qed.

Definition node_current (m : list (string * string)) (n : json) : Prop := rewrite_node m n = n.

Lemma rewrite_data_again m m' data :
  current m' → (∀ s, rewrite_variable_refs m' (rewrite_variable_refs m s) = rewrite_variable_refs m s) →
  rewrite_data m' (rewrite_data m data) = rewrite_data m data.
Proof.
  intros Hm Hs. set (d2 := rewrite_data m data). unfold rewrite_data in d2.
  set (d1 := update_text "name" _ (update_text "label" _ data)) in *.
  assert (∀ k s, k = "label" ∨ k = "name" → dict_get k d2 = Some (JStr s) → renamed COMPONENT_RENAMES s = s) as Hn.
  { intros k s Hk Hg. assert (dict_get k d1 = Some (JStr s)) as Hg1.
    { subst d2. destruct (dict_get "form" d1); [|done]. rewrite dict_get_set in Hg.
      by rewrite decide_False in Hg by (by destruct Hk as [->| ->]). }
    clear Hg. subst d1. rewrite !update_text_get in Hg1.
    destruct Hk as [->| ->]; simpl in Hg1; destruct (dict_get _ data) as [[]|]; try done;
      injection Hg1 as <-; apply renamed_names. }
  unfold rewrite_data. rewrite (update_text_id "label") by (intros s; apply Hn; auto).
  rewrite (update_text_id "name") by (intros s; apply Hn; auto).
  destruct (dict_get "form" d2) as [form|] eqn:E; [|done]. apply dict_set_same. rewrite E. f_equal.
  symmetry. apply rewrite_value_id. subst d2. destruct (dict_get "form" d1) as [form1|] eqn:E1.
  - rewrite dict_get_set, decide_True in E by done. injection E as <-. by apply rewrite_value_all.
  - by rewrite E1 in E.
Qed.

Lemma rewrite_node_again m m' n :
  current m' → (∀ s, rewrite_variable_refs m' (rewrite_variable_refs m s) = rewrite_variable_refs m s) →
  rewrite_node m' (rewrite_node m n) = rewrite_node m n.
Proof.
  intros Hm Hs. destruct n as [| | | | | |d]; try done. cbn [rewrite_node].
  set (d1 := update_text "type" _ _).
  assert (∀ s, dict_get "type" d1 = Some (JStr s) → renamed NODE_TYPE_RENAMES s = s) as Ht.
  { intros s. subst d1. rewrite !update_text_get. simpl.
    destruct (dict_get "type" d) as [[]|]; try done. intros [= <-]. apply renamed_types. }
  clearbody d1. destruct (dict_get "data" d1) as [[| | | | | |data]|] eqn:E; cbn [rewrite_node];
    rewrite !(update_text_current m') by done; rewrite update_text_id;
    try (intros s; rewrite ?dict_get_set, ?decide_False by done; apply Ht); rewrite ?E; try done.
  rewrite dict_get_set, decide_True by done. f_equal. apply dict_set_same.
  by rewrite dict_get_set, decide_True, rewrite_data_again by done.
Qed.

Lemma map_again {A} (f g : A → A) l : (∀ x, f (g x) = g x) → Forall (λ x, f x = x) (map g l).
Proof. intros H. induction l; constructor; auto. Qed.

Lemma rewrite_graph_again m m' g :
  current m' → (∀ s, rewrite_variable_refs m' (rewrite_variable_refs m s) = rewrite_variable_refs m s) →
  rewrite_graph m' (rewrite_graph m g) = rewrite_graph m g.
Proof.
  intros Hm Hs. unfold rewrite_graph at 1.
  rewrite (update_list_id "nodes"); [apply update_list_id|]; intros l; unfold rewrite_graph;
    rewrite !update_list_get; simpl.
  - intros _. apply Forall_forall. intros. by apply rewrite_edge_current.
  - destruct (dict_get "nodes" g) as [[]|]; try done. intros [= <-]. apply map_again.
    intros. by apply rewrite_node_again.
Qed.

(** *** Components *)

Section components.
(** The maps of ids before and after: the new one changes nothing, and knows every
    id the old one gives. *)
Context (m m' : list (string * string)).
Context (Hm' : current m').
Context (Hids : ∀ k v, dict_get k m = Some v → is_Some (dict_get v m')).

(** Texts the next pass leaves *)
Definition fine (s : string) : Prop := is_Some (dict_get s m') ∨ of_codes (codes s) = s.

Lemma fine_fixed s : fine s → rewrite_variable_refs m' s = s.
Proof. by apply rewrite_current. Qed.

Lemma rewritten_fine s : fine (rewrite_variable_refs m s).
Proof. destruct (rewritten_text m s) as [Hk|Hk]; [left; by eapply Hids|by right]. Qed.

Lemma rewritten_fixed s : rewrite_variable_refs m' (rewrite_variable_refs m s) = rewrite_variable_refs m s.
Proof. apply fine_fixed, rewritten_fine. Qed.

Lemma renamed_fine s : fine s → fine (renamed m s).
Proof. unfold renamed. destruct (dict_get s m) eqn:E; [|done]. left. by eapply Hids. Qed.

Lemma rename_fine s : fine s → fine (renamed COMPONENT_RENAMES s).
Proof.
  unfold renamed, COMPONENT_RENAMES. rewrite !dict_get_cons. simpl.
  repeat case_decide; simpl; intros; try done; right; by vm_compute.
Qed.

Lemma renamed_json_all mm j j' :
  (∀ s, fine s → fine (renamed mm s)) → all fine j → renamed_json mm j = Ok j' → all fine j'.
Proof.
  intros Hr Hj. destruct j as [| | | |s| |]; intros [= <-]; simpl in *; try by constructor.
  apply Forall_cons in Hj as [Hj _]. constructor; auto.
Qed.

(** A component the next pass leaves *)
Definition settled (d : list (string * json)) : Prop :=
  all fine (JObj d) ∧
  (∀ obj, dict_get "obj" d = Some (JObj obj) →
     ∃ name, dict_get "component_name" obj = Some name ∧ renamed_json COMPONENT_RENAMES name = Ok name) ∧
  (∀ k l, k = "downstream" ∨ k = "upstream" → dict_get k d = Some (JArr l) → Forall hashable l).

Lemma rename_obj_settled d d' :
  all fine (JObj d) → rename_obj d = Ok d' →
  all fine (JObj d') ∧ ∀ obj, dict_get "obj" d' = Some (JObj obj) →
    ∃ name, dict_get "component_name" obj = Some name ∧ renamed_json COMPONENT_RENAMES name = Ok name.
Proof.
  intros Hd. unfold rename_obj. destruct (dict_get "obj" d) as [[| | | | | |obj]|] eqn:E;
    try (intros [= <-]; rewrite E; done).
  unfold mbind, res_bind. destruct (renamed_json _ _) as [name|] eqn:En; [|done]. intros [= <-].
  assert (all fine (JObj obj)) as Hobj by by eapply all_get.
  assert (all fine name) as Hname.
  { eapply renamed_json_all, En; [apply rename_fine|].
    destruct (dict_get "component_name" obj) eqn:Ec; [by eapply all_get|done]. }
  split; [by do 2 (apply all_set; [done|])|].
  intros ?. rewrite dict_get_set, decide_True by done. intros [= <-].
  exists name. rewrite dict_get_set, decide_True by done. split; [done|].
  revert En. destruct (default _ _); simpl; intros [= <-]; try done. simpl. by rewrite renamed_names.
Qed.

Lemma update_ids_all k d d' : all fine (JObj d) → update_ids m k d = Ok d' → all fine (JObj d').
Proof.
  intros Hd. unfold update_ids. destruct (dict_get k d) as [[| | | | |l|]|] eqn:E; try by intros [= <-].
  unfold mbind, res_bind. destruct (res_mapM _ l) as [l'|] eqn:El; [|done]. intros [= <-].
  apply all_set; [done|]. pose proof (all_get _ _ _ _ Hd E) as Hl. clear E Hd.
  apply all_arr. apply all_arr in Hl. revert l' El.
  induction Hl as [|x l Hx _ IH]; simpl; intros l'; [by intros [= <-]|].
  destruct (renamed_json m x) eqn:Ex; [|done]. destruct (res_mapM _ l); [|done]. intros [= <-].
  constructor; [by eapply renamed_json_all, Ex; [apply renamed_fine|]|by apply IH].
Qed.

Lemma update_text_all k d : all fine (JObj d) → all fine (JObj (update_text k (renamed m) d)).
Proof.
  intros Hd. unfold update_text. destruct (dict_get k d) as [[]|] eqn:E; try done.
  apply all_set; [done|]. pose proof (all_get _ _ _ _ Hd E) as Hs. simpl in *.
  apply Forall_cons in Hs as [Hs _]. constructor; [by apply renamed_fine|done].
Qed.

Lemma rewrite_component_settled c c' :
  rewrite_component m c = Ok c' → all fine c' ∧ ∀ d, c' = JObj d → settled d.
Proof.
  unfold rewrite_component. pose proof (rewrite_value_all m fine c rewritten_fine) as Hc.
  destruct (rewrite_value m c) as [| | | | | |d]; try (intros [= <-]; by split).
  unfold mbind, res_bind. destruct (rename_obj d) as [d1|] eqn:E1; [|done].
  destruct (update_ids m "downstream" d1) as [d2|] eqn:E2; [|done].
  destruct (update_ids m "upstream" d2) as [d3|] eqn:E3; [|done]. intros [= <-].
  apply rename_obj_settled in E1 as [Hd1 Hn]; [|done].
  pose proof (update_ids_all _ _ _ Hd1 E2) as Hd2. pose proof (update_ids_all _ _ _ Hd2 E3) as Hd3.
  pose proof (update_text_all "parent_id" _ Hd3) as Hd4.
  split; [done|]. intros ? [= <-]. split; [done|].
  destruct (update_ids_get _ _ _ _ "obj" E2) as [Ho2 Hl2]. destruct (update_ids_get _ _ _ _ "obj" E3) as [Ho3 Hl3].
  split.
  - intros obj. rewrite update_text_get, Ho3, Ho2 by done. intros Ho. apply Hn.
    destruct (dict_get "obj" d1) as [[]|]; done.
  - intros k l Hk. rewrite update_text_get. intros Hg.
    assert (dict_get k d3 = Some (JArr l)) as Hg3 by (destruct (dict_get k d3) as [[]|]; done).
    destruct Hk as [->| ->]; [|by apply Hl3].
    rewrite (proj1 (update_ids_get _ _ _ _ "downstream" E3)) in Hg3 by done. by apply Hl2.
Qed.

Lemma settled_again d : settled d → rewrite_component m' (JObj d) = Ok (JObj d).
Proof.
  intros (Hd & Hobj & Hl). unfold rewrite_component.
  rewrite rewrite_value_id by (eapply Forall_impl; [done|]; apply fine_fixed).
  assert (rename_obj d = Ok d) as ->.
  { unfold rename_obj. destruct (dict_get "obj" d) as [[| | | | | |obj]|] eqn:E; try done.
    destruct (Hobj _ eq_refl) as (name & Hname & Hr). rewrite Hname. simpl default. rewrite Hr.
    unfold mbind, res_bind. f_equal. rewrite (dict_set_same "component_name") by done. by apply dict_set_same. }
  unfold mbind, res_bind. rewrite !update_ids_current by eauto. by rewrite update_text_current.
Qed.

Lemma component_again c c' : rewrite_component m c = Ok c' → rewrite_component m' c' = Ok c'.
Proof.
  intros [Hf Hs]%rewrite_component_settled. destruct c' as [| | | | | |d]; [..|by apply settled_again, Hs];
    unfold rewrite_component; rewrite rewrite_value_id by (eapply Forall_impl; [done|]; apply fine_fixed); done.
Qed.

(** The loop over the components *)
Definition rewritten_entry (kv : string * json) : Prop :=
  (∃ c, rewrite_component m c = Ok kv.2).

Lemma rewrite_components_out comps : ∀ acc out,
  rewrite_components m acc comps = Ok out →
  Forall rewritten_entry acc → NoDup acc.*1 →
  Forall rewritten_entry out ∧ NoDup out.*1 ∧
  ∀ k, k ∈ out.*1 ↔ k ∈ acc.*1 ∨ ∃ k0, k0 ∈ comps.*1 ∧ k = renamed m k0.
Proof.
  clear Hids Hm' m'. induction comps as [|[k0 c] l IH]; intros acc out; simpl.
  - intros [= <-] Ha Hn. split_and!; try done. set_solver.
  - unfold mbind, res_bind. destruct (rewrite_component m c) as [c'|] eqn:E; [|done]. intros Ho Ha Hn.
    destruct (IH _ _ Ho) as (H1 & H2 & H3).
    + apply Forall_dict_set; [done|]. by exists c.
    + by apply NoDup_dict_set.
    + split_and!; try done. intros k. rewrite H3, elem_of_dict_set. set_solver.
Qed.

Lemma rewrite_components_again comps acc :
  Forall rewritten_entry comps → NoDup (acc ++ comps).*1 →
  rewrite_components m' acc comps = Ok (acc ++ comps).
Proof.
  revert acc. induction comps as [|[k c] l IH]; intros acc; simpl; intros Hc Hn; [by rewrite app_nil_r|].
  apply Forall_cons in Hc as [[c0 Hc0] Hc]. unfold mbind, res_bind.
  apply component_again in Hc0. simpl in Hc0. rewrite Hc0, renamed_current by done.
  rewrite fmap_app in Hn. apply NoDup_app in Hn as (? & Hn & ?).
  rewrite dict_set_fresh by (intros ?; by apply (Hn k); [|left]).
  rewrite IH; [by rewrite <-app_assoc|done|]. rewrite <-app_assoc. simpl. rewrite fmap_app.
  apply NoDup_app. by split_and!.
Qed.
End components.

(** *** The whole graph *)

Lemma rewrite_key_get m d key k : dict_get k (rewrite_key m d key) =
  if decide (k = key) then rewrite_value m <$> dict_get k d else dict_get k d.
Proof.
  unfold rewrite_key. destruct (dict_get key d) as [v|] eqn:E; rewrite ?dict_get_set;
    repeat case_decide; subst; try done; by rewrite E.
Qed.

Lemma rewrite_key_current m d key :
  (∀ v, dict_get key d = Some v → rewrite_value m v = v) → rewrite_key m d key = d.
Proof.
  intros Hv. unfold rewrite_key. destruct (dict_get key d) eqn:E; [|done].
  rewrite Hv by done. by apply dict_set_same.
Qed.

Section dsl.
Context (comps comps' : list (string * json)).
Local Abbreviation m := (component_id_map comps).
Local Abbreviation m' := (component_id_map comps').
Context (Hout : rewrite_components m [] comps = Ok comps').

Lemma out_keys k : k ∈ comps'.*1 ↔ ∃ k0, k0 ∈ comps.*1 ∧ k = new_id COMPONENT_RENAMES k0.
Proof.
  destruct (rewrite_components_out m _ _ _ Hout) as (_ & _ & Hk); [constructor|constructor|].
  assert (∀ k0, k0 ∈ comps.*1 → renamed m k0 = new_id COMPONENT_RENAMES k0) as Hr.
  { intros k0 [v Hv]%dict_get_key. unfold renamed. by rewrite id_map_get, Hv. }
  rewrite Hk. split; [intros [[]%elem_of_nil|(k0 & Hin & ->)]|intros (k0 & Hin & ->); right];
    exists k0; auto using eq_sym.
Qed.

Lemma out_current : current m'.
Proof.
  unfold current, component_id_map. apply Forall_fmap, Forall_forall. intros [k v] Hin. simpl.
  assert (k ∈ comps'.*1) as (k0 & _ & ->)%out_keys by by apply (list_elem_of_fmap_2 fst _ (k, v)).
  apply new_id_current.
Qed.

Lemma out_ids k v : dict_get k m = Some v → is_Some (dict_get v m').
Proof.
  rewrite id_map_get. destruct (dict_get k comps) as [c|] eqn:E; [|done]. intros [= <-].
  assert (new_id COMPONENT_RENAMES k ∈ comps'.*1) as Hin.
  { apply out_keys. exists k. split; [|done]. apply elem_dict_get in E. by apply (list_elem_of_fmap_2 fst _ (k, c)). }
  change (is_Some (dict_get (new_id COMPONENT_RENAMES k) m')).
  rewrite id_map_get. apply dict_get_key in Hin as [c' ->]. by eexists.
Qed.

Lemma rewrite_dsl_again d d' :
  rewrite_dsl m comps d = Ok (JObj d') →
  dict_get "components" d' = Some (JObj comps') ∧ rewrite_dsl m' comps' d' = Ok (JObj d').
Proof.
  pose proof out_current as Hm'.
  assert (∀ s, rewrite_variable_refs m' (rewrite_variable_refs m s) = rewrite_variable_refs m s) as Hs
    by (apply rewritten_fixed; [done|apply out_ids]).
  unfold rewrite_dsl at 1, mbind, res_bind. rewrite Hout.
  destruct (update_ids m "path" _) as [d1|] eqn:E1; [|done]. intros [= Hd'].
  set (d2 := match dict_get "graph" d1 with Some (JObj graph) => _ | _ => d1 end) in Hd'.
  assert (∀ k, dict_get k d' =
    if decide (k ∈ ["history"; "messages"; "reference"]) then rewrite_value m <$> dict_get k d2 else dict_get k d2) as Hg.
  { intros k. rewrite <-Hd'. simpl. rewrite !rewrite_key_get.
    repeat case_decide; subst; set_solver. }
  assert (∀ k, k ≠ "graph" → dict_get k d2 = dict_get k d1) as Hg2.
  { intros k Hk. subst d2. destruct (dict_get "graph" d1) as [[]|]; try done. by rewrite dict_get_set, decide_False. }
  destruct (update_ids_get _ _ _ _ "components" E1) as [Hc1 Hp1].
  assert (dict_get "components" d' = Some (JObj comps')) as Hc.
  { rewrite Hg, decide_False, Hg2, Hc1 by (done || set_solver). by rewrite dict_get_set, decide_True. }
  split; [done|]. unfold rewrite_dsl, mbind, res_bind.
  destruct (rewrite_components_out m _ _ _ Hout) as (Hent & Hnd & _); [constructor|constructor|].
  rewrite (rewrite_components_again m m' Hm' out_ids comps' []) by done. simpl app.
  rewrite dict_set_same by done.
  rewrite update_ids_current; [|done|].
  2: { intros l. rewrite Hg, decide_False, Hg2 by (done || set_solver). apply Hp1. }
  assert (∀ g, dict_get "graph" d' = Some (JObj g) → rewrite_graph m' g = g) as Hgr.
  { intros g. rewrite Hg, decide_False by set_solver. subst d2.
    destruct (dict_get "graph" d1) as [[| | | | | |g1]|] eqn:Eg; rewrite ?Eg, ?dict_get_set, ?decide_True by done; try done.
    intros [= <-]. by apply rewrite_graph_again. }
  assert (match dict_get "graph" d' with Some (JObj g) => dict_set "graph" (JObj (rewrite_graph m' g)) d' | _ => d' end = d') as ->.
  { destruct (dict_get "graph" d') as [[]|] eqn:Eg; try done. rewrite Hgr by done. by apply dict_set_same. }
  do 2 f_equal. assert (∀ k v, k ∈ ["history"; "messages"; "reference"] → dict_get k d' = Some v → rewrite_value m' v = v) as Hk.
  { intros k v Hk. rewrite Hg, decide_True by done. destruct (dict_get k d2); [|done]. intros [= <-].
    apply rewrite_value_id, rewrite_value_all. done. }
  assert (∀ k, k ∈ ["history"; "messages"; "reference"] → rewrite_key m' d' k = d') as Hkey
    by (intros k Hin; apply rewrite_key_current; eauto).
  simpl. by rewrite !Hkey by set_solver.
Qed.
End dsl.


