(* ===== verification/FlowProps.v ===== *)
(** The agent graph the script uploads: its components, their links, its switches and
    its drawing agree, and it has no cycle. *)
From S2P Require Import Prelude PyText Json Dsl Flow.

(** ** The shape of a graph *)

(** A component: its id, its name, and the ids it names before and after it *)
Record Shape := { sh_id : string; sh_name : string; sh_downstream : list string; sh_upstream : list string }.

Definition obj_get (k : string) (j : json) : json :=
  match j with JObj kvs => default JNull (dict_get k kvs) | _ => JNull end.
Definition text_of (j : json) : string := match j with JStr s => s | _ => "" end.
Definition texts_of (j : json) : list string := match j with JArr l => text_of <$> l | _ => [] end.
Definition items_of (j : json) : list (string * json) := match j with JObj kvs => kvs | _ => [] end.
Definition elements_of (j : json) : list json := match j with JArr l => l | _ => [] end.

Definition shape_of (kv : string * json) : Shape :=
  {| sh_id := kv.1; sh_name := text_of (obj_get "component_name" (obj_get "obj" kv.2));
     sh_downstream := texts_of (obj_get "downstream" kv.2);
     sh_upstream := texts_of (obj_get "upstream" kv.2) |}.

Definition shapes (dsl : json) : list Shape := shape_of <$> items_of (obj_get "components" dsl).

(** The links the components name below them and above them *)
Definition links_down (l : list Shape) : list (string * string) :=
  s ← l; t ← sh_downstream s; [(sh_id s, t)].
Definition links_up (l : list Shape) : list (string * string) :=
  s ← l; t ← sh_upstream s; [(t, sh_id s)].

(** What the drawing of the graph shows *)
Definition drawn_nodes (dsl : json) : list string :=
  (λ n, text_of (obj_get "id" n)) <$> elements_of (obj_get "nodes" (obj_get "graph" dsl)).
Definition drawn_links (dsl : json) : list (string * string) :=
  (λ e, (text_of (obj_get "source" e), text_of (obj_get "target" e)))
    <$> elements_of (obj_get "edges" (obj_get "graph" dsl)).

(** Where the component may jump: the targets of a switch *)
Definition switch_targets (cpn : json) : list string :=
  let params := obj_get "params" (obj_get "obj" cpn) in
  (c ← elements_of (obj_get "conditions" params); texts_of (obj_get "to" c))
    ++ texts_of (obj_get "end_cpn_ids" params).
Definition switches (dsl : json) : list (list string * list string) :=
  (λ kv, (switch_targets kv.2, sh_downstream (shape_of kv)))
    <$> filter (λ kv, sh_name (shape_of kv) = "Switch") (items_of (obj_get "components" dsl)).

(** The same elements *)
Definition same_set {A} (l l' : list A) : Prop := ∀ x, x ∈ l ↔ x ∈ l'.

(** What makes a graph consistent: links and drawing agree, a switch jumps exactly
    along its links, every link goes up in some rank, every component is reached from
    the first one, and only messages have nothing below them. *)
Record consistent_graph (dsl : json) : Prop := {
  cg_ids : NoDup (sh_id <$> shapes dsl);
  cg_links : same_set (links_down (shapes dsl)) (links_up (shapes dsl));
  cg_closed a b : (a, b) ∈ links_down (shapes dsl) → b ∈ sh_id <$> shapes dsl;
  cg_nodes : drawn_nodes dsl = _nid <$> (sh_id <$> shapes dsl);
  cg_node_ids : NoDup (drawn_nodes dsl);
  cg_drawn : same_set (drawn_links dsl) ((λ e, (_nid e.1, _nid e.2)) <$> links_down (shapes dsl));
  cg_switches ts ds : (ts, ds) ∈ switches dsl → same_set ts ds;
  cg_ranked : ∃ rank : string → nat,
    ∀ a b, (a, b) ∈ links_down (shapes dsl) → (rank a < rank b)%nat;
  cg_reached c : c ∈ sh_id <$> shapes dsl →
    rtc (λ a b, (a, b) ∈ links_down (shapes dsl)) "begin" c;
  cg_sinks s : s ∈ shapes dsl → sh_downstream s = [] ↔ sh_name s = "Message" }.

(** ** The shape does not depend on the model and the knowledge bases *)

Definition flow_shapes : list Shape := Eval vm_compute in shapes (build_qms_3core_dsl "" []).

Lemma flow_shapes_eq llm kbs : shapes (build_qms_3core_dsl llm kbs) = flow_shapes.
Proof. vm_compute. reflexivity. Qed.

Definition flow_nodes : list string := Eval vm_compute in drawn_nodes (build_qms_3core_dsl "" []).
Lemma flow_nodes_eq llm kbs : drawn_nodes (build_qms_3core_dsl llm kbs) = flow_nodes.
Proof. vm_compute. reflexivity. Qed.

Definition flow_links : list (string * string) :=
  Eval vm_compute in drawn_links (build_qms_3core_dsl "" []).
Lemma flow_links_eq llm kbs : drawn_links (build_qms_3core_dsl llm kbs) = flow_links.
Proof. vm_compute. reflexivity. Qed.

Definition flow_switches : list (list string * list string) :=
  Eval vm_compute in switches (build_qms_3core_dsl "" []).
Lemma flow_switches_eq llm kbs : switches (build_qms_3core_dsl llm kbs) = flow_switches.
Proof. vm_compute. reflexivity. Qed.

(** ** Deciding the properties *)

Ltac decided := apply (bool_decide_unpack _); vm_compute; exact I.

Lemma same_set_dec {A} `{EqDecision A} (l l' : list A) :
  forallb (λ x, bool_decide (x ∈ l')) l && forallb (λ x, bool_decide (x ∈ l)) l' = true →
  same_set l l'.
Proof.
  intros [H1 H2]%andb_true_iff x. rewrite forallb_forall in H1, H2.
  split; intros Hx%list_elem_of_In.
  - by specialize (H1 _ Hx); apply bool_decide_eq_true_1 in H1.
  - by specialize (H2 _ Hx); apply bool_decide_eq_true_1 in H2.
Qed.

(** One round of the longest paths: a component is one above all that name it. *)
Definition raise_ranks (links : list (string * string)) (r : string → nat) (c : string) : nat :=
  foldr (λ e m, if decide (e.2 = c) then Nat.max (S (r e.1)) m else m) O links.

Fixpoint ranks (n : nat) (links : list (string * string)) (ids : list string) : list (string * nat) :=
  match n with
  | O => (λ c, (c, O)) <$> ids
  | S n' =>
      let t := ranks n' links ids in
      (λ c, (c, raise_ranks links (λ a, default O (dict_get a t)) c)) <$> ids
  end.

Definition flow_ranks : list (string * nat) :=
  Eval vm_compute in ranks 24 (links_down flow_shapes) (sh_id <$> flow_shapes).
Definition flow_rank (c : string) : nat := default O (dict_get c flow_ranks).

Lemma flow_rank_step a b : (a, b) ∈ links_down flow_shapes → (flow_rank a < flow_rank b)%nat.
Proof.
  assert (Forall (λ e, (flow_rank e.1 < flow_rank e.2)%nat) (links_down flow_shapes)) as H
    by decided.
  rewrite Forall_forall in H. apply (H (a, b)).
Qed.

Lemma flow_reached c :
  c ∈ sh_id <$> flow_shapes → rtc (λ a b, (a, b) ∈ links_down flow_shapes) "begin" c.
Proof.
  assert (Forall (λ c, c = "begin" ∨
      Exists (λ e, e.2 = c ∧ e.1 ∈ sh_id <$> flow_shapes) (links_down flow_shapes))
    (sh_id <$> flow_shapes)) as Hup by decided.
  rewrite Forall_forall in Hup.
  remember (flow_rank c) as n eqn:Hn. revert c Hn.
  induction (lt_wf n) as [n _ IH]. intros c -> Hc.
  destruct (Hup c Hc) as [->|([a b] & He & <- & Ha)%Exists_exists]; [done|]. simpl in *.
  eapply rtc_r; [|exact He]. by apply (IH (flow_rank a)); [apply flow_rank_step| |].
Qed.

(** C14. The graph the script builds is consistent for every model and every list of
    knowledge bases: downstream and upstream mirror each other and the drawn edges, the
    nodes are the components, switches jump along their links, there is no cycle, every
    component is reached, and exactly the messages end the flow. *)
Theorem qms_flow_consistent llm kbs : consistent_graph (build_qms_3core_dsl llm kbs).
Proof.
  split; rewrite ?flow_shapes_eq, ?flow_nodes_eq, ?flow_links_eq, ?flow_switches_eq.
  - decided.
  - apply same_set_dec. vm_compute. reflexivity.
  - intros a b. assert (Forall (λ e, e.2 ∈ sh_id <$> flow_shapes) (links_down flow_shapes)) as H
      by decided.
    rewrite Forall_forall in H. apply (H (a, b)).
  - vm_compute. reflexivity.
  - decided.
  - apply same_set_dec. vm_compute. reflexivity.
  - intros ts ds H. repeat (apply elem_of_cons in H as [[= -> ->]|H];
      [apply same_set_dec; vm_compute; reflexivity|]). by apply not_elem_of_nil in H.
  - exists flow_rank. apply flow_rank_step.
  - apply flow_reached.
  - intros s. assert (Forall (λ s, sh_downstream s = [] ↔ sh_name s = "Message") flow_shapes) as H
      by decided.
    rewrite Forall_forall in H. apply H.
Qed.
