(* ===== verification/Canvas.v ===== *)
(** The state of an agent canvas and the variables in it: [Graph] and [Canvas] of
    canvas.py, [ComponentBase] of component/base.py.

    A component object is its name, the attributes of its parameters, its inputs and
    outputs and the counter of loop and iteration items. A stream that has not been
    read is a [functools.partial] object: a [PBase] with the bound method and the
    argument. A path holds the ids of components that exist or not. *)
From S2P Require Import Prelude Float PyText Json Dsl Effects Comp Regex Refs PyNum PyOps.
Open Scope Z_scope.

Abbreviation fields := (list (string * pyv)).

Record Cpn := {
  cp_component_name : string;
  cp_param : fields;                        (* [_param], but for inputs and outputs *)
  cp_inputs : list (string * fields);       (* [_param.inputs] *)
  cp_outputs : list (string * fields);      (* [_param.outputs] *)
  cp_idx : Z;                               (* [_idx] of LoopItem and IterationItem *)
  cp_downstream : list string;
  cp_upstream : list string;
  cp_parent_id : option string }.

Record Canvas := {
  cv_components : list (string * Cpn);
  cv_path : list string;
  cv_globals : fields;
  cv_variables : fields;
  cv_history : list (string * pyv);
  cv_retrieval : pyv;
  cv_memory : pyv;
  cv_error : pyv;
  cv_nodes : list (string * string);        (* the id and the name of each drawn node *)
  cv_tenant_id : pyv;
  cv_task_id : string;
  cv_message_id : string }.

(** Assignments to one attribute *)
Definition set_outputs o c := {| cp_component_name := cp_component_name c; cp_param := cp_param c;
  cp_inputs := cp_inputs c; cp_outputs := o; cp_idx := cp_idx c; cp_downstream := cp_downstream c;
  cp_upstream := cp_upstream c; cp_parent_id := cp_parent_id c |}.
Definition set_inputs i c := {| cp_component_name := cp_component_name c; cp_param := cp_param c;
  cp_inputs := i; cp_outputs := cp_outputs c; cp_idx := cp_idx c; cp_downstream := cp_downstream c;
  cp_upstream := cp_upstream c; cp_parent_id := cp_parent_id c |}.
Definition set_idx z c := {| cp_component_name := cp_component_name c; cp_param := cp_param c;
  cp_inputs := cp_inputs c; cp_outputs := cp_outputs c; cp_idx := z; cp_downstream := cp_downstream c;
  cp_upstream := cp_upstream c; cp_parent_id := cp_parent_id c |}.
Definition set_param p c := {| cp_component_name := cp_component_name c; cp_param := p;
  cp_inputs := cp_inputs c; cp_outputs := cp_outputs c; cp_idx := cp_idx c; cp_downstream := cp_downstream c;
  cp_upstream := cp_upstream c; cp_parent_id := cp_parent_id c |}.

Definition set_components m c := {| cv_components := m; cv_path := cv_path c; cv_globals := cv_globals c;
  cv_variables := cv_variables c; cv_history := cv_history c; cv_retrieval := cv_retrieval c;
  cv_memory := cv_memory c; cv_error := cv_error c; cv_nodes := cv_nodes c; cv_tenant_id := cv_tenant_id c;
  cv_task_id := cv_task_id c; cv_message_id := cv_message_id c |}.
Definition set_path p c := {| cv_components := cv_components c; cv_path := p; cv_globals := cv_globals c;
  cv_variables := cv_variables c; cv_history := cv_history c; cv_retrieval := cv_retrieval c;
  cv_memory := cv_memory c; cv_error := cv_error c; cv_nodes := cv_nodes c; cv_tenant_id := cv_tenant_id c;
  cv_task_id := cv_task_id c; cv_message_id := cv_message_id c |}.
Definition set_globals g c := {| cv_components := cv_components c; cv_path := cv_path c; cv_globals := g;
  cv_variables := cv_variables c; cv_history := cv_history c; cv_retrieval := cv_retrieval c;
  cv_memory := cv_memory c; cv_error := cv_error c; cv_nodes := cv_nodes c; cv_tenant_id := cv_tenant_id c;
  cv_task_id := cv_task_id c; cv_message_id := cv_message_id c |}.
Definition set_variables v c := {| cv_components := cv_components c; cv_path := cv_path c;
  cv_globals := cv_globals c; cv_variables := v; cv_history := cv_history c; cv_retrieval := cv_retrieval c;
  cv_memory := cv_memory c; cv_error := cv_error c; cv_nodes := cv_nodes c; cv_tenant_id := cv_tenant_id c;
  cv_task_id := cv_task_id c; cv_message_id := cv_message_id c |}.
Definition set_history h c := {| cv_components := cv_components c; cv_path := cv_path c;
  cv_globals := cv_globals c; cv_variables := cv_variables c; cv_history := h; cv_retrieval := cv_retrieval c;
  cv_memory := cv_memory c; cv_error := cv_error c; cv_nodes := cv_nodes c; cv_tenant_id := cv_tenant_id c;
  cv_task_id := cv_task_id c; cv_message_id := cv_message_id c |}.
Definition set_retrieval r c := {| cv_components := cv_components c; cv_path := cv_path c;
  cv_globals := cv_globals c; cv_variables := cv_variables c; cv_history := cv_history c; cv_retrieval := r;
  cv_memory := cv_memory c; cv_error := cv_error c; cv_nodes := cv_nodes c; cv_tenant_id := cv_tenant_id c;
  cv_task_id := cv_task_id c; cv_message_id := cv_message_id c |}.
Definition set_memory m c := {| cv_components := cv_components c; cv_path := cv_path c;
  cv_globals := cv_globals c; cv_variables := cv_variables c; cv_history := cv_history c;
  cv_retrieval := cv_retrieval c; cv_memory := m; cv_error := cv_error c; cv_nodes := cv_nodes c;
  cv_tenant_id := cv_tenant_id c; cv_task_id := cv_task_id c; cv_message_id := cv_message_id c |}.
Definition set_error e c := {| cv_components := cv_components c; cv_path := cv_path c;
  cv_globals := cv_globals c; cv_variables := cv_variables c; cv_history := cv_history c;
  cv_retrieval := cv_retrieval c; cv_memory := cv_memory c; cv_error := e; cv_nodes := cv_nodes c;
  cv_tenant_id := cv_tenant_id c; cv_task_id := cv_task_id c; cv_message_id := cv_message_id c |}.
Definition set_message_id i c := {| cv_components := cv_components c; cv_path := cv_path c;
  cv_globals := cv_globals c; cv_variables := cv_variables c; cv_history := cv_history c;
  cv_retrieval := cv_retrieval c; cv_memory := cv_memory c; cv_error := cv_error c; cv_nodes := cv_nodes c;
  cv_tenant_id := cv_tenant_id c; cv_task_id := cv_task_id c; cv_message_id := i |}.

(** ** Values *)

Definition get (k : string) (dflt : pyv) (d : fields) : pyv := default dflt (dict_get k d).

(** [isinstance(v, partial)], and the partial [partial(self.method, arg)] of the
    component [cid] *)
Definition is_partial (v : pyv) : bool :=
  match v with PBase attrs => bool_decide (is_Some (dict_get "func" attrs)) | _ => false end.
Definition partial_of (cid method : string) (arg : string) : pyv :=
  PBase [("func", PBase [("__self__", PStr cid); ("__name__", PStr method)]); ("args", PList [PStr arg])].
Definition partial_parts (v : pyv) : option (string * string * string) :=
  match v with
  | PBase [("func", PBase [("__self__", PStr cid); ("__name__", PStr m)]); ("args", PList [PStr a])] =>
      Some (cid, m, a)
  | _ => None
  end.

Definition attribute_error : exn := OtherError "AttributeError".
Definition key_error (k : string) : exn := OtherError (repr_str k).

(** A text where the code calls a method of [str] on a value *)
Definition as_str (v : pyv) : res string := match v with PStr s => Ok s | _ => Err attribute_error end.
(** The elements a [for] loop visits *)
Definition as_iter (v : pyv) : res (list pyv) :=
  match v with
  | PList l => Ok l
  | PDict kvs => Ok (PStr ∘ fst <$> kvs)
  | PStr s => Ok ((λ c, PStr (of_codes [c])) <$> codes s)
  | _ => Err exn_type
  end.
Definition as_strs (v : pyv) : res (list string) := l ← as_iter v; res_mapM as_str l.
(** [v[k]], [v.get(k)] of a dict *)
Definition item (k : string) (v : pyv) : res pyv :=
  match v with
  | PDict kvs => match dict_get k kvs with Some x => Ok x | None => Err (key_error k) end
  | _ => Err exn_type
  end.
Definition get_item (k : string) (dflt : pyv) (v : pyv) : res pyv :=
  match v with PDict kvs => Ok (get k dflt kvs) | _ => Err attribute_error end.

(** [json.dumps(v, ensure_ascii=False)] *)
Definition dumps (v : pyv) : res string :=
  match to_json v with Some j => Ok (json_dumps j) | None => Err exn_type end.

Definition py_strip_char (c : ascii) (s : string) : string :=
  py_rstrip c (of_bytes (bytes_rstrip1 c (to_bytes s))).

(** ** Component objects *)

Definition component_of (c : Canvas) (cid : string) : option Cpn := dict_get cid (cv_components c).
(** [self.components.get(cid)["obj"]] *)
Definition get_component_obj (c : Canvas) (cid : string) : res Cpn :=
  match component_of c cid with Some o => Ok o | None => Err exn_type end.
Definition get_component_type (c : Canvas) (cid : string) : res string :=
  o ← get_component_obj c cid; Ok (cp_component_name o).
Definition get_component_name (c : Canvas) (cid : string) : string :=
  default "" (snd <$> fetchone (λ n, n.1 = cid) (cv_nodes c)).

(** [component_name.lower() == name] *)
Definition is_kind (name : string) (o : Cpn) : bool := bool_decide (py_lower (cp_component_name o) = name).
Definition kind_in (names : list string) (o : Cpn) : bool :=
  bool_decide (py_lower (cp_component_name o) ∈ names).

(** [self._param.k], [None] when the attribute does not exist *)
Definition param (k : string) (o : Cpn) : pyv := get k PNone (cp_param o).
Definition fields_dict (m : list (string * fields)) : pyv := PDict ((λ kv, (kv.1, PDict kv.2)) <$> m).
Definition get_param (o : Cpn) (name : string) : pyv :=
  if decide (name = "inputs") then fields_dict (cp_inputs o)
  else if decide (name = "outputs") then fields_dict (cp_outputs o)
  else param name o.

Definition output (o : Cpn) (var_nm : string) : pyv :=
  get "value" (PStr "") (default [] (dict_get var_nm (cp_outputs o))).
(** [output()] of all of them *)
Definition outputs (o : Cpn) : pyv := PDict ((λ kv, (kv.1, get "value" PNone kv.2)) <$> cp_outputs o).

Definition type_name (v : pyv) : string :=
  match v with
  | PNone => "<class 'NoneType'>" | PBool _ => "<class 'bool'>" | PInt _ => "<class 'int'>"
  | PFloat _ => "<class 'float'>" | PStr _ => "<class 'str'>" | PList _ => "<class 'list'>"
  | PDict _ => "<class 'dict'>" | PBase _ => "<class 'functools.partial'>"
  end.

Definition set_output (key : string) (value : pyv) (o : Cpn) : Cpn :=
  let old := default [("value", PNone); ("type", PStr (type_name value))] (dict_get key (cp_outputs o)) in
  set_outputs (dict_set key (dict_set "value" value old) (cp_outputs o)) o.

Definition error (o : Cpn) : pyv := get "value" PNone (default [] (dict_get "_ERROR" (cp_outputs o))).

Definition get_input_value (o : Cpn) (key : string) : pyv :=
  get "value" PNone (default [] (dict_get key (cp_inputs o))).

Definition set_input_value (key : string) (value : pyv) (o : Cpn) : Cpn :=
  let old := default [("value", PNone)] (dict_get key (cp_inputs o)) in
  set_inputs (dict_set key (dict_set "value" value old) (cp_inputs o)) o.

Definition reset (only_output : bool) (o : Cpn) : Cpn :=
  let clear (m : list (string * fields)) := (λ kv, (kv.1, dict_set "value" PNone kv.2)) <$> m in
  let o := set_outputs (clear (cp_outputs o)) o in
  if only_output then o
  else set_param (dict_set "debug_inputs" (PDict []) (cp_param o)) (set_inputs (clear (cp_inputs o)) o).

(** [None], or what to do instead *)
Definition exception_handler (o : Cpn) : option (pyv * pyv) :=
  if py_bool (param "exception_method" o)
  then Some (param "exception_goto" o, param "exception_default_value" o) else None.

Definition get_exception_default_value (o : Cpn) : pyv :=
  if py_eq (param "exception_method" o) (PStr "comment") then param "exception_default_value" o
  else PStr "".
Definition set_exception_default_value (o : Cpn) : Cpn := set_output "result" (get_exception_default_value o) o.

(** Replaces the object of a component that exists *)
Definition put (cid : string) (o : Cpn) (c : Canvas) : Canvas :=
  set_components (dict_set cid o (cv_components c)) c.
Definition update_cpn (cid : string) (f : Cpn → Cpn) (c : Canvas) : Canvas :=
  match component_of c cid with Some o => put cid (f o) c | None => c end.

(** [get_parent()] *)
Definition get_parent (c : Canvas) (o : Cpn) : res (option (string * Cpn)) :=
  match cp_parent_id o with
  | Some pid => if truthy pid then p ← get_component_obj c pid; Ok (Some (pid, p)) else Ok None
  | None => Ok None
  end.
(** An attribute of the parent *)
Definition parent_of (c : Canvas) (o : Cpn) : res (string * Cpn) :=
  p ← get_parent c o; match p with Some p => Ok p | None => Err attribute_error end.

(** ** Variables *)

(** [variable_ref_patt], with [re.IGNORECASE] or without: then the classes and the
    names of the scopes also match the other case, and the letters of Unicode that
    fold to ASCII. *)
Definition folded (b : bool) (P : N → bool) (c : N) : bool :=
  P c || b && ((range 65 90 c && P (c + 32)%N) || (range 97 122 c && P (c - 32)%N)
    || ((c =? 304) || (c =? 305))%N && P 105%N || (c =? 383)%N && P 115%N || (c =? 8490)%N && P 107%N).
Definition lit_fold (b : bool) (s : string) : re :=
  foldr (λ c r, Seq (Cls (folded b (N.eqb c))) r) Eps (codes s).
Definition some_of (b : bool) (extra : string) : re :=
  Rep true 1 None (Cls (folded b (λ c, range 97 122 c || range 65 90 c || range 48 57 c || one_of extra c))).
Definition variable_ref_patt (b : bool) : re :=
  Seq (Rep true 0 None (lit "{")) (Seq (Rep true 0 None (lit " ")) (Seq (lit "{")
    (Seq (Grp (Alt (Seq (some_of b ":_.-") (Seq (lit "@") (some_of b "_.-")))
                   (Alt (Seq (lit_fold b "sys.") (some_of b "_."))
                        (Seq (lit_fold b "env.") (some_of b "_.")))))
      (Seq (lit "}") (Seq (Rep true 0 None (lit " ")) (Rep true 0 None (lit "}"))))))).

Definition strip_braces (exp : string) : string :=
  py_strip_char "}" (py_strip_char "{" (py_strip_char " " (py_strip_char "}" (py_strip_char "{" exp)))).

(** [a, b = exp.split("@")] *)
Definition split_at (exp : string) : res (string * string) :=
  match py_split "@" exp with [a; b] => Ok (a, b) | _ => Err (ValueError "too many values to unpack") end.
(** [var_nm.split(".", 1)] *)
Definition split_dot (var_nm : string) : string * string := default (var_nm, "") (py_split1 "." var_nm).

(** One step of a path into a value *)
Definition path_step (cur : pyv) (key : string) : pyv :=
  let cur := match cur with PStr s => default PNone (of_json <$> json_loads s) | _ => cur end in
  match cur with
  | PDict kvs => get key PNone kvs
  | PList l =>
      match py_int key with
      | Some z =>
          let i := if decide (z < 0) then z + Z.of_nat (length l) else z in
          if decide (i < 0) then PNone else default PNone (l !! Z.to_nat i)
      | None => PNone
      end
  | PBase attrs => get key PNone attrs
  | _ => PNone
  end.

Definition get_variable_param_value (obj : pyv) (path : string) : pyv :=
  if truthy path then foldl path_step obj (py_split "." path) else obj.

Definition no_variable (cpn_id var_nm : string) : exn :=
  OtherError ("Can't find variable: '" +:+ cpn_id +:+ "@" +:+ var_nm +:+ "'").

Definition get_variable_value (c : Canvas) (exp : string) : res pyv :=
  let exp := strip_braces exp in
  if negb (py_in "@" exp) then
    match dict_get exp (cv_globals c) with Some v => Ok v | None => Err (key_error exp) end
  else
    '(cpn_id, var_nm) ← split_at exp;
    match component_of c cpn_id with
    | None => Err (no_variable cpn_id var_nm)
    | Some o =>
        let '(root_key, rest) := split_dot var_nm in
        let root_val := output o root_key in
        Ok (if truthy rest then get_variable_param_value root_val rest else root_val)
    end.

(** The loop of [set_variable_param_value]: [cur = cur[key]] for every key, the last
    one included, then [cur[keys[-1]] = value] *)
Fixpoint set_keys (last : string) (value : pyv) (keys : list string) (cur : fields) : fields :=
  match keys with
  | [] => dict_set last value cur
  | key :: keys =>
      let sub := match dict_get key cur with Some (PDict d) => d | _ => [] end in
      dict_set key (PDict (set_keys last value keys sub)) cur
  end.

Definition set_variable_param_value (obj : pyv) (path : string) (value : pyv) : res pyv :=
  if truthy path then
    let keys := py_split "." path in
    match obj with
    | PDict d => Ok (PDict (set_keys (List.last keys "") value keys d))
    | _ => Err exn_type
    end
  else Ok value.

Definition set_variable_value (c : Canvas) (exp : string) (value : pyv) : res Canvas :=
  let exp := strip_braces exp in
  if negb (py_in "@" exp) then Ok (set_globals (dict_set exp value (cv_globals c)) c)
  else
    '(cpn_id, var_nm) ← split_at exp;
    match component_of c cpn_id with
    | None => Err (no_variable cpn_id var_nm)
    | Some o =>
        let '(root_key, rest) := split_dot var_nm in
        if truthy rest then
          let root_val := output o root_key in
          v ← set_variable_param_value (if py_bool root_val then root_val else PDict []) rest value;
          Ok (put cpn_id (set_output root_key v o) c)
        else Ok (put cpn_id (set_output root_key value o) c)
    end.

Definition is_reff (c : Canvas) (exp : string) : bool :=
  let exp := py_strip_char "}" (py_strip_char "{" exp) in
  if negb (py_in "@" exp) then bool_decide (is_Some (dict_get exp (cv_globals c)))
  else match py_split "@" exp with
       | [a; _] => bool_decide (is_Some (component_of c a))
       | _ => false
       end.

(** A stream of a component is an asynchronous generator: a [for] loop over it is a
    [TypeError]. *)
Definition value_text (v : pyv) : res string :=
  match v with
  | PNone => Ok ""
  | PStr s => Ok s
  | _ => if is_partial v then Err exn_type else dumps v
  end.

(** [f] of every reference in place of it *)
Definition subst_refs (b : bool) (f : string → res string) (text : string) : res string :=
  let '(l, tail) := finditer (variable_ref_patt b) (codes text) in
  parts ← res_mapM (λ m, r ← f (of_codes m.2); Ok (m.1.1 ++ codes r)) l;
  Ok (of_codes (concat parts ++ tail)).

Definition get_value_with_variable (c : Canvas) (value : string) : res string :=
  subst_refs false (λ key, v ← get_variable_value c key; value_text v) value.

(** The references of a text, in its order *)
Definition refs_of_text (b : bool) (txt : string) : list string :=
  (λ m, of_codes m.2) <$> (finditer (variable_ref_patt b) (codes txt)).1.

Definition get_input_elements_from_text (c : Canvas) (txt : string) : res (list (string * fields)) :=
  foldl (λ acc exp,
      r ← acc;
      '(cpn_id, var_nm) ← (if py_in "@" exp then split_at exp else Ok ("", exp));
      v ← get_variable_value c exp;
      retrieval ← (if truthy cpn_id then get_variable_value c (cpn_id +:+ "@_references") else Ok PNone);
      let name := if truthy cpn_id then get_component_name c cpn_id +:+ "@" +:+ var_nm else exp in
      Ok (dict_set exp [("name", PStr name); ("value", v); ("_retrieval", retrieval);
                        ("_cpn_id", PStr cpn_id)] r))
    (Ok []) (refs_of_text true txt).

(** The texts of a component that refer to variables: [None] for a component whose
    inputs are those of its parameters *)
Definition prompt_texts (o : Cpn) : res (list string) :=
  sys ← as_str (param "sys_prompt" o);
  match param "prompts" o with
  | PStr p => Ok [sys; p]
  | ps => l ← as_iter ps; us ← res_mapM (λ p, x ← item "content" p; as_str x) l; Ok (sys :: us)
  end.

Definition input_texts (o : Cpn) : option (res (list string)) :=
  let name := cp_component_name o in
  if decide (name = "Message") then
    Some (l ← as_strs (param "content" o); Ok [py_join "" l])
  else if decide (name = "StringTransform") then Some (s ← as_str (param "script" o); Ok [s])
  else if decide (name = "Categorize") then
    Some (q ← as_str (if py_bool (param "query" o) then param "query" o else PStr "sys.query");
          Ok ["{" +:+ q +:+ "}"])
  else if decide (name = "LLM" ∨ name = "Agent") then Some (prompt_texts o)
  else None.

Definition get_input_elements (c : Canvas) (o : Cpn) : res (list (string * fields)) :=
  match input_texts o with
  | None => Ok (cp_inputs o)
  | Some texts =>
      l ← texts;
      foldl (λ acc t, r ← acc; d ← get_input_elements_from_text c t;
                      Ok (foldl (λ r kv, dict_set kv.1 kv.2 r) r d)) (Ok []) l
  end.

(** [get_input()]: the inputs that are attributes of the parameters, and the component
    with the values it was given *)
Definition get_input (c : Canvas) (o : Cpn) : res (fields * Cpn) :=
  els ← get_input_elements c o;
  foldl (λ acc kv,
      '(r, o) ← acc;
      let v := get_param o kv.1 in
      match v with
      | PNone => Ok (r, o)
      | _ =>
          v ← match v with
              | PStr s => if is_reff c s then get_variable_value c s else Ok v
              | _ => Ok v
              end;
          let o := set_input_value kv.1 v o in
          Ok (dict_set kv.1 (get_input_value o kv.1) r, o)
      end) (Ok ([], o)) els.

Definition get_input_values (c : Canvas) (o : Cpn) : res pyv :=
  let debug := param "debug_inputs" o in
  if py_bool debug then Ok debug
  else els ← get_input_elements c o;
       Ok (PDict ((λ kv, (kv.1, get_input_value o kv.1)) <$> els)).
