(* ===== verification/LlmStream.v ===== *)
(** The text deltas of a streamed answer ([delta] in component/llm.py): a model
    returns longer and longer texts, the canvas hands on what each one adds and the
    marks around a thinking part. *)
From S2P Require Import Prelude PyText Regex Refs.
Open Scope Z_scope.

(** [s[a:]] and [s[a:b]]: a negative index counts from the end. *)
Definition slice_pos {A} (l : list A) (i : Z) : nat :=
  let n := Z.of_nat (length l) in
  Z.to_nat (if decide (i < 0) then Z.max 0 (i + n) else Z.min i n).
Definition slice_from {A} (l : list A) (a : Z) : list A := drop (slice_pos l a) l.
Definition slice {A} (l : list A) (a b : Z) : list A :=
  take (slice_pos l b - slice_pos l a) (slice_from l a).

(** [s.find(p)] *)
Fixpoint find_from (i : Z) (s p : list N) : Z :=
  if decide (take (length p) s = p) then i
  else match s with [] => -1 | _ :: s' => find_from (i + 1) s' p end.
Definition find (s p : list N) : Z := find_from 0 s p.
Definition ends_with (s p : list N) : bool := bool_decide (drop (length s - length p) s = p).

Definition think_open : list N := codes "<think>".
Definition think_close : list N := codes "</think>".

Record DeltaState := { ds_answer : list N; ds_last_idx : Z; ds_endswith_think : bool }.
Definition delta_start : DeltaState :=
  {| ds_answer := []; ds_last_idx := 0; ds_endswith_think := false |}.

(** [re.sub(r"(<think>|</think>)", "", s)] *)
Definition drop_marks (s : list N) : list N :=
  let '(l, tail) := finditer (Alt (lit "<think>") (lit "</think>")) s in
  concat ((λ m, m.1.1) <$> l) ++ tail.

(** [delta(txt)]: the text to hand on, and the next state. The second branch looks for
    the mark in the part of the text before it, where it is not: [find] is -1. *)
Definition delta (st : DeltaState) (txt : list N) : list N * DeltaState :=
  let last_idx := ds_last_idx st in
  let delta_ans := slice_from txt last_idx in
  let i := find delta_ans think_open in
  let at_idx z e := {| ds_answer := txt; ds_last_idx := z; ds_endswith_think := e |} in
  let rest e :=
    let len := Z.of_nat (length txt) in
    (drop_marks delta_ans, at_idx (if ends_with txt think_close then len - 8 else len) e) in
  if decide (i = 0) then (think_open, at_idx (last_idx + 7) (ds_endswith_think st))
  else if decide (i > 0) then
    let delta_ans := slice txt last_idx (last_idx + i) in
    (delta_ans, at_idx (last_idx + find delta_ans think_open) (ds_endswith_think st))
  else if ends_with delta_ans think_close then rest true
  else if ds_endswith_think st then (think_close, at_idx last_idx false)
  else rest (ds_endswith_think st).

Fixpoint deltas (st : DeltaState) (txts : list (list N)) : list (list N) * DeltaState :=
  match txts with
  | [] => ([], st)
  | t :: txts => let '(d, st) := delta st t in let '(ds, st) := deltas st txts in (d :: ds, st)
  end.

Definition delta_texts (txts : list string) : list string :=
  of_codes <$> (deltas delta_start (codes <$> txts)).1.
Example deltas_ex :
  (delta_texts ["Hi"; "Hi there"; "Hi there!"],
   delta_texts ["<think>"; "<think>a"; "<think>a</think>"; "<think>a</think>b"; "<think>a</think>bc"])
  = (["Hi"; " there"; "!"], ["<think>"; "a"; ""; "</think>"; "bc"]).
Proof. vm_compute. reflexivity. Qed.

(** ** Texts without marks *)

Definition plain (s : list N) : Prop := Forall (λ c, c ≠ 60%N) s.

Lemma find_from_plain i s p : plain s → find_from i s (60%N :: p) = -1.
Proof.
  intros Hs. revert i. induction Hs as [|c s Hc Hs IH]; intros i; simpl; [done|].
  case_decide as H; [by injection H|]. apply IH.
Qed.

Lemma search_plain s : plain s → search (Alt (lit "<think>") (lit "</think>")) s = None.
Proof.
  assert (∀ r1 r2 s, plain s → match_at (Alt (Seq (Cls (N.eqb 60)) r1) (Seq (Cls (N.eqb 60)) r2)) s = None)
    as Hm.
  { intros r1 r2 [|c t] H; [done|]. apply Forall_cons in H as [Hc _].
    unfold match_at. cbn -[N.eqb]. rewrite (proj2 (N.eqb_neq 60 c)) by done. done. }
  assert (lit "<think>" = Seq (Cls (N.eqb 60)) (lit "think>")) as -> by reflexivity.
  assert (lit "</think>" = Seq (Cls (N.eqb 60)) (lit "/think>")) as -> by reflexivity.
  intros Hs. induction Hs as [|c s Hc Hs IH]; [done|].
  cbn [search]. rewrite (Hm _ _ (c :: s)) by (by constructor). apply IH.
Qed.

Lemma drop_marks_plain s : plain s → drop_marks s = s.
Proof.
  intros Hs. unfold drop_marks, finditer. destruct s as [|c s]; [done|].
  cbn [length finditer_go]. by rewrite search_plain.
Qed.

Lemma ends_with_plain s : plain s → ends_with s think_close = false.
Proof.
  intros Hs. apply bool_decide_eq_false_2. intros H.
  assert (60%N ∈ s) as Hin.
  { rewrite <-(take_drop (length s - length think_close) s), H. apply elem_of_app. right. by left. }
  by apply (proj1 (Forall_forall _ _) Hs 60%N Hin).
Qed.

Lemma slice_from_app (p q : list N) : slice_from (p ++ q) (Z.of_nat (length p)) = q.
Proof.
  unfold slice_from, slice_pos. rewrite length_app. case_decide; [lia|].
  rewrite Z.min_l, Nat2Z.id by lia. by rewrite drop_app_length.
Qed.

Definition read_up_to (p : list N) : DeltaState :=
  {| ds_answer := p; ds_last_idx := Z.of_nat (length p); ds_endswith_think := false |}.

Lemma delta_plain p q : plain (p ++ q) → delta (read_up_to p) (p ++ q) = (q, read_up_to (p ++ q)).
Proof.
  intros Hp. pose proof Hp as [_ Hq]%Forall_app. unfold delta. cbn [read_up_to ds_last_idx ds_endswith_think].
  rewrite slice_from_app. unfold find. change think_open with (60%N :: tail think_open).
  rewrite find_from_plain by done. cbn [decide decide_rel].
  rewrite !ends_with_plain, drop_marks_plain by done. done.
Qed.

(** The answers a model streams: each one extends the one before. *)
Fixpoint growing (p : list N) (parts : list (list N)) : list (list N) :=
  match parts with [] => [] | q :: parts => (p ++ q) :: growing (p ++ q) parts end.

(** Without thinking marks the deltas of a stream put together are the last text
    the model returned, however it was cut. *)
Theorem deltas_lossless parts :
  plain (concat parts) →
  concat (deltas delta_start (growing [] parts)).1 = concat parts ∧
  (deltas delta_start (growing [] parts)).1 = parts.
Proof.
  intros Hp. enough ((deltas delta_start (growing [] parts)).1 = parts) as H by (by rewrite H).
  change delta_start with (read_up_to []). change (concat parts) with ([] ++ concat parts) in Hp.
  revert Hp. generalize (@nil N) as p. induction parts as [|q parts IH]; intros p Hp; [done|].
  cbn [growing deltas]. cbn [concat] in Hp. rewrite app_assoc in Hp.
  rewrite delta_plain by (by apply Forall_app in Hp as [??]).
  specialize (IH _ Hp). destruct (deltas _ _) as [ds st]. simpl in *. by rewrite IH.
Qed.

Lemma deltas_lossless_witness :
  concat (deltas delta_start (growing [] [codes "Hi"; codes " there"])).1 = concat [codes "Hi"; codes " there"] ∧
  (deltas delta_start (growing [] [codes "Hi"; codes " there"])).1 = [codes "Hi"; codes " there"].
Proof.
  apply deltas_lossless. apply (bool_decide_unpack _). vm_compute. exact I.
Defined.

(** A thinking mark behind other text in one piece of the stream: the text before
    it is handed on again with every further piece, each time from one character
    earlier, and the thinking text itself never. *)
Theorem delta_repeats_text :
  delta_texts ["Hello"; "Hello <think>"; "Hello <think>a"; "Hello <think>ab"; "Hello <think>abc"]
  = ["Hello"; " "; "o "; "lo "; "llo "].
Proof. vm_compute. reflexivity. Qed.
