(* ===== verification/Components.v ===== *)
(** The components of a canvas that route, transform and assign (agent/component):
    Switch, Categorize, ListOperations, DataOperations, VariableAggregator,
    VariableAssigner, StringTransform, Message, Loop, LoopItem, Iteration,
    IterationItem, Begin and UserFillUp.

    A component runs on the canvas ([Act Canvas CvCall]). What it does not decide is
    the class [CanvasEnv]: the clock, the cancellation flag in Redis, [random.choice],
    jinja2, the file store, and the components whose work is done elsewhere (language
    models, retrieval and tools). A call of a component is one step: two components
    that run at the same time are run one after the other. *)
From S2P Require Import Prelude Float PyText Json Dsl Effects Comp Regex Refs PyNum PyOps Canvas LlmStream.
Open Scope Z_scope.

(** ** The environment *)

Record Event := {
  ev_event : string; ev_message_id : string; ev_created_at : Z; ev_task_id : string; ev_data : pyv }.

Inductive CvCall :=
  | Yield (e : Event)                                   (* to the caller of [run] *)
  | CallConvert (format content : string)               (* pandoc and the object store *)
  | CallMemory (user_id user_input : pyv) (agent_response : string)   (* [queue_save_to_memory_task] *)
  | CallFiles (files : list pyv)                        (* [FileService.get_files] *)
  | CallTts (text : string)
  | CallChat (cid sys_prompt prompt : string)           (* a language model *)
  | CallComponent (cid : string) (kwargs : fields).     (* any other component *)

(** What another component does to the canvas: outputs and inputs of its own, then
    returns or raises *)
Record OtherRun := { or_outputs : fields; or_inputs : fields; or_result : res unit }.

Class CanvasEnv := {
  cv_now : nat → string;                       (* the date, formatted *)
  cv_time : nat → Z;
  cv_perf : nat → double;                      (* [time.perf_counter()] *)
  cv_uuid : nat → string;
  cv_canceled : nat → bool;                    (* [has_canceled(task_id)] *)
  cv_choice : nat → nat → nat;                 (* the index [random.choice] draws *)
  cv_schedule : nat → nat → list nat;          (* the order in which a batch runs *)
  cv_schedule_perm n k : cv_schedule n k ≡ₚ seq 0 k;
  cv_render : string → fields → res string;    (* a jinja2 template *)
  cv_convert : nat → string → string → option pyv;
  cv_files : nat → list pyv → res pyv;
  cv_tts : nat → string → pyv;
  cv_chat : nat → string → string → res string;              (* one answer *)
  cv_chat_stream : nat → string → string → list (option string);  (* texts, each longer; [None] the token count *)
  cv_other : nat → string → fields → OtherRun;
  cv_class : string → option (fields * list (string * fields) * list (string * fields));
                                               (* the defaults of such a class: parameters, inputs, outputs *)
  cv_check : string → Cpn → res unit;          (* its [check] *)
  cv_construct : Cpn → res unit;               (* the constructor of any class, which may look up models *)
  cv_tool : string → bool;                     (* whether it is a [ToolBase] *)
  cv_async : string → bool;                    (* whether it runs as a coroutine *)
  cv_thoughts : nat → string → res string;     (* of a component that calls a model or a tool *)
  cv_repr : fields → string }.                 (* the [repr] of an object *)

Section components.
Context `{CanvasEnv}.
Abbreviation V := (Act Canvas CvCall).
Definition py_text : pyv → string := py_str cv_repr.

(** [self], and assignments to its object *)
Definition self (cid : string) : V Cpn := c ← gets (λ c, c); ofres (get_component_obj c cid).
Definition update (cid : string) (f : Cpn → Cpn) : V unit := modify (update_cpn cid f).
Definition variable (exp : string) : V pyv := c ← gets (λ c, c); ofres (get_variable_value c exp).

Definition canceled_text : string := "Task has been canceled".
Definition check_if_canceled (cid : string) : V bool :=
  b ← observe cv_canceled;
  if b : bool then update cid (set_output "_ERROR" (PStr canceled_text)) ;; mret true else mret false.

(** [b and self.check_if_canceled(...)] *)
Definition check_if_canceled_if (cid : string) (b : bool) : V bool :=
  if b then check_if_canceled cid else mret false.

(** [if self.check_if_canceled(...): return] *)
Definition unless_canceled (cid : string) (m : V unit) : V unit :=
  b ← check_if_canceled cid; if b : bool then mret () else m.

(** ** Switch *)

Definition lower_of (v : pyv) : res string := s ← as_str v; Ok (py_lower s).

(** [float(input) op float(value)], or [input op value] when one is no number *)
Definition compare_as (fop : double → double → bool) (op : pyv → pyv → res bool) (input value : pyv)
    : res bool :=
  match x ← py_float_of input; y ← py_float_of value; Ok (fop x y) with
  | Ok b => Ok b
  | Err _ => op input value
  end.

Definition process_operator (input : pyv) (operator : string) (value : pyv) : res bool :=
  let two (f : string → string → bool) : res bool :=
    v ← lower_of value; i ← lower_of input; Ok (f v i) in
  if decide (operator = "contains") then two (λ v i, py_in v i)
  else if decide (operator = "not contains") then two (λ v i, negb (py_in v i))
  else if decide (operator = "start with") then two (λ v i, py_startswith i v)
  else if decide (operator = "end with") then two (λ v i, py_endswith i v)
  else if decide (operator = "empty") then Ok (negb (py_bool input))
  else if decide (operator = "not empty") then Ok (py_bool input)
  else if decide (operator = "=") then Ok (py_eq input value)
  else if decide (operator = "≠") then Ok (negb (py_eq input value))
  else if decide (operator = ">") then compare_as (λ x y, flt y x) (λ a b, py_lt b a) input value
  else if decide (operator = "<") then compare_as flt py_lt input value
  else if decide (operator = "≥") then compare_as (λ x y, fle y x) (λ a b, py_le b a) input value
  else if decide (operator = "≤") then compare_as fle py_le input value
  else Err (ValueError ("Not supported operator: " +:+ operator)).

(** The value a condition compares with: [float(operatee)] beside a number *)
Definition operatee (cpn_v : pyv) (it : fields) : res pyv :=
  let v := get "value" (PStr "") it in
  if is_number cpn_v then x ← py_float_of v; Ok (pfloat x) else Ok v.

(** [set_output("next", names); set_output("_next", to)] *)
Definition set_next (cid : string) (to : pyv) : V unit :=
  c ← gets (λ c, c);
  l ← ofres (as_iter to);
  let name v := match v with PStr s => get_component_name c s | _ => "" end in
  update cid (λ o, set_output "_next" to (set_output "next" (PList (PStr ∘ name <$> l)) o)).

(** The loop over the items of a condition, with the outcomes so far: [None] when it
    returned from the component *)
Fixpoint switch_items (cid : string) (cond : pyv) (items : list pyv) (outcomes : list bool)
    : V (option (list bool)) :=
  match items with
  | [] => mret (Some outcomes)
  | it :: items =>
      stop ← check_if_canceled cid;
      if stop : bool then mret None else
      id ← ofres (item "cpn_id" it);
      if negb (py_bool id) then switch_items cid cond items outcomes else
      exp ← ofres (as_str id);
      cpn_v ← variable exp;
      update cid (set_input_value exp cpn_v) ;;
      d ← ofres (match it with PDict d => Ok d | _ => Err attribute_error end);
      v ← ofres (operatee cpn_v d);
      op ← ofres (item "operator" it);
      b ← ofres (match op with PStr op => process_operator cpn_v op v
                 | _ => Err (ValueError ("Not supported operator: " +:+ py_text op)) end);
      let outcomes := outcomes ++ [b] in
      log ← ofres (item "logical_operator" cond);
      if negb (py_eq log (PStr "and")) && existsb (λ b, b) outcomes then
        to ← ofres (item "to" cond); set_next cid to ;; mret None
      else switch_items cid cond items outcomes
  end.

Fixpoint switch_conditions (cid : string) (end_cpn_ids : pyv) (conds : list pyv) : V unit :=
  match conds with
  | [] => set_next cid end_cpn_ids
  | cond :: conds =>
      unless_canceled cid (
        items ← ofres (l ← item "items" cond; as_iter l);
        r ← switch_items cid cond items [];
        match r with
        | None => mret ()
        | Some outcomes =>
            if forallb (λ b, b) outcomes then to ← ofres (item "to" cond); set_next cid to
            else switch_conditions cid end_cpn_ids conds
        end)
  end.

Definition Switch_invoke (cid : string) : V unit :=
  unless_canceled cid (
    o ← self cid;
    conds ← ofres (as_iter (param "conditions" o));
    switch_conditions cid (param "end_cpn_ids" o) conds).

(** ** Categorize *)

(** [s.count(p)] for a text [p] that is not empty *)
Fixpoint bytes_count (fuel : nat) (p b : bytes) : nat :=
  match fuel with
  | O => O
  | S fuel' =>
      match bytes_strip_prefix p b with
      | Some rest => S (bytes_count fuel' p rest)
      | None => match b with [] => O | _ :: b' => bytes_count fuel' p b' end
      end
  end.
Definition py_count (s p : string) : nat := bytes_count (S (String.length s)) (to_bytes p) (to_bytes s).

(** [max(counts.items(), key=...)]: the first of the greatest *)
Fixpoint max_count (best : string * nat) (counts : list (string * nat)) : string * nat :=
  match counts with
  | [] => best
  | c :: counts => max_count (if decide (best.2 < c.2)%nat then c else best) counts
  end.

(** The category an answer names most often, the last one when it names none *)
Definition choose_category (cats : fields) (ans : string) : res (string * pyv) :=
  let counts := (λ c, (c.1, py_count (py_lower ans) (py_lower c.1))) <$> cats in
  match last cats with
  | None => Err (OtherError "list index out of range")
  | Some (c_last, d_last) =>
      to_last ← item "to" d_last;
      match counts with
      | c0 :: rest =>
          if existsb (λ c, negb (c.2 =? 0)%nat) counts then
            let c := (max_count c0 rest).1 in
            to ← item "to" (get c PNone cats); Ok (c, to)
          else Ok (c_last, to_last)
      | [] => Ok (c_last, to_last)
      end
  end.

(** [get_history]: the last questions and answers *)
Definition get_history (c : Canvas) (window_size : Z) : list (string * pyv) :=
  if decide (window_size <= 0) then []
  else
    (λ h, (h.1, match h.2 with PDict d => get "content" (PStr "") d | v => PStr (py_text v) end))
      <$> drop (length (cv_history c) - Z.to_nat (2 * window_size)) (cv_history c).

Definition newline : string := String (ascii_of_N 10) "".
Definition dquote : string := String quote "".
(** A text of several lines *)
Definition lines (l : list string) : string := py_join newline l.

(** [update_prompt] *)
Definition category_lines (cats : fields) : res (list string) :=
  ls ← res_mapM (λ cd,
    examples ← (d ← get_item "examples" (PList []) cd.2; as_iter d);
    res_mapM (λ l, s ← as_str l;
        Ok ("USER: " +:+ dquote +:+ py_replace s newline "    " +:+ dquote +:+ " → " +:+ cd.1))
      (filter (λ l, py_bool l = true) examples)) cats;
  Ok (concat ls).

Definition category_prompt (cats : fields) : res string :=
  cate_lines ← category_lines cats;
  descriptions ← res_mapM (λ cd, d ← get_item "description" PNone cd.2; Ok (cd.1, d)) cats;
  let shown := filter (λ cd, py_bool cd.2 = true) descriptions in
  let descs := (λ cd, lines [""; "------"; "Category: " +:+ cd.1; "Description: " +:+ py_text cd.2]) <$> shown in
  let prompt := lines [
    "";
    "You are an advanced classification system that categorizes user questions into specific types. Analyze the input question and classify it into ONE of the following categories:";
    py_join (newline +:+ " - ") (fst <$> cats);
    "";
    "Here's description of each category:";
    " - " +:+ lines descs;
    "";
    "---- Instructions ----";
    " - Consider both explicit mentions and implied context";
    " - Prioritize the most specific applicable category";
    " - Return only the category name without explanations";
    " - Use " +:+ dquote +:+ "Other" +:+ dquote +:+ " only when no other category fits";
    "";
    " "] in
  Ok (match cate_lines with
      | [] => prompt
      | _ => prompt +:+ lines [""; "---- Examples ----"; lines cate_lines; ""]
      end).

(** The message with the history in which the last question is [query_value] *)
Definition category_question (convs : list (string * pyv)) (query_value : pyv) : res string :=
  let msg := match convs with [] => [("user", query_value)]
             | _ => removelast convs ++ [(fst (List.last convs ("user", PNone)), query_value)] end in
  parts ← res_mapM (λ c, s ← match c.2 with PStr s => Ok s | _ => Err exn_type end;
      Ok (py_upper c.1 +:+ ": " +:+ dquote +:+ py_replace s newline "" +:+ dquote)) msg;
  Ok (lines [""; "---- Real Data ----"; py_join " | " parts +:+ " →"; ""]).

Definition Categorize_invoke (cid : string) (kwargs : fields) : V unit :=
  unless_canceled cid (
    o ← self cid;
    c ← gets (λ c, c);
    window ← ofres (match param "message_history_window_size" o with PInt z => Ok z | _ => Err exn_type end);
    let convs := get_history c window in
    q ← ofres (as_str (if py_bool (param "query" o) then param "query" o else PStr "sys.query"));
    v ← match dict_get q kwargs with Some v => mret v | None => variable q end;
    let v := match v with PNone => PStr "" | _ => v end in
    update cid (set_input_value q v) ;;
    cats ← ofres (match param "category_description" o with PDict d => Ok d | _ => Err attribute_error end);
    sys_prompt ← ofres (category_prompt cats);
    user_prompt ← ofres (category_question convs v);
    unless_canceled cid (
      ans ← call (CallChat cid sys_prompt user_prompt) (λ n, cv_chat n sys_prompt user_prompt);
      if py_in "**ERROR**" ans then fails (OtherError ans) else
      unless_canceled cid (
        '(name, to) ← ofres (choose_category cats ans);
        update cid (λ o, set_output "_next" to (set_output "category_name" (PStr name) o))))).

(** ** ListOperations *)

(** [_norm] *)
Definition norm (v : pyv) : string := match v with PNone => "" | _ => py_text v end.

Definition _eval (v operator : string) (value : pyv) : res bool :=
  if decide (operator = "=") then Ok (py_eq (PStr v) value)
  else if decide (operator = "≠") then Ok (negb (py_eq (PStr v) value))
  else if decide (operator = "contains") then py_contains (PStr v) value
  else
    let two f := match value with PStr p => Ok (f p) | _ => Err exn_type end in
    if decide (operator = "start with") then two (py_startswith v)
    else if decide (operator = "end with") then two (py_endswith v)
    else Ok false.

(** [_hashable]: the tuple of a list or of the sorted items of a dict *)
Fixpoint _hashable (x : pyv) : pyv :=
  match x with
  | PDict kvs =>
      PList ((λ kv, PList [PStr kv.1; kv.2])
        <$> isort (λ a b, str_leb a.1 b.1) (map (λ kv, (kv.1, _hashable kv.2)) kvs))
  | PList l => PList (map _hashable l)
  | _ => x
  end.

(** The elements the list comprehension [[x for x in l if f(x)]] keeps *)
Fixpoint filter_res {A} (f : A → res bool) (l : list A) : res (list A) :=
  match l with
  | [] => Ok []
  | x :: l => b ← f x; l' ← filter_res f l; Ok (if b : bool then x :: l' else l')
  end.

(** The items whose key is not among [seen] or an earlier key *)
Fixpoint drop_duplicates (seen l : list pyv) : list pyv :=
  match l with
  | [] => []
  | x :: l =>
      let k := _hashable x in
      if existsb (py_eq k) seen then drop_duplicates seen l
      else x :: drop_duplicates (seen ++ [k]) l
  end.

Definition _coerce_n (o : Cpn) : Z := match py_int_of (param "n" o) with Ok z => z | Err _ => 0 end.

Definition list_sort (o : Cpn) (inputs : list pyv) : res (list pyv) :=
  let m := param "sort_method" o in
  let reverse := py_eq (if py_bool m then m else PStr "asc") (PStr "desc") in
  match inputs with
  | [] => Ok []
  | PDict _ :: _ => py_sorted _hashable reverse inputs
  | _ => py_sorted (λ x, x) reverse inputs
  end.

(** The outputs of an operation, [None] when there is none of this name *)
Definition list_operation (o : Cpn) (inputs : list pyv) : res (option (list pyv)) :=
  let n := _coerce_n o in
  let len := Z.of_nat (length inputs) in
  match param "operations" o with
  | PStr op =>
      if decide (op = "topN") then
        Ok (Some (if decide (n < 1) then [] else take (Z.to_nat (Z.min n len)) inputs))
      else if decide (op = "head") then
        Ok (Some (if decide (1 <= n <= len) then take 1 (drop (Z.to_nat (n - 1)) inputs) else []))
      else if decide (op = "tail") then
        Ok (Some (if decide (1 <= n <= len) then take 1 (drop (Z.to_nat (len - n)) inputs) else []))
      else if decide (op = "filter") then
        Some <$> filter_res (λ i,
          op ← item "operator" (param "filter" o);
          value ← item "value" (param "filter" o);
          match op with PStr op => _eval (norm i) op value | _ => Ok false end) inputs
      else if decide (op = "sort") then Some <$> list_sort o inputs
      else if decide (op = "drop_duplicates") then Ok (Some (drop_duplicates [] inputs))
      else Ok None
  | _ => Ok None
  end.

(** [outputs[key]["value"] = v] of an output that exists *)
Definition assign_output (key : string) (v : pyv) (o : Cpn) : res Cpn :=
  match dict_get key (cp_outputs o) with
  | Some old => Ok (set_outputs (dict_set key (dict_set "value" v old) (cp_outputs o)) o)
  | None => Err (key_error key)
  end.

Definition update_res (cid : string) (f : Cpn → res Cpn) : V unit :=
  modify_try (λ c, o ← get_component_obj c cid; o' ← f o; Ok (put cid o' c)).

Definition _set_outputs (cid : string) (outs : list pyv) : V unit :=
  update_res cid (assign_output "result" (PList outs)) ;;
  update_res cid (assign_output "first" (default PNone (head outs))) ;;
  update_res cid (assign_output "last" (default PNone (last outs))).

Definition ListOperations_invoke (cid : string) : V unit :=
  o ← self cid;
  inputs ← ofres (as_str (param "query" o));
  v ← variable inputs;
  match v with
  | PList l =>
      update cid (set_input_value inputs v) ;;
      r ← ofres (list_operation o l);
      match r with Some outs => _set_outputs cid outs | None => mret () end
  | _ => fails (OtherError "The input of List Operations should be an array.")
  end.

(** ** DataOperations *)

Definition dicts_of (v : pyv) : list fields :=
  match v with
  | PDict d => [d]
  | PList l => l ≫= λ x, match x with PDict d => [d] | _ => [] end
  | _ => []
  end.

(** A list the parameters hold, [None] and other empty values as the empty one *)
Definition param_list (k : string) (o : Cpn) : res (list pyv) :=
  let v := param k o in if py_bool v then as_iter v else Ok [].

Definition select_keys (keys : pyv) (d : fields) : res fields :=
  filter_res (λ kv, py_contains keys (PStr kv.1)) d.

(** [_combine]: [result[key].extend(value)] extends the list the first object holds,
    which is the list of the result. *)
Definition combine_value (result : fields) (kv : string * pyv) : fields :=
  dict_set kv.1
    (match dict_get kv.1 result, kv.2 with
     | None, v => v
     | Some (PList l), PList l' => PList (l ++ l')
     | Some (PList l), v => PList (l ++ [v])
     | Some x, PList l' => PList (x :: l')
     | Some x, v => PList [x; v]
     end) result.
Definition combine (objs : list fields) : fields := foldl (foldl combine_value) [] objs.

(** [a or b] *)
Definition py_orv (a b : pyv) : pyv := if py_bool a then a else b.

Definition match_rule (c : Canvas) (obj : fields) (rule : pyv) : res bool :=
  k ← get_item "key" PNone rule;
  op ← (v ← get_item "operator" PNone rule; lower_of (py_orv v (PStr "equals")));
  target ← (v ← get_item "value" PNone rule; Ok (norm v));
  target ← (v ← get_value_with_variable c target; Ok (if truthy v then v else target));
  match k with
  | PStr k =>
      match dict_get k obj with
      | None => Ok false
      | Some val =>
          let v := norm val in
          Ok (if decide (op = "=") then bool_decide (v = target)
              else if decide (op = "≠") then bool_decide (v ≠ target)
              else if decide (op = "contains") then py_in target v
              else if decide (op = "start with") then py_startswith v target
              else if decide (op = "end with") then py_endswith v target
              else false)
      end
  | PList _ | PDict _ => Err exn_type
  | _ => Ok false
  end.

(** [all(f(x) for x in l)], which stops at the first that fails *)
Fixpoint all_res {A} (f : A → res bool) (l : list A) : res bool :=
  match l with
  | [] => Ok true
  | x :: l => b ← f x; if b : bool then all_res f l else Ok false
  end.

(** [(item.get(k) or "").strip()] *)
Definition stripped (k : string) (it : pyv) : res string :=
  v ← get_item k PNone it; s ← as_str (py_orv v (PStr "")); Ok (py_strip s).

Definition append_or_update (c : Canvas) (updates : list pyv) (obj : fields) : res fields :=
  foldl (λ acc it,
      d ← acc;
      match it with
      | PDict _ =>
          k ← stripped "key" it;
          if truthy k then
            v ← get_item "value" PNone it;
            s ← match v with PStr s => get_value_with_variable c s | _ => Err exn_type end;
            Ok (dict_set k (if truthy s then PStr s else v) d)
          else Ok d
      | _ => Ok d
      end) (Ok obj) updates.

Definition dict_pop (k : string) (d : fields) : fields := filter (λ kv, kv.1 ≠ k) d.

Definition remove_keys (keys : list pyv) (obj : fields) : fields :=
  foldl (λ d k, match k with PStr k => dict_pop k d | _ => d end) obj keys.

Definition rename_keys (pairs : list pyv) (obj : fields) : res fields :=
  foldl (λ acc pair,
      d ← acc;
      match pair with
      | PDict _ =>
          old ← stripped "old_key" pair;
          new ← stripped "new_key" pair;
          if decide (old = "" ∨ new = "" ∨ old = new) then Ok d
          else match dict_get old d with
               | Some v => Ok (dict_set new v (dict_pop old d))
               | None => Ok d
               end
      | _ => Ok d
      end) (Ok obj) pairs.

(** The value of the output. The branch of [_literal_eval] tests for an operation the
    parameters do not allow and is not modelled: its outcome is not reached. *)
Definition data_operation (c : Canvas) (o : Cpn) (objs : list fields) : res pyv :=
  let dicts (l : list fields) := PList (PDict <$> l) in
  match param "operations" o with
  | PStr op =>
      if decide (op = "select_keys") then dicts <$> res_mapM (select_keys (param "select_keys" o)) objs
      else if decide (op = "recursive_eval") then Err (OtherError "ast.literal_eval")
      else if decide (op = "combine") then Ok (PDict (combine objs))
      else if decide (op = "filter_values") then
        rules ← param_list "filter_values" o;
        dicts <$> filter_res (λ obj, all_res (match_rule c obj) rules) objs
      else if decide (op = "append_or_update") then
        updates ← param_list "updates" o; dicts <$> res_mapM (append_or_update c updates) objs
      else if decide (op = "remove_keys") then
        keys ← param_list "remove_keys" o; Ok (dicts (remove_keys keys <$> objs))
      else pairs ← param_list "rename_keys" o; dicts <$> res_mapM (rename_keys pairs) objs
  | _ => pairs ← param_list "rename_keys" o; dicts <$> res_mapM (rename_keys pairs) objs
  end.

Definition DataOperations_invoke (cid : string) : V unit :=
  o ← self cid;
  let inputs := match param "query" o with PList l => l | v => [v] end in
  objs ← folding (λ acc ref,
      exp ← ofres (as_str ref);
      v ← variable exp;
      update cid (set_input_value exp v) ;;
      mret (acc ++ dicts_of v)) [] inputs;
  c ← gets (λ c, c);
  v ← ofres (data_operation c o objs);
  update cid (set_output "result" v).

(** ** VariableAggregator *)

(** The loop over the selectors of a group, which stops at the first value *)
Fixpoint first_value (cid gname : string) (selectors : list pyv) : V unit :=
  match selectors with
  | [] => mret ()
  | sel :: selectors =>
      exp ← ofres (v ← item "value" sel; as_str v);
      val ← variable exp;
      if py_bool val then update cid (set_output gname val) else first_value cid gname selectors
  end.

Definition VariableAggregator_invoke (cid : string) : V unit :=
  o ← self cid;
  groups ← ofres (as_iter (param "groups" o));
  each (λ group,
    gname ← ofres (v ← get_item "group_name" PNone group; as_str v);
    vars ← ofres (v ← get_item "variables" (PList []) group; as_iter v);
    update cid (set_input_value (gname +:+ ".variables") (PList vars)) ;;
    first_value cid gname vars) groups.

(** ** VariableAssigner *)

(** [is_number] *)
Definition real_number (v : pyv) : bool := match v with PInt _ | PFloat _ => true | _ => false end.

Definition not_number : pyv := PStr "ERROR:VARIABLE_NOT_NUMBER or PARAMETER_NOT_NUMBER".
Definition not_list : pyv := PStr "ERROR:VARIABLE_NOT_LIST".
Definition not_element : pyv := PStr "ERROR:PARAMETER_NOT_LIST_ELEMENT_TYPE".

(** [isinstance(x, type(y))]: a boolean is an integer. *)
Definition same_type (x y : pyv) : bool :=
  match y, x with
  | PNone, PNone | PBool _, PBool _ | PInt _, (PInt _ | PBool _) | PFloat _, PFloat _
  | PStr _, PStr _ | PList _, PList _ | PDict _, PDict _ | PBase _, PBase _ => true
  | _, _ => false
  end.

(** [_clear]: [bool] is tested after [int], which it is. *)
Definition _clear (v : pyv) : pyv :=
  match v with
  | PList _ => PList [] | PStr _ => PStr "" | PDict _ => PDict []
  | PInt _ | PBool _ => PInt 0 | PFloat _ => PFloat "0.0" | _ => PNone
  end.

Definition _set (c : Canvas) (v parameter : pyv) : res pyv :=
  match v with
  | PNone | PStr _ =>
      match parameter with
      | PStr p => s ← get_value_with_variable c p; Ok (PStr s)
      | _ => Err exn_type
      end
  | _ => Ok parameter
  end.

Definition _append (v parameter : pyv) : pyv :=
  match v with
  | PNone => PList [parameter]
  | PList [] => PList [parameter]
  | PList (x :: l) => if same_type parameter x then PList (x :: l ++ [parameter]) else not_element
  | _ => not_list
  end.

Definition _extend (v parameter : pyv) : pyv :=
  match (match v with PNone => PList [] | _ => v end), parameter with
  | PList l, PList l' =>
      match l, l' with
      | x :: _, y :: _ => if same_type y x then PList (l ++ l') else not_element
      | _, _ => PList (l ++ l')
      end
  | PList _, _ => PStr "ERROR:PARAMETER_NOT_LIST"
  | _, _ => not_list
  end.

(** [len(variable) == 0] comes before the test for a list. *)
Definition _remove (keep : list pyv → list pyv) (v : pyv) : res pyv :=
  match v with
  | PList l => Ok (PList (keep l))
  | PStr s => Ok (if truthy s then not_list else v)
  | PDict d => Ok (match d with [] => v | _ => not_list end)
  | _ => Err exn_type
  end.
Definition _remove_first : pyv → res pyv := _remove (drop 1).
Definition _remove_last : pyv → res pyv := _remove (λ l, take (length l - 1) l).

Definition _arith (f : pyv → pyv → res pyv) (v parameter : pyv) : res pyv :=
  if real_number v && real_number parameter then f v parameter else Ok not_number.

Definition _divide (v parameter : pyv) : res pyv :=
  if real_number v && real_number parameter then
    if py_eq parameter (PInt 0) then Ok (PStr "ERROR:DIVIDE_BY_ZERO") else py_div v parameter
  else Ok not_number.

Definition _operate (c : Canvas) (v : pyv) (operator : string) (parameter : pyv) : res pyv :=
  let value := p ← as_str parameter; get_variable_value c p in
  if decide (operator = "overwrite") then value
  else if decide (operator = "clear") then Ok (_clear v)
  else if decide (operator = "set") then _set c v parameter
  else if decide (operator = "append") then p ← value; Ok (_append v p)
  else if decide (operator = "extend") then p ← value; Ok (_extend v p)
  else if decide (operator = "remove_first") then _remove_first v
  else if decide (operator = "remove_last") then _remove_last v
  else if decide (operator = "+=") then _arith py_add v parameter
  else if decide (operator = "-=") then _arith py_sub v parameter
  else if decide (operator = "*=") then _arith py_mul v parameter
  else if decide (operator = "/=") then _divide v parameter
  else Ok PNone.

(** One assignment. The test for missing keys has no effect: [assert] of a text
    that is not empty holds. *)
Definition assign_item (it : pyv) : V unit :=
  _ ← ofres (get_item "variable" PNone it);
  exp ← ofres (v ← item "variable" it; Ok v);
  operator ← ofres (item "operator" it);
  parameter ← ofres (item "parameter" it);
  exp ← ofres (as_str exp);
  value ← variable exp;
  modify_try (λ c,
    v ← match operator with PStr op => _operate c value op parameter | _ => Ok PNone end;
    set_variable_value c exp v).

Definition VariableAssigner_invoke (cid : string) : V unit :=
  o ← self cid;
  match param "variables" o with
  | PList l => each assign_item l
  | _ => mret ()
  end.

(** ** Streams *)

(** [json.dumps(v)], or [str(v)] when that fails *)
Definition dumps_or_str (v : pyv) : string := match dumps v with Ok s => s | Err _ => py_text v end.

(** [_convert_content] *)
Definition _convert_content (cid : string) (content : string) : V unit :=
  o ← self cid;
  let fmt := param "output_format" o in
  if negb (py_bool fmt) then mret () else
  f ← ofres (as_str fmt);
  let f := if decide (py_lower f ∈ ["markdown"; "html"; "pdf"; "docx"; "xlsx"]) then f else "markdown" in
  update cid (λ o, set_param (dict_set "output_format" (PStr f) (cp_param o)) o) ;;
  r ← call (CallConvert f content) (λ n, Ok (cv_convert n f content));
  match r with Some v => update cid (set_output "attachment" v) | None => mret () end.

(** [_save_to_memory], awaited *)
Definition _save_to_memory (cid : string) (content : string) : V unit :=
  o ← self cid;
  if negb (py_bool (param "memory_ids" o)) then mret () else
  let user_id := default (PStr "") (dict_get "user_id" (cp_param o)) in
  user_id ← match user_id with
            | PStr u => if py_startswith u "{" && py_endswith u "}" && (1 <? Z.of_nat (String.length u))
                        then variable u else mret user_id
            | _ => if py_bool user_id then fails exn_type else mret user_id
            end;
  c ← gets (λ c, c);
  call (CallMemory user_id (get "sys.query" (PStr "") (cv_globals c)) content) (λ _, Ok ()).

Section stream.
Context {A : Type} (emit : A → string → V (A * bool)).

(** The loop of [_stream_output_async]: each text is handed to the reader, who may stop
    reading *)
Fixpoint llm_stream (cid : string) (st : DeltaState) (a : A) (answers : list (option string)) : V (A * bool) :=
  match answers with
  | [] => update cid (set_output "content" (PStr (of_codes (ds_answer st)))) ;; mret (a, false)
  | ans :: answers =>
      stop ← check_if_canceled cid;
      if stop : bool then mret (a, false) else
      match ans with
      | None => llm_stream cid st a answers
      | Some ans =>
          if py_in "**ERROR**" ans then
            o ← self cid;
            let d := get_exception_default_value o in
            if py_bool d then
              update cid (set_output "content" d) ;;
              match d with PStr d => emit a d | _ => fails exn_type end
            else update cid (set_output "_ERROR" (PStr ans)) ;; mret (a, false)
          else
            let '(d, st) := delta st (codes ans) in
            r ← emit a (of_codes d);
            if r.2 : bool then mret r else llm_stream cid st r.1 answers
      end
  end.
End stream.

(** What a reader does with the chunks of a stream: its state after each, and whether
    it reads on *)
Definition Reader : Type := ∀ A : Type, (A → string → V (A * bool)) → A → pyv → V (A * bool).

(** A reader inside [_stream]: it hands every chunk on, and stops when the task is
    canceled or its own reader stops. *)
Definition pass_on (cid : string) {A} (emit : A → string → V (A * bool)) (b : A * string * string * bool)
    (t : string) : V (A * string * string * bool * bool) :=
  let '(a, all, cnt, _) := b in
  stop ← check_if_canceled cid;
  if stop : bool then mret (a, all, cnt, false, true) else
  r ← emit a t;
  mret (r.1, all +:+ t, cnt +:+ t, r.2, r.2).

(** The loop over the references of a text, then its end: [all] is what was handed on,
    [cache] the texts of the variables that are no streams. *)
Fixpoint message_pieces (nested : Reader) (cid : string) {A} (emit : A → string → V (A * bool)) (a : A)
    (all : string) (cache : list (string * string)) (pieces : list (string * string)) (tail : string)
    : V (A * bool) :=
  stop ← check_if_canceled_if cid (negb (bool_decide (pieces = [])) || truthy tail);
  if stop : bool then mret (a, false) else
  match pieces with
  | [] =>
      r ← (if truthy tail then emit a tail else mret (a, false));
      if r.2 : bool then mret r else
      let all := all +:+ tail in
      update cid (set_output "content" (PStr all)) ;;
      _convert_content cid all ;;
      _save_to_memory cid all ;;
      mret (r.1, false)
  | (before, exp) :: pieces =>
      r ← emit a before;
      if r.2 : bool then mret r else
      let '(a, all) := (r.1, all +:+ before) in
      match dict_get exp cache with
      | Some t =>
          r ← emit a t;
          if r.2 : bool then mret r
          else message_pieces nested cid emit r.1 (all +:+ t) cache pieces tail
      | None =>
          v ← variable exp;
          if is_partial v then
            r ← nested _ (pass_on cid emit) (a, all, "", false) v;
            let '(a, all, cnt, stopped, _) := (r.1, r.2) in
            if r.2 : bool then mret (a, stopped)
            else
              update cid (set_input_value exp (PStr cnt)) ;;
              message_pieces nested cid emit a all cache pieces tail
          else
            let t := match v with PNone => "" | PStr s => s | _ => dumps_or_str v end in
            r ← emit a t;
            if r.2 : bool then mret r else
            update cid (set_input_value exp (PStr t)) ;;
            message_pieces nested cid emit r.1 (all +:+ t) (dict_set exp t cache) pieces tail
      end
  end.

(** The texts before the references of a text, the references, and the rest *)
Definition pieces_of (text : string) : list (string * string) * string :=
  let '(l, tail) := finditer (variable_ref_patt false) (codes text) in
  ((λ m, (of_codes m.1.1, of_codes m.2)) <$> l, of_codes tail).

(** Reads a stream of a component to its end, or until the reader stops. [depth] is
    Python's limit on calls within calls, which a message that shows itself reaches. *)
Fixpoint stream (depth : nat) : Reader := λ A emit a v,
  match depth with
  | O => fails (OtherError "maximum recursion depth exceeded")
  | S depth =>
      match partial_parts v with
      | None => fails exn_type
      | Some (cid, method, arg) =>
          if decide (method = "_stream") then
            let '(pieces, tail) := pieces_of arg in
            message_pieces (stream depth) cid emit a "" [] pieces tail
          else
            answers ← call (CallChat cid "" arg) (λ n, Ok (cv_chat_stream n cid arg));
            llm_stream emit cid delta_start a answers
      end
  end.

Definition recursion_limit : nat := 1000.

(** A stream as one text *)
Definition consume (v : pyv) : V string :=
  r ← stream recursion_limit string (λ a t, mret (a +:+ t, false)) "" v; mret r.1.

(** ** Texts with variables *)

(** [_is_jinjia2] *)
Definition jinja_block : re := Seq (lit "{%") (Seq (Rep true 0 None dot) (lit "%}")).
Definition _is_jinjia2 (content : string) : bool :=
  match search jinja_block (codes content) with Some _ => true | None => false end
  || py_in "{{" content || py_in "}}" content.

(** [re.sub("[@:.]", "_", n)] *)
Definition kwarg_name (n : string) : string :=
  str_map (λ c, if decide (c ∈ ["@"; ":"; "."]%char) then "_"%char else c) n.

(** The text of the value of a reference *)
Definition kwarg_text (delimiter : option string) (v : pyv) : V string :=
  let v := if py_bool v then v else PStr "" in
  if is_partial v then consume v
  else mret (match v, delimiter with
    | PList l, Some d => if truthy d then py_join d (py_text <$> l) else match dumps v with Ok s => s | Err _ => "" end
    | PStr s, _ => s
    | _, _ => match dumps v with Ok s => s | Err _ => "" end
    end).

(** [Message.get_kwargs] *)
Definition get_kwargs (cid script : string) (kwargs : fields) (delimiter : option string) : V (string * fields) :=
  c ← gets (λ c, c);
  els ← ofres (get_input_elements_from_text c script);
  kwargs ← folding (λ kwargs kv,
      if decide (is_Some (dict_get kv.1 kwargs)) then mret kwargs else
      ans ← kwarg_text delimiter (get "value" PNone kv.2);
      update cid (set_input_value kv.1 (PStr ans)) ;;
      mret (dict_set kv.1 (PStr ans) kwargs)) kwargs els;
  mret (foldl (λ acc nv,
      let _n := kwarg_name nv.1 in
      (py_replace acc.1 ("{" +:+ nv.1 +:+ "}") _n, dict_set _n nv.2 acc.2)) (script, []) kwargs).

(** The replacement text of [re.sub] as a template: the text for every match [m] *)
Definition octal (c : N) : bool := range 48 55 c.
Fixpoint template (fuel : nat) (m s : list N) : res (list N) :=
  let bad := OtherError "bad escape" in
  match fuel, s with
  | O, _ | _, [] => Ok []
  | S fuel, c :: s =>
      if negb (c =? 92)%N then r ← template fuel m s; Ok (c :: r) else
      match s with
      | [] => Err bad
      | d :: s' =>
          if (d =? 103)%N then
            match s' with
            | l :: s'' =>
                if negb (l =? 60)%N then Err (OtherError "missing <")
                else
                  let name := take (Z.to_nat (find s'' [62%N])) s'' in
                  if decide (0 < find s'' [62%N]) then
                    if forallb (N.eqb 48) name then
                      r ← template fuel m (drop (S (length name)) s''); Ok (m ++ r)
                    else Err (OtherError "invalid group reference")
                  else Err (OtherError "missing group name")
            | [] => Err (OtherError "missing <")
            end
          else if (d =? 48)%N then
            let ds := take 2 s' in
            let n := match ds with
                     | a :: b :: _ => if octal a then if octal b then 2%nat else 1%nat else O
                     | [a] => if octal a then 1%nat else O
                     | [] => O
                     end in
            let v := foldl (λ v a, v * 8 + (a - 48))%N 0%N (take n s') in
            r ← template fuel m (drop n s'); Ok (N.land v 255 :: r)
          else if range 49 57 d then
            match s' with
            | a :: b :: s'' =>
                if octal d && octal a && octal b then
                  let v := ((d - 48) * 64 + (a - 48) * 8 + (b - 48))%N in
                  if (255 <? v)%N then Err (OtherError "octal escape value outside of range 0-0o377")
                  else r ← template fuel m s''; Ok (v :: r)
                else Err (OtherError "invalid group reference")
            | _ => Err (OtherError "invalid group reference")
            end
          else
            match dict_get (of_codes [d])
                [("a", 7); ("b", 8); ("f", 12); ("n", 10); ("r", 13); ("t", 9); ("v", 11); ("\", 92)]%N with
            | Some v => r ← template fuel m s'; Ok (v :: r)
            | None =>
                if range 65 90 d || range 97 122 d then Err bad
                else r ← template fuel m s'; Ok (c :: d :: r)
            end
      end
  end.

(** [re.sub(n, v, content)] for a name [n] without special characters: [v] is read as a
    template, whether or not there is a match. *)
Definition sub_template (n v content : string) : res string :=
  t ← template (S (String.length v)) (codes n) (codes v);
  Ok (if truthy n then py_replace content n (of_codes t) else content).

(** ** Message *)

(** Without streaming, [self._save_to_memory(content)] makes a coroutine that nothing
    awaits: it has no effect. *)
Definition Message_invoke (cid : string) (kwargs : fields) : V unit :=
  unless_canceled cid (
    o ← self cid;
    texts ← ofres (as_iter (param "content" o));
    i ← observe (λ n, cv_choice n (length texts));
    rand_cnt ← ofres (match texts !! i with Some v => as_str v | None => Err (OtherError "Cannot choose from an empty sequence") end);
    if py_bool (param "stream" o) && negb (_is_jinjia2 rand_cnt) then
      update cid (set_output "content" (partial_of cid "_stream" rand_cnt))
    else
      '(script, kwargs) ← get_kwargs cid rand_cnt kwargs None;
      let rendered := cv_render script kwargs in
      unless_canceled cid (
        (* without [content] the next statement that reads it raises *)
        content ← ofres (match rendered with Ok s => Ok s | Err _ => Err (OtherError "UnboundLocalError") end);
        content ← folding (λ content nv, v ← ofres (as_str nv.2); ofres (sub_template nv.1 v content)) content kwargs;
        update cid (set_output "content" (PStr content)) ;;
        _convert_content cid content)).

(** ** StringTransform *)

(** [re.split("(" + "|".join(map(re.escape, ds)) + ")", s)], without the delimiters: the
    delimiters are tried in order at every place; after an empty one a match at the
    same place may not be empty. *)
Definition starts (ds : list (list N)) (must : bool) (s : list N) : option (list N) :=
  fetchone (λ d, take (length d) s = d ∧ (must = true → d ≠ [])) ds.

Fixpoint split_go (fuel : nat) (ds : list (list N)) (must : bool) (piece s : list N) : list (list N) :=
  match fuel with
  | O => [piece ++ s]
  | S fuel =>
      match starts ds must s with
      | Some d => piece :: split_go fuel ds (bool_decide (d = [])) [] (drop (length d) s)
      | None => match s with [] => [piece] | c :: s => split_go fuel ds false (piece ++ [c]) s end
      end
  end.
Definition split_on (ds : list string) (s : string) : list string :=
  of_codes <$> split_go (2 * length (codes s) + 2) (codes <$> ds) false [] (codes s).

Definition _split (cid : string) (line : pyv) : V unit :=
  unless_canceled cid (
    o ← self cid;
    ref ← ofres (as_str (param "split_ref" o));
    var ← (if py_bool line then mret line else variable ref);
    let var := if py_bool var then var else PStr "" in
    s ← ofres (match var with
               | PStr s => Ok s
               | _ => Err (OtherError ("The input variable is not a string: " +:+ type_name var))
               end);
    update cid (set_input_value ref var) ;;
    ds ← ofres (as_strs (param "delimiters" o));
    update cid (set_output "result" (PList (PStr <$> split_on ds s)))).

(** The value of a key takes the place of the key, in the order of the keys. *)
Definition _merge (cid : string) (kwargs : fields) : V unit :=
  unless_canceled cid (
    o ← self cid;
    script ← ofres (as_str (param "script" o));
    delimiter ← ofres (l ← as_iter (param "delimiters" o);
                       match l with PStr d :: _ => Ok (Some d) | [] => Err (OtherError "list index out of range")
                                  | _ => Ok None end);
    '(script, kwargs) ← get_kwargs cid script kwargs delimiter;
    let script :=
      if _is_jinjia2 script then match cv_render script kwargs with Ok s => s | Err _ => script end else script in
    script ← folding (λ script kv,
        v ← ofres (if py_bool kv.2 then as_str kv.2 else Ok "");
        mret (if truthy kv.1 then py_replace script kv.1 v else script)) script kwargs;
    update cid (set_output "result" (PStr script))).

Definition StringTransform_invoke (cid : string) (kwargs : fields) : V unit :=
  unless_canceled cid (
    o ← self cid;
    if py_eq (param "method" o) (PStr "split") then _split cid (get "line" PNone kwargs)
    else _merge cid kwargs).

(** ** Loop and LoopItem *)

Definition initial_value (type : string) : pyv :=
  if decide (type = "number") then PInt 0
  else if decide (type = "string") then PStr ""
  else if decide (type = "boolean") then PBool false
  else if py_startswith type "object" then PDict []
  else if py_startswith type "array" then PList []
  else PStr "".

Definition Loop_invoke (cid : string) : V unit :=
  unless_canceled cid (
    o ← self cid;
    items ← ofres (as_iter (param "loop_variables" o));
    each (λ it,
      mode ← ofres (_ ← get_item "variable" PNone it; item "input_mode" it);
      v ← (if py_eq mode (PStr "variable") then exp ← ofres (x ← item "value" it; as_str x); variable exp
           else if py_eq mode (PStr "constant") then ofres (item "value" it)
           else ofres (t ← item "type" it; t ← as_str t; Ok (initial_value t)));
      var ← ofres (x ← item "variable" it; as_str x);
      update cid (set_output var v)) items).

(** [self._idx >= maximum_loop_count] *)
Definition idx_reached (idx : Z) (limit : pyv) : res bool := py_le limit (PInt idx).

Definition LoopItem_invoke (cid : string) : V unit :=
  unless_canceled cid (
    o ← self cid;
    c ← gets (λ c, c);
    '(_, parent) ← ofres (parent_of c o);
    over ← ofres (idx_reached (cp_idx o) (param "maximum_loop_count" parent));
    if over : bool then update cid (set_idx (-1))
    else
      stop ← check_if_canceled_if cid (bool_decide (0 < cp_idx o));
      if stop : bool then mret () else update cid (λ o, set_idx (cp_idx o + 1) o)).

Definition bad_operator (operator : string) : exn := OtherError ("Invalid operator: " +:+ operator).

(** [evaluate_condition]. A boolean is an integer: the branch for booleans is not
    reached, and an operator without a case raises. *)
Definition evaluate_condition (var : pyv) (operator : string) (value : pyv) : res bool :=
  let op s := bool_decide (operator = s) in
  let bad := Err (bad_operator operator) in
  match var with
  | PStr s =>
      let two f := match value with PStr v => Ok (f v) | _ => Err exn_type end in
      if op "contains" then two (λ v, py_in v s)
      else if op "not contains" then two (λ v, negb (py_in v s))
      else if op "start with" then two (py_startswith s)
      else if op "end with" then two (py_endswith s)
      else if op "is" then Ok (py_eq var value)
      else if op "is not" then Ok (negb (py_eq var value))
      else if op "empty" then Ok (bool_decide (s = ""))
      else if op "not empty" then Ok (bool_decide (s ≠ ""))
      else bad
  | PBool _ | PInt _ | PFloat _ =>
      if op "=" then Ok (py_eq var value)
      else if op "≠" then Ok (negb (py_eq var value))
      else if op ">" then py_lt value var
      else if op "<" then py_lt var value
      else if op "≥" then py_le value var
      else if op "≤" then py_le var value
      else if op "empty" then Ok false
      else if op "not empty" then Ok true
      else bad
  | PDict d =>
      if op "empty" then Ok (bool_decide (length d = 0%nat))
      else if op "not empty" then Ok (bool_decide (0 < length d)%nat)
      else bad
  | PList l =>
      if op "contains" then py_contains var value
      else if op "not contains" then b ← py_contains var value; Ok (negb b)
      else if op "is" then Ok (py_eq var value)
      else if op "is not" then Ok (negb (py_eq var value))
      else if op "empty" then Ok (bool_decide (length l = 0%nat))
      else if op "not empty" then Ok (bool_decide (0 < length l)%nat)
      else bad
  | PNone => Ok (op "empty")
  | PBase _ => bad
  end.

(** One termination condition on the variables of the canvas *)
Definition loop_condition (c : Canvas) (it : pyv) : res bool :=
  var ← get_item "variable" PNone it;
  op ← get_item "operator" PNone it;
  if negb (py_bool var) || negb (py_bool op) then Err (ValueError "Loop condition is incomplete.") else
  exp ← as_str var;
  v ← get_variable_value c exp;
  mode ← get_item "input_mode" (PStr "constant") it;
  value ← (if py_eq mode (PStr "variable") then
             x ← get_item "value" (PStr "") it; exp ← as_str x; get_variable_value c exp
           else if py_eq mode (PStr "constant") then get_item "value" (PStr "") it
           else Err (ValueError "Invalid input mode."));
  match op with
  | PStr op => evaluate_condition v op value
  | _ => Err (bad_operator (py_text op))
  end.

(** [LoopItem.end]: whether the loop is over, and [_idx] after the call *)
Definition loop_end (c : Canvas) (o : Cpn) : res (bool * Z) :=
  if decide (cp_idx o = -1) then Ok (true, -1) else
  '(_, parent) ← parent_of c o;
  let logical_operator := default (PStr "and") (dict_get "logical_operator" (cp_param parent)) in
  items ← as_iter (param "loop_termination_condition" parent);
  conditions ← res_mapM (loop_condition c) items;
  should_end ←
    (if py_eq logical_operator (PStr "and") then Ok (forallb (λ b, b) conditions)
     else if py_eq logical_operator (PStr "or") then Ok (existsb (λ b, b) conditions)
     else Err (ValueError "Invalid logical operator,should be 'and' or 'or'."));
  Ok (if should_end : bool then (true, -1) else (false, cp_idx o)).

(** ** Iteration and IterationItem *)

Definition not_array (ref : string) (v : pyv) : string :=
  ref +:+ " must be an array, but its type is " +:+ type_name v.

Definition Iteration_invoke (cid : string) : V unit :=
  unless_canceled cid (
    o ← self cid;
    ref ← ofres (as_str (param "items_ref" o));
    arr ← variable ref;
    match arr with
    | PList _ => mret ()
    | _ => update cid (set_output "_ERROR" (PStr (not_array ref arr)))
    end).

(** [output_collation]: an output of the iteration with a reference to a component of
    it collects the value of this component. The names it leaves out are tested on the
    iteration, which has none of them. *)
Definition collate_output (pid cid : string) (o : Cpn) (c : Canvas) (kv : string * fields) : res Canvas :=
  match dict_get "ref" kv.2 with
  | None => Ok c
  | Some ref =>
      '(_cid, var) ← (s ← as_str ref; split_at s);
      if decide (_cid ≠ cid) then Ok c else
      p ← get_component_obj c pid;
      let res := output p kv.1 in
      l ← match (if py_bool res then res else PList []) with PList l => Ok l | _ => Err attribute_error end;
      Ok (put pid (set_output kv.1 (PList (l ++ [output o var])) p) c)
  end.

Definition output_collation (cid : string) : V unit :=
  modify_try (λ c,
    me ← get_component_obj c cid;
    '(pid, _) ← parent_of c me;
    foldl (λ acc kv,
        c ← acc;
        obj ← get_component_obj c kv.1;
        p ← get_parent c obj;
        match p with
        | Some (p_id, p) =>
            if decide (p_id ≠ pid) then Ok c
            else if kind_in ["categorize"; "message"; "switch"; "userfillup"; "iterationitem"] p then Ok c
            else foldl (λ acc kv', c ← acc; obj ← get_component_obj c kv.1; collate_output pid kv.1 obj c kv')
                   (Ok c) (cp_outputs p)
        | None => Ok c
        end) (Ok c) (cv_components c)).

Definition IterationItem_invoke (cid : string) : V unit :=
  unless_canceled cid (
    o ← self cid;
    c ← gets (λ c, c);
    '(_, parent) ← ofres (parent_of c o);
    ref ← ofres (as_str (param "items_ref" parent));
    arr ← variable ref;
    match arr with
    | PList l =>
        stop ← (if decide (0 < cp_idx o) then
                  b ← check_if_canceled cid;
                  if b : bool then mret true else output_collation cid ;; mret false
                else mret false);
        if stop : bool then mret () else
        if decide (Z.of_nat (length l) <= cp_idx o) then update cid (set_idx (-1)) else
        unless_canceled cid (
          let i := if decide (cp_idx o < 0) then cp_idx o + Z.of_nat (length l) else cp_idx o in
          v ← ofres (match (if decide (i < 0) then None else l !! Z.to_nat i) with
                     | Some v => Ok v | None => Err (OtherError "list index out of range") end);
          update cid (λ o', set_idx (cp_idx o + 1)
                       (set_output "index" (PInt (cp_idx o)) (set_output "item" v o'))))
    | _ => update cid (set_idx (-1)) ;; fails (OtherError (not_array ref arr))
    end).

(** ** Begin and UserFillUp *)

(** The value of an input of the form: files are read from the file store. *)
Definition form_value (v : pyv) : V pyv :=
  t ← ofres (match v with
             | PDict d => s ← as_str (get "type" (PStr "") d); Ok (py_in "file" (py_lower s))
             | _ => Ok false
             end);
  if t : bool then
    optional ← ofres (get_item "optional" PNone v);
    value ← ofres (get_item "value" PNone v);
    if py_bool optional && match value with PNone => true | _ => false end then mret PNone
    else
      fv ← ofres (item "value" v);
      let files := match fv with PList l => l | x => [x] end in
      call (CallFiles files) (λ n, cv_files n files)
  else ofres (get_item "value" PNone v).

(** The loop over the inputs of the request; [Begin] keeps them as inputs too. *)
Fixpoint fill_inputs (cid : string) (keep : bool) (inputs : fields) : V unit :=
  match inputs with
  | [] => mret ()
  | (k, v) :: inputs =>
      unless_canceled cid (
        x ← form_value v;
        update cid (λ o, let o := set_output k x o in if keep then set_input_value k x o else o) ;;
        fill_inputs cid keep inputs)
  end.

Definition form_inputs (kwargs : fields) : res fields :=
  match get "inputs" (PDict []) kwargs with PDict d => Ok d | _ => Err attribute_error end.

Definition Begin_invoke (cid : string) (kwargs : fields) : V unit :=
  unless_canceled cid (d ← ofres (form_inputs kwargs); fill_inputs cid true d).

(** [re.sub(r"\{%s\}" % k, ans, content)]: a dot of the name stands for any character. *)
Definition name_pattern (k : string) : re :=
  Seq (lit "{") (foldr (λ c r, Seq (if (c =? 46)%N then dot else Cls (N.eqb c)) r) (lit "}") (codes k)).
Definition sub_name (k ans content : string) : res string :=
  _ ← template (S (String.length ans)) [] (codes ans);
  let '(l, tail) := finditer (name_pattern k) (codes content) in
  parts ← res_mapM (λ m, r ← template (S (String.length ans)) m.1.2 (codes ans); Ok (m.1.1 ++ r)) l;
  Ok (of_codes (concat parts ++ tail)).

Definition tip_text (v : pyv) : res string :=
  if is_partial v then Err exn_type
  else Ok (match v with
    | PList l => py_join "," (py_text <$> l)
    | PStr s => s
    | _ => match dumps v with Ok s => s | Err _ => "" end
    end).

Definition fill_tips (cid : string) : V unit :=
  o ← self cid;
  if py_bool (param "enable_tips" o) then
    tips ← ofres (as_str (param "tips" o));
    c ← gets (λ c, c);
    els ← ofres (get_input_elements_from_text c tips);
    content ← folding (λ content kv,
        ans ← ofres (tip_text (get "value" PNone kv.2)); ofres (sub_name kv.1 ans content)) tips els;
    update cid (set_output "tips" (PStr content))
  else mret ().

Definition UserFillUp_invoke (cid : string) (kwargs : fields) : V unit :=
  unless_canceled cid (
    fill_tips cid ;; d ← ofres (form_inputs kwargs); fill_inputs cid false d).

End components.
