(* ===== verification/CanvasLoad.v ===== *)
(** Loading and resetting a canvas ([Graph.load], [Canvas.load], [reset]), with the
    parameters of the component classes and their checks. *)
From S2P Require Import Prelude Float PyText Json Dsl Effects Comp PyNum PyOps Migration Canvas LlmStream Components.
Open Scope Z_scope.

(** ** Parameters *)

(** [ComponentParamBase.__init__] *)
Definition base_params : fields :=
  [("message_history_window_size", PInt 13); ("description", PStr ""); ("max_retries", PInt 0);
   ("delay_after_error", PFloat "2.0"); ("exception_method", PNone); ("exception_default_value", PNone);
   ("exception_goto", PNone); ("debug_inputs", PDict [])].

(** [setattr] of several attributes *)
Definition set_attrs (new d : fields) : fields := foldl (λ d kv, dict_set kv.1 kv.2 d) d new.

Definition llm_attrs : fields :=
  [("llm_id", PStr ""); ("sys_prompt", PStr "");
   ("prompts", PList [PDict [("role", PStr "user"); ("content", PStr "{sys.query}")]]);
   ("max_tokens", PInt 0); ("temperature", PInt 0); ("top_p", PInt 0); ("presence_penalty", PInt 0);
   ("frequency_penalty", PInt 0); ("output_structure", PNone); ("cite", PBool true);
   ("visual_files_var", PNone)].
Definition llm_params : fields := set_attrs llm_attrs base_params.

(** [AgentParam]: its [meta], whose parameters are also inputs and attributes *)
Definition agent_inputs : list (string * fields) :=
  [("user_prompt", [("type", PStr "string"); ("description", PStr "This is the order you need to send to the agent.");
                    ("default", PStr ""); ("required", PBool true)]);
   ("reasoning", [("type", PStr "string");
     ("description", PStr "Supervisor's reasoning for choosing the this agent. Explain why this agent is being invoked and what is expected of it.");
     ("required", PBool true)]);
   ("context", [("type", PStr "string");
     ("description", PStr "All relevant background information, prior facts, decisions, and state needed by the agent to solve the current query. Should be as detailed and self-contained as possible.");
     ("required", PBool true)])].
Definition agent_meta : pyv :=
  PDict [("name", PStr "agent"); ("description", PStr "This is an agent for a specific task.");
         ("parameters", PDict ((λ kv, (kv.1, PDict kv.2)) <$> agent_inputs))].
Definition agent_params : fields :=
  set_attrs [("function_name", PStr "agent"); ("tools", PList []); ("mcp", PList []); ("max_rounds", PInt 5);
             ("description", PStr ""); ("custom_header", PDict [])]
  (set_attrs llm_attrs
  (set_attrs ((λ kv, (kv.1, get "default" PNone kv.2)) <$> agent_inputs)
  (("meta", agent_meta) :: base_params))).

Definition fillup_params : fields := set_attrs
  [("enable_tips", PBool true); ("tips", PStr "Please fill up the form"); ("layout_recognize", PStr "")]
  base_params.

Definition out (value : pyv) (type : string) : fields := [("value", value); ("type", PStr type)].

Section load.
Context `{CanvasEnv}.

(** The attributes, inputs and outputs of a fresh parameter object, class by class *)
Definition ParamClass : Type := fields * list (string * fields) * list (string * fields).
Definition plain_params (l : fields) : ParamClass := (set_attrs l base_params, [], []).

Definition BeginParam : ParamClass :=
  (set_attrs [("mode", PStr "conversational");
              ("prologue", PStr "Hi! I'm your smart assistant. What can I do for you?")] fillup_params, [], []).
Definition SwitchParam : ParamClass := plain_params
  [("conditions", PList []); ("end_cpn_ids", PList []);
   ("operators", PList (PStr <$> ["contains"; "not contains"; "start with"; "end with"; "empty"; "not empty"; "="; "≠";
                                  ">"; "<"; "≥"; "≤"]))].
Definition CategorizeParam : ParamClass :=
  (set_attrs [("category_description", PDict []); ("query", PStr "sys.query");
              ("message_history_window_size", PInt 1)] llm_params, [], []).
Definition ListOperationsParam : ParamClass :=
  (set_attrs [("query", PStr ""); ("operations", PStr "topN"); ("n", PInt 0); ("sort_method", PStr "asc");
              ("filter", PDict [("operator", PStr "="); ("value", PStr "")])] base_params, [],
   [("result", out (PList []) "Array of ?"); ("first", out (PStr "") "?"); ("last", out (PStr "") "?")]).
Definition DataOperationsParam : ParamClass :=
  (set_attrs [("query", PList []); ("operations", PStr "literal_eval"); ("select_keys", PList []);
              ("filter_values", PList []); ("updates", PList []); ("remove_keys", PList []);
              ("rename_keys", PList [])] base_params, [],
   [("result", out (PList []) "Array of Object")]).
Definition VariableAggregatorParam : ParamClass := plain_params [("groups", PList [])].
Definition VariableAssignerParam : ParamClass := plain_params [("variables", PList [])].
Definition StringTransformParam : ParamClass :=
  (set_attrs [("method", PStr "split"); ("script", PStr ""); ("split_ref", PStr "");
              ("delimiters", PList [PStr ","])] base_params, [], [("result", out (PStr "") "string")]).
Definition MessageParam : ParamClass :=
  (set_attrs [("content", PList []); ("stream", PBool true); ("output_format", PNone);
              ("auto_play", PBool false)] base_params, [], [("content", [("type", PStr "str")])]).
Definition LoopParam : ParamClass :=
  plain_params [("loop_variables", PList []); ("loop_termination_condition", PList []); ("maximum_loop_count", PInt 0)].
Definition IterationParam : ParamClass := plain_params [("items_ref", PStr ""); ("variable", PDict [])].

(** [component_class(name + "Param")()]; [None] when there is no class of this name *)
Definition class_params (name : string) : option ParamClass :=
  if decide (name = "Begin") then Some BeginParam
  else if decide (name = "UserFillUp") then Some (fillup_params, [], [])
  else if decide (name = "Switch") then Some SwitchParam
  else if decide (name = "LLM") then Some (llm_params, [], [])
  else if decide (name = "Agent") then Some (agent_params, agent_inputs, [])
  else if decide (name = "Categorize") then Some CategorizeParam
  else if decide (name = "ListOperations") then Some ListOperationsParam
  else if decide (name = "DataOperations") then Some DataOperationsParam
  else if decide (name = "VariableAggregator") then Some VariableAggregatorParam
  else if decide (name = "VariableAssigner") then Some VariableAssignerParam
  else if decide (name = "StringTransform") then Some StringTransformParam
  else if decide (name = "Message") then Some MessageParam
  else if decide (name = "Loop") then Some LoopParam
  else if decide (name = "Iteration") then Some IterationParam
  else if decide (name ∈ ["LoopItem"; "IterationItem"; "ExitLoop"]) then Some (plain_params [])
  else cv_class name.

(** [param.update(conf)]. The inputs and outputs of a graph are dicts of dicts. *)
Definition as_fields (v : pyv) : res fields := match v with PDict d => Ok d | _ => Err attribute_error end.
Definition as_dicts (v : pyv) : res (list (string * fields)) :=
  d ← as_fields v; res_mapM (λ kv, f ← as_fields kv.2; Ok (kv.1, f)) d.
Definition update_param (o : Cpn) (kv : string * pyv) : res Cpn :=
  if decide (kv.1 = "inputs") then m ← as_dicts kv.2; Ok (set_inputs m o)
  else if decide (kv.1 = "outputs") then m ← as_dicts kv.2; Ok (set_outputs m o)
  else Ok (set_param (dict_set kv.1 kv.2 (cp_param o)) o).
Definition update_params (conf : fields) (o : Cpn) : res Cpn :=
  foldl (λ acc kv, o ← acc; update_param o kv) (Ok o) conf.

(** ** [check] *)

Definition refuse (text : string) : res unit := Err (ValueError text).
Definition check_empty (v : pyv) (description : string) : res unit :=
  if py_bool v then Ok () else refuse (description +:+ " does not support empty value.").
Definition check_valid_value (v : pyv) (description : string) (valid_values : list string) : res unit :=
  if existsb (λ s, py_eq v (PStr s)) valid_values then Ok ()
  else refuse (description +:+ " " +:+ py_text v +:+ " is not supported, it should be in "
                 +:+ py_text (PList (PStr <$> valid_values))).
Definition check_boolean (v : pyv) (description : string) : res unit :=
  match v with PBool _ => Ok () | _ => refuse (description +:+ " " +:+ py_text v +:+ " not supported, should be bool type") end.
Definition check_decimal_float (v : pyv) (description : string) : res unit :=
  x ← py_float_of v;
  if flt x f0 || flt f1 x then
    refuse (description +:+ " " +:+ float_lit x +:+ " not supported, should be a float number in range [0, 1]")
  else Ok ().
Definition check_nonnegative_number (v : pyv) (description : string) : res unit :=
  z ← py_int_of v;
  if decide (z < 0) then refuse (description +:+ " " +:+ str_of_Z z +:+ " not supported, should be non-negative numeric")
  else Ok ().
Definition check_positive_integer (v : pyv) (description : string) : res unit :=
  match v with
  | PInt z => if decide (0 < z) then Ok () else refuse (description +:+ " " +:+ py_text v +:+ " not supported, should be positive integer")
  | _ => refuse (description +:+ " " +:+ py_text v +:+ " not supported, should be positive integer")
  end.

Fixpoint each_res {A} (f : A → res unit) (l : list A) : res unit :=
  match l with [] => Ok () | x :: l => _ ← f x; each_res f l end.

Definition check_llm (o : Cpn) : res unit :=
  _ ← check_decimal_float (param "temperature" o) "[Agent] Temperature";
  _ ← check_decimal_float (param "presence_penalty" o) "[Agent] Presence penalty";
  _ ← check_decimal_float (param "frequency_penalty" o) "[Agent] Frequency penalty";
  _ ← check_nonnegative_number (param "max_tokens" o) "[Agent] Max tokens";
  _ ← check_decimal_float (param "top_p" o) "[Agent] Top P";
  _ ← check_empty (param "llm_id" o) "[Agent] LLM";
  check_empty (param "prompts" o) "[Agent] User prompt".

Definition check_switch (o : Cpn) : res unit :=
  _ ← check_empty (param "conditions" o) "[Switch] conditions";
  conds ← as_iter (param "conditions" o);
  _ ← each_res (λ cond, to ← item "to" cond;
                if py_bool to then Ok () else refuse "[Switch] 'To' can not be empty!") conds;
  check_empty (param "end_cpn_ids" o) "[Switch] the ELSE/Other destination can not be empty.".

Definition check_categorize (o : Cpn) : res unit :=
  _ ← check_positive_integer (param "message_history_window_size" o) "[Categorize] Message window size > 0";
  _ ← check_empty (param "category_description" o) "[Categorize] Category examples";
  cats ← as_fields (param "category_description" o);
  each_res (λ kv,
    if negb (truthy kv.1) then refuse "[Categorize] Category name can not be empty!" else
    to ← get_item "to" PNone kv.2;
    if py_bool to then Ok () else refuse ("[Categorize] 'To' of category " +:+ kv.1 +:+ " can not be empty!")) cats.

Definition check_aggregator (o : Cpn) : res unit :=
  _ ← check_empty (param "groups" o) "[VariableAggregator] groups";
  groups ← as_iter (param "groups" o);
  each_res (λ g,
    name ← get_item "group_name" PNone g;
    if negb (py_bool name) then refuse "[VariableAggregator] group_name can not be empty!" else
    vars ← get_item "variables" PNone g;
    if negb (py_bool vars) then refuse ("[VariableAggregator] variables of group `" +:+ py_text name +:+ "` can not be empty")
    else match vars with
         | PList _ => Ok ()
         | _ => refuse ("[VariableAggregator] variables of group `" +:+ py_text name +:+ "` should be a list of strings")
         end) groups.

Definition check_begin (o : Cpn) : res unit :=
  check_valid_value (param "mode" o) "The 'mode' should be either `conversational` or `task`"
    ["conversational"; "task"; "Webhook"].
Definition check_list_operations (o : Cpn) : res unit :=
  _ ← check_empty (param "query" o) "query";
  check_valid_value (param "operations" o) "Support operations"
    ["topN"; "head"; "tail"; "filter"; "sort"; "drop_duplicates"].
Definition check_data_operations (o : Cpn) : res unit :=
  check_valid_value (param "operations" o) "Support operations"
    ["select_keys"; "literal_eval"; "combine"; "filter_values"; "append_or_update"; "remove_keys"; "rename_keys"].
Definition check_transform (o : Cpn) : res unit :=
  _ ← check_valid_value (param "method" o) "Support method" ["split"; "merge"];
  check_empty (param "delimiters" o) "delimiters".
Definition check_message (o : Cpn) : res unit :=
  _ ← check_empty (param "content" o) "[Message] Content"; check_boolean (param "stream" o) "[Message] stream".

(** [param.check()] *)
Definition check (o : Cpn) : res unit :=
  let name := cp_component_name o in
  if decide (name = "Begin") then check_begin o
  else if decide (name = "Switch") then check_switch o
  else if decide (name ∈ ["LLM"; "Agent"]) then check_llm o
  else if decide (name = "Categorize") then check_categorize o
  else if decide (name = "ListOperations") then check_list_operations o
  else if decide (name = "DataOperations") then check_data_operations o
  else if decide (name = "VariableAggregator") then check_aggregator o
  else if decide (name = "StringTransform") then check_transform o
  else if decide (name = "Message") then check_message o
  else if decide (name ∈ ["UserFillUp"; "VariableAssigner"; "Loop"; "LoopItem"; "Iteration"; "IterationItem"; "ExitLoop"])
  then Ok ()
  else cv_check name o.

(** ** [load] *)

(** The names of the drawn nodes *)
Definition graph_nodes (dsl : fields) : list (string * string) :=
  match get "graph" (PDict []) dsl with
  | PDict g =>
      match get "nodes" (PList []) g with
      | PList l => omap (λ n,
          match item "id" n, (d ← item "data" n; item "name" d) with
          | Ok (PStr id), Ok (PStr name) => Some (id, name)
          | _, _ => None
          end) l
      | _ => []
      end
  | _ => []
  end.

Definition load_component (nodes : list (string * string)) (custom_header : pyv) (kv : string * pyv)
    : res (string * Cpn) :=
  obj ← item "obj" kv.2;
  name ← (v ← item "component_name" obj; as_str v);
  conf ← (v ← item "params" obj; as_fields v);
  match class_params name with
  | None => Err (OtherError ("Can't import " +:+ name +:+ "Param"))
  | Some (p, i, out) =>
      down ← (v ← item "downstream" kv.2; as_strs v);
      up ← (v ← item "upstream" kv.2; as_strs v);
      parent ← get_item "parent_id" PNone kv.2;
      let fresh := {| cp_component_name := name; cp_param := p; cp_inputs := i; cp_outputs := out; cp_idx := 0;
        cp_downstream := down; cp_upstream := up;
        cp_parent_id := match parent with PStr s => Some s | _ => None end |} in
      o ← update_params (dict_set "custom_header" custom_header conf) fresh;
      _ ← match check o with
          | Ok _ => Ok ()
          | Err e => Err (ValueError (default "" (snd <$> fetchone (λ n, n.1 = kv.1) nodes) +:+ ": " +:+ exn_str e))
          end;
      _ ← cv_construct o;
      Ok (kv.1, o)
  end.

Definition history_entry (v : pyv) : res (string * pyv) :=
  match v with PList [PStr role; x] => Ok (role, x) | _ => Err (ValueError "not enough values to unpack") end.

(** [Canvas(dsl, tenant_id, task_id, custom_header=custom_header)]; [now] is the date. *)
Definition load (now : string) (dsl : string) (tenant_id : pyv) (task_id : string) (custom_header : pyv)
    : res Canvas :=
  j ← match json_loads dsl with Some j => Ok j | None => Err (ValueError "Expecting value") end;
  j ← normalize_chunker_dsl j;
  d ← as_fields (of_json j);
  let nodes := graph_nodes d in
  entries ← (v ← item "components" (PDict d); as_fields v);
  comps ← res_mapM (load_component nodes custom_header) entries;
  path ← (v ← item "path" (PDict d); as_strs v);
  history ← (v ← item "history" (PDict d); l ← as_iter v; res_mapM history_entry l);
  let defaults := [("sys.query", PStr ""); ("sys.user_id", PStr ""); ("sys.conversation_turns", PInt 0);
                   ("sys.files", PList []); ("sys.history", PList []); ("sys.date", PStr now)] in
  let or_set k v g := match dict_get k g with Some _ => g | None => dict_set k v g end in
  globals ← match dict_get "globals" d with
            | Some v => g ← as_fields v; Ok (or_set "sys.date" (PStr now) (or_set "sys.history" (PList []) g))
            | None => Ok defaults
            end;
  variables ← (match get "variables" (PDict []) d with
               | PDict v => Ok v
               | PList [] => Ok []          (* nothing in it is ever found *)
               | _ => Err attribute_error
               end);
  retrieval ← item "retrieval" (PDict d);
  Ok {| cv_components := comps; cv_path := path; cv_globals := globals; cv_variables := variables;
        cv_history := history; cv_retrieval := retrieval; cv_memory := get "memory" (PList []) d;
        cv_error := PStr ""; cv_nodes := nodes; cv_tenant_id := tenant_id; cv_task_id := task_id;
        cv_message_id := "" |}.

(** ** [Canvas.reset] *)

Definition reset_sys (v : pyv) : pyv :=
  match v with
  | PStr _ => PStr "" | PBool _ | PInt _ | PFloat _ => PInt 0 | PList _ => PList [] | PDict _ => PDict []
  | _ => PNone
  end.

(** The initial value of a variable of a type *)
Definition typed_value (type : string) : pyv :=
  if decide (type = "string") then PStr ""
  else if decide (type = "number") then PInt 0
  else if decide (type = "boolean") then PBool false
  else if decide (type = "object") then PDict []
  else if py_startswith type "array" then PList []
  else PStr "".
(** The types for which [variable["value"]] is reset too *)
Definition resets_variable (type : string) : bool :=
  bool_decide (type ∈ ["string"; "number"; "boolean"; "object"]) || py_startswith type "array".

Definition reset_global (acc : fields * fields) (kv : string * pyv) : res (fields * fields) :=
  let '(globals, variables) := acc in
  let '(k, v) := kv in
  if py_startswith k "sys." then Ok (dict_set k (reset_sys v) globals, variables)
  else match bytes_strip_prefix (to_bytes "env.") (to_bytes k) with
       | None => Ok (globals, variables)
       | Some rest =>
           let key := of_bytes rest in
           match dict_get key variables with
           | None => Ok (dict_set k (PStr "") globals, variables)
           | Some var =>
               t ← (t ← item "type" var; as_str t);
               d ← as_fields var;
               Ok (dict_set k (typed_value t) globals,
                   if resets_variable t then dict_set key (PDict (dict_set "value" (typed_value t) d)) variables
                   else variables)
           end
       end.

(** The keys of the canvas in Redis are deleted too. *)
Definition reset_canvas (mem : bool) (c : Canvas) : res Canvas :=
  let c := set_path [] (set_components ((λ kv, (kv.1, reset false kv.2)) <$> cv_components c) c) in
  let c := if mem then c else set_history [] (set_retrieval (PList []) (set_memory (PList []) c)) in
  '(globals, variables) ← foldl (λ acc kv, a ← acc; reset_global a kv) (Ok (cv_globals c, cv_variables c)) (cv_globals c);
  Ok (set_globals globals (set_variables variables c)).

End load.
