(* ===== verification/CanvasRun.v ===== *)
(** The scheduler of a canvas ([Canvas.run]): it walks a path of components in batches,
    calls each batch, hands events to the caller and extends the path.

    [run] is a generator: the events are the [Yield] entries of the log. A batch runs
    one component after the other, in an order of the environment. The loop of [run]
    takes fuel; its result is [None] when the fuel did not suffice. *)
From S2P Require Import Prelude Float PyText Json Dsl Effects Comp Regex Refs PyNum PyOps Canvas LlmStream Components.
Open Scope Z_scope.

Record RunArgs := {
  ra_query : pyv; ra_files : pyv; ra_user_id : pyv;
  ra_inputs : option pyv;              (* the keyword may be missing *)
  ra_webhook : option pyv }.

Section run.
Context `{CanvasEnv}.
Abbreviation V := (Act Canvas CvCall).

(** ** Calling a component *)

(** A component whose class is not modelled *)
Definition run_other (cid : string) (kwargs : fields) : V unit :=
  r ← call (CallComponent cid kwargs) (λ n, Ok (cv_other n cid kwargs));
  update cid (λ o, foldl (λ o kv, set_output kv.1 kv.2 o) o (or_outputs r)) ;;
  update cid (λ o, foldl (λ o kv, set_input_value kv.1 kv.2 o) o (or_inputs r)) ;;
  ofres (or_result r).

Definition _invoke (cid : string) (kwargs : fields) : V unit :=
  o ← self cid;
  let name := cp_component_name o in
  if decide (name = "Begin") then Begin_invoke cid kwargs
  else if decide (name = "UserFillUp") then UserFillUp_invoke cid kwargs
  else if decide (name = "Switch") then Switch_invoke cid
  else if decide (name = "Categorize") then Categorize_invoke cid kwargs
  else if decide (name = "ListOperations") then ListOperations_invoke cid
  else if decide (name = "DataOperations") then DataOperations_invoke cid
  else if decide (name = "VariableAggregator") then VariableAggregator_invoke cid
  else if decide (name = "VariableAssigner") then VariableAssigner_invoke cid
  else if decide (name = "StringTransform") then StringTransform_invoke cid kwargs
  else if decide (name = "Message") then Message_invoke cid kwargs
  else if decide (name = "Loop") then Loop_invoke cid
  else if decide (name = "LoopItem") then LoopItem_invoke cid
  else if decide (name = "Iteration") then Iteration_invoke cid
  else if decide (name = "IterationItem") then IterationItem_invoke cid
  else if decide (name = "ExitLoop") then mret ()
  else run_other cid kwargs.

(** [time.perf_counter() - self.output("_created_time")] *)
Definition elapsed (o : Cpn) : V pyv :=
  now ← observe cv_perf; ofres (py_sub (pfloat now) (output o "_created_time")).

Definition start_clock (cid : string) : V unit :=
  now ← observe cv_perf; update cid (set_output "_created_time" (pfloat now)).
Definition stop_clock (cid : string) (debug : pyv) : V unit :=
  update cid (λ o, set_param (dict_set "debug_inputs" debug (cp_param o)) o) ;;
  o ← self cid; e ← elapsed o; update cid (set_output "_elapsed_time" e).

(** The handler of [ComponentBase.invoke] and of [ToolBase.invoke] *)
Definition component_error (cid : string) (e : exn) : V unit :=
  update cid (λ o, if py_bool (get_exception_default_value o) then set_exception_default_value o
                   else set_output "_ERROR" (PStr (exn_str e)) o).
Definition tool_error (cid : string) (e : exn) : V unit :=
  update cid (λ o, set_outputs (dict_set "_ERROR" [("value", PStr (exn_str e))] (cp_outputs o)) o).

Definition is_tool (name : string) : bool := bool_decide (name = "Agent") || cv_tool name.
Definition is_async (name : string) : bool :=
  bool_decide (name ∈ ["LLM"; "Agent"; "Categorize"]) || cv_async name.

(** [invoke] and [invoke_async]; a tool asks for cancellation before it starts its
    clock. *)
Definition invoke (cid : string) (kwargs : fields) : V unit :=
  o ← self cid;
  let name := cp_component_name o in
  if is_tool name then
    unless_canceled cid (
      start_clock cid ;; catch (_invoke cid kwargs) (tool_error cid) ;; stop_clock cid (PList []))
  else
    start_clock cid ;;
    stop ← check_if_canceled_if cid (is_async name);
    if stop : bool then mret () else
    catch (_invoke cid kwargs) (component_error cid) ;; stop_clock cid (PDict []).

(** What a component says it is about to do *)
Definition thoughts (cid : string) : V pyv :=
  o ← self cid;
  let name := cp_component_name o in
  if decide (name = "Switch") then
    mret (PStr "I’m weighing a few options and will pick the next step shortly.")
  else if decide (name ∈ ["Begin"; "Message"; "ExitLoop"]) then mret (PStr "")
  else if decide (name = "UserFillUp") then mret (PStr "Waiting for your input...")
  else if decide (name = "ListOperations") then mret (PStr "ListOperation in progress")
  else if decide (name = "DataOperations") then mret (PStr "DataOperation in progress")
  else if decide (name = "VariableAggregator") then
    mret (PStr "Aggregating variables from canvas and grouping as configured.")
  else if decide (name = "VariableAssigner") then mret (PStr "Assign variables from canvas.")
  else if decide (name = "StringTransform") then mret (PStr ("It's " +:+ py_text (param "method" o) +:+ "ing."))
  else if decide (name = "Loop") then mret (PStr "Loop from canvas.")
  else if decide (name ∈ ["LoopItem"; "IterationItem"]) then mret (PStr "Next turn...")
  else if decide (name = "Iteration") then
    ref ← ofres (as_str (param "items_ref" o));
    v ← variable ref;
    n ← ofres (match v with
               | PList l => Ok (length l) | PDict d => Ok (length d) | PStr s => Ok (py_len s)
               | _ => Err exn_type
               end);
    mret (PStr ("Need to process " +:+ str_of_Z (Z.of_nat n) +:+ " items."))
  else if decide (name = "Categorize") then
    cats ← ofres (match param "category_description" o with PDict d => Ok d | _ => Err attribute_error end);
    mret (PStr ("Which should it falls into " +:+ py_join "," ((λ c, "`" +:+ c.1 +:+ "`") <$> cats) +:+ "? ..."))
  else t ← observe (λ n, cv_thoughts n cid); t ← ofres t; mret (PStr t).

(** ** Events *)

Section turn.
Context (args : RunArgs) (created_at : Z).

Definition decorate (event : string) (dt : pyv) : V unit :=
  c ← gets (λ c, c);
  call (Yield {| ev_event := event; ev_message_id := cv_message_id c; ev_created_at := created_at;
                 ev_task_id := cv_task_id c; ev_data := dt |}) (λ _, Ok ()).

Definition _node_finished (cid : string) : V unit :=
  o ← self cid;
  c ← gets (λ c, c);
  inputs ← ofres (get_input_values c o);
  e ← elapsed o;
  decorate "node_finished" (PDict [
    ("inputs", inputs); ("outputs", outputs o); ("component_id", PStr cid);
    ("component_name", PStr (get_component_name c cid)); ("component_type", PStr (cp_component_name o));
    ("error", error o); ("elapsed_time", e); ("created_at", output o "_created_time")]).

Definition node_started (cid : string) : V unit :=
  t ← observe cv_time;
  c ← gets (λ c, c);
  type ← ofres (get_component_type c cid);
  th ← thoughts cid;
  decorate "node_started" (PDict [
    ("inputs", PNone); ("created_at", PInt t); ("component_id", PStr cid);
    ("component_name", PStr (get_component_name c cid)); ("component_type", PStr type); ("thoughts", th)]).

(** ** A batch *)

(** Whether an element of the inputs is of a component that is not among [earlier] *)
Definition names_elsewhere (earlier : list string) (cpn_id : pyv) : bool :=
  match cpn_id with
  | PStr s => truthy s && bool_decide (s ∉ earlier)
  | v => py_bool v
  end.
Definition refers_elsewhere (earlier : list string) (els : list (string * fields)) : bool :=
  existsb (λ el, names_elsewhere earlier (get "_cpn_id" PNone el.2)) els.

(** [self.path[0].lower().find("userfillup") < 0] *)
Definition not_resumed (path : list string) : bool :=
  negb (py_in "userfillup" (py_lower (hd "" path))).

Definition inputs_kwarg : fields := [("inputs", default (PDict []) (ra_inputs args))].

(** The tasks of [path[i : i + n]]: a component that refers elsewhere leaves the path. *)
Fixpoint collect (n i : nat) : V (list (string * fields)) :=
  match n with
  | O => mret []
  | S n =>
      c ← gets (λ c, c);
      cid ← ofres (match cv_path c !! i with Some cid => Ok cid | None => Err (OtherError "list index out of range") end);
      o ← ofres (get_component_obj c cid);
      if kind_in ["begin"; "userfillup"] o then
        ts ← collect n (S i); mret ((cid, inputs_kwarg) :: ts)
      else
        els ← ofres (get_input_elements c o);
        if refers_elsewhere (take i (cv_path c)) els && not_resumed (cv_path c) then
          modify (λ c, set_path (take i (cv_path c) ++ drop (S i) (cv_path c)) c) ;; collect n i
        else
          '(kwargs, o') ← ofres (get_input c o);
          modify (put cid o') ;;
          ts ← collect n (S i); mret ((cid, kwargs) :: ts)
  end.

Definition canceled_exn : exn := OtherError "TaskCanceledException".
Definition raise_if_canceled : V unit :=
  b ← observe cv_canceled; if b : bool then fails canceled_exn else mret ().

Definition _run_batch (f t : nat) : V unit :=
  raise_if_canceled ;;
  tasks ← collect (t - f) f;
  order ← observe (λ n, cv_schedule n (length tasks));
  each (λ k, match tasks !! k with Some (cid, kwargs) => invoke cid kwargs | None => mret () end) order.

(** ** After a batch *)

(** The variables of [run] that outlive a component: the streams that are not read yet,
    and whether a message asked for speech *)
Record Turn := { tn_partials : list string; tn_tts : bool }.

(** [self.tts(tts_mdl, text)] *)
Definition tts (on : bool) (text : string) : V pyv :=
  if on && truthy text then call (CallTts text) (λ n, Ok (cv_tts n text)) else mret PNone.

Definition message_data (l : fields) : pyv := PDict l.

(** [_process_stream]: the text read so far and the part of it without speech yet *)
Definition _process_stream (on : bool) (st : string * string) (m : string) : V (string * string * bool) :=
  let '(_m, buff_m) := st in
  if negb (truthy m) then mret (st, false)
  else if decide (m = "<think>") then
    decorate "message" (message_data [("content", PStr ""); ("start_to_think", PBool true)]) ;; mret (st, false)
  else if decide (m = "</think>") then
    decorate "message" (message_data [("content", PStr ""); ("end_to_think", PBool true)]) ;; mret (st, false)
  else
    let buff_m := buff_m +:+ m in
    let _m := _m +:+ m in
    if decide (16 < py_len buff_m)%nat then
      a ← tts on buff_m;
      decorate "message" (message_data [("content", PStr m); ("audio_binary", a)]) ;; mret (_m, "", false)
    else decorate "message" (message_data [("content", PStr m)]) ;; mret (_m, buff_m, false).

Definition get_reference (c : Canvas) : pyv :=
  match cv_retrieval c with
  | PList l => default (PDict [("chunks", PDict []); ("doc_aggs", PDict [])]) (last l)
  | _ => PDict [("chunks", PDict []); ("doc_aggs", PDict [])]
  end.
Definition _has_reference (c : Canvas) : bool :=
  match get_reference c with
  | PDict ref => py_bool (get "chunks" PNone ref) || py_bool (get "doc_aggs" PNone ref)
  | _ => false
  end.
Definition _build_message_end (c : Canvas) (o : Cpn) : pyv :=
  PDict ((if py_bool (get_param o "status") then [("status", get_param o "status")] else [])
    ++ (match output o "attachment" with PDict d => [("attachment", PDict d)] | _ => [] end)
    ++ (if _has_reference c then [("reference", get_reference c)] else [])).

(** [while partials: ...]: reports the components whose streams have been read *)
Fixpoint flush (partials : list string) : V (list string) :=
  match partials with
  | [] => mret []
  | p :: partials' =>
      o ← self p;
      if is_partial (output o "content") then mret partials
      else _node_finished p ;; flush partials'
  end.

(** The events of a message *)
Definition show_message (cid : string) (tn : Turn) : V Turn :=
  o ← self cid;
  let on := tn_tts tn || py_bool (get_param o "auto_play") in
  (if is_partial (output o "content") then
     r ← stream recursion_limit _ (_process_stream on) ("", "") (output o "content");
     let '(_m, buff_m) := r.1 in
     (if truthy buff_m then
        a ← tts on buff_m;
        decorate "message" (message_data [("content", PStr ""); ("audio_binary", a)])
      else mret ()) ;;
     update cid (set_output "content" (PStr _m))
   else decorate "message" (message_data [("content", output o "content")])) ;;
  o ← self cid;
  c ← gets (λ c, c);
  decorate "message_end" (_build_message_end c o) ;;
  ps ← flush (tn_partials tn);
  mret {| tn_partials := ps; tn_tts := on |}.

(** What follows an error of a component: whether the path goes elsewhere *)
Definition handle_error (cid : string) : V bool :=
  o ← self cid;
  if negb (py_bool (error o)) then mret false else
  match exception_handler o with
  | Some (goto, default_value) =>
      if py_bool goto then
        ids ← ofres (as_strs goto);
        modify (λ c, set_path (cv_path c ++ ids) c) ;; mret true
      else if py_bool default_value then
        decorate "message" (message_data [("content", default_value)]) ;;
        decorate "message_end" (PDict []) ;; mret false
      else modify (set_error (error o)) ;; mret false
  | None => modify (set_error (error o)) ;; mret false
  end.

Definition report_finished (cid : string) (tn : Turn) : V Turn :=
  o ← self cid;
  if kind_in ["iteration"; "loop"] o then mret tn
  else if is_partial (output o "content") then
    c ← gets (λ c, c);
    if py_bool (cv_error c) then
      update cid (set_output "content" PNone) ;; _node_finished cid ;; mret tn
    else mret {| tn_partials := tn_partials tn ++ [cid]; tn_tts := tn_tts tn |}
  else _node_finished cid ;; mret tn.

(** [_append_path], [_extend_path]: an id that ends the path is not repeated. *)
Definition append_path (path : list string) (cpn_id : string) : list string :=
  if decide (last path = Some cpn_id) then path else path ++ [cpn_id].
Definition extend_path (path : list string) (cpn_ids : list string) : list string := foldl append_path path cpn_ids.
Definition extend (ids : list string) : V unit := modify (λ c, set_path (extend_path (cv_path c) ids) c).

(** [get_start] of an Iteration or a Loop: the first item component of it *)
Fixpoint first_item (kind pid : string) (l : list (string * Cpn)) : res (option string) :=
  match l with
  | [] => Ok None
  | (cid, o) :: l =>
      if is_kind kind o then
        match cp_parent_id o with
        | Some p => if decide (p = pid) then Ok (Some cid) else first_item kind pid l
        | None => Err (key_error "parent_id")
        end
      else first_item kind pid l
  end.
(** A loop without an item appends [None] to the path, which raises when the next batch
    starts; here it raises at once. *)
Definition get_start (c : Canvas) (pid : string) (p : Cpn) : res string :=
  kind ← (if decide (cp_component_name p = "Iteration") then Ok "iterationitem"
          else if decide (cp_component_name p = "Loop") then Ok "loopitem"
          else Err attribute_error);
  r ← first_item kind pid (cv_components c);
  match r with Some cid => Ok cid | None => Err exn_type end.

(** [cpn_obj.end()] of an item *)
Definition item_end (cid : string) : V bool :=
  o ← self cid;
  if is_kind "iterationitem" o then mret (bool_decide (cp_idx o = -1))
  else
    c ← gets (λ c, c);
    '(b, idx) ← ofres (loop_end c o);
    update cid (set_idx idx) ;; mret b.

(** The downstream of the parent of a component *)
Definition parent_downstream (c : Canvas) (o : Cpn) : res (list string) :=
  pid ← (match cp_parent_id o with Some p => Ok p | None => Err (key_error "parent_id") end);
  p ← get_component_obj c pid; Ok (cp_downstream p).

(** What a component appends to the path, if no error took it elsewhere *)
Definition next_components (cid : string) : V (list string) :=
  o ← self cid;
  c ← gets (λ c, c);
  over ← (if kind_in ["iterationitem"; "loopitem"] o then item_end cid else mret false);
  if over : bool then
    '(pid, _) ← ofres (parent_of c o);
    _node_finished pid ;;
    c ← gets (λ c, c);
    ofres (parent_downstream c o)
  else if kind_in ["categorize"; "switch"] o then mret []
  else if kind_in ["iteration"; "loop"] o then s ← ofres (get_start c cid o); mret [s]
  else
    exits ← (if is_kind "exitloop" o then '(_, p) ← ofres (parent_of c o); mret (is_kind "loop" p) else mret false);
    if exits : bool then ofres (parent_downstream c o)
    else
      p ← ofres (get_parent c o);
      match cp_downstream o, p with
      | [], Some (pid, p) => s ← ofres (get_start c pid p); mret [s]
      | down, _ => mret down
      end.

Definition follow (cid : string) (other_branch : bool) : V unit :=
  ids ← next_components cid;
  o ← self cid;
  if other_branch then mret ()
  else if kind_in ["categorize"; "switch"] o then ids ← ofres (as_strs (output o "_next")); extend ids
  else extend ids.

Definition post_process (tn : Turn) (i : nat) : V Turn :=
  c ← gets (λ c, c);
  cid ← ofres (match cv_path c !! i with Some cid => Ok cid | None => Err (OtherError "list index out of range") end);
  o ← ofres (get_component_obj c cid);
  tn ← (if is_kind "message" o then show_message cid tn else mret tn);
  other_branch ← handle_error cid;
  tn ← report_finished cid tn;
  follow cid other_branch ;;
  mret tn.

(** ** The loop *)

(** [o.invoke()] of the form components among [ids], and what they ask for *)
Fixpoint ask_user (ids : list string) (another_inputs : list (string * fields)) (tips : pyv)
    : V (list (string * fields) * pyv) :=
  match ids with
  | [] => mret (another_inputs, tips)
  | cid :: ids =>
      o ← self cid;
      if is_kind "userfillup" o then
        invoke cid [] ;;
        o ← self cid;
        c ← gets (λ c, c);
        els ← ofres (get_input_elements c o);
        ask_user ids (foldl (λ r kv, dict_set kv.1 kv.2 r) another_inputs els)
          (if py_bool (get_param o "enable_tips") then output o "tips" else tips)
      else ask_user ids another_inputs tips
  end.

(** Whether the turn stops to ask the user, and the index the walk has reached *)
Fixpoint run_loop (fuel : nat) (idx : nat) (tn : Turn) : V (option (bool * nat)) :=
  match fuel with
  | O => mret None
  | S fuel =>
      path ← gets cv_path;
      if decide (length path ≤ idx)%nat then mret (Some (false, idx)) else
      each node_started (drop idx path) ;;
      _run_batch idx (length path) ;;
      to ← gets (λ c, length (cv_path c));
      tn ← folding post_process tn (seq idx (to - idx));
      c ← gets (λ c, c);
      if py_bool (cv_error c) then mret (Some (false, idx)) else
      objs ← ofres (res_mapM (λ cid, o ← get_component_obj c cid; Ok (cid, o)) (drop to (cv_path c)));
      if existsb (λ p, is_kind "userfillup" p.2) objs then
        let forms := filter (λ p, is_kind "userfillup" p.2) objs in
        let others := filter (λ p, negb (is_kind "userfillup" p.2)) objs in
        let path := fst <$> (forms ++ others) in
        '(inputs, tips) ← ask_user path [] (PStr "");
        modify (set_path path) ;;
        decorate "user_inputs" (PDict [("inputs", fields_dict inputs); ("tips", tips)]) ;;
        mret (Some (true, to))
      else run_loop fuel to tn
  end.

End turn.

(** ** A turn *)

(** [history.append((role, x))] and the same in the globals *)
Definition add_history (role : string) (x : pyv) : V unit :=
  modify_try (λ c,
    h ← item "sys.history" (PDict (cv_globals c));
    match h with
    | PList l =>
        Ok (set_globals (dict_set "sys.history" (PList (l ++ [PStr (role +:+ ": " +:+ py_text x)])) (cv_globals c))
             (set_history (cv_history c ++ [(role, x)]) c))
    | _ => Err attribute_error
    end).
Definition add_user_input (question : pyv) : V unit := add_history "user" question.

(** [self.retrieval.append(v)] *)
Definition append_retrieval (v : pyv) : V unit :=
  modify_try (λ c, match cv_retrieval c with
                   | PList l => Ok (set_retrieval (PList (l ++ [v])) c)
                   | _ => Err attribute_error
                   end).

(** The payload of a webhook goes to the components that begin the graph. *)
Definition webhook_cpn (payload : fields) (o : Cpn) : Cpn :=
  if is_kind "begin" o && py_eq (param "mode" o) (PStr "Webhook") then
    let o := match dict_get "input" payload with Some v => set_input_value "request" v o | None => o end in
    foldl (λ o kv, if decide (kv.1 = "input") then o else set_output kv.1 kv.2 o) o payload
  else o.

Definition set_global (k : string) (v : pyv) : V unit := modify (λ c, set_globals (dict_set k v (cv_globals c)) c).

(** The keywords of [run] that are globals, when they are not empty *)
Definition set_arguments (args : RunArgs) : V unit :=
  (if py_bool (ra_query args) then set_global "sys.query" (ra_query args) else mret ()) ;;
  (if py_bool (ra_files args) then
     files ← ofres (as_iter (ra_files args));
     v ← call (CallFiles files) (λ n, cv_files n files);
     set_global "sys.files" v
   else mret ()) ;;
  (if py_bool (ra_user_id args) then set_global "sys.user_id" (ra_user_id args) else mret ()).

Definition count_turn : V unit :=
  modify_try (λ c,
    t ← item "sys.conversation_turns" (PDict (cv_globals c));
    n ← py_add (if py_bool t then t else PInt 0) (PInt 1);
    Ok (set_globals (dict_set "sys.conversation_turns" n (cv_globals c)) c)).

(** Whether the turn goes on with a form the user was asked to fill *)
Definition resumes (path : list string) : bool :=
  match last path with Some cid => py_in "userfillup" (py_lower cid) | None => false end.

Definition chunks_of (v : pyv) : pyv := PDict [("chunks", v); ("doc_aggs", v)].

(** The state of the canvas when the walk starts; the clock and the time of the turn *)
Definition begin_turn (args : RunArgs) : V (double * Z) :=
  now ← observe cv_now;
  set_global "sys.date" (PStr now) ;;
  st ← observe cv_perf;
  mid ← observe cv_uuid;
  modify (set_message_id mid) ;;
  created_at ← observe cv_time;
  add_user_input (ra_query args) ;;
  modify (λ c, set_components ((λ kv, (kv.1, reset true kv.2)) <$> cv_components c) c) ;;
  payload ← ofres (match ra_webhook args with
                   | Some v => if py_bool v then match v with PDict d => Ok (Some d) | _ => Err attribute_error end
                               else Ok None
                   | None => Ok None
                   end);
  match payload with
  | Some d => modify (λ c, set_components ((λ kv, (kv.1, webhook_cpn d kv.2)) <$> cv_components c) c)
  | None => mret ()
  end ;;
  set_arguments args ;;
  count_turn ;;
  path ← gets cv_path;
  (if resumes path then mret ()
   else modify (λ c, set_path (cv_path c ++ ["begin"]) c) ;; append_retrieval (chunks_of (PList []))) ;;
  raise_if_canceled ;;
  decorate created_at "workflow_started" (PDict [("inputs", default PNone (ra_inputs args))]) ;;
  append_retrieval (chunks_of (PDict [])) ;;
  modify (set_error (PStr "")) ;;
  mret (st, created_at).

Definition finished_data (args : RunArgs) (outputs : pyv) (st : double) : V pyv :=
  now ← observe cv_perf;
  mret (PDict [("inputs", default PNone (ra_inputs args)); ("outputs", outputs);
    ("elapsed_time", pfloat (fsub now st)); ("created_at", pfloat st)]).

Definition last_outputs : V pyv :=
  c ← gets (λ c, c);
  match last (cv_path c) with
  | Some cid => o ← self cid; mret (outputs o)
  | None => fails (OtherError "list index out of range")
  end.

Definition end_turn (args : RunArgs) (created_at : Z) (st : double) : V unit :=
  c ← gets (λ c, c);
  if negb (py_bool (cv_error c)) then
    o ← last_outputs;
    d ← finished_data args o st;
    decorate created_at "workflow_finished" d ;;
    o ← last_outputs;
    add_history "assistant" o
  else
    stopped ← ofres (py_contains (cv_error c) (PStr "Task has been canceled"));
    if stopped : bool then
      d ← finished_data args (PStr "Task has been canceled") st;
      decorate created_at "workflow_finished" d
    else mret ().

Definition run (fuel : nat) (args : RunArgs) : V (option unit) :=
  '(st, created_at) ← begin_turn args;
  path ← gets cv_path;
  r ← run_loop args created_at fuel (length path - 1) {| tn_partials := []; tn_tts := false |};
  match r with
  | None => mret None
  | Some (true, _) => mret (Some ())
  | Some (false, idx) =>
      modify (λ c, set_path (take idx (cv_path c)) c) ;;
      end_turn args created_at st ;;
      mret (Some ())
  end.

End run.
