(* ===== verification/CanvasSteps.v ===== *)
(** What running a component leaves alone: the path, the links, and everything that
    decides where the path may go.

    [keeps A] relates a canvas to a later one in which only outputs, inputs, counters
    and variables changed. The output [_next], which routes the path, changes of a
    component [cid] to a value [v] only if [A cid v]. *)
From S2P Require Import Prelude Float PyText Json Dsl Effects Comp Regex Refs PyNum PyOps Canvas LlmStream Components CanvasRun.
Open Scope Z_scope.

(** ** Components that route alike *)

(** The parameters that running a component changes *)
Definition volatile : list string := ["debug_inputs"; "output_format"].

(** The components the inputs of a component name *)
Definition input_refs (o : Cpn) : list pyv :=
  filter (λ v, py_bool v = true) ((λ el, get "_cpn_id" PNone el.2) <$> cp_inputs o).

Record same_cpn (B : pyv → Prop) (o o' : Cpn) : Prop := {
  sc_name : cp_component_name o' = cp_component_name o;
  sc_down : cp_downstream o' = cp_downstream o;
  sc_up : cp_upstream o' = cp_upstream o;
  sc_parent : cp_parent_id o' = cp_parent_id o;
  sc_param k : k ∉ volatile → param k o' = param k o;
  sc_refs : input_refs o' = input_refs o;
  sc_next : output o' "_next" = output o "_next" ∨ B (output o' "_next") }.

#[export] Instance same_cpn_order B : PreOrder (same_cpn B).
Proof.
  split; [by split; auto|]. intros o1 o2 o3 [?????? H1] [???? Hp ? H2]. split; try congruence.
  - intros k Hk. rewrite Hp by done. auto.
  - destruct H2 as [->|]; auto.
Qed.

Lemma same_cpn_mono (B B' : pyv → Prop) o o' : (∀ v, B v → B' v) → same_cpn B o o' → same_cpn B' o o'.
Proof. intros HB []. split; auto. naive_solver. Qed.

Lemma same_set_output (B : pyv → Prop) k v o : k ≠ "_next" ∨ B v → same_cpn B o (set_output k v o).
Proof.
  intros HB. split; try done. unfold output, set_output. cbn. rewrite dict_get_set.
  destruct HB as [Hk|HB]; [by left; rewrite decide_False|]. case_decide; [|by left].
  right. cbn [default from_option id].
  unfold get, id. by rewrite dict_get_set, decide_True.
Qed.

Lemma filter_inputs_set k d (l : list (string * fields)) :
  get "_cpn_id" PNone d = get "_cpn_id" PNone (default [] (dict_get k l)) →
  filter (λ v, py_bool v = true) ((λ el, get "_cpn_id" PNone el.2) <$> dict_set k d l)
  = filter (λ v, py_bool v = true) ((λ el, get "_cpn_id" PNone el.2) <$> l).
Proof.
  induction l as [|[k' d'] l IH]; intros Hd; [simpl in *; by rewrite Hd|].
  rewrite dict_get_cons in Hd. cbn [dict_set]. case_decide as Hk; rewrite !fmap_cons, !filter_cons; cbn [snd].
  - cbn in Hd. unfold id in Hd. by rewrite Hd.
  - by rewrite IH.
Qed.

Lemma same_set_input B k v o : same_cpn B o (set_input_value k v o).
Proof.
  split; try done; [|by left]. unfold input_refs, set_input_value. cbn. apply filter_inputs_set.
  unfold get. rewrite dict_get_set, decide_False by done. by destruct (dict_get k (cp_inputs o)).
Qed.

Lemma same_set_idx B z o : same_cpn B o (set_idx z o).
Proof. split; try done. by left. Qed.

Lemma same_set_param B k v o : k ∈ volatile → same_cpn B o (set_param (dict_set k v (cp_param o)) o).
Proof.
  intros Hk. split; try done; [|by left]. intros k' Hk'. unfold param, get. cbn.
  rewrite dict_get_set, decide_False by (by intros ->). done.
Qed.

Lemma same_error_output B v o : same_cpn B o (set_outputs (dict_set "_ERROR" v (cp_outputs o)) o).
Proof. split; try done. left. unfold output. cbn. by rewrite dict_get_set, decide_False. Qed.

Lemma same_assign_output B k v o o' : k ≠ "_next" → assign_output k v o = Ok o' → same_cpn B o o'.
Proof.
  unfold assign_output. intros Hk. case_match; intros [= <-]. split; try done. left. unfold output. cbn.
  by rewrite dict_get_set, decide_False.
Qed.

Lemma same_foldl B {A} (f : Cpn → A → Cpn) (l : list A) o :
  (∀ o x, same_cpn B o (f o x)) → same_cpn B o (foldl f o l).
Proof. intros Hf. revert o. induction l as [|x l IH]; intros o; simpl; [done|]. etrans; [apply Hf|apply IH]. Qed.

(** Assignments one after the other *)
Ltac same1 :=
  lazymatch goal with
  | |- same_cpn _ ?o ?o => reflexivity
  | |- same_cpn _ _ (set_output _ _ _) => etrans; [|apply same_set_output; left; discriminate]
  | |- same_cpn _ _ (set_input_value _ _ _) => etrans; [|apply same_set_input]
  | |- same_cpn _ _ (set_idx _ _) => etrans; [|apply same_set_idx]
  | |- same_cpn _ _ (set_param (dict_set _ _ (cp_param ?o)) ?o) =>
      etrans; [|apply same_set_param; apply (bool_decide_unpack _); exact I]
  | |- same_cpn _ _ (set_outputs (dict_set "_ERROR" _ (cp_outputs ?o)) ?o) => etrans; [|apply same_error_output]
  | |- same_cpn _ _ (set_exception_default_value _) => unfold set_exception_default_value
  | |- same_cpn _ _ (match ?x with _ => _ end) => destruct x
  | |- same_cpn _ _ (let _ := _ in _) => cbv zeta
  end.
Ltac same_tac := intros; repeat same1.

(** ** Canvases *)

Record keeps (A : string → pyv → Prop) (c c' : Canvas) : Prop := {
  ks_path : cv_path c' = cv_path c;
  ks_cpns : Forall2 (λ kv kv', kv'.1 = kv.1 ∧ same_cpn (A kv.1) kv.2 kv'.2) (cv_components c) (cv_components c') }.

Lemma keeps_eq A c c' :
  cv_path c' = cv_path c → cv_components c' = cv_components c → keeps A c c'.
Proof.
  intros Hp Hc. split; [done|]. rewrite Hc. apply Forall2_same_length_lookup_2; [done|].
  intros i x y Hx Hy. rewrite Hx in Hy. by injection Hy as <-.
Qed.

#[export] Instance keeps_order A : PreOrder (keeps A).
Proof.
  split; [intros c; by apply keeps_eq|].
  - intros c1 c2 c3 [H1 H2] [H3 H4]. split; [congruence|]. revert H2 H4.
    generalize (cv_components c1), (cv_components c2), (cv_components c3). intros l1 l2 l3 H12. revert l3.
    induction H12 as [|x y l1 l2 [Hk Hs] _ IH]; intros l3 H23; inversion H23 as [|? z ? ? [Hk' Hs']]; subst; [done|].
    constructor; [|by apply IH]. split; [congruence|]. rewrite Hk in Hs'. by etrans.
Qed.

Lemma keeps_mono (A A' : string → pyv → Prop) c c' : (∀ k v, A k v → A' k v) → keeps A c c' → keeps A' c c'.
Proof.
  intros HA [H1 H2]. split; [done|]. eapply Forall2_impl; [exact H2|]. intros ?? [? Hs]. split; [done|].
  eapply same_cpn_mono; [|exact Hs]. auto.
Qed.

(** Two components of the same id *)
Lemma Forall2_dict_get {V W} (P : string → V → W → Prop) l l' k :
  Forall2 (λ kv kv', kv'.1 = kv.1 ∧ P kv.1 kv.2 kv'.2) l l' →
  match dict_get k l, dict_get k l' with
  | Some x, Some y => P k x y
  | None, None => True
  | _, _ => False
  end.
Proof.
  induction 1 as [|[k1 x] [k2 y] l l' [Hk HP] _ IH]; [done|]. simpl in *. subst k2.
  rewrite !dict_get_cons. case_decide; [by subst|done].
Qed.

Lemma keeps_cpn A c c' cid :
  keeps A c c' →
  match component_of c cid, component_of c' cid with
  | Some o, Some o' => same_cpn (A cid) o o'
  | None, None => True
  | _, _ => False
  end.
Proof. intros [_ H]. by apply (Forall2_dict_get (λ k, same_cpn (A k))). Qed.

Lemma keeps_put A c cid o o' :
  component_of c cid = Some o → same_cpn (A cid) o o' → keeps A c (put cid o' c).
Proof.
  intros Ho Hs. split; [done|]. unfold component_of in Ho. cbn. revert Ho.
  induction (cv_components c) as [|[k x] l IH]; intros Ho; [done|].
  rewrite dict_get_cons in Ho. cbn [dict_set]. case_decide as Hk.
  - injection Ho as ->. constructor; [by subst|].
    apply Forall2_same_length_lookup_2; [done|]. intros i a b Ha Hb. rewrite Ha in Hb. by injection Hb as <-.
  - constructor; [done|]. by apply IH.
Qed.

Lemma keeps_update A cid f c : (∀ o, same_cpn (A cid) o (f o)) → keeps A c (update_cpn cid f c).
Proof.
  intros Hf. unfold update_cpn. destruct (component_of c cid) as [o|] eqn:E; [|done]. by eapply keeps_put.
Qed.

(** ** Computations *)

Lemma kept_self `{CanvasEnv} A cid : runs (on_state CvCall (keeps A)) (self cid).
Proof. unfold self. runs_tac. Qed.

Lemma kept_variable A exp : runs (on_state CvCall (keeps A)) (variable exp).
Proof. unfold variable. runs_tac. Qed.

Lemma kept_update A cid f :
  (∀ o, same_cpn (A cid) o (f o)) → runs (on_state CvCall (keeps A)) (update cid f).
Proof. intros Hf. apply runs_modify. intros c. by apply keeps_update. Qed.

Lemma kept_update_res A cid f :
  (∀ o o', f o = Ok o' → same_cpn (A cid) o o') → runs (on_state CvCall (keeps A)) (update_res cid f).
Proof.
  intros Hf. apply runs_modify_try. intros c c' Hr. unfold get_component_obj in Hr.
  destruct (component_of c cid) as [o|] eqn:E; [|done]. cbn in Hr.
  destruct (f o) as [o'|] eqn:E'; [|done]. injection Hr as <-. eapply keeps_put; eauto.
Qed.

#[export] Hint Resolve kept_self kept_variable : runs.
#[export] Hint Extern 1 (runs _ (update _ _)) => apply kept_update; solve [same_tac] : runs.

(** A value that was computed is known to the rest of the computation. *)
Lemma runs_bind_ofres {S C A B} {R : relation (Mach S C)} `{!MachOrder R} (r : res A) (f : A → Act S C B) :
  (∀ a, r = Ok a → runs R (f a)) → runs R (ofres r ≫= f).
Proof. intros Hf w. unfold mbind, Act_bind, ofres. destruct r as [a|e]; [by apply Hf|]. reflexivity. Qed.

(** A fold that may raise: what is known after each of its steps is known at the end. *)
Lemma foldl_res_acc {X Y} (I : list Y → X → Prop) (f : X → Y → res X) (l0 l : list Y) x x' :
  (∀ l x y x', I l x → f x y = Ok x' → I (l ++ [y]) x') →
  foldl (λ acc y, x ← acc; f x y) (Ok x) l = Ok x' → I l0 x → I (l0 ++ l) x'.
Proof.
  intros Hf. assert (∀ e l, foldl (λ acc y, x ← acc; f x y) (Err e) l = Err e) as Herr
    by (intros e l'; induction l' as [|y l' IH]; [done|exact IH]).
  revert x l0. induction l as [|y l IH]; intros x l0 Hl Hx; cbn in Hl;
    [injection Hl as <-; by rewrite app_nil_r|].
  destruct (f x y) as [x1|e] eqn:E; [|by rewrite Herr in Hl].
  rewrite (cons_middle y l0 l), app_assoc. eapply IH; [exact Hl|by eapply Hf].
Qed.

Lemma foldl_res_inv {X Y} (I : X → Prop) (f : X → Y → res X) (l : list Y) x x' :
  (∀ x y x', I x → f x y = Ok x' → I x') →
  foldl (λ acc y, x ← acc; f x y) (Ok x) l = Ok x' → I x → I x'.
Proof. intros Hf. apply (foldl_res_acc (λ _, I) f []). intros _. apply Hf. Qed.

Ltac runs_eq :=
  repeat first
    [ progress cbv zeta
    | lazymatch goal with |- runs _ (mbind _ (ofres _)) => apply runs_bind_ofres; intros ? ? end
    | runs1
    | solve [eauto with runs nocore]].

Section keep.
Context `{CanvasEnv} (A : string → pyv → Prop).
Abbreviation V := (Act Canvas CvCall).
Abbreviation kept := (runs (on_state CvCall (keeps A))).

Lemma kept_check_if_canceled cid : kept (check_if_canceled cid).
Proof. unfold check_if_canceled. runs_tac. Qed.
Lemma kept_check_if_canceled_if cid b : kept (check_if_canceled_if cid b).
Proof. unfold check_if_canceled_if. destruct b; [apply kept_check_if_canceled|runs_tac]. Qed.
Lemma kept_unless_canceled cid m : kept m → kept (unless_canceled cid m).
Proof.
  intros Hm. unfold unless_canceled. apply runs_bind; [apply kept_check_if_canceled|].
  intros [].
  - apply runs_ret.
  - exact Hm.
Qed.

#[local] Hint Resolve kept_check_if_canceled kept_check_if_canceled_if : runs.
#[local] Hint Extern 1 (runs _ (unless_canceled _ _)) => apply kept_unless_canceled; runs_tac : runs.

Lemma kept_set_next cid to : A cid to → kept (set_next cid to).
Proof.
  intros Hto. unfold set_next. runs_tac. apply kept_update. intros o. etrans; [apply (same_set_output _ "next"); left; discriminate|].
  apply same_set_output. by right.
Qed.

(** The places a condition sends the path to *)
Definition to_of (cond v : pyv) : Prop := item "to" cond = Ok v.

Lemma kept_switch_items cid cond items outcomes :
  (∀ v, to_of cond v → A cid v) → kept (switch_items cid cond items outcomes).
Proof.
  intros Hto. revert outcomes. induction items as [|it items IH]; intros outcomes; cbn [switch_items]; runs_eq;
    try apply IH. apply kept_set_next. auto.
Qed.

Lemma kept_switch_conditions cid end_ids conds :
  A cid end_ids → (∀ cond v, cond ∈ conds → to_of cond v → A cid v) → kept (switch_conditions cid end_ids conds).
Proof.
  intros Hend. induction conds as [|cond conds IH]; intros Hto; cbn [switch_conditions]; [by apply kept_set_next|].
  apply kept_unless_canceled. apply runs_bind_ofres. intros items _.
  apply runs_bind; [apply kept_switch_items; intros v; apply Hto; by left|]. intros [outcomes|]; [|runs_tac].
  destruct (forallb _ _); [|apply IH; intros c v Hc; apply Hto; by right].
  apply runs_bind_ofres. intros v Hv. apply kept_set_next. apply (Hto cond); [by left|done].
Qed.
Lemma kept_set_outputs cid outs : kept (_set_outputs cid outs).
Proof.
  unfold _set_outputs. runs_tac; apply kept_update_res; intros o o' Ho;
    (eapply same_assign_output; [|exact Ho]); discriminate.
Qed.
#[local] Hint Resolve kept_set_outputs : runs.

Lemma kept_ListOperations cid : kept (ListOperations_invoke cid).
Proof. unfold ListOperations_invoke. runs_tac. Qed.

Lemma kept_DataOperations cid : kept (DataOperations_invoke cid).
Proof. unfold DataOperations_invoke. runs_tac. Qed.

(** ** Streams and messages *)

Lemma kept_convert cid content : kept (_convert_content cid content).
Proof. unfold _convert_content. runs_tac. Qed.
Lemma kept_save cid content : kept (_save_to_memory cid content).
Proof. unfold _save_to_memory. runs_tac. Qed.
#[local] Hint Resolve kept_convert kept_save : runs.

Lemma kept_llm_stream {X} (emit : X → string → V (X * bool)) cid st a answers :
  (∀ a t, kept (emit a t)) → kept (llm_stream emit cid st a answers).
Proof.
  intros He. revert st a. induction answers as [|ans answers IH]; intros st a; cbn [llm_stream]; runs_tac; auto.
Qed.

Lemma kept_pass_on cid {X} (emit : X → string → V (X * bool)) b t :
  (∀ a t, kept (emit a t)) → kept (pass_on cid emit b t).
Proof. intros He. unfold pass_on. runs_tac; auto. Qed.

Lemma kept_message_pieces nested cid {X} (emit : X → string → V (X * bool)) a all cache pieces tail :
  (∀ Y (emit' : Y → string → V (Y * bool)) b v, (∀ b t, kept (emit' b t)) → kept (nested Y emit' b v)) →
  (∀ a t, kept (emit a t)) → kept (message_pieces nested cid emit a all cache pieces tail).
Proof.
  intros Hn He. revert a all cache. induction pieces as [|[before exp] pieces IH]; intros a all cache;
    cbn [message_pieces]; runs_tac; auto. apply Hn. intros b t. by apply kept_pass_on.
Qed.

Lemma kept_stream depth {X} (emit : X → string → V (X * bool)) a v :
  (∀ a t, kept (emit a t)) → kept (stream depth X emit a v).
Proof.
  revert X emit a v. induction depth as [|depth IH]; intros X emit a v He; cbn [stream]; [runs_tac|].
  destruct (partial_parts v) as [[[cid method] arg]|]; [|runs_tac]. case_decide.
  - destruct (pieces_of arg) as [pieces tail]. apply kept_message_pieces; [|done]. auto.
  - runs_tac. by apply kept_llm_stream.
Qed.

Lemma kept_consume v : kept (consume v).
Proof. unfold consume. apply runs_bind; [apply kept_stream; intros; runs_tac|intros; runs_tac]. Qed.
#[local] Hint Resolve kept_consume : runs.

Lemma kept_get_kwargs cid script kwargs d : kept (get_kwargs cid script kwargs d).
Proof.
  unfold get_kwargs, kwarg_text. runs_tac.
Qed.
#[local] Hint Resolve kept_get_kwargs : runs.

Lemma kept_Message cid kwargs : kept (Message_invoke cid kwargs).
Proof. unfold Message_invoke. apply kept_unless_canceled. runs_tac. Qed.

Lemma kept_StringTransform cid kwargs : kept (StringTransform_invoke cid kwargs).
Proof.
  unfold StringTransform_invoke, _split, _merge. apply kept_unless_canceled. runs_tac.
Qed.

(** ** Loops and forms *)

Lemma kept_LoopItem cid : kept (LoopItem_invoke cid).
Proof. unfold LoopItem_invoke. apply kept_unless_canceled. runs_tac. Qed.

Lemma kept_Iteration cid : kept (Iteration_invoke cid).
Proof. unfold Iteration_invoke. apply kept_unless_canceled. runs_tac. Qed.

Lemma kept_set_any cid k v f :
  (∀ v, A cid v) → (∀ o, same_cpn (A cid) (set_output k v o) (f (set_output k v o))) →
  kept (update cid (λ o, f (set_output k v o))).
Proof. intros HA Hf. apply kept_update. intros o. etrans; [apply same_set_output; by right|apply Hf]. Qed.

Lemma kept_fill_inputs cid keep inputs : (∀ v, A cid v) → kept (fill_inputs cid keep inputs).
Proof.
  intros HA. induction inputs as [|[k v] inputs IH]; cbn [fill_inputs]; [runs_tac|].
  apply kept_unless_canceled. unfold form_value. runs_tac; try apply IH.
  apply kept_update. intros o. destruct keep; [etrans; [|apply same_set_input]|]; apply same_set_output; auto.
Qed.

Lemma kept_Begin cid kwargs : (∀ v, A cid v) → kept (Begin_invoke cid kwargs).
Proof. intros HA. apply kept_unless_canceled. runs_tac. by apply kept_fill_inputs. Qed.

Lemma kept_fill_tips cid : kept (fill_tips cid).
Proof. unfold fill_tips. runs_tac. Qed.

Lemma kept_UserFillUp cid kwargs : (∀ v, A cid v) → kept (UserFillUp_invoke cid kwargs).
Proof.
  intros HA. apply kept_unless_canceled. apply runs_bind; [apply kept_fill_tips|]. intros _. runs_tac.
  by apply kept_fill_inputs.
Qed.

Lemma kept_Loop cid : (∀ v, A cid v) → kept (Loop_invoke cid).
Proof.
  intros HA. unfold Loop_invoke. apply kept_unless_canceled. runs_tac.
  apply kept_update. intros o. apply same_set_output. auto.
Qed.

Lemma kept_VariableAggregator cid : (∀ v, A cid v) → kept (VariableAggregator_invoke cid).
Proof.
  intros HA. unfold VariableAggregator_invoke. runs_tac.
  match goal with |- runs _ (first_value _ _ ?l) => induction l as [|sel l IH] end; cbn [first_value]; runs_tac; try apply IH.
  apply kept_update. intros o. apply same_set_output. auto.
Qed.

Lemma kept_other cid kwargs : (∀ v, A cid v) → kept (run_other cid kwargs).
Proof.
  intros HA. unfold run_other. runs_tac; apply kept_update; intros o; apply same_foldl; intros o' x.
  - apply same_set_output. auto.
  - apply same_set_input.
Qed.
End keep.

(** The values a switch may set [_next] to *)
Definition switch_value (o : Cpn) (v : pyv) : Prop :=
  v = param "end_cpn_ids" o ∨ ∃ conds cond, as_iter (param "conditions" o) = Ok conds ∧ cond ∈ conds ∧ to_of cond v.
Definition categorize_value (o : Cpn) (v : pyv) : Prop :=
  ∃ cats k d, param "category_description" o = PDict cats ∧ (k, d) ∈ cats ∧ item "to" d = Ok v.

(** What a component may set [_next] to: its targets, if it is one that routes *)
Definition route_value (o : Cpn) (v : pyv) : Prop :=
  (cp_component_name o = "Switch" → switch_value o v) ∧
  (cp_component_name o = "Categorize" → categorize_value o v).
Definition routes (c : Canvas) (cid : string) (v : pyv) : Prop :=
  ∀ o, component_of c cid = Some o → route_value o v.

Lemma same_switch_value B o o' v : same_cpn B o o' → switch_value o' v → switch_value o v.
Proof.
  intros Hs. unfold switch_value. by rewrite !(sc_param _ _ _ Hs) by (apply (bool_decide_unpack _); exact I).
Qed.
Lemma same_categorize_value B o o' v : same_cpn B o o' → categorize_value o' v → categorize_value o v.
Proof.
  intros Hs. unfold categorize_value. by rewrite !(sc_param _ _ _ Hs) by (apply (bool_decide_unpack _); exact I).
Qed.

(** The variables that assigners write are not the routes of other components. *)
Definition next_safe (exp : string) : Prop :=
  ∀ cid v, split_at (strip_braces exp) = Ok (cid, v) → (split_dot v).1 ≠ "_next".
Definition assign_safe (c : Canvas) : Prop :=
  ∀ cid o l it exp, component_of c cid = Some o → cp_component_name o = "VariableAssigner" →
    param "variables" o = PList l → it ∈ l → item "variable" it = Ok (PStr exp) → next_safe exp.

Lemma keeps_set_variable A c exp v c' :
  next_safe exp → set_variable_value c exp v = Ok c' → keeps A c c'.
Proof.
  unfold set_variable_value, next_safe. intros Hs. cbv zeta. destruct (negb _); [intros [= <-]; by apply keeps_eq|].
  destruct (split_at _) as [[cid var]|] eqn:Hsp; [|done]. cbn. specialize (Hs _ _ eq_refl).
  destruct (component_of c cid) as [o|] eqn:Ho; [|done]. destruct (split_dot var) as [root rest]. cbn in Hs.
  destruct (truthy rest).
  - destruct (set_variable_param_value _ _ _); [|done]. cbn. intros [= <-].
    eapply keeps_put; [done|]. apply same_set_output. by left.
  - intros [= <-]. eapply keeps_put; [done|]. apply same_set_output. by left.
Qed.

(** ** Against a canvas the turn started with *)

Section from.
Context `{CanvasEnv} (c0 : Canvas).
Abbreviation V := (Act Canvas CvCall).
Abbreviation A := (routes c0).
(** [m] leads from states that keep [c0] to such states. *)
Abbreviation from_c0 m := (sat (keeps A c0) m (λ _, True)).

Lemma kept_sat {X} (m : V X) : runs (on_state CvCall (keeps A)) m → from_c0 m.
Proof. intros Hm w Hw. split; [|done]. etrans; [exact Hw|apply Hm]. Qed.

(** The component as the turn started with it *)
Definition origin (cid : string) (o : Cpn) : Prop :=
  ∃ o0, component_of c0 cid = Some o0 ∧ same_cpn (A cid) o0 o.

Lemma keeps_origin c cid o : keeps A c0 c → component_of c cid = Some o → origin cid o.
Proof.
  intros Hk Ho. apply keeps_cpn with (cid := cid) in Hk. rewrite Ho in Hk.
  destruct (component_of c0 cid) as [o0|] eqn:E; [by exists o0|done].
Qed.

Lemma self_run cid (w : Mach Canvas CvCall) : self cid w = (get_component_obj (m_state w) cid, w).
Proof. reflexivity. Qed.

Lemma sat_self cid : sat (keeps A c0) (self cid : V Cpn) (origin cid).
Proof.
  intros w Hw. split; [done|]. intros o. rewrite self_run. cbn [fst]. unfold get_component_obj.
  destruct (component_of (m_state w) cid) as [o1|] eqn:E; [|done]. intros [= <-]. by eapply keeps_origin.
Qed.

Lemma sat_self_bind {B} cid (f : Cpn → V B) (Q : B → Prop) :
  (∀ o, origin cid o → sat (keeps A c0) (f o) Q) → sat (keeps A c0) (self cid ≫= f) Q.
Proof. intros Hf. eapply sat_bind; [apply sat_self|exact Hf]. Qed.

Lemma origin_name cid o0 o : component_of c0 cid = Some o0 → origin cid o → cp_component_name o = cp_component_name o0.
Proof. intros H0 (o1 & H1 & Hs). rewrite H0 in H1. injection H1 as <-. apply Hs. Qed.

(** A component of another kind may set anything. *)
Lemma routes_other cid o v :
  origin cid o → cp_component_name o ≠ "Switch" → cp_component_name o ≠ "Categorize" → A cid v.
Proof.
  intros Ho Hs Hc o0 H0. rewrite (origin_name cid o0 o) in Hs, Hc by done. by split.
Qed.

Lemma sat_unless_canceled cid m : from_c0 m → from_c0 (unless_canceled cid m).
Proof.
  intros Hm. unfold unless_canceled. apply sat_bind with (λ _, True); [apply kept_sat, kept_check_if_canceled|].
  intros [] _; [by apply sat_ret|exact Hm].
Qed.

Lemma origin_switch cid o v : origin cid o → cp_component_name o = "Switch" → switch_value o v → A cid v.
Proof.
  intros Ho Hn Hv o0 H0. rewrite (origin_name cid o0 o) in Hn by done. destruct Ho as (o1 & H1 & Hs).
  rewrite H0 in H1. injection H1 as <-. split; [intros _; by eapply same_switch_value|congruence].
Qed.
Lemma origin_categorize cid o v :
  origin cid o → cp_component_name o = "Categorize" → categorize_value o v → A cid v.
Proof.
  intros Ho Hn Hv o0 H0. rewrite (origin_name cid o0 o) in Hn by done. destruct Ho as (o1 & H1 & Hs).
  rewrite H0 in H1. injection H1 as <-. split; [congruence|intros _; by eapply same_categorize_value].
Qed.

(** When all of a computation starts from one reading of the component *)
Lemma sat_Switch cid :
  (∀ o, origin cid o → cp_component_name o = "Switch") → from_c0 (Switch_invoke cid).
Proof.
  intros Hn. apply sat_unless_canceled. apply sat_self_bind. intros o Ho.
  apply kept_sat, runs_bind_ofres. intros conds Hc. apply kept_switch_conditions.
  - eapply origin_switch; [done|by apply Hn|]. by left.
  - intros cond v Hin Hv. eapply origin_switch; [done|by apply Hn|]. right. by exists conds, cond.
Qed.

Lemma choose_category_value cats ans name to :
  choose_category cats ans = Ok (name, to) → ∃ k d, (k, d) ∈ cats ∧ item "to" d = Ok to.
Proof.
  unfold choose_category. cbv zeta. destruct (last cats) as [[c d]|] eqn:Hl; [|done].
  apply last_Some_elem_of in Hl. destruct (item "to" d) as [t|] eqn:Ht; [|done]. cbn.
  destruct (_ <$> cats) as [|x l]; [intros [= <- <-]; by exists c, d|].
  destruct (existsb _ _); [|intros [= <- <-]; by exists c, d].
  unfold get. destruct (dict_get _ cats) as [d'|] eqn:Hd; [|done]. apply elem_dict_get in Hd. cbn.
  destruct (item "to" d') as [t'|] eqn:Ht'; [|done]. cbn. intros [= <- <-]. by eexists _, d'.
Qed.

Lemma sat_Categorize cid kwargs :
  (∀ o, origin cid o → cp_component_name o = "Categorize") → from_c0 (Categorize_invoke cid kwargs).
Proof.
  intros Hn. apply sat_unless_canceled. apply sat_self_bind. intros o Ho. apply kept_sat. runs_eq.
  apply kept_unless_canceled. runs_tac. apply kept_unless_canceled. runs_eq. apply kept_update.
  intros o'. etrans; [apply (same_set_output _ "category_name"); left; discriminate|]. apply same_set_output. right.
  match goal with H : choose_category _ _ = Ok _ |- _ => apply choose_category_value in H as (k & d & Hin & Hto) end.
  apply (origin_categorize cid o); [done|by apply Hn|].
  destruct (param "category_description" o) eqn:Hd; try discriminate. simplify_eq. by exists a4, k, d.
Qed.

Lemma sat_VariableAssigner cid :
  assign_safe c0 → (∀ o, origin cid o → cp_component_name o = "VariableAssigner") →
  from_c0 (VariableAssigner_invoke cid).
Proof.
  intros Hsafe Hn. apply sat_self_bind. intros o Ho. destruct (param "variables" o) eqn:Hv; try (by apply sat_ret).
  assert (∀ it exp, it ∈ l → item "variable" it = Ok (PStr exp) → next_safe exp) as Hl.
  { destruct Ho as (o0 & H0 & Hs). intros it exp. eapply Hsafe; [exact H0| |].
    - rewrite <-(sc_name _ _ _ Hs). apply Hn. by exists o0.
    - rewrite <-Hv. symmetry. apply (sc_param _ _ _ Hs). apply (bool_decide_unpack _). exact I. }
  clear Hv. apply kept_sat. induction l as [|it l IH]; cbn [each]; [runs_tac|].
  apply runs_bind; [|intros _; apply IH; intros it' exp Hin; apply Hl; by right].
  unfold assign_item. apply runs_bind_ofres. intros x _. apply runs_bind_ofres. intros v Hv.
  apply runs_bind_ofres. intros op _. apply runs_bind_ofres. intros p _. apply runs_bind_ofres. intros exp He.
  runs_tac. apply runs_modify_try. intros c c'. destruct v; try discriminate. injection He as ->.
  destruct (match op with PStr _ => _ | _ => _ end); [|done]. cbn. apply keeps_set_variable.
  apply (Hl it exp); [by left|]. by destruct (item "variable" it) as [v|] eqn:E; [injection Hv as ->|].
Qed.

(** The collation of outputs writes to the iteration, which routes nothing itself. *)
Lemma collate_keeps pid cid o c kv c' p :
  keeps A c0 c → component_of c pid = Some p → kind_in ["categorize"; "switch"] p = false →
  collate_output pid cid o c kv = Ok c' → keeps A c0 c'.
Proof.
  intros Hk Hp Hkind. unfold collate_output. destruct (dict_get "ref" kv.2) as [ref|]; [|by intros [= <-]].
  destruct (s ← as_str ref; split_at s) as [[_cid var]|]; [|done]. cbn. case_decide; [by intros [= <-]|].
  unfold get_component_obj. rewrite Hp. cbn. destruct (if py_bool _ then _ else _); try discriminate. cbn.
  intros [= <-]. etrans; [exact Hk|]. eapply keeps_put; [exact Hp|]. apply same_set_output. right.
  eapply routes_other; [by eapply keeps_origin| |]; intros Hn; unfold kind_in in Hkind; rewrite Hn in Hkind; discriminate.
Qed.

Lemma sat_output_collation cid : from_c0 (output_collation cid).
Proof.
  apply sat_modify_try; [|done]. intros c c' Hk Hr.
  destruct (get_component_obj c cid) as [me|]; [|done]. cbn in Hr.
  destruct (parent_of c me) as [[pid pp]|]; [|done]. cbn in Hr. revert Hr Hk.
  apply (foldl_res_inv (keeps A c0)). clear. intros c kv c' Hk Hr.
  destruct (get_component_obj c kv.1) as [obj|]; [|done]. cbn in Hr.
  destruct (get_parent c obj) as [[[p_id p]|]|] eqn:Hp; [|by injection Hr as <-|done]. cbn in Hr.
  case_decide as Hpid; [by injection Hr as <-|]. destruct (kind_in _ p) eqn:Hkind; [by injection Hr as <-|].
  assert (p_id = pid) as -> by (by destruct (decide (p_id = pid))). clear Hpid.
  assert (component_of c pid = Some p) as Hcp.
  { unfold get_parent in Hp. destruct (cp_parent_id obj); [|done]. destruct (truthy s); [|done].
    unfold get_component_obj in Hp. destruct (component_of c s) eqn:E; [|done]. cbn in Hp. by injection Hp as -> ->. }
  pose proof (keeps_origin _ _ _ Hk Hcp) as Ho.
  revert Hr Hk. apply (foldl_res_inv (keeps A c0)). intros c1 kv' c1' Hk Hr.
  destruct (get_component_obj c1 kv.1) as [obj1|]; [|done]. cbn in Hr.
  destruct (component_of c1 pid) as [p1|] eqn:Hp1.
  - eapply collate_keeps; [exact Hk|exact Hp1| |exact Hr].
    pose proof (keeps_origin _ _ _ Hk Hp1) as (o0 & H0 & Hs1).
    pose proof (origin_name _ _ _ H0 Ho) as Hn. unfold kind_in in *. rewrite (sc_name _ _ _ Hs1), <-Hn.
    apply bool_decide_eq_false_2. apply bool_decide_eq_false_1 in Hkind. intros Hin. apply Hkind. clear -Hin. set_solver.
  - unfold collate_output, get_component_obj in Hr. rewrite Hp1 in Hr.
    destruct (dict_get "ref" kv'.2) as [ref|]; [|by injection Hr as <-].
    destruct (s ← as_str ref; split_at s) as [[_cid var]|]; [|done]. cbn in Hr.
    case_decide; [by injection Hr as <-|done].
Qed.

Lemma sat_IterationItem cid :
  (∀ o, origin cid o → cp_component_name o = "IterationItem") → from_c0 (IterationItem_invoke cid).
Proof.
  intros Hn. apply sat_unless_canceled. apply sat_self_bind. intros o _.
  assert (∀ X (m : V X), runs (on_state CvCall (keeps A)) m → from_c0 m) as Hks by (intros; by apply kept_sat).
  apply sat_bind with (λ _, True); [apply Hks; runs_tac|]. intros c _.
  apply sat_bind with (λ _, True); [apply Hks; runs_tac|]. intros [pid parent] _.
  apply sat_bind with (λ _, True); [apply Hks; runs_tac|]. intros ref _.
  apply sat_bind with (λ _, True); [apply Hks; runs_tac|]. intros arr _.
  destruct arr; try (apply Hks; runs_tac; fail).
  apply sat_bind with (λ _, True).
  - case_decide; [|by apply sat_ret]. apply sat_bind with (λ _, True); [apply Hks, kept_check_if_canceled|].
    intros [] _; [by apply sat_ret|]. apply sat_bind with (λ _, True); [apply sat_output_collation|].
    intros _ _. by apply sat_ret.
  - intros stop _. apply Hks. destruct stop; [runs_tac|]. case_decide; [runs_tac|].
    apply kept_unless_canceled. runs_tac.
Qed.

Hypothesis Hsafe : assign_safe c0.

Lemma sat_invoke_body cid kwargs : from_c0 (_invoke cid kwargs).
Proof.
  unfold _invoke. apply sat_self_bind. intros o Ho. cbv zeta.
  assert (∀ name, cp_component_name o = name → ∀ o', origin cid o' → cp_component_name o' = name) as Hname.
  { intros name Hn o' Ho'. destruct Ho as (o0 & H0 & Hs). rewrite (origin_name cid o0 o') by done.
    rewrite <-(sc_name _ _ _ Hs). done. }
  assert (∀ name, cp_component_name o = name → name ≠ "Switch" → name ≠ "Categorize" → ∀ v, A cid v) as Hany.
  { intros name Hn H1 H2 v. eapply routes_other; [exact Ho|congruence|congruence]. }
  repeat case_decide;
    first
      [ apply sat_Switch, Hname; done
      | apply sat_Categorize, Hname; done
      | apply sat_VariableAssigner; [exact Hsafe|by apply Hname]
      | apply sat_IterationItem, Hname; done
      | apply kept_sat;
        first
          [ apply kept_ListOperations | apply kept_DataOperations | apply kept_StringTransform
          | apply kept_Message | apply kept_LoopItem | apply kept_Iteration | apply runs_ret
          | apply kept_Begin; eapply Hany; [eassumption|discriminate..]
          | apply kept_UserFillUp; eapply Hany; [eassumption|discriminate..]
          | apply kept_Loop; eapply Hany; [eassumption|discriminate..]
          | apply kept_VariableAggregator; eapply Hany; [eassumption|discriminate..]
          | apply kept_other; eapply Hany; [reflexivity|done..] ] ].
Qed.

Lemma kept_elapsed o : runs (on_state CvCall (keeps A)) (elapsed o).
Proof. unfold elapsed. runs_tac. Qed.
Lemma kept_start_clock cid : runs (on_state CvCall (keeps A)) (start_clock cid).
Proof. unfold start_clock. runs_tac. Qed.
Lemma kept_stop_clock cid debug : runs (on_state CvCall (keeps A)) (stop_clock cid debug).
Proof. unfold stop_clock, elapsed. runs_tac. Qed.
Lemma kept_component_error cid e : runs (on_state CvCall (keeps A)) (component_error cid e).
Proof. unfold component_error. runs_tac. Qed.
Lemma kept_tool_error cid e : runs (on_state CvCall (keeps A)) (tool_error cid e).
Proof. unfold tool_error. runs_tac. Qed.

Lemma sat_invoke cid kwargs : from_c0 (invoke cid kwargs).
Proof.
  unfold invoke. apply sat_self_bind. intros o _. cbv zeta. destruct (is_tool _).
  - apply sat_unless_canceled. apply sat_bind with (λ _, True); [apply kept_sat, kept_start_clock|]. intros _ _.
    apply sat_bind with (λ _, True).
    + apply sat_catch; [apply sat_invoke_body|]. intros e. apply kept_sat, kept_tool_error.
    + intros _ _. apply kept_sat, kept_stop_clock.
  - apply sat_bind with (λ _, True); [apply kept_sat, kept_start_clock|]. intros _ _.
    apply sat_bind with (λ _, True); [apply kept_sat, kept_check_if_canceled_if|]. intros [] _; [by apply sat_ret|].
    apply sat_bind with (λ _, True).
    + apply sat_catch; [apply sat_invoke_body|]. intros e. apply kept_sat, kept_component_error.
    + intros _ _. apply kept_sat, kept_stop_clock.
Qed.
End from.

(** ** Events *)

Section events.
Context `{CanvasEnv} (A : string → pyv → Prop).
Abbreviation V := (Act Canvas CvCall).
Abbreviation kept := (runs (on_state CvCall (keeps A))).
Context (args : RunArgs) (created_at : Z).

Lemma kept_thoughts cid : kept (thoughts cid).
Proof. unfold thoughts. runs_tac. Qed.
Lemma kept_decorate event dt : kept (decorate created_at event dt).
Proof. unfold decorate. runs_tac. Qed.
#[local] Hint Resolve kept_thoughts kept_decorate : runs.

Lemma kept_node_started cid : kept (node_started created_at cid).
Proof. unfold node_started. runs_tac. Qed.
Lemma kept_node_finished cid : kept (_node_finished created_at cid).
Proof. unfold _node_finished, elapsed. runs_tac. Qed.
#[local] Hint Resolve kept_node_finished : runs.

Lemma kept_flush l : kept (flush created_at l).
Proof. induction l as [|p l IH]; cbn [flush]; runs_tac. Qed.
#[local] Hint Resolve kept_flush : runs.

Lemma kept_process_stream on st m : kept (_process_stream created_at on st m).
Proof. unfold _process_stream, tts. runs_tac. Qed.

Lemma kept_show_message cid tn : kept (show_message created_at cid tn).
Proof.
  unfold show_message, tts. runs_tac. apply kept_stream. intros. apply kept_process_stream.
Qed.

Lemma kept_report_finished cid tn : kept (report_finished created_at cid tn).
Proof. unfold report_finished. runs_tac. Qed.

Lemma kept_item_end cid : kept (item_end cid).
Proof. unfold item_end. runs_tac. Qed.
#[local] Hint Resolve kept_item_end : runs.

Lemma kept_next_components cid : kept (next_components created_at cid).
Proof. unfold next_components. runs_tac. Qed.
End events.
