(* ===== verification/CanvasRefine.v ===== *)
(** The path machine: how [Canvas.run] may move its path, as a step relation on the
    static graph, and the proof that every turn moves along it.

    A phase is the place of the walk: [Collecting idx i n] gathers the batch that
    started at [idx], with [n] components left from [i] on; [Posting idx j to] looks at
    what the component at [j] of the batch up to [to] leads to. *)
From S2P Require Import Prelude Float PyText Json Dsl Effects Comp Regex Refs PyNum PyOps Canvas LlmStream Components.
From S2P Require Import CanvasRun CanvasSteps.
Open Scope Z_scope.

(** ** The static graph *)

(** The component a reference names *)
Definition ref_cpn (exp : string) : string :=
  if py_in "@" exp then match split_at exp with Ok (cid, _) => cid | Err _ => "" end else "".

(** The components the texts or the inputs of a component name *)
Definition refs_of (o : Cpn) : list pyv :=
  match input_texts o with
  | None => input_refs o
  | Some (Ok texts) => t ← texts; exp ← refs_of_text true t; [PStr (ref_cpn exp)]
  | Some (Err _) => []
  end.

(** A component that has to wait for one that is not in the path *)
Definition blocked (o : Cpn) (earlier : list string) : bool := existsb (names_elsewhere earlier) (refs_of o).

Definition leaves (o : Cpn) (i : nat) (path : list string) : bool :=
  negb (kind_in ["begin"; "userfillup"] o) && blocked o (take i path) && not_resumed path.

(** Where a component may send the path *)
Definition may_follow (c : Canvas) (cid : string) (ids : list string) : Prop :=
  ∃ o, component_of c cid = Some o ∧
    ((kind_in ["categorize"; "switch"] o = true ∧
        ∃ v, (v = output o "_next" ∨ route_value o v) ∧ as_strs v = Ok ids)
     ∨ (kind_in ["iterationitem"; "loopitem"; "exitloop"] o = true ∧ parent_downstream c o = Ok ids)
     ∨ (kind_in ["iteration"; "loop"] o = true ∧ ∃ s, get_start c cid o = Ok s ∧ ids = [s])
     ∨ (∃ pid p s, get_parent c o = Ok (Some (pid, p)) ∧ cp_downstream o = [] ∧ get_start c pid p = Ok s ∧ ids = [s])
     ∨ (kind_in ["categorize"; "switch"; "iteration"; "loop"] o = false ∧ ids = cp_downstream o)).

(** Where an error of a component may send it *)
Definition may_jump (c : Canvas) (cid : string) (ids : list string) : Prop :=
  ∃ o, component_of c cid = Some o ∧ py_bool (param "exception_method" o) = true ∧
    as_strs (param "exception_goto" o) = Ok ids.

Inductive phase :=
  | Collecting (idx i n : nat)
  | Posting (idx j to : nat).

Inductive mstep (c : Canvas) : phase * list string → phase * list string → Prop :=
  | ms_keep idx i n p cid o :
      p !! i = Some cid → component_of c cid = Some o → leaves o i p = false →
      mstep c (Collecting idx i (S n), p) (Collecting idx (S i) n, p)
  | ms_drop idx i n p cid o :
      p !! i = Some cid → component_of c cid = Some o → leaves o i p = true →
      mstep c (Collecting idx i (S n), p) (Collecting idx i n, take i p ++ drop (S i) p)
  | ms_batch idx i p :
      mstep c (Collecting idx i 0, p) (Posting idx idx (length p), p)
  | ms_follow idx j to p cid ids :
      (j < to)%nat → p !! j = Some cid → may_follow c cid ids →
      mstep c (Posting idx j to, p) (Posting idx (S j) to, extend_path p ids)
  | ms_jump idx j to p cid ids :
      (j < to)%nat → p !! j = Some cid → may_jump c cid ids →
      mstep c (Posting idx j to, p) (Posting idx (S j) to, p ++ ids)
  | ms_next idx to p :
      mstep c (Posting idx to to, p) (Collecting to to (length p - to), p).

(** ** The static graph does not change *)

Lemma same_input_texts B o o' : same_cpn B o o' → input_texts o' = input_texts o.
Proof.
  intros Hs. unfold input_texts, prompt_texts. rewrite (sc_name _ _ _ Hs).
  by rewrite !(sc_param _ _ _ Hs) by (apply (bool_decide_unpack _); exact I).
Qed.

Lemma same_refs B o o' : same_cpn B o o' → refs_of o' = refs_of o.
Proof. intros Hs. unfold refs_of. by rewrite (same_input_texts _ _ _ Hs), (sc_refs _ _ _ Hs). Qed.

Lemma same_kind B o o' l : same_cpn B o o' → kind_in l o' = kind_in l o.
Proof. intros Hs. unfold kind_in. by rewrite (sc_name _ _ _ Hs). Qed.

Lemma same_leaves B o o' i p : same_cpn B o o' → leaves o' i p = leaves o i p.
Proof. intros Hs. unfold leaves, blocked. by rewrite (same_refs _ _ _ Hs), (same_kind _ _ _ _ Hs). Qed.

(** Elements for these references *)
Definition listed (els : list (string * fields)) (l : list string) : Prop :=
  Forall (λ kf, get "_cpn_id" PNone kf.2 = PStr (ref_cpn kf.1)) els ∧ ∀ k, k ∈ els.*1 ↔ k ∈ l.

Lemma listed_set els l k f :
  listed els l → get "_cpn_id" PNone f = PStr (ref_cpn k) → listed (dict_set k f els) (l ++ [k]).
Proof.
  intros [H1 H2] Hf. split; [by apply Forall_dict_set|]. intros k'.
  rewrite elem_of_dict_set, H2, elem_of_app, list_elem_of_singleton. tauto.
Qed.

Lemma listed_merge d l' r l :
  listed r l → listed d l' → listed (foldl (λ r kv, dict_set kv.1 kv.2 r) r d) (l ++ l').
Proof.
  intros Hr [Hd Hk]. assert (listed (foldl (λ r kv, dict_set kv.1 kv.2 r) r d) (l ++ d.*1)) as [H1 H2].
  { clear Hk. revert r l Hr. induction Hd as [|[k f] d Hf Hd IH]; intros r l Hr; simpl; [by rewrite app_nil_r|].
    specialize (IH _ (l ++ [k]) (listed_set _ _ _ _ Hr Hf)). by rewrite <-app_assoc in IH. }
  split; [done|]. intros k. rewrite H2, !elem_of_app, Hk. done.
Qed.

Lemma listed_from_text c txt els :
  get_input_elements_from_text c txt = Ok els → listed els (refs_of_text true txt).
Proof.
  intros H. eapply (foldl_res_acc (λ l els, listed els l) _ []); [|exact H|split; [done|set_solver]].
  clear. intros l r exp r' Hl Hr. cbv beta in Hr. revert Hr.
  lazymatch goal with |- mbind _ ?x = _ → _ => destruct x as [[cid var]|e] eqn:Hs; [|done] end. cbn -[listed].
  destruct (get_variable_value c exp) as [v|e]; [|done]. cbn -[listed].
  lazymatch goal with |- mbind _ ?x = _ → _ => destruct x as [rv|e]; [|done] end. intros [= <-].
  apply listed_set; [done|]. unfold get. cbn. unfold ref_cpn.
  destruct (py_in "@" exp); [by rewrite Hs|by injection Hs as <- <-].
Qed.

Lemma existsb_perm_set {A} (f : A → bool) l l' : (∀ x, x ∈ l → x ∈ l') → existsb f l = true → existsb f l' = true.
Proof. rewrite !existsb_exists. intros H (x & Hx & Hf). exists x. rewrite <-list_elem_of_In in *. auto. Qed.

(** The elements of a component name what the graph says it names. *)
Lemma refers_blocked c o els earlier :
  get_input_elements c o = Ok els → refers_elsewhere earlier els = blocked o earlier.
Proof.
  assert (∀ els, refers_elsewhere earlier els
      = existsb (names_elsewhere earlier) ((λ el, get "_cpn_id" PNone el.2) <$> els)) as Hels.
  { intros l. induction l as [|x l IH]; [done|]. unfold refers_elsewhere in *. rewrite fmap_cons.
    cbn [existsb]. rewrite IH. reflexivity. }
  unfold get_input_elements, blocked, refs_of. destruct (input_texts o) as [[texts|e]|]; [|done|].
  2: { intros [= <-]. rewrite Hels. unfold input_refs. generalize ((λ el, get "_cpn_id" PNone el.2) <$> cp_inputs o).
       intros l. induction l as [|v l IH]; [done|]. cbn [existsb]. rewrite filter_cons, IH.
       destruct (decide (py_bool v = true)) as [Hv|Hv]; [done|]. apply not_true_is_false in Hv.
       by destruct v; simpl in *; rewrite ?Hv. }
  intros H. cbn [mbind res_bind] in H. rewrite Hels.
  assert (listed els (t ← texts; refs_of_text true t)) as [H1 H2].
  { eapply (foldl_res_acc (λ l els, listed els (t ← l; refs_of_text true t)) _ []);
      [|exact H|split; [done|set_solver]].
    clear. intros l r t r' Hl Hr. cbv beta in Hr. revert Hr.
    destruct (get_input_elements_from_text c t) as [d|] eqn:Hd; [|done]. intros [= <-].
    rewrite bind_app. cbn. rewrite app_nil_r. apply listed_merge; [done|]. by apply listed_from_text in Hd. }
  apply eq_true_iff_eq. rewrite !existsb_exists. setoid_rewrite <-list_elem_of_In. split.
  - intros (v & ([k f] & -> & Hin)%list_elem_of_fmap & Hv). exists (PStr (ref_cpn k)).
    rewrite Forall_forall in H1. specialize (H1 _ Hin). cbn in *. rewrite H1 in Hv. split; [|done].
    assert (k ∈ els.*1) as Hk%H2 by (apply list_elem_of_fmap; by exists (k, f)).
    apply list_elem_of_bind in Hk as (t & Hk & Ht). apply list_elem_of_bind. exists t. split; [|done].
    apply list_elem_of_bind. exists k. split; [by apply list_elem_of_singleton|done].
  - intros (v & Hin & Hv). apply list_elem_of_bind in Hin as (t & Hin & Ht).
    apply list_elem_of_bind in Hin as (k & ->%list_elem_of_singleton & Hk).
    assert (k ∈ els.*1) as Hk' by (apply H2, list_elem_of_bind; by exists t).
    apply list_elem_of_fmap in Hk' as ([k' f] & -> & Hin). exists (get "_cpn_id" PNone f).
    rewrite Forall_forall in H1. pose proof (H1 _ Hin) as Hf. cbn in *. split; [|by rewrite Hf].
    apply list_elem_of_fmap. by exists (k', f).
Qed.

(** ** A turn moves along the machine *)

Section sim.
Context `{CanvasEnv} (c0 : Canvas).
Abbreviation V := (Act Canvas CvCall).
Abbreviation A := (routes c0).
Context (args : RunArgs) (created_at : Z).

(** The canvas is at a path, and otherwise as the turn started. *)
Definition at_path (p : list string) (c : Canvas) : Prop := keeps A (set_path p c0) c.

Lemma at_path_path p c : at_path p c → cv_path c = p.
Proof. intros Hk. by rewrite (ks_path _ _ _ Hk). Qed.

Lemma at_path_move p p' c : at_path p c → at_path p' (set_path p' c).
Proof. intros [_ H2]. by split. Qed.

Lemma at_cpn p c cid o :
  at_path p c → component_of c cid = Some o →
  ∃ o0, component_of c0 cid = Some o0 ∧ same_cpn (A cid) o0 o.
Proof. apply (keeps_origin (set_path p c0)). Qed.

Lemma get_component_Ok c cid o : get_component_obj c cid = Ok o → component_of c cid = Some o.
Proof. unfold get_component_obj. by destruct (component_of c cid) as [x|]; [intros [= ->]|]. Qed.

Lemma same_first_item p c kind pid :
  at_path p c → first_item kind pid (cv_components c) = first_item kind pid (cv_components c0).
Proof.
  intros [_ Hk]. cbn in Hk. induction Hk as [|[k o0] [k' o] l l' [Hkk Hs] _ IH]; [done|]. cbn in Hkk, Hs. subst k'.
  cbn [first_item]. unfold is_kind. rewrite (sc_name _ _ _ Hs), (sc_parent _ _ _ Hs), IH. done.
Qed.

Lemma same_get_start p c pid B o0 o :
  at_path p c → same_cpn B o0 o → get_start c pid o = get_start c0 pid o0.
Proof.
  intros Hp Hs. unfold get_start. rewrite (sc_name _ _ _ Hs).
  destruct (if decide _ then _ else _) as [kind|]; [|done]. cbn. by rewrite (same_first_item p).
Qed.

Lemma same_parent_downstream p c B o0 o ids :
  at_path p c → same_cpn B o0 o → parent_downstream c o = Ok ids → parent_downstream c0 o0 = Ok ids.
Proof.
  intros Hp Hs. unfold parent_downstream. rewrite (sc_parent _ _ _ Hs).
  destruct (cp_parent_id o0) as [pid|]; [|done]. cbn.
  destruct (get_component_obj c pid) as [q|] eqn:Hq; [|done]. cbn. intros [= <-].
  apply get_component_Ok in Hq. destruct (at_cpn _ _ _ _ Hp Hq) as (q0 & Hq0 & Hsq).
  unfold get_component_obj. rewrite Hq0. cbn. by rewrite (sc_down _ _ _ Hsq).
Qed.

Lemma same_get_parent p c B o0 o pid q :
  at_path p c → same_cpn B o0 o → get_parent c o = Ok (Some (pid, q)) →
  ∃ q0, get_parent c0 o0 = Ok (Some (pid, q0)) ∧ same_cpn (A pid) q0 q.
Proof.
  intros Hp Hs. unfold get_parent. rewrite (sc_parent _ _ _ Hs).
  destruct (cp_parent_id o0) as [s|]; [|done]. destruct (truthy s); [|done].
  destruct (get_component_obj c s) as [q'|] eqn:Hq; [|done]. cbn. intros [= <- <-].
  apply get_component_Ok in Hq. destruct (at_cpn _ _ _ _ Hp Hq) as (q0 & Hq0 & Hsq).
  exists q0. unfold get_component_obj. by rewrite Hq0.
Qed.

(** What [next_components] returns *)
Definition leads (cid : string) (ids : list string) : Prop :=
  ∃ o0, component_of c0 cid = Some o0 ∧ (kind_in ["categorize"; "switch"] o0 = true ∨ may_follow c0 cid ids).

Lemma sat_at {B} p (m : V B) : runs (on_state CvCall (keeps A)) m → sat (at_path p) m (λ _, True).
Proof. apply (kept_sat (set_path p c0)). Qed.

Lemma sat_gets_at {B} p (f : Canvas → V B) (Q : B → Prop) :
  (∀ c, at_path p c → sat (at_path p) (f c) Q) → sat (at_path p) (gets (λ c, c) ≫= f) Q.
Proof. intros Hf. eapply sat_bind; [apply sat_gets; intros c Hc; exact Hc|]. exact Hf. Qed.

Lemma sat_ofres_at {B X} p (r : res X) (f : X → V B) (Q : B → Prop) :
  (∀ x, r = Ok x → sat (at_path p) (f x) Q) → sat (at_path p) (ofres r ≫= f) Q.
Proof. intros Hf. eapply sat_bind; [apply sat_ofres; intros x Hx; exact Hx|]. exact Hf. Qed.

Lemma sat_next_components p cid : sat (at_path p) (next_components created_at cid) (leads cid).
Proof.
  unfold next_components. apply (sat_self_bind (set_path p c0)). intros o (o0 & Ho0 & Hs).
  apply sat_gets_at. intros c Hc.
  assert (∀ ids, may_follow c0 cid ids → leads cid ids) as Hlead by (intros ids Hm; exists o0; auto).
  assert (∀ l, kind_in l o = kind_in l o0) as Hkind by (intros l; by eapply same_kind).
  apply sat_bind with (λ b, b = true → kind_in ["iterationitem"; "loopitem"] o = true).
  { destruct (kind_in _ o); [|by apply sat_ret]. eapply sat_conseq; [|apply sat_at, kept_item_end]. done. }
  intros over Hover. destruct over.
  - specialize (Hover eq_refl). apply sat_ofres_at. intros [pid q] _.
    apply sat_bind with (λ _, True); [apply sat_at, kept_node_finished|]. intros _ _.
    apply sat_gets_at. intros c1 Hc1. apply sat_ofres. intros ids Hids. apply Hlead. exists o0. split; [done|].
    right. left. split; [|by eapply same_parent_downstream].
    rewrite <-Hkind. unfold kind_in in *. apply bool_decide_eq_true_2. apply bool_decide_eq_true_1 in Hover. clear -Hover. set_solver.
  - destruct (kind_in ["categorize"; "switch"] o) eqn:Hsw.
    { apply sat_ret. exists o0. split; [done|]. left. by rewrite <-Hkind. }
    destruct (kind_in ["iteration"; "loop"] o) eqn:Hit.
    { apply sat_ofres_at. intros s Hstart. apply sat_ret. apply Hlead. exists o0. split; [done|]. right. right. left.
      rewrite <-Hkind. split; [done|]. exists s. split; [|done]. by rewrite <-(same_get_start p c cid (A cid) o0 o). }
    apply sat_bind with (λ b, b = true → is_kind "exitloop" o = true).
    { destruct (is_kind _ o); [|by apply sat_ret]. apply sat_ofres_at. intros [? q] _. by apply sat_ret. }
    intros exits Hex. destruct exits.
    { specialize (Hex eq_refl). apply sat_ofres. intros ids Hids. apply Hlead. exists o0. split; [done|]. right. left.
      split; [|by eapply same_parent_downstream]. rewrite <-Hkind. unfold kind_in, is_kind in *.
      apply bool_decide_eq_true_2. apply bool_decide_eq_true_1 in Hex. rewrite Hex. set_solver. }
    apply sat_ofres_at. intros q Hq.
    assert (kind_in ["categorize"; "switch"; "iteration"; "loop"] o0 = false) as Hno.
    { rewrite <-Hkind. unfold kind_in in *. apply bool_decide_eq_false_2.
      apply bool_decide_eq_false_1 in Hsw, Hit. clear -Hsw Hit. set_solver. }
    assert (∀ ids, ids = cp_downstream o → leads cid ids) as Hdown.
    { intros ids ->. apply Hlead. exists o0. split; [done|]. do 4 right. split; [done|]. apply Hs. }
    destruct (cp_downstream o) as [|d ds] eqn:Hd; [|by apply sat_ret, Hdown].
    destruct q as [[pid q]|]; [|by apply sat_ret, Hdown].
    apply sat_ofres_at. intros s Hstart. apply sat_ret. apply Hlead. exists o0. split; [done|]. do 3 right. left.
    destruct (same_get_parent _ _ _ _ _ _ _ Hc Hs Hq) as (q0 & Hq0 & Hsq). exists pid, q0, s.
    split; [done|]. split; [by rewrite <-(sc_down _ _ _ Hs)|]. split; [|done].
    by rewrite <-(same_get_start p c pid (A pid) q0 q).
Qed.
(** ** Computations that move the path *)

(** From a canvas at [p], [m] ends at a path of [Q] with its result, or at one of [E]
    when it raises. *)
Definition moves {B} (p : list string) (m : V B) (Q : B → list string → Prop) (E : list string → Prop) : Prop :=
  ∀ w, at_path p (m_state w) →
    ∃ p', at_path p' (m_state (m w).2) ∧ match (m w).1 with Ok b => Q b p' | Err _ => E p' end.

Lemma moves_bind {X B} p (m : V X) (f : X → V B) Q' Q E :
  moves p m Q' E → (∀ x p', Q' x p' → moves p' (f x) Q E) → moves p (m ≫= f) Q E.
Proof.
  intros Hm Hf w Hw. destruct (Hm w Hw) as (p' & Hp' & Hr). unfold mbind, Act_bind.
  destruct (m w) as [[x|e] w']; cbn in *; [by apply (Hf x p')|by exists p'].
Qed.

Lemma moves_conseq {B} p (m : V B) (Q Q' : B → list string → Prop) (E E' : list string → Prop) :
  moves p m Q E → (∀ b p', Q b p' → Q' b p') → (∀ p', E p' → E' p') → moves p m Q' E'.
Proof.
  intros Hm HQ HE w Hw. destruct (Hm w Hw) as (p' & Hp' & Hr). exists p'. split; [done|].
  destruct (m w).1; auto.
Qed.

Lemma moves_sat {B} p (m : V B) (Q : B → Prop) :
  sat (at_path p) m Q → moves p m (λ b p', p' = p ∧ Q b) (λ p', p' = p).
Proof.
  intros Hm w Hw. destruct (Hm w Hw) as [H1 H2]. exists p. split; [done|]. destruct (m w).1; auto.
Qed.

(** A first part that does not move *)
Lemma moves_stay {X B} p (m : V X) (f : X → V B) (P : X → Prop) Q (E : list string → Prop) :
  sat (at_path p) m P → E p → (∀ x, P x → moves p (f x) Q E) → moves p (m ≫= f) Q E.
Proof.
  intros Hm HE Hf. eapply moves_bind.
  - eapply moves_conseq; [by apply moves_sat| |by intros p' ->]. intros x p' H'. exact H'.
  - intros x p' [-> Hx]. by apply Hf.
Qed.

Lemma moves_ret {B} p (b : B) (Q : B → list string → Prop) (E : list string → Prop) : Q b p → moves p (mret b) Q E.
Proof. intros HQ w Hw. by exists p. Qed.

Lemma moves_path p p' f (Q : unit → list string → Prop) E :
  (∀ c, cv_path c = p → f c = p') → Q () p' → moves p (modify (λ c, set_path (f c) c)) Q E.
Proof.
  intros Hf HQ w Hw. exists p'. split; [|done]. cbn. rewrite (Hf _ (at_path_path _ _ Hw)). by eapply at_path_move.
Qed.

Lemma sat_self_at {B} p cid (f : Cpn → V B) (Q : B → Prop) :
  (∀ o o0, component_of c0 cid = Some o0 → same_cpn (A cid) o0 o → sat (at_path p) (f o) Q) →
  sat (at_path p) (self cid ≫= f) Q.
Proof. intros Hf. apply (sat_self_bind (set_path p c0)). intros o (o0 & H0 & Hs). by eapply Hf. Qed.

Lemma moves_self {B} p cid (f : Cpn → V B) Q (E : list string → Prop) :
  E p → (∀ o o0, component_of c0 cid = Some o0 → same_cpn (A cid) o0 o → moves p (f o) Q E) →
  moves p (self cid ≫= f) Q E.
Proof.
  intros HE Hf. eapply moves_stay; [apply (sat_self (set_path p c0))|done|]. intros o (o0 & H0 & Hs). by eapply Hf.
Qed.

Lemma moves_follow p cid other :
  moves p (follow created_at cid other)
    (λ _ p', if other then p' = p else ∃ ids, may_follow c0 cid ids ∧ p' = extend_path p ids) (λ p', p' = p).
Proof.
  eapply moves_stay; [apply sat_next_components|done|]. intros ids (o1 & Ho1 & Hlead).
  apply moves_self; [done|]. intros o o0 Ho0 Hs. rewrite Ho1 in Ho0. injection Ho0 as <-.
  destruct other; [by apply moves_ret|]. rewrite (same_kind _ _ _ _ Hs).
  destruct (kind_in ["categorize"; "switch"] o1) eqn:Hk.
  - eapply moves_stay; [apply sat_ofres; intros l Hl; exact Hl|done|]. intros l Hl.
    apply (moves_path p (extend_path p l)); [by intros c ->|]. exists l. split; [|done]. exists o1. split; [done|]. left. split; [done|].
    exists (output o "_next"). split; [|done]. destruct (sc_next _ _ _ Hs) as [->|Hr]; [by left|]. right. by apply Hr.
  - destruct Hlead as [Hlead|Hlead]; [congruence|]. apply (moves_path p (extend_path p ids)); [by intros c ->|].
    by exists ids.
Qed.

Lemma sat_set_error p e : sat (at_path p) (modify (set_error e) : V unit) (λ _, True).
Proof. apply sat_modify; [|done]. intros c Hc. unfold at_path in *. etrans; [exact Hc|]. by apply keeps_eq. Qed.

Lemma moves_handle_error p cid :
  moves p (handle_error created_at cid)
    (λ b p', if b : bool then ∃ ids, may_jump c0 cid ids ∧ p' = p ++ ids else p' = p) (λ p', p' = p).
Proof.
  apply moves_self; [done|]. intros o o0 Ho0 Hs. destruct (py_bool (error o)); cbn [negb]; [|by apply moves_ret].
  assert (∀ m : V unit, sat (at_path p) m (λ _, True) →
    moves p (m ;; mret false) (λ b p', if b : bool then ∃ ids, may_jump c0 cid ids ∧ p' = p ++ ids else p' = p)
      (λ p', p' = p)) as Hstay.
  { intros m Hm. eapply moves_stay; [exact Hm|done|]. intros _ _. by apply moves_ret. }
  unfold exception_handler. destruct (py_bool (param "exception_method" o)) eqn:Hm; [|apply Hstay, sat_set_error].
  destruct (py_bool (param "exception_goto" o)).
  - eapply moves_stay; [apply sat_ofres; intros l Hl; exact Hl|done|]. intros l Hl.
    eapply moves_bind; [by apply (moves_path p (p ++ l) _ (λ _ p', p' = p ++ l)); [intros c ->|]|].
    intros _ p' ->. apply moves_ret. exists l. split; [|done]. exists o0. split; [done|].
    rewrite <-!(sc_param _ _ _ Hs) by (apply (bool_decide_unpack _); exact I). done.
  - destruct (py_bool (param "exception_default_value" o)); [|apply Hstay, sat_set_error].
    eapply moves_stay; [apply sat_at, kept_decorate|done|]. intros _ _. apply Hstay, sat_at, kept_decorate.
Qed.

Lemma moves_post_process p tn idx j to :
  (j < to)%nat →
  moves p (post_process created_at tn j)
    (λ _ p', mstep c0 (Posting idx j to, p) (Posting idx (S j) to, p'))
    (λ p', p' = p ∨ mstep c0 (Posting idx j to, p) (Posting idx (S j) to, p')).
Proof.
  intros Hj. unfold post_process. eapply moves_stay; [apply sat_gets; intros c Hc; exact Hc|by left|]. intros c Hc.
  rewrite (at_path_path _ _ Hc). eapply moves_stay; [apply sat_ofres; intros cid Hcid; exact Hcid|by left|].
  intros cid Hcid. assert (p !! j = Some cid) as Hl by (by destruct (p !! j); [injection Hcid as ->|]). clear Hcid.
  eapply moves_stay; [apply sat_ofres; intros o Ho; exact Ho|by left|]. intros o _.
  eapply moves_stay; [apply sat_at; destruct (is_kind _ o); [apply kept_show_message|apply runs_ret]|by left|]. intros tn1 _.
  eapply moves_bind; [eapply moves_conseq; [apply moves_handle_error|by intros b p' Hb; exact Hb|by intros p' ->; left]|].
  intros [] p'.
  - intros (ids & Hjump & ->).
    assert (mstep c0 (Posting idx j to, p) (Posting idx (S j) to, p ++ ids)) as Hstep by (by eapply ms_jump).
    eapply moves_stay; [apply sat_at, kept_report_finished|by right|]. intros tn2 _.
    eapply moves_bind; [eapply moves_conseq; [apply (moves_follow _ _ true)|by intros b p'' Hb; exact Hb|by intros p' ->; right]|].
    intros _ p' ->. by apply moves_ret.
  - intros ->. eapply moves_stay; [apply sat_at, kept_report_finished|by left|]. intros tn2 _.
    eapply moves_bind; [eapply moves_conseq; [apply (moves_follow _ _ false)|by intros b p'' Hb; exact Hb|by intros p' ->; left]|].
    intros _ p' (ids & Hm & ->). apply moves_ret. by eapply ms_follow.
Qed.

(** ** A batch *)

Lemma get_input_same B c o kwargs o' : get_input c o = Ok (kwargs, o') → same_cpn B o o'.
Proof.
  unfold get_input. destruct (get_input_elements c o) as [els|]; [|done]. intros Hr. cbn [mbind res_bind] in Hr.
  assert (same_cpn B o (kwargs, o').2) as Hs; [|exact Hs].
  eapply (foldl_res_inv (λ ro, same_cpn B o ro.2) _ els); [|exact Hr|done]. clear.
  intros [r o1] kv [r' o2] Hs Hr. cbv beta iota zeta in Hr. cbn [snd] in *.
  assert (∀ v, same_cpn B o (set_input_value kv.1 v o1)) as Hset
    by (intros v; etrans; [exact Hs|apply same_set_input]).
  destruct (get_param o1 kv.1); try (injection Hr as <- <-; auto);
    try (lazymatch type of Hr with mbind _ ?x = _ => destruct x; [injection Hr as <- <-; auto|done] end).
Qed.

Definition reached (idx : nat) (p : list string) (start : phase) (p' : list string) : Prop :=
  ∃ ph, rtc (mstep c0) (start, p) (ph, p').

Lemma reached_refl idx p start : reached idx p start p.
Proof. by exists start. Qed.

Lemma at_put p c cid o0 o :
  at_path p c → component_of c0 cid = Some o0 → same_cpn (A cid) o0 o → at_path p (put cid o c).
Proof.
  intros [H1 H2] H0 Hs. split; [done|]. unfold component_of in H0. cbn in *. revert H0.
  induction H2 as [|[k x] [k' y] l l' [Hk Hxy] Hl IH]; [done|]. cbn in Hk, Hxy. subst k'.
  rewrite dict_get_cons. intros H0. cbn [dict_set]. case_decide as Hk.
  - injection H0 as ->. subst k. by constructor.
  - constructor; [done|by apply IH].
Qed.

(** Where a batch that is gathered leaves the path *)
Definition gathered (idx i n : nat) (p p' : list string) : Prop :=
  (i ≤ length p')%nat ∧ rtc (mstep c0) (Collecting idx i n, p) (Collecting idx (length p') 0, p').

(** The rest of a batch after a component that stays *)
Lemma moves_kept n i p idx (f : list (string * fields) → list (string * fields)) :
  (∀ p, (S i + n = length p)%nat →
     moves p (collect args n (S i))
       (λ _, gathered idx (S i) n p)
       (reached idx p (Collecting idx (S i) n))) →
  (S i + n = length p)%nat → mstep c0 (Collecting idx i (S n), p) (Collecting idx (S i) n, p) →
  moves p (ts ← collect args n (S i); mret (f ts))
    (λ _, gathered idx i (S n) p)
    (reached idx p (Collecting idx i (S n))).
Proof.
  intros IH Hlen Hstep. eapply moves_bind.
  - eapply moves_conseq; [by apply IH|by intros b p' Hb; exact Hb|].
    intros p' (ph & Hph). exists ph. by eapply rtc_l.
  - intros ts p' [Hle Hts]. apply moves_ret. split; [lia|by eapply rtc_l].
Qed.

Lemma moves_collect n i p idx :
  (i + n = length p)%nat →
  moves p (collect args n i)
    (λ _, gathered idx i n p)
    (reached idx p (Collecting idx i n)).
Proof.
  revert i p. induction n as [|n IH]; intros i p Hlen; cbn [collect].
  { apply moves_ret. split; [lia|]. by replace (length p) with i by lia. }
  assert (reached idx p (Collecting idx i (S n)) p) as Hrefl by apply reached_refl.
  eapply moves_stay; [apply sat_gets; intros c Hc; exact Hc|done|]. intros c Hc.
  pose proof (at_path_path _ _ Hc) as Hpath. rewrite Hpath.
  eapply moves_stay; [apply sat_ofres; intros cid Hcid; exact Hcid|done|].
  intros cid Hcid. assert (p !! i = Some cid) as Hl by (by destruct (p !! i); [injection Hcid as ->|]). clear Hcid.
  eapply moves_stay; [apply sat_ofres; intros o Ho; exact Ho|done|].
  intros o Ho%get_component_Ok. destruct (at_cpn _ _ _ _ Hc Ho) as (o0 & Ho0 & Hs).
  destruct (kind_in ["begin"; "userfillup"] o) eqn:Hk.
  { apply (moves_kept _ _ _ _ (λ ts, (cid, inputs_kwarg args) :: ts)); [by intros; apply IH|lia|].
    eapply ms_keep; [done|done|]. unfold leaves. rewrite <-(same_kind _ _ _ _ Hs), Hk. done. }
  eapply moves_stay; [apply sat_ofres; intros els Hels; exact Hels|done|]. intros els Hels. cbv beta in Hels.
  rewrite (refers_blocked c o els) by done.
  assert (leaves o0 i p = blocked o (take i p) && not_resumed p) as Hleaves.
  { rewrite <-(same_leaves _ _ _ i p Hs). unfold leaves. by rewrite Hk. }
  destruct (blocked o (take i p) && not_resumed p) eqn:Hb.
  - pose proof (lookup_lt_Some _ _ _ Hl) as Hi.
    assert (mstep c0 (Collecting idx i (S n), p) (Collecting idx i n, take i p ++ drop (S i) p)) as Hstep
      by (by eapply ms_drop).
    eapply moves_bind.
    { apply (moves_path p (take i p ++ drop (S i) p) _ (λ _ p', p' = take i p ++ drop (S i) p)); [by intros c' ->|done]. }
    intros _ p' ->. eapply moves_conseq; [apply IH| |].
    + rewrite length_app, length_take, length_drop. lia.
    + intros ts p' [Hle Hr]. split; [done|]. by eapply rtc_l.
    + intros p' (ph & Hr). exists ph. by eapply rtc_l.
  - eapply moves_stay; [apply sat_ofres; intros ko Hko; exact Hko|done|]. intros [kwargs o'] Hko.
    eapply moves_stay; [|done|].
    + apply sat_modify with (Q := λ _, True); [|done]. intros c' Hc'. eapply at_put; [done|done|].
      etrans; [exact Hs|]. by eapply get_input_same.
    + intros _ _. apply (moves_kept _ _ _ _ (λ ts, (cid, kwargs) :: ts)); [by intros; apply IH|lia|].
      by eapply ms_keep.
Qed.

Hypothesis Hsafe : assign_safe c0.

Lemma sat_invoke_at p cid kwargs : sat (at_path p) (invoke cid kwargs) (λ _, True).
Proof. apply (sat_invoke (set_path p c0) Hsafe). Qed.

Lemma kept_raise_if_canceled : runs (on_state CvCall (keeps A)) raise_if_canceled.
Proof. unfold raise_if_canceled. runs_tac. Qed.

Lemma moves_run_batch p idx :
  (idx ≤ length p)%nat →
  moves p (_run_batch args idx (length p))
    (λ _, gathered idx idx (length p - idx) p)
    (reached idx p (Collecting idx idx (length p - idx))).
Proof.
  intros Hidx. unfold _run_batch.
  eapply moves_stay; [apply sat_at, kept_raise_if_canceled|apply reached_refl|]. intros _ _.
  eapply moves_bind; [apply moves_collect; lia|]. intros tasks p' Hr.
  assert (reached idx p (Collecting idx idx (length p - idx)) p') as Hreach by (by eexists; apply Hr).
  eapply moves_stay; [by apply (sat_observe _ (λ _, True))|done|]. intros order _.
  eapply moves_conseq; [eapply moves_sat| |].
  - apply sat_each. intros k. destruct (tasks !! k) as [[cid kwargs]|]; [apply sat_invoke_at|by apply sat_ret].
  - by intros [] p'' [-> _].
  - by intros p'' ->.
Qed.

Lemma length_extend_path p ids : (length p ≤ length (extend_path p ids))%nat.
Proof.
  unfold extend_path. revert p. induction ids as [|id ids IH]; intros p; simpl; [done|]. etrans; [|apply IH].
  unfold append_path. case_decide; [done|]. rewrite length_app. lia.
Qed.

Lemma posting_extends idx j to p ph p' : (j < to)%nat → mstep c0 (Posting idx j to, p) (ph, p') → (length p ≤ length p')%nat.
Proof. inversion 2; subst; [apply length_extend_path|rewrite length_app; lia|done]. Qed.

Lemma moves_post tn idx j k to p :
  (j + k = to)%nat →
  moves p (folding (post_process created_at) tn (seq j k))
    (λ _ p', (length p ≤ length p')%nat ∧ rtc (mstep c0) (Posting idx j to, p) (Posting idx to to, p'))
    (reached idx p (Posting idx j to)).
Proof.
  revert tn j p. induction k as [|k IH]; intros tn j p Hto; cbn [seq folding].
  { apply moves_ret. split; [done|]. by replace to with j by lia. }
  eapply moves_bind; [eapply moves_conseq; [apply (moves_post_process p tn idx j to); lia|by intros b p' Hb; exact Hb|]|].
  - intros p' [->|Hs]; [apply reached_refl|]. exists (Posting idx (S j) to). by apply rtc_once.
  - intros tn' p' Hs. cbv beta in Hs. eapply moves_conseq; [apply IH; lia| |].
    + intros tn'' p'' [Hle Hr]. split; [|by eapply rtc_l]. apply posting_extends in Hs; lia.
    + intros p'' (ph & Hr). exists ph. by eapply rtc_l.
Qed.

(** ** The loop *)

(** How far the components of the path are settled *)
Definition settled (ph : phase) : nat :=
  match ph with Collecting _ i _ => i | Posting _ _ to => to end.

(** One round of the loop: the batch is gathered and what follows it is appended. *)
Definition round (s s' : phase * list string) : Prop :=
  ∃ idx p to p', s = (Collecting idx idx (length p - idx), p) ∧ (idx < length p)%nat ∧
    rtc (mstep c0) s (Posting idx to to, p') ∧ (to ≤ length p')%nat ∧
    s' = (Collecting to to (length p' - to), p').

(** How a walk that started at a phase has ended: the path is one the machine reaches,
    or what is left of it after the forms the user is asked to fill. *)
Definition walked (fuel : nat) (start : phase * list string) (r : option (bool * nat)) (p' : list string) : Prop :=
  match r with
  | Some (true, _) => ∃ ph p cid o, rtc (mstep c0) start (ph, p) ∧ p' ⊆ p ∧
      cid ∈ p ∧ component_of c0 cid = Some o ∧ is_kind "userfillup" o = true
  | Some (false, idx') => ∃ ph, rtc (mstep c0) start (ph, p') ∧ (idx' ≤ settled ph)%nat ∧ (idx' ≤ length p')%nat
  | None => ∃ ph, nsteps round fuel start (ph, p')
  end.

Lemma round_rtc s s' : round s s' → rtc (mstep c0) s s'.
Proof. intros (idx & p & to & p' & -> & _ & Hr & _ & ->). eapply rtc_r; [exact Hr|constructor]. Qed.

Lemma walked_l fuel s1 s2 r p' : round s1 s2 → walked fuel s2 r p' → walked (S fuel) s1 r p'.
Proof.
  intros Hs. pose proof (round_rtc _ _ Hs). destruct r as [[[] i]|].
  - intros (ph & p & cid & o & Hr & Hrest). exists ph, p, cid, o. split; [by etrans|done].
  - intros (ph & Hr & Hi). exists ph. split; [by etrans|done].
  - intros (ph & Hr). exists ph. by eapply nsteps_l.
Qed.

(** The forms and the rest of what comes next *)
Lemma forms_path p to c (objs : list (string * Cpn)) :
  at_path p c → res_mapM (λ cid, o ← get_component_obj c cid; Ok (cid, o)) (drop to p) = Ok objs →
  objs.*1 = drop to p ∧
  (existsb (λ x, is_kind "userfillup" x.2) objs = true →
   ∃ cid o, cid ∈ p ∧ component_of c0 cid = Some o ∧ is_kind "userfillup" o = true).
Proof.
  intros Hc Hobjs. assert (Forall2 (λ cid x, x.1 = cid ∧ component_of c cid = Some x.2) (drop to p) objs) as Hall.
  { revert objs Hobjs. induction (drop to p) as [|cid l IH]; intros objs; cbn [res_mapM]; [by intros [= <-]|].
    destruct (get_component_obj c cid) as [o|] eqn:Ho; [|done]. cbn.
    destruct (res_mapM _ l); [|done]. intros [= <-]. constructor; [|by apply IH].
    split; [done|]. by apply get_component_Ok. }
  split.
  - clear Hobjs. induction Hall as [|cid x l l' [<- _] _ IH]; [done|]. cbn. by rewrite IH.
  - rewrite existsb_exists. intros (x & Hx%list_elem_of_In & Hk).
    apply list_elem_of_lookup in Hx as [i Hx]. destruct (Forall2_lookup_r _ _ _ _ _ Hall Hx) as (cid & Hcid & <- & Ho).
    destruct (at_cpn _ _ _ _ Hc Ho) as (o0 & Ho0 & Hs). exists x.1, o0. split.
    + apply list_elem_of_lookup_2 in Hcid. by apply subseteq_drop in Hcid.
    + split; [done|]. unfold is_kind in *. by rewrite <-(sc_name _ _ _ Hs).
Qed.

Lemma sat_ask_user p ids els tips : sat (at_path p) (ask_user ids els tips) (λ _, True).
Proof.
  revert els tips. induction ids as [|cid ids IH]; intros els tips; cbn [ask_user]; [by apply sat_ret|].
  apply sat_self_at. intros o o0 _ _. destruct (is_kind "userfillup" o); [|apply IH].
  eapply sat_bind; [apply sat_invoke_at|]. intros _ _. apply sat_self_at. intros o1 o2 _ _.
  apply sat_gets_at. intros c _. apply sat_ofres_at. intros els' _. apply IH.
Qed.

(** The announcement of a form does not fail. *)
Lemma moves_ask_user p path ev dt (to : nat) Q E :
  Q (Some (true, to)) path →
  moves p (modify (set_path path) ;; decorate created_at ev dt ;; mret (Some (true, to))) Q E.
Proof. intros HQ w Hw. exists path. split; [by eapply at_path_move|exact HQ]. Qed.

Lemma moves_gets {X B} p (g : Canvas → X) (f : X → V B) Q E :
  (∀ c, at_path p c → moves p (f (g c)) Q E) → moves p (gets g ≫= f) Q E.
Proof. intros Hf w Hw. by apply (Hf (m_state w) Hw w). Qed.

Lemma moves_run_loop fuel idx p tn :
  (idx ≤ length p)%nat →
  moves p (run_loop args created_at fuel idx tn)
    (walked fuel (Collecting idx idx (length p - idx), p)) (reached idx p (Collecting idx idx (length p - idx))).
Proof.
  revert idx p tn. induction fuel as [|fuel IH]; intros idx p tn Hidx; cbn [run_loop].
  { apply moves_ret. eexists. constructor. }
  assert (reached idx p (Collecting idx idx (length p - idx)) p) as Hrefl by apply reached_refl.
  apply moves_gets. intros c Hc. rewrite (at_path_path _ _ Hc). case_decide as Hend.
  { apply moves_ret. eexists. split; [done|]. cbn. lia. }
  eapply moves_stay; [apply sat_at, runs_each; intros; apply kept_node_started|done|]. intros _ _.
  eapply moves_bind; [by apply moves_run_batch|]. intros _ p1 [Hle Hp1].
  assert (rtc (mstep c0) (Collecting idx idx (length p - idx), p) (Posting idx idx (length p1), p1)) as Hpost
    by (eapply rtc_r; [exact Hp1|constructor]).
  apply moves_gets. intros c1 Hc1. rewrite (at_path_path _ _ Hc1).
  eapply moves_bind.
  { eapply moves_conseq; [apply (moves_post tn idx idx _ (length p1)); lia|by intros b p' Hb; exact Hb|].
    intros p' (ph & Hph). exists ph. by etrans. }
  intros tn' p2 [Hle2 Hp2].
  assert (rtc (mstep c0) (Collecting idx idx (length p - idx), p) (Posting idx (length p1) (length p1), p2)) as Hall
    by (by etrans).
  assert (reached idx p (Collecting idx idx (length p - idx)) p2) as Hr by (by eexists).
  apply moves_gets. intros c2 Hc2. rewrite (at_path_path _ _ Hc2). destruct (py_bool (cv_error c2)).
  { apply moves_ret. eexists. split; [done|]. cbn. lia. }
  eapply moves_stay; [apply sat_ofres; intros objs Hobjs; exact Hobjs|done|]. intros objs Hobjs.
  destruct (forms_path _ _ _ _ Hc2 Hobjs) as [Hfst Hform].
  destruct (existsb _ objs).
  - eapply moves_stay; [apply sat_ask_user|done|]. intros [inputs tips] _. apply moves_ask_user.
    destruct (Hform eq_refl) as (cid & o & Hin & Ho). exists (Posting idx (length p1) (length p1)), p2, cid, o.
    split; [done|]. split; [|done]. intros x Hx. apply (subseteq_drop (length p1) p2). rewrite <-Hfst.
    apply list_elem_of_fmap in Hx as (y & -> & Hy). apply list_elem_of_fmap. exists y. split; [done|].
    rewrite elem_of_app, !list_elem_of_filter in Hy. tauto.
  - eapply moves_conseq; [apply (IH (length p1)); lia| |].
    + intros r p' Hw. eapply walked_l; [|exact Hw]. exists idx, p, (length p1), p2. split; [done|].
      split; [lia|]. split; [exact Hall|]. done.
    + intros p' (ph & Hph). exists ph. etrans; [eapply rtc_r; [exact Hall|constructor]|done].
Qed.

End sim.
