(* ===== verification/CanvasWalk.v ===== *)
(** Invariants of the path machine: its indices stay inside the path, what is settled
    has what it names behind it, and on a graph without cycles every round climbs. *)
From S2P Require Import Prelude Float PyText Json Dsl Effects Comp Refs PyNum PyOps Canvas LlmStream Components.
From S2P Require Import CanvasRun CanvasSteps CanvasRefine.
#[local] Open Scope nat_scope.

Section walk.
Context `{CanvasEnv} (c0 : Canvas).
Abbreviation state := (phase * list string)%type.

(** ** The indices *)

Definition bounded (s : state) : Prop :=
  match s.1 with
  | Collecting idx i n => idx ≤ i ∧ i + n = length s.2
  | Posting idx j to => idx ≤ j ∧ j ≤ to ∧ to ≤ length s.2
  end.

(** What extends a path is among the ids. *)
Lemma extend_path_app p ids : ∃ more, extend_path p ids = p ++ more ∧ more ⊆ ids.
Proof.
  unfold extend_path. revert p. induction ids as [|id ids IH]; intros p; cbn [foldl].
  { exists []. by rewrite app_nil_r. }
  destruct (IH (append_path p id)) as (more & -> & Hm). unfold append_path. case_decide.
  - exists more. split; [done|]. set_solver.
  - exists (id :: more). rewrite <-app_assoc. split; [done|]. set_solver.
Qed.

(** What a step appends *)
Lemma posting_app idx j to p s :
  j < to → mstep c0 (Posting idx j to, p) s →
  ∃ more ids cid, s = (Posting idx (S j) to, p ++ more) ∧ p !! j = Some cid ∧ more ⊆ ids ∧
    (may_follow c0 cid ids ∨ may_jump c0 cid ids).
Proof.
  intros Hj. inversion 1 as [| | |? ? ? ? cid ids ? Hl Hm|? ? ? ? cid ids ? Hl Hm|]; subst.
  - destruct (extend_path_app p ids) as (more & -> & Hmore). exists more, ids, cid. auto.
  - exists ids, ids, cid. auto.
  - lia.
Qed.

Lemma bounded_step s s' : mstep c0 s s' → bounded s → bounded s'.
Proof.
  destruct s as [[idx i n|idx j to] p].
  - inversion 1 as [? ? ? ? ? ? Hl|? ? ? ? ? ? Hl| | | |]; subst; unfold bounded; cbn; intros Hb; try lia.
    apply lookup_lt_Some in Hl. rewrite length_app, length_take, length_drop. lia.
  - intros Hs [Hj [Hto Hlen]]. cbn in *. destruct (decide (j < to)) as [Hlt|Hge].
    + destruct (posting_app _ _ _ _ _ Hlt Hs) as (more & ids & cid & -> & _). unfold bounded. cbn.
      rewrite length_app. lia.
    + inversion Hs; subst; unfold bounded; cbn; lia.
Qed.

Lemma rtc_invariant (P : state → Prop) s s' :
  (∀ s s', mstep c0 s s' → bounded s → P s → P s') → rtc (mstep c0) s s' → bounded s → P s → P s'.
Proof.
  intros HP. induction 1 as [|s s1 s2 Hs _ IH]; intros Hb Hp; [done|].
  apply IH; [by apply (bounded_step s)|by apply (HP s)].
Qed.

Lemma bounded_rtc s s' : rtc (mstep c0) s s' → bounded s → bounded s'.
Proof. intros Hr Hb. apply (rtc_invariant bounded s); auto.
  intros. by eapply bounded_step. Qed.

Lemma bounded_start idx p : idx ≤ length p → bounded (Collecting idx idx (length p - idx), p).
Proof. unfold bounded. cbn. lia. Qed.

(** ** What is settled *)

(** From [start] on, no component that is settled has to leave. *)
Definition ordered (start : nat) (s : state) : Prop :=
  ∀ k cid o, start ≤ k < settled s.1 → s.2 !! k = Some cid → component_of c0 cid = Some o → leaves o k s.2 = false.

Lemma leaves_app o k p more : k < length p → leaves o k (p ++ more) = leaves o k p.
Proof.
  intros Hk. unfold leaves, not_resumed. rewrite take_app_le by lia. destruct p; [simpl in Hk; lia|done].
Qed.

Lemma leaves_drop o k i p :
  k < i → i < length p → leaves o k (take i p ++ drop (S i) p) = leaves o k p.
Proof.
  intros Hk Hi. rewrite leaves_app by (rewrite length_take; lia). rewrite <-(take_drop i p) at 2.
  rewrite leaves_app by (rewrite length_take; lia). done.
Qed.

Lemma ordered_step start s s' : mstep c0 s s' → bounded s → ordered start s → ordered start s'.
Proof.
  destruct s as [[idx i n|idx j to] p]; unfold ordered; cbn [fst snd].
  - inversion 1 as [? ? ? ? cid0 o0 Hl Ho Hk|? ? ? ? cid0 o0 Hl Ho Hk| | | |]; subst; unfold bounded; cbn;
      intros Hb Hord k cid o Hks Hcid Hc.
    + destruct (decide (k = i)) as [->|]; [congruence|]. eapply Hord; [lia|done..].
    + apply lookup_lt_Some in Hl as Hi. rewrite leaves_drop by lia.
      rewrite lookup_app_l in Hcid by (rewrite length_take; lia). rewrite lookup_take_lt in Hcid by lia.
      eapply Hord; [lia|done..].
    + eapply Hord; [lia|done..].
  - intros Hs [Hj [Hto Hlen]] Hord k cid o Hks Hcid Hc. cbn in *. destruct (decide (j < to)) as [Hlt|Hge].
    + destruct (posting_app _ _ _ _ _ Hlt Hs) as (more & ids & cid' & -> & _). cbn in *.
      rewrite lookup_app_l in Hcid by lia. rewrite leaves_app by lia. by eapply Hord.
    + inversion Hs; subst; cbn in *; try lia. by eapply Hord.
Qed.

(** ** Graphs without cycles *)

Context (rank : string → nat).
(** Where a component leads is of a higher rank. *)
Definition climbs : Prop :=
  ∀ cid ids id, may_follow c0 cid ids ∨ may_jump c0 cid ids → id ∈ ids → rank cid < rank id.

(** Everything that is not settled before the batch has a rank from [r] on, what is
    appended after it a higher one. *)
Definition above (r : nat) (s : state) : Prop :=
  match s.1 with
  | Collecting idx _ _ => ∀ k cid, idx ≤ k → s.2 !! k = Some cid → r ≤ rank cid
  | Posting idx _ to => ∀ k cid, idx ≤ k → s.2 !! k = Some cid → r ≤ rank cid ∧ (to ≤ k → r < rank cid)
  end.

Lemma above_step r s s' :
  climbs → mstep c0 s s' → bounded s → above r s → ∃ r', r ≤ r' ∧ above r' s'.
Proof.
  intros Hclimb. destruct s as [[idx i n|idx j to] p].
  - inversion 1 as [|? ? ? ? cid0 o0 Hl| | | |]; subst; unfold bounded, above; cbn; intros Hb Ha; exists r; (split; [done|]);
      intros k cid' Hk Hcid.
    + by eapply Ha.
    + apply lookup_lt_Some in Hl. destruct (decide (k < i)).
      * rewrite lookup_app_l, lookup_take_lt in Hcid by (rewrite ?length_take; lia). by eapply Ha.
      * rewrite lookup_app_r, length_take, lookup_drop in Hcid by (rewrite length_take; lia).
        eapply (Ha (S i + (k - i `min` length p))); [lia|done].
    + split; [by eapply Ha|]. apply lookup_lt_Some in Hcid. lia.
  - intros Hs [Hj [Hto Hlen]] Ha. unfold above in Ha. cbn in *. destruct (decide (j < to)) as [Hlt|Hge].
    + destruct (posting_app _ _ _ _ _ Hlt Hs) as (more & ids & cid' & -> & Hl & Hmore & Hm).
      exists r. split; [done|]. unfold above. cbn. intros k cid Hk Hcid. destruct (decide (k < length p)).
      * rewrite lookup_app_l in Hcid by lia. by eapply Ha.
      * rewrite lookup_app_r in Hcid by lia. apply list_elem_of_lookup_2, Hmore in Hcid.
        pose proof (Hclimb _ _ _ Hm Hcid). destruct (Ha j cid') as [Hr _]; [lia|done|]. lia.
    + inversion Hs; subst; try lia. exists (S r). split; [lia|]. unfold above. cbn. intros k cid Hk Hcid.
      destruct (Ha k cid) as [_ Hup]; [lia|done|]. by apply Hup.
Qed.

Lemma above_rtc r s s' :
  climbs → rtc (mstep c0) s s' → bounded s → above r s → ∃ r', r ≤ r' ∧ above r' s'.
Proof.
  intros Hclimb. intros Hr. revert r. induction Hr as [|s s1 s2 Hs _ IH]; intros r Hb Ha; [by exists r|].
  destruct (above_step r _ _ Hclimb Hs Hb Ha) as (r1 & Hr1 & Ha1).
  destruct (IH r1) as (r2 & ? & ?); [by eapply bounded_step|done|]. exists r2. split; [lia|done].
Qed.

Lemma above_round r s s' : climbs → round c0 s s' → bounded s → above r s → above (S r) s'.
Proof.
  intros Hclimb (idx & p & to & p' & -> & Hidx & Hr & Hto & ->) Hb Ha.
  destruct (above_rtc r _ _ Hclimb Hr Hb Ha) as (r' & Hr' & Ha'). unfold above in *. cbn in *.
  intros k cid Hk Hcid. pose proof (bounded_rtc _ _ Hr Hb) as Hb'. unfold bounded in Hb'. cbn in Hb'.
  destruct (Ha' k cid) as [_ Hlt]; [lia|done|]. specialize (Hlt Hk). lia.
Qed.

(** There are no more rounds than ranks. *)
Lemma rounds_bound N n s s' :
  climbs → (∀ cid, rank cid ≤ N) → nsteps (round c0) n s s' → bounded s → n ≤ N + 1.
Proof.
  intros Hclimb HN Hn Hb.
  assert (∀ r, above r s → n = 0 ∨ r + n ≤ N + 1) as Hr.
  { induction Hn as [s|n s s1 s2 Hs _ IH]; intros r Ha; [by left|]. right.
    assert (bounded s1) as Hb1 by (eapply bounded_rtc; [by apply round_rtc|done]).
    pose proof (above_round _ _ _ Hclimb Hs Hb Ha) as Ha1.
    destruct (IH Hb1 _ Ha1) as [->|]; [|lia].
    destruct Hs as (idx & p & to & p' & -> & Hidx & _). destruct (lookup_lt_is_Some_2 p idx Hidx) as [cid Hcid].
    specialize (Ha idx cid). cbn in Ha. specialize (HN cid). specialize (Ha ltac:(lia) Hcid). lia. }
  destruct n as [|n]; [lia|]. destruct (Hr 0) as [|]; [|lia|lia].
  inversion Hn as [|? ? ? ? (idx & p & to & p' & -> & _)]; subst. intros k cid _ _. lia.
Qed.
End walk.
