(* ===== verification/CanvasTable.v ===== *)
(** The path machine of a graph without loops, computed from a table of its
    components; and a concrete environment with graphs for the theorems. *)
From S2P Require Import Prelude Float PyText Json Dsl Effects Comp Refs PyNum PyOps Canvas LlmStream Components.
From S2P Require Import Regex CanvasLoad CanvasRun CanvasSteps CanvasRefine CanvasWalk Flow.
#[local] Open Scope nat_scope.

Record Node := {
  nd_name : string; nd_down : list string;
  nd_refs : list pyv;                   (* the components it names *)
  nd_targets : list pyv;                (* what it may choose *)
  nd_goto : option pyv }.               (* where it goes after an error *)

(** The targets of a component that routes *)
Definition targets_of (o : Cpn) : list pyv :=
  let name := cp_component_name o in
  if decide (name = "Switch") then
    param "end_cpn_ids" o ::
    match as_iter (param "conditions" o) with
    | Ok conds => omap (λ cond, match item "to" cond with Ok v => Some v | Err _ => None end) conds
    | Err _ => []
    end
  else if decide (name = "Categorize") then
    match param "category_description" o with
    | PDict cats => omap (λ kv, match item "to" kv.2 with Ok v => Some v | Err _ => None end) cats
    | _ => []
    end
  else [].

Definition node_of (o : Cpn) : Node :=
  {| nd_name := cp_component_name o; nd_down := cp_downstream o; nd_refs := refs_of o;
     nd_targets := output o "_next" :: targets_of o;
     nd_goto := if py_bool (param "exception_method" o) then Some (param "exception_goto" o) else None |}.

Abbreviation table := (list (string * Node)).
Definition table_of (c : Canvas) : table := (λ kv, (kv.1, node_of kv.2)) <$> cv_components c.

Definition node_kind_in (l : list string) (n : Node) : bool := bool_decide (py_lower (nd_name n) ∈ l).

Definition ids_of (v : pyv) : option (list string) := match as_strs v with Ok l => Some l | Err _ => None end.

(** Where a component may lead *)
Definition follows (n : Node) : list (list string) :=
  if node_kind_in ["categorize"; "switch"] n then omap ids_of (nd_targets n) else [nd_down n].
Definition jumps (n : Node) : list (list string) :=
  match nd_goto n with Some v => omap ids_of [v] | None => [] end.

Definition node_leaves (n : Node) (i : nat) (path : list string) : bool :=
  negb (node_kind_in ["begin"; "userfillup"] n) && existsb (names_elsewhere (take i path)) (nd_refs n)
    && not_resumed path.

(** The steps from a phase *)
Definition succs (t : table) (s : phase * list string) : list (phase * list string) :=
  let '(ph, p) := s in
  match ph with
  | Collecting idx i (S n) =>
      match cid ← p !! i; dict_get cid t with
      | Some nd => if node_leaves nd i p then [(Collecting idx i n, take i p ++ drop (S i) p)]
                   else [(Collecting idx (S i) n, p)]
      | None => []
      end
  | Collecting idx i O => [(Posting idx idx (length p), p)]
  | Posting idx j to =>
      (if decide (j < to) then
         match cid ← p !! j; dict_get cid t with
         | Some nd => ((λ ids, (Posting idx (S j) to, extend_path p ids)) <$> follows nd)
                      ++ ((λ ids, (Posting idx (S j) to, p ++ ids)) <$> jumps nd)
         | None => []
         end
       else [])
      ++ (if decide (j = to) then [(Collecting to to (length p - to), p)] else [])
  end.

(** A graph without loops, iterations and parents *)
Definition flat_cpn (o : Cpn) : bool :=
  bool_decide (cp_parent_id o = None)
    && negb (kind_in ["iteration"; "loop"; "iterationitem"; "loopitem"; "exitloop"] o)
    && (negb (kind_in ["categorize"; "switch"] o) || bool_decide (cp_component_name o ∈ ["Categorize"; "Switch"])).
Definition flat (c : Canvas) : bool := forallb (λ kv, flat_cpn kv.2) (cv_components c).

Lemma component_in c cid o : component_of c cid = Some o → (cid, o) ∈ cv_components c.
Proof.
  unfold component_of. induction (cv_components c) as [|[k x] l IH]; [done|]. rewrite dict_get_cons.
  case_decide as Hk; [intros [= ->]; subst; by left|]. right. by apply IH.
Qed.

Lemma flat_component c cid o : flat c = true → component_of c cid = Some o → flat_cpn o = true.
Proof. unfold flat. rewrite forallb_forall. intros Hf Ho%component_in%list_elem_of_In. exact (Hf _ Ho). Qed.

Lemma table_get c cid : dict_get cid (table_of c) = node_of <$> component_of c cid.
Proof.
  unfold table_of, component_of. induction (cv_components c) as [|[k x] l IH]; [done|].
  rewrite fmap_cons, !dict_get_cons. cbn [fst snd]. case_decide; [done|apply IH].
Qed.

Lemma targets_route o v :
  kind_in ["categorize"; "switch"] o = true → flat_cpn o = true → route_value o v → v ∈ targets_of o.
Proof.
  intros Hk Hf [Hs Hc]. unfold flat_cpn in Hf. rewrite Hk in Hf. simpl in Hf. apply andb_true_iff in Hf as [_ Hf].
  apply bool_decide_eq_true_1 in Hf. unfold targets_of. case_decide as Hn.
  - destruct (Hs Hn) as [->|(conds & cond & -> & Hin & Hto)]; [by left|]. right.
    apply list_elem_of_omap. exists cond. by rewrite Hto.
  - rewrite decide_True by set_solver. destruct Hc as (cats & k & d & -> & Hin & Hto); [set_solver|].
    apply list_elem_of_omap. exists (k, d). cbn. by rewrite Hto.
Qed.

Lemma may_follow_table c cid ids :
  flat c = true → may_follow c cid ids → ∃ n, dict_get cid (table_of c) = Some n ∧ ids ∈ follows n.
Proof.
  intros Hflat (o & Ho & Hm). exists (node_of o). rewrite table_get, Ho. split; [done|].
  pose proof (flat_component _ _ _ Hflat Ho) as Hf. unfold flat_cpn in Hf.
  rewrite !andb_true_iff in Hf. destruct Hf as [[Hp%bool_decide_eq_true_1 Hk%negb_true_iff] _].
  unfold follows. change (node_kind_in _ (node_of o)) with (kind_in ["categorize"; "switch"] o).
  destruct Hm as [(Hkind & v & Hv & Hids)|[[Hkind _]|[[Hkind _]|[(pid & p & s & Hpar & _)|[Hkind ->]]]]].
  - rewrite Hkind. apply list_elem_of_omap. exists v. unfold ids_of. rewrite Hids. split; [|done].
    destruct Hv as [->|Hv]; [by left|right]. eapply targets_route; [done|by eapply flat_component|done].
  - unfold kind_in in *. apply bool_decide_eq_true_1 in Hkind. apply bool_decide_eq_false_1 in Hk. set_solver.
  - unfold kind_in in *. apply bool_decide_eq_true_1 in Hkind. apply bool_decide_eq_false_1 in Hk. set_solver.
  - unfold get_parent in Hpar. by rewrite Hp in Hpar.
  - replace (kind_in ["categorize"; "switch"] o) with false; [by left|]. symmetry.
    unfold kind_in in *. apply bool_decide_eq_false_1 in Hkind. apply bool_decide_eq_false_2. set_solver.
Qed.

Lemma may_jump_table c cid ids :
  may_jump c cid ids → ∃ n, dict_get cid (table_of c) = Some n ∧ ids ∈ jumps n.
Proof.
  intros (o & Ho & Hm & Hids). exists (node_of o). rewrite table_get, Ho. split; [done|].
  unfold jumps. cbn. rewrite Hm. unfold omap, list_omap, ids_of. rewrite Hids. by left.
Qed.

Lemma mstep_succs c s s' : flat c = true → mstep c s s' → s' ∈ succs (table_of c) s.
Proof.
  intros Hf. inversion 1 as [? ? ? ? ? o Hl Ho Hlv|? ? ? ? ? o Hl Ho Hlv| |? ? ? ? ? ? Hj Hl Hm|? ? ? ? ? ? Hj Hl Hm|];
    subst; unfold succs.
  1-2: rewrite Hl; cbn [mbind option_bind]; rewrite table_get, Ho; cbn [fmap option_fmap option_map];
    change (node_leaves (node_of o) i p) with (leaves o i p); rewrite Hlv; by left.
  - by left.
  - apply may_follow_table in Hm as (n & Hn & Hids); [|done]. rewrite decide_True, Hl by done.
    cbn [mbind option_bind]. rewrite Hn. apply elem_of_app. left. apply elem_of_app. left.
    apply list_elem_of_fmap. eauto.
  - apply may_jump_table in Hm as (n & Hn & Hids). rewrite decide_True, Hl by done.
    cbn [mbind option_bind]. rewrite Hn. apply elem_of_app. left. apply elem_of_app. right.
    apply list_elem_of_fmap. eauto.
  - apply elem_of_app. right. rewrite decide_True by done. by left.
Qed.

(** ** What the machine reaches *)

#[export] Instance phase_eq : EqDecision phase.
Proof. solve_decision. Defined.

(** A breadth-first search *)
Fixpoint explore (n : nat) (t : table) (seen new : list (phase * list string)) : list (phase * list string) :=
  match n with
  | O => seen
  | S n =>
      let next := foldl (λ acc s, if decide (s ∈ acc ++ seen) then acc else acc ++ [s]) [] (new ≫= succs t) in
      match next with [] => seen | _ => explore n t (seen ++ next) next end
  end.

Definition closed (t : table) (l : list (phase * list string)) : bool :=
  forallb (λ s, forallb (λ s', bool_decide (s' ∈ l)) (succs t s)) l.

Lemma closed_reached c l s s' :
  flat c = true → closed (table_of c) l = true → s ∈ l → rtc (mstep c) s s' → s' ∈ l.
Proof.
  intros Hf Hc Hs Hr. induction Hr as [|s s1 s2 Hstep _ IH]; [done|]. apply IH.
  unfold closed in Hc. rewrite forallb_forall in Hc. apply list_elem_of_In, Hc in Hs. rewrite forallb_forall in Hs.
  apply mstep_succs in Hstep; [|done]. apply list_elem_of_In, Hs in Hstep. by apply bool_decide_eq_true_1 in Hstep.
Qed.

(** A rank, checked on the table *)
Definition climbs_table (t : table) (rank : string → nat) : bool :=
  forallb (λ kv, forallb (forallb (λ id, bool_decide (rank kv.1 < rank id))) (follows kv.2 ++ jumps kv.2)) t.

Lemma climbs_dec c rank : flat c = true → climbs_table (table_of c) rank = true → climbs c rank.
Proof.
  intros Hf Hc cid ids id Hm Hid. unfold climbs_table in Hc. rewrite forallb_forall in Hc.
  assert (∃ n, (cid, n) ∈ table_of c ∧ ids ∈ follows n ++ jumps n) as (n & Hn & Hids).
  { destruct Hm as [Hm|Hm]; [apply may_follow_table in Hm as (n & Hn & Hin); [|done]|apply may_jump_table in Hm as (n & Hn & Hin)];
      exists n; rewrite elem_of_app; (split; [|tauto]);
      rewrite table_get in Hn; destruct (component_of c cid) as [o|] eqn:Ho; try done; injection Hn as <-;
      apply component_in in Ho; apply list_elem_of_fmap; by exists (cid, o). }
  apply list_elem_of_In, Hc in Hn. rewrite forallb_forall in Hn. apply list_elem_of_In, Hn in Hids.
  rewrite forallb_forall in Hids. apply list_elem_of_In, Hids in Hid. by apply bool_decide_eq_true_1 in Hid.
Qed.

(** ** A concrete environment and graphs *)

Open Scope Z_scope.

(** Agents answer with their id; the clock is the tick. *)
#[export] Program Instance demo_canvas : CanvasEnv := {|
  cv_now := λ n, "2024-01-01 00:00:00"; cv_time := λ n, Z.of_nat n; cv_perf := λ n, double_of_Z (Z.of_nat n);
  cv_uuid := λ n, "m" +:+ str_of_Z (Z.of_nat n);
  cv_canceled := λ n, false; cv_choice := λ n k, 0%nat; cv_schedule := λ n k, seq 0 k;
  cv_render := λ s k, Ok s; cv_convert := λ _ _ _, None; cv_files := λ _ l, Ok (PList l); cv_tts := λ _ _, PNone;
  cv_chat := λ _ _ _, Ok "answer"; cv_chat_stream := λ _ _ _, [Some "an"; Some "answer"];
  cv_other := λ n cid kw, {| or_outputs := [("content", PStr ("answer of " +:+ cid))]; or_inputs := []; or_result := Ok () |};
  cv_class := λ _, None;
  cv_check := λ _ _, Ok (); cv_construct := λ _, Ok (); cv_tool := λ _, false; cv_async := λ _, false;
  cv_thoughts := λ _ _, Ok ""; cv_repr := λ _, "" |}.
Next Obligation. done. Qed.

Definition no_canvas : Canvas :=
  {| cv_components := []; cv_path := []; cv_globals := []; cv_variables := []; cv_history := []; cv_retrieval := PList [];
     cv_memory := PList []; cv_error := PStr ""; cv_nodes := []; cv_tenant_id := PNone; cv_task_id := "";
     cv_message_id := "" |}.
Definition loaded (dsl : json) : Canvas :=
  match load "2024-01-01 00:00:00" (json_dumps dsl) (PStr "tenant") "task" PNone with Ok c => c | Err _ => no_canvas end.

(** The assistant's graph with one knowledge base *)
Definition demo_flow : Canvas := Eval vm_compute in loaded (build_qms_3core_dsl "chat-model" ["kb1"]).

Definition asks (q : string) : RunArgs :=
  {| ra_query := PStr q; ra_files := PNone; ra_user_id := PStr "u1"; ra_inputs := Some (PDict []); ra_webhook := None |}.
Definition fresh (c : Canvas) : Mach Canvas CvCall := {| m_state := c; m_tick := 0; m_calls := [] |}.

(** ** Deciding the hypotheses *)

Definition next_safeb (exp : string) : bool :=
  match split_at (strip_braces exp) with
  | Ok (_, v) => negb (bool_decide ((split_dot v).1 = "_next"))
  | Err _ => true
  end.
Definition assign_safeb (o : Cpn) : bool :=
  if decide (cp_component_name o = "VariableAssigner") then
    match param "variables" o with
    | PList l => forallb (λ it, match item "variable" it with Ok (PStr exp) => next_safeb exp | _ => true end) l
    | _ => true
    end
  else true.

Lemma assign_safe_dec c : forallb (λ kv, assign_safeb kv.2) (cv_components c) = true → assign_safe c.
Proof.
  rewrite forallb_forall. intros Hall cid o l it exp Ho Hn Hv Hit Hexp.
  apply component_in, list_elem_of_In, Hall in Ho. unfold assign_safeb in Ho. cbn in Ho.
  rewrite decide_True, Hv in Ho by done. rewrite forallb_forall in Ho.
  apply list_elem_of_In, Ho in Hit. rewrite Hexp in Hit. intros id v Hs. unfold next_safeb in Hit. rewrite Hs in Hit.
  by apply negb_true_iff, bool_decide_eq_false_1 in Hit.
Qed.

(** A loop of two rounds with its item, as the class parameters and a graph give them *)
Definition demo_loop : Canvas := Eval vm_compute in loaded (JObj [
  ("components", JObj [
    ("begin", component "Begin" (JObj []) ["Loop:L"] []);
    ("Loop:L", component "Loop" (JObj [("maximum_loop_count", JInt 2); ("logical_operator", JStr "or")]) ["msg"] ["begin"]);
    ("LoopItem:I", match component "LoopItem" (JObj []) [] [] with
                   | JObj d => JObj (d ++ [("parent_id", JStr "Loop:L")]) | j => j end);
    ("msg", component "Message" (JObj [("content", JArr [JStr "done"])]) [] ["Loop:L"])]);
  ("path", JArr []); ("history", JArr []); ("retrieval", JArr [])]).

(** An iteration over two texts, its item at a round *)
Definition demo_item (z : Z) : Cpn :=
  {| cp_component_name := "IterationItem"; cp_param := []; cp_inputs := []; cp_outputs := []; cp_idx := z;
     cp_downstream := []; cp_upstream := []; cp_parent_id := Some "Iteration:I" |}.
Definition demo_parent : Cpn :=
  {| cp_component_name := "Iteration"; cp_param := [("items_ref", PStr "begin@items")]; cp_inputs := [];
     cp_outputs := []; cp_idx := 0; cp_downstream := []; cp_upstream := []; cp_parent_id := None |}.
Definition demo_begin : Cpn :=
  {| cp_component_name := "Begin"; cp_param := []; cp_inputs := [];
     cp_outputs := [("items", out (PList [PStr "a"; PStr "b"]) "list")]; cp_idx := 0;
     cp_downstream := ["Iteration:I"]; cp_upstream := []; cp_parent_id := None |}.
Definition demo_iteration (z : Z) : Canvas :=
  set_components [("begin", demo_begin); ("Iteration:I", demo_parent); ("IterationItem:J", demo_item z)] no_canvas.
