(* ===== verification/CanvasProps.v ===== *)
(** What a turn of a canvas keeps: it moves along the path machine, a component that
    runs has what it names behind it, and without a cycle the walk ends. *)
From S2P Require Import Prelude Float PyText Json Dsl Effects Comp Regex Refs PyNum PyOps Canvas LlmStream Components.
From S2P Require Import CanvasLoad CanvasRun CanvasSteps CanvasRefine CanvasWalk CanvasTable FlowProps.
Open Scope Z_scope.

(** ** The start of a turn *)

(** The canvas whose components have lost their outputs *)
Definition cleared (c : Canvas) : Canvas :=
  set_components ((λ kv, (kv.1, reset true kv.2)) <$> cv_components c) c.

(** The path the walk starts with *)
Definition start_path (p : list string) : list string := if resumes p then p else p ++ ["begin"].

Section turn.
Context `{CanvasEnv}.
Abbreviation V := (Act Canvas CvCall).

(** Computations that change neither the components nor the path *)
Definition aside (c c' : Canvas) : Prop := cv_path c' = cv_path c ∧ cv_components c' = cv_components c.
#[export] Instance aside_order : PreOrder aside.
Proof. split; [done|]. intros ??? [??] [??]. split; congruence. Qed.
Abbreviation asides m := (runs (on_state CvCall aside) m).

Lemma aside_set_global k v : asides (set_global k v).
Proof. by apply runs_modify. Qed.
Lemma aside_add_history role x : asides (add_history role x).
Proof. apply runs_modify_try. intros c c'. destruct (item _ _) as [[]|]; try done. by intros [= <-]. Qed.
Lemma aside_append_retrieval v : asides (append_retrieval v).
Proof. apply runs_modify_try. intros c c'. destruct (cv_retrieval c); try done. by intros [= <-]. Qed.
Lemma aside_count_turn : asides count_turn.
Proof.
  apply runs_modify_try. intros c c'. destruct (item _ _) as [t|]; [|done]. cbn [mbind res_bind].
  destruct (py_add _ _); [|done]. by intros [= <-].
Qed.
#[local] Hint Resolve aside_set_global aside_add_history aside_append_retrieval aside_count_turn : runs.
Lemma aside_set_arguments args : asides (set_arguments args).
Proof. unfold set_arguments. runs_tac. Qed.
Lemma aside_decorate created_at ev dt : asides (decorate created_at ev dt).
Proof. unfold decorate. runs_tac. Qed.
Lemma aside_raise_if_canceled : asides raise_if_canceled.
Proof. unfold raise_if_canceled. runs_tac. Qed.
#[local] Hint Resolve aside_set_arguments aside_decorate aside_raise_if_canceled : runs.
Lemma aside_self cid : asides (self cid).
Proof. unfold self. runs_tac. Qed.
#[local] Hint Resolve aside_self : runs.
Lemma aside_end_turn args created_at st : asides (end_turn args created_at st).
Proof. unfold end_turn, last_outputs, finished_data. runs_tac. Qed.

Lemma Forall2_impl_in {X Y} (P Q : X → Y → Prop) l k :
  Forall2 P l k → (∀ x y, x ∈ l → P x y → Q x y) → Forall2 Q l k.
Proof.
  induction 1 as [|x y l k HP Hl IH]; intros HQ; constructor; [apply HQ; [by left|done]|].
  apply IH. intros. apply HQ; [by right|done].
Qed.

Lemma elem_of_dict_get {V} k (v : V) l : NoDup l.*1 → (k, v) ∈ l → dict_get k l = Some v.
Proof.
  induction l as [|[k' v'] l IH]; [by inversion 2|]. rewrite fmap_cons, dict_get_cons.
  intros [Hk Hl]%NoDup_cons [[= <- <-]|Hin]%elem_of_cons; [by rewrite decide_True|].
  rewrite decide_False; [by apply IH|]. cbn in Hk. intros ->. apply Hk, list_elem_of_fmap. by exists (k, v).
Qed.

Lemma webhook_keeps c0 c d :
  NoDup (cv_components c0).*1 →
  keeps (routes c0) (set_path (cv_path c) c0) c →
  keeps (routes c0) (set_path (cv_path c) c0) (set_components ((λ kv, (kv.1, webhook_cpn d kv.2)) <$> cv_components c) c).
Proof.
  intros Hids [Hp Hc]. split; [done|]. cbn in *. revert Hc. generalize (cv_components c).
  assert (∀ cid o0 o, component_of c0 cid = Some o0 → same_cpn (routes c0 cid) o0 o →
    same_cpn (routes c0 cid) o0 (webhook_cpn d o)) as Hone.
  { intros cid o0 o H0 Hs. etrans; [exact Hs|]. unfold webhook_cpn. destruct (is_kind "begin" o && _) eqn:Hb; [|done].
    apply andb_true_iff in Hb as [Hb _]. unfold is_kind in Hb. apply bool_decide_eq_true_1 in Hb.
    etrans; [|apply same_foldl; intros o' [k v]; destruct (decide _); [done|]; apply same_set_output; right;
      apply (routes_other c0 cid o); [by exists o0|by intros He; rewrite He in Hb|by intros He; rewrite He in Hb]].
    destruct (dict_get "input" d); [apply same_set_input|done]. }
  intros l Hl. clear Hp. apply Forall2_fmap_r. eapply Forall2_impl_in; [exact Hl|].
  intros [k o0] [k' o] Hin [Hk Hs]. cbn in *. split; [done|]. eapply Hone; [|exact Hs].
  by apply elem_of_dict_get.
Qed.

Lemma ran {X} (R : relation Canvas) (m : V X) w r w' :
  runs (on_state CvCall R) m → m w = (r, w') → R (m_state w) (m_state w').
Proof. intros Hm Hrun. specialize (Hm w). by rewrite Hrun in Hm. Qed.

Lemma at_aside c0 p c c' : at_path c0 p c → aside c c' → at_path c0 p c'.
Proof. intros [H1 H2] [H3 H4]. split; [congruence|by rewrite H4]. Qed.

(** The walk starts on the cleared canvas. *)
Lemma begin_turn_at args w st created_at w' :
  NoDup (cv_components (m_state w)).*1 →
  begin_turn args w = (Ok (st, created_at), w') →
  at_path (cleared (m_state w)) (start_path (cv_path (m_state w))) (m_state w').
Proof.
  intros Hids Hrun. unfold begin_turn in Hrun. set (c := m_state w) in *.
  act_in Hrun. act_inv Hrun u1 w1 H1.
  assert (aside c (m_state w1)) as [Hp1 Hc1].
  { exact (ran _ _ _ _ _ (aside_add_history "user" (ra_query args)) H1). }
  act_in Hrun. act_inv Hrun payload w2 H2. cbn in H2. injection H2 as _ <-.
  act_inv Hrun u3 w3 H3.
  assert (at_path (cleared c) (cv_path c) (m_state w3)) as H3'.
  { assert (keeps (routes (cleared c)) (set_path (cv_path (m_state w1)) (cleared c))
      (set_components ((λ kv, (kv.1, reset true kv.2)) <$> cv_components (m_state w1)) (m_state w1))) as Hk
      by (apply keeps_eq; [done|]; cbn; by rewrite Hc1).
    unfold at_path. rewrite <-Hp1. destruct payload as [d|]; injection H3 as <- <-; [|exact Hk].
    apply (webhook_keeps (cleared c) (set_components _ (m_state w1))); [|exact Hk].
    cbn. rewrite <-list_fmap_compose. exact Hids. }
  clear H1 H3 Hp1 Hc1. act_inv Hrun u4 w4 H4. act_inv Hrun u5 w5 H5. act_in Hrun. act_inv Hrun u6 w6 H6.
  apply (ran _ _ _ _ _ (aside_set_arguments args)) in H4. apply (ran _ _ _ _ _ aside_count_turn) in H5.
  assert (at_path (cleared c) (cv_path c) (m_state w5)) as H5' by (eapply at_aside; [|exact H5]; by eapply at_aside).
  rewrite (at_path_path _ _ _ H5') in H6.
  assert (at_path (cleared c) (start_path (cv_path c)) (m_state w6)) as H6'.
  { unfold start_path. destruct (resumes (cv_path c)); [by injection H6 as _ <-|].
    act_in H6. apply (ran _ _ _ _ _ (aside_append_retrieval _)) in H6. eapply at_aside; [|exact H6].
    cbn. rewrite (at_path_path _ _ _ H5'). by eapply at_path_move. }
  clear H6 H5' H3'. act_inv Hrun u7 w7 H7. apply (ran _ _ _ _ _ aside_raise_if_canceled) in H7.
  act_inv Hrun u8 w8 H8. apply (ran _ _ _ _ _ (aside_decorate _ _ _)) in H8.
  act_inv Hrun u9 w9 H9. apply (ran _ _ _ _ _ (aside_append_retrieval _)) in H9.
  act_inv Hrun u10 w10 H10. injection H10 as _ <-. injection Hrun as _ _ <-.
  eapply at_aside; [|by split]. do 3 (eapply at_aside; [|eassumption]). exact H6'.
Qed.

(** ** What a turn leaves behind *)

(** How a turn has ended that started at a path *)
Lemma run_walks fuel args w r w' :
  let c0 := cleared (m_state w) in
  let start := start_path (cv_path (m_state w)) in
  NoDup (cv_components c0).*1 → assign_safe c0 →
  run fuel args w = (Ok r, w') →
  let idx := (length start - 1)%nat in
  ∃ wr p, walked c0 fuel (Collecting idx idx (length start - idx), start) wr p ∧
    (wr = None ↔ r = None) ∧
    cv_path (m_state w') = match wr with Some (false, idx') => take idx' p | _ => p end.
Proof.
  intros c0 start Hids Hsafe Hrun idx. unfold run in Hrun. act_inv Hrun b w1 H1. destruct b as [st created_at].
  apply begin_turn_at in H1; [|by unfold c0, cleared in Hids; cbn in Hids; rewrite <-list_fmap_compose in Hids].
  act_in Hrun. rewrite (at_path_path _ _ _ H1) in Hrun. fold c0 start idx in H1, Hrun.
  act_inv Hrun wr w2 H2.
  destruct (moves_run_loop c0 args created_at Hsafe fuel idx start {| tn_partials := []; tn_tts := false |}
    ltac:(unfold idx; lia) w1 H1) as (p & Hp & Hwalk). rewrite H2 in Hp, Hwalk. cbn in Hp, Hwalk.
  exists wr, p. split; [done|]. destruct wr as [[[] i]|]; [injection Hrun as <- <-; split; [done|by apply (at_path_path _ _ _ Hp)]| |
    injection Hrun as <- <-; split; [done|by apply (at_path_path _ _ _ Hp)]].
  act_in Hrun. act_inv Hrun u3 w3 H3. injection Hrun as <- <-. split; [done|].
  apply (ran _ _ _ _ _ (aside_end_turn _ _ _)) in H3. destruct H3 as [-> _]. cbn.
  by rewrite (at_path_path _ _ _ Hp).
Qed.
End turn.

Lemma pair_of {X Y} (x : X * Y) a : x.1 = a → x = (a, x.2).
Proof. destruct x. by intros <-. Qed.

(** A graph without forms does not stop to ask. *)
Definition formless (c : Canvas) : Prop :=
  ∀ cid o, component_of c cid = Some o → is_kind "userfillup" o = false.

(** Where the walk of a turn starts *)
Definition walk_start (p : list string) : phase * list string :=
  (Collecting (length p - 1) (length p - 1) (length p - (length p - 1)), p).





(** More fuel changes nothing once it is enough. *)
Lemma bind_agree {S C X Y} (m : Act S C X) (f g : X → Act S C Y) w bad :
  ((m ≫= f) w).1 ≠ bad →
  (∀ x w', (f x w').1 ≠ bad → g x w' = f x w') → (m ≫= g) w = (m ≫= f) w.
Proof. unfold mbind, Act_bind. destruct (m w) as [[x|e] w']; auto. Qed.

Lemma run_loop_more `{CanvasEnv} args created_at fuel idx tn w :
  (run_loop args created_at fuel idx tn w).1 ≠ Ok None →
  run_loop args created_at (S fuel) idx tn w = run_loop args created_at fuel idx tn w.
Proof.
  revert idx tn w. induction fuel as [|fuel IH]; intros idx tn w Hok; [by destruct Hok|].
  remember (S fuel) as fuel' eqn:Hf. rewrite Hf in Hok. rewrite Hf at 2. cbn [run_loop] in Hok |- *.
  eapply bind_agree; [exact Hok|clear Hok]. intros path w1 Hok. case_decide; [done|].
  do 4 (eapply bind_agree; [exact Hok|clear Hok]; intros ? ? Hok).
  eapply bind_agree; [exact Hok|clear Hok]. intros c w2 Hok. destruct (py_bool _); [done|].
  eapply bind_agree; [exact Hok|clear Hok]. intros objs w3 Hok. destruct (existsb _ _); [done|].
  by apply IH.
Qed.

Lemma run_loop_enough `{CanvasEnv} args created_at fuel fuel' idx tn w :
  (run_loop args created_at fuel idx tn w).1 ≠ Ok None → (fuel ≤ fuel')%nat →
  run_loop args created_at fuel' idx tn w = run_loop args created_at fuel idx tn w.
Proof.
  intros Hok. induction 1 as [|fuel' _ IH]; [done|]. rewrite run_loop_more; [done|by rewrite IH].
Qed.

Lemma run_enough `{CanvasEnv} args fuel fuel' w :
  (run fuel args w).1 ≠ Ok None → (fuel ≤ fuel')%nat → run fuel' args w = run fuel args w.
Proof.
  intros Hok Hle. unfold run in *. eapply bind_agree; [exact Hok|clear Hok]. intros [st created_at] w1 Hok.
  eapply bind_agree; [exact Hok|clear Hok]. intros path w2 Hok.
  unfold mbind, Act_bind in *. rewrite (run_loop_enough _ _ fuel fuel'); [done| |done].
  intros Hn. apply Hok. destruct (run_loop args created_at fuel _ _ w2) as [[r|] w3]; [|done]. injection Hn as ->. done.
Qed.

(** C7. A turn ends: if the components lead to components of a higher rank, jumps after
    errors included, then [N + 2] rounds are enough for every outcome of the agents,
    where [N] is the highest rank; more fuel gives the same run. *)
Theorem run_ends `{CanvasEnv} (rank : string → nat) N args w :
  NoDup (cv_components (cleared (m_state w))).*1 → assign_safe (cleared (m_state w)) →
  climbs (cleared (m_state w)) rank → (∀ cid, rank cid ≤ N)%nat →
  ∃ r w', r ≠ Ok None ∧ ∀ fuel, (N + 2 ≤ fuel)%nat → run fuel args w = (r, w').
Proof.
  intros Hids Hsafe Hclimb HN. destruct (run (N + 2) args w) as [r w'] eqn:Hrun. exists r, w'.
  assert (r ≠ Ok None) as Hr.
  { intros ->. destruct (run_walks _ _ _ _ _ Hids Hsafe Hrun) as (wr & p & Hw & [_ Hwr] & _).
    rewrite (Hwr eq_refl) in Hw. destruct Hw as [ph Hn].
    eapply rounds_bound in Hn; [|exact Hclimb|exact HN|]; [lia|]. apply bounded_start. lia. }
  split; [done|]. intros fuel Hfuel. rewrite <-Hrun. apply run_enough; [by rewrite Hrun|done].
Qed.

Lemma flow_rank_bound cid : (flow_rank cid ≤ 24)%nat.
Proof.
  unfold flow_rank. destruct (dict_get cid flow_ranks) as [n|] eqn:Hn; [|simpl; lia].
  apply (Forall_dict_get (λ kv, kv.2 ≤ 24)%nat cid flow_ranks n); [|done]. decided.
Qed.

Example run_ends_witness :
  ∃ r w', r ≠ Ok None ∧ ∀ fuel, (24 + 2 ≤ fuel)%nat → run fuel (asks "hi") (fresh demo_flow) = (r, w').
Proof.
  apply (run_ends flow_rank 24 (asks "hi") (fresh demo_flow)).
  - decided.
  - apply assign_safe_dec. vm_compute. reflexivity.
  - apply climbs_dec; vm_compute; reflexivity.
  - exact flow_rank_bound.
Defined.
