(* ===== verification/CanvasSpecs.v ===== *)
(** What the variables and the components of a canvas compute: reading what was
    written, the route of a switch, the rounds of a loop, the lists without
    duplicates. *)
From S2P Require Import Prelude Float PyText Json Dsl Effects Comp Refs PyNum PyOps Canvas LlmStream Components.
From S2P Require Import CanvasLoad CanvasRun CanvasSteps CanvasRefine CanvasTable FlowProps CanvasProps.

(** ** Variables *)

(** The variable an expression names: one of the canvas, or an output of a component *)
Definition place (exp : string) : option (string + string * string) :=
  let exp := strip_braces exp in
  if negb (py_in "@" exp) then Some (inl exp)
  else match split_at exp with
       | Ok (cid, v) => Some (inr (cid, (split_dot v).1))
       | Err _ => None
       end.

(** The path it names inside the output *)
Definition nested (exp : string) : string :=
  match split_at (strip_braces exp) with Ok (_, v) => (split_dot v).2 | Err _ => "" end.

Lemma component_put c cid o cid' :
  component_of (put cid o c) cid' = if decide (cid = cid') then Some o else component_of c cid'.
Proof. unfold component_of, put. cbn. apply dict_get_set. Qed.

Lemma output_set k v o k' : output (set_output k v o) k' = if decide (k = k') then v else output o k'.
Proof.
  unfold output, set_output. cbn. rewrite dict_get_set. case_decide; [|done].
  cbn [default from_option id]. unfold get, id. by rewrite dict_get_set, decide_True.
Qed.

(** Writing an output leaves every other variable. *)
Lemma get_after_put c cid o k v exp' :
  component_of c cid = Some o → place exp' ≠ Some (inr (cid, k)) →
  get_variable_value (put cid (set_output k v o) c) exp' = get_variable_value c exp'.
Proof.
  intros Ho. unfold place, get_variable_value. cbv zeta. destruct (negb _); [done|].
  destruct (split_at _) as [[cid' var]|]; [|done]. cbn. rewrite component_put. intros Hp.
  case_decide as Hc; [subst cid'|done]. rewrite Ho. destruct (split_dot var) as [root rest]. cbn in Hp.
  by rewrite output_set, decide_False by congruence.
Qed.

(** C25. A variable that was written is read back, and no other one changes: what
    [set_variable_value] stores under a name without a path is what
    [get_variable_value] returns for it. *)
Theorem set_get_variable c exp v c' :
  set_variable_value c exp v = Ok c' → nested exp = "" →
  get_variable_value c' exp = Ok v ∧
  ∀ exp', place exp' ≠ place exp → get_variable_value c' exp' = get_variable_value c exp'.
Proof.
  unfold set_variable_value, nested. cbv zeta. destruct (negb (py_in "@" (strip_braces exp))) eqn:Hat.
  - intros [= <-] _. split.
    + unfold get_variable_value. rewrite Hat. cbn. by rewrite dict_get_set, decide_True.
    + intros exp'. unfold place. rewrite Hat. unfold get_variable_value. cbv zeta.
      destruct (negb (py_in "@" (strip_braces exp'))); [|done]. cbn. rewrite dict_get_set. intros Hne.
      by rewrite decide_False by congruence.
  - destruct (split_at (strip_braces exp)) as [[cid var]|] eqn:Hs; [|done]. cbn.
    destruct (component_of c cid) as [o|] eqn:Ho; [|done]. destruct (split_dot var) as [root rest] eqn:Hd. cbn.
    intros Hset ->. cbn in Hset. injection Hset as <-. split.
    + unfold get_variable_value. rewrite Hat, Hs. cbn. rewrite component_put, decide_True by done. rewrite Hd. cbn.
      by rewrite output_set, decide_True.
    + intros exp' Hne. apply get_after_put; [done|]. intros Hp. apply Hne. rewrite Hp. unfold place.
      rewrite Hat, Hs. cbn. by rewrite Hd.
Qed.

Example set_get_variable_witness :
  ∃ c', set_variable_value demo_flow "{st:process@result}" (PInt 7) = Ok c' ∧
    get_variable_value c' "{st:process@result}" = Ok (PInt 7) ∧
    get_variable_value c' "sys.query" = get_variable_value demo_flow "sys.query".
Proof.
  destruct (set_variable_value demo_flow "{st:process@result}" (PInt 7)) as [c'|e] eqn:Hs; [|by vm_compute in Hs].
  exists c'. split; [done|].
  destruct (set_get_variable demo_flow "{st:process@result}" (PInt 7) c' Hs) as [H1 H2]; [by vm_compute|].
  split; [exact H1|]. apply H2. vm_compute. discriminate.
Defined.

(** Where the loop over the keys leaves a value *)
Lemma path_set_keys last v keys d :
  ∃ sub, foldl path_step (PDict (set_keys last v keys d)) keys = PDict (dict_set last v sub).
Proof.
  revert d. induction keys as [|key keys IH]; intros d; [by exists d|]. cbn [foldl set_keys].
  destruct (IH (match dict_get key d with Some (PDict d) => d | _ => [] end)) as (sub & Hsub).
  exists sub. rewrite <-Hsub. f_equal. cbn. unfold get. by rewrite dict_get_set, decide_True.
Qed.

(** A value that is written under a path is not read back: the last key of the path
    is walked into and set again inside, so reading the path gives a dict that holds
    the value under this key. *)
Theorem nested_write_misses c exp v c' :
  set_variable_value c exp v = Ok c' → nested exp ≠ "" → py_in "@" (strip_braces exp) = true →
  ∃ d, get_variable_value c' exp = Ok (PDict d) ∧
    dict_get (List.last (py_split "." (nested exp)) "") d = Some v.
Proof.
  unfold set_variable_value, nested. cbv zeta. intros Hset Hn Hat. rewrite Hat in Hset. cbn in Hset.
  destruct (split_at (strip_braces exp)) as [[cid var]|] eqn:Hs; [|done]. cbn in Hset, Hn |- *.
  destruct (component_of c cid) as [o|] eqn:Ho; [|done]. destruct (split_dot var) as [root rest] eqn:Hd. cbn in Hn |- *.
  assert (truthy rest = true) as Ht by (by apply bool_decide_eq_true_2). rewrite Ht in Hset.
  unfold set_variable_param_value in Hset. rewrite Ht in Hset.
  destruct (if py_bool (output o root) then output o root else PDict []) as [| | | | | |d0|]; try done.
  cbn in Hset. injection Hset as <-.
  destruct (path_set_keys (List.last (py_split "." rest) "") v (py_split "." rest) d0) as (sub & Hsub).
  eexists. split.
  - unfold get_variable_value. rewrite Hat, Hs. cbn. rewrite component_put, decide_True by done. rewrite Hd, Ht.
    rewrite output_set, decide_True by done. unfold get_variable_param_value. by rewrite Ht, Hsub.
  - by rewrite dict_get_set, decide_True.
Qed.

Example nested_write_misses_witness :
  ∃ c' d, set_variable_value demo_flow "begin@a.b" (PInt 7) = Ok c' ∧
    get_variable_value c' "begin@a.b" = Ok (PDict d) ∧ dict_get "b" d = Some (PInt 7).
Proof.
  destruct (set_variable_value demo_flow "begin@a.b" (PInt 7)) as [c'|e] eqn:Hs; [|by vm_compute in Hs].
  exists c'. destruct (nested_write_misses demo_flow "begin@a.b" (PInt 7) c' Hs) as (d & H1 & H2);
    [by vm_compute|by vm_compute|]. exists d. split; [done|]. split; [exact H1|exact H2].
Defined.

(** ** Switches *)

Section switch.
Context `{CanvasEnv}.

(** What an item of a condition says: [None] when it names no variable *)
Definition item_holds (c : Canvas) (it : pyv) : res (option bool) :=
  id ← item "cpn_id" it;
  if negb (py_bool id) then Ok None else
  exp ← as_str id;
  cpn_v ← get_variable_value c exp;
  d ← match it with PDict d => Ok d | _ => Err attribute_error end;
  v ← operatee cpn_v d;
  op ← item "operator" it;
  b ← match op with PStr op => process_operator cpn_v op v
      | _ => Err (ValueError ("Not supported operator: " +:+ py_text op)) end;
  Ok (Some b).

Fixpoint all_items (c : Canvas) (items : list pyv) : res bool :=
  match items with
  | [] => Ok true
  | it :: items => r ← item_holds c it; b ← all_items c items; Ok (default true r && b)
  end.

(** Some item holds, or none says anything; [seen] when one did *)
Fixpoint any_item (c : Canvas) (seen : bool) (items : list pyv) : res bool :=
  match items with
  | [] => Ok (negb seen)
  | it :: items =>
      r ← item_holds c it;
      match r with
      | None => any_item c seen items
      | Some true => Ok true
      | Some false => any_item c true items
      end
  end.

Definition conjunctive (cond : pyv) : bool :=
  match item "logical_operator" cond with Ok l => py_eq l (PStr "and") | Err _ => true end.
Definition holds (c : Canvas) (cond : pyv) : res bool :=
  items ← (l ← item "items" cond; as_iter l);
  if conjunctive cond then all_items c items else any_item c false items.

Context (c0 : Canvas) (cid : string).

(** The variables are those of [c0]. *)
Definition reads_as (c : Canvas) : Prop :=
  is_Some (component_of c cid) ∧ ∀ exp, get_variable_value c exp = get_variable_value c0 exp.

Lemma reads_input c k v : reads_as c → reads_as (update_cpn cid (set_input_value k v) c).
Proof.
  intros [[o Ho] Hv]. unfold update_cpn. rewrite Ho. split.
  - rewrite component_put, decide_True by done. by eexists.
  - intros exp. rewrite <-Hv. unfold get_variable_value. cbv zeta. destruct (negb _); [done|].
    destruct (split_at _) as [[cid' var]|]; [|done]. cbn. rewrite component_put. by case_decide; [subst; rewrite Ho|].
Qed.

(** [_next] is set. *)
Definition next_is (to : pyv) (c : Canvas) : Prop := ∃ o, component_of c cid = Some o ∧ output o "_next" = to.

Lemma set_next_sets to w u w' : reads_as (m_state w) → set_next cid to w = (Ok u, w') → next_is to (m_state w').
Proof.
  intros [[o Ho] _] Hrun. unfold set_next in Hrun. act_in Hrun. act_inv Hrun l w1 H1. injection H1 as _ <-.
  injection Hrun as _ <-. cbn. unfold next_is, update_cpn. rewrite Ho, component_put, decide_True by done.
  eexists. split; [done|]. by rewrite output_set, decide_True.
Qed.

Hypothesis Hnc : ∀ n, cv_canceled n = false.

Lemma check_goes_on w : check_if_canceled cid w = (Ok false, tick w).
Proof. unfold check_if_canceled, observe, mbind, Act_bind. cbn. by rewrite Hnc. Qed.

Lemma goes_on (m : Act Canvas CvCall unit) w : unless_canceled cid m w = m (tick w).
Proof. unfold unless_canceled, mbind, Act_bind. by rewrite check_goes_on. Qed.

(** One item: what it says, and the state after it *)
Lemma switch_item_run cond it items outcomes w r w' :
  reads_as (m_state w) → switch_items cid cond (it :: items) outcomes w = (Ok r, w') →
  ∃ b w1, item_holds c0 it = Ok b ∧ reads_as (m_state w1) ∧
  match b with
  | None => switch_items cid cond items outcomes w1 = (Ok r, w')
  | Some b =>
      ∃ l, item "logical_operator" cond = Ok l ∧
      if negb (py_eq l (PStr "and")) && existsb (λ b, b) (outcomes ++ [b])
      then r = None ∧ ∃ to, item "to" cond = Ok to ∧ next_is to (m_state w')
      else switch_items cid cond items (outcomes ++ [b]) w1 = (Ok r, w')
  end.
Proof.
  intros Hw Hrun. cbn [switch_items] in Hrun. rewrite (act_ok _ _ _ _ _ (check_goes_on w)) in Hrun. cbv iota in Hrun.
  act_inv Hrun i w1 H1. injection H1 as Hi <-. unfold item_holds. rewrite Hi. cbn [mbind res_bind].
  destruct (negb (py_bool i)); [by exists None, (tick w)|].
  act_inv Hrun exp w2 H2. injection H2 as Hexp <-. rewrite Hexp. cbn [mbind res_bind].
  act_inv Hrun cpn_v w3 H3. unfold variable in H3. act_in H3. injection H3 as Hv <-.
  destruct Hw as [Hsome Hvars]. cbn in Hv. rewrite Hvars in Hv. rewrite Hv. cbn [mbind res_bind].
  act_in Hrun. act_inv Hrun d w4 H4. injection H4 as Hd <-. rewrite Hd. cbn [mbind res_bind].
  act_inv Hrun v w5 H5. injection H5 as Hop <-. rewrite Hop. cbn [mbind res_bind].
  act_inv Hrun op w6 H6. injection H6 as Hop' <-. rewrite Hop'. cbn [mbind res_bind].
  act_inv Hrun b w7 H7. injection H7 as Hb <-. rewrite Hb. cbn [mbind res_bind].
  act_inv Hrun l w8 H8. injection H8 as Hl <-.
  set (w1 := set_state _ (tick w)) in Hrun.
  assert (reads_as (m_state w1)) as Hr1 by (apply reads_input; by split).
  exists (Some b), w1. split; [done|]. split; [done|]. exists l. split; [done|].
  cbv zeta in Hrun. destruct (negb (py_eq l (PStr "and")) && existsb (λ b, b) (outcomes ++ [b])); [|done].
  act_inv Hrun to w9 H9. injection H9 as Hto <-. act_inv Hrun u w10 H10. injection Hrun as <- <-.
  split; [done|]. exists to. split; [done|]. by eapply set_next_sets.
Qed.

Lemma conj_items_run cond items outcomes w r w' :
  conjunctive cond = true → reads_as (m_state w) → switch_items cid cond items outcomes w = (Ok r, w') →
  ∃ outs b, r = Some outs ∧ reads_as (m_state w') ∧ all_items c0 items = Ok b ∧
    forallb (λ b, b) outs = forallb (λ b, b) outcomes && b.
Proof.
  intros Hc. revert outcomes w. induction items as [|it items IH]; intros outcomes w Hw Hrun.
  { injection Hrun as <- <-. exists outcomes, true. by rewrite andb_true_r. }
  destruct (switch_item_run _ _ _ _ _ _ _ Hw Hrun) as (b & w1 & Hb & Hw1 & Hrest). cbn [all_items]. rewrite Hb.
  cbn [mbind res_bind]. destruct b as [b|].
  - destruct Hrest as (l & Hl & Hrest). unfold conjunctive in Hc. rewrite Hl in Hc. rewrite Hc in Hrest. cbn in Hrest.
    destruct (IH _ _ Hw1 Hrest) as (outs & b' & -> & Hw' & -> & Ho). exists outs, (b && b'). split; [done|].
    split; [done|]. split; [done|]. rewrite Ho, forallb_app. cbn. by rewrite andb_true_r, andb_assoc.
  - destruct (IH _ _ Hw1 Hrest) as (outs & b' & -> & Hw' & -> & Ho). by exists outs, b'.
Qed.

Lemma disj_items_run cond items outcomes w r w' :
  conjunctive cond = false → existsb (λ b, b) outcomes = false → reads_as (m_state w) →
  switch_items cid cond items outcomes w = (Ok r, w') →
  let seen := negb (bool_decide (outcomes = [])) in
  match r with
  | None => any_item c0 seen items = Ok true ∧ ∃ to, item "to" cond = Ok to ∧ next_is to (m_state w')
  | Some outs => reads_as (m_state w') ∧ any_item c0 seen items = Ok (forallb (λ b, b) outs)
  end.
Proof.
  intros Hc. revert outcomes w. induction items as [|it items IH]; intros outcomes w Hout Hw Hrun.
  { injection Hrun as <- <-. split; [done|]. cbn. f_equal.
    by destruct outcomes as [|[] outs]. }
  destruct (switch_item_run _ _ _ _ _ _ _ Hw Hrun) as (b & w1 & Hb & Hw1 & Hrest). cbn [any_item]. rewrite Hb.
  cbn [mbind res_bind]. destruct b as [b|]; [|by apply (IH outcomes w1)].
  destruct Hrest as (l & Hl & Hrest). unfold conjunctive in Hc. rewrite Hl in Hc. rewrite Hc in Hrest. cbn in Hrest.
  rewrite existsb_app, Hout in Hrest. cbn in Hrest. destruct b; cbn in Hrest.
  - destruct Hrest as [-> Hto]. done.
  - specialize (IH (outcomes ++ [false]) w1). rewrite existsb_app, Hout in IH. specialize (IH eq_refl Hw1 Hrest).
    by destruct outcomes.
Qed.

Lemma items_run cond items w r w' :
  reads_as (m_state w) → switch_items cid cond items [] w = (Ok r, w') →
  match r with
  | None => (if conjunctive cond then all_items c0 items else any_item c0 false items) = Ok true ∧
      ∃ to, item "to" cond = Ok to ∧ next_is to (m_state w')
  | Some outs => reads_as (m_state w') ∧
      (if conjunctive cond then all_items c0 items else any_item c0 false items) = Ok (forallb (λ b, b) outs)
  end.
Proof.
  intros Hw Hrun. destruct (conjunctive cond) eqn:Hc.
  - destruct (conj_items_run _ _ _ _ _ _ Hc Hw Hrun) as (outs & b & -> & Hw' & -> & ->). done.
  - exact (disj_items_run _ _ [] _ _ _ Hc eq_refl Hw Hrun).
Qed.

(** Where the conditions send the walk *)
Definition routed (conds : list pyv) (end_cpn_ids to : pyv) : Prop :=
  ∃ before, Forall (λ cond, holds c0 cond = Ok false) before ∧
    ((∃ cond after, conds = before ++ cond :: after ∧ holds c0 cond = Ok true ∧ item "to" cond = Ok to)
     ∨ (conds = before ∧ to = end_cpn_ids)).

Lemma conditions_run end_ids conds w u w' :
  reads_as (m_state w) → switch_conditions cid end_ids conds w = (Ok u, w') →
  ∃ to, next_is to (m_state w') ∧ routed conds end_ids to.
Proof.
  revert w. induction conds as [|cond conds IH]; intros w Hw Hrun; cbn [switch_conditions] in Hrun.
  { exists end_ids. split; [by eapply set_next_sets|]. exists []. split; [constructor|]. by right. }
  rewrite goes_on in Hrun. act_inv Hrun items w1 H1. injection H1 as Hitems <-. act_inv Hrun r w2 H2.
  apply items_run in H2; [|done].
  assert (holds c0 cond = if conjunctive cond then all_items c0 items else any_item c0 false items) as Hh.
  { unfold holds. by rewrite Hitems. }
  destruct r as [outs|].
  - destruct H2 as [Hw2 Hb]. rewrite <-Hh in Hb. destruct (forallb (λ b, b) outs).
    + act_inv Hrun to w3 H3. injection H3 as Hto <-. exists to. split; [by eapply set_next_sets|].
      exists []. split; [constructor|]. left. by exists cond, conds.
    + destruct (IH _ Hw2 Hrun) as (to & Hnext & before & Hbefore & Hrest). exists to. split; [done|].
      exists (cond :: before). split; [by constructor|].
      destruct Hrest as [(cond' & after & -> & H')|[-> ->]]; [left|right; done]. by exists cond', after.
  - destruct H2 as (Hb & to & Hto & Hnext). injection Hrun as _ <-. rewrite <-Hh in Hb. exists to. split; [done|].
    exists []. split; [constructor|]. left. by exists cond, conds.
Qed.

End switch.

(** C15. A switch takes the first condition that holds: when it ends, its route is the
    target of the first condition the variables satisfy, its other end when none does.
    A conjunction holds when every item does; any other condition holds as soon as an
    item does, and also when it has no item at all. *)
Theorem switch_first_match `{CanvasEnv} cid o w w' :
  (∀ n, cv_canceled n = false) → component_of (m_state w) cid = Some o →
  Switch_invoke cid w = (Ok (), w') →
  ∃ o' conds, component_of (m_state w') cid = Some o' ∧ as_iter (param "conditions" o) = Ok conds ∧
    routed (m_state w) conds (param "end_cpn_ids" o) (output o' "_next").
Proof.
  intros Hnc Ho Hrun. unfold Switch_invoke in Hrun. rewrite goes_on in Hrun by done.
  rewrite (act_ok _ _ _ o (tick w)) in Hrun by (by rewrite self_run; unfold get_component_obj; cbn; rewrite Ho).
  act_inv Hrun conds w1 H1. injection H1 as Hconds <-.
  assert (reads_as (m_state w) cid (m_state (tick w))) as Hw by (split; [by exists o|done]).
  destruct (conditions_run (m_state w) cid Hnc _ _ _ _ _ Hw Hrun)
    as (to & (o' & Ho' & <-) & Hr).
  by exists o', conds.
Qed.

(** A question about training takes the second branch of the assistant. *)
Example switch_first_match_witness :
  let w := fresh (set_globals (dict_set "sys.query" (PStr "我想学习") (cv_globals demo_flow)) demo_flow) in
  ∃ o' conds, component_of (m_state (Switch_invoke "switch:intent" w).2) "switch:intent" = Some o' ∧
    routed (m_state w) conds (PList [PStr "st:process"]) (output o' "_next") ∧
    output o' "_next" = PList [PStr "st:learning"].
Proof.
  intros w. destruct (component_of (m_state w) "switch:intent") as [o|] eqn:Ho; [|by vm_compute in Ho].
  destruct (switch_first_match "switch:intent" o w (Switch_invoke "switch:intent" w).2) as (o' & conds & H1 & H2 & H3).
  - done.
  - exact Ho.
  - apply pair_of. vm_compute. reflexivity.
  - exists o', conds. split; [exact H1|]. vm_compute in Ho. injection Ho as <-. split; [exact H3|].
    vm_compute in H1. injection H1 as <-. reflexivity.
Defined.

(** ** The rounds of a loop *)

Section rounds.
Context `{CanvasEnv} (cid : string).
Local Open Scope Z_scope.

(** [n] times the item of a loop is called and asked whether the loop is over. *)
Fixpoint passes (n : nat) : Act Canvas CvCall (list bool) :=
  match n with
  | O => mret []
  | S n => LoopItem_invoke cid ;; b ← item_end cid; bs ← passes n; mret (b :: bs)
  end.

(** The canvas with the counter of the item at [z] *)
Definition at_round (c : Canvas) (o : Cpn) (z : Z) : Canvas := put cid (set_idx z o) c.

Context (c : Canvas) (o : Cpn) (pid : string) (max : Z).
Hypothesis Hnc : ∀ n, cv_canceled n = false.
Hypothesis Hkind : is_kind "iterationitem" o = false.
(** Its parent allows [max] rounds and has no condition that ends them. *)
Hypothesis Hparent : ∀ z, ∃ p, parent_of (at_round c o z) (set_idx z o) = Ok (pid, p) ∧
  param "maximum_loop_count" p = PInt max.
Hypothesis Hend : ∀ z, z ≠ -1 → loop_end (at_round c o z) (set_idx z o) = Ok (false, z).

Lemma at_round_get z : component_of (at_round c o z) cid = Some (set_idx z o).
Proof. unfold at_round. by rewrite component_put, decide_True. Qed.

Lemma dict_set_set {V} k (v v' : V) d : dict_set k v' (dict_set k v d) = dict_set k v' d.
Proof.
  induction d as [|[k1 x] d IH]; cbn; [by rewrite decide_True|].
  case_decide as Hk; cbn; [by rewrite decide_True|rewrite decide_False by done; by rewrite IH].
Qed.

Lemma put_put c' o1 o2 : put cid o2 (put cid o1 c') = put cid o2 c'.
Proof. unfold put. cbn. by rewrite dict_set_set. Qed.

Lemma at_round_set z z' : update_cpn cid (set_idx z') (at_round c o z) = at_round c o z'.
Proof. unfold update_cpn. rewrite at_round_get. unfold at_round. by rewrite put_put. Qed.

(** One call *)
Lemma loop_item_call z w :
  m_state w = at_round c o z →
  ∃ w', LoopItem_invoke cid w = (Ok (), w') ∧ m_state w' = at_round c o (if decide (max <= z) then -1 else z + 1).
Proof.
  intros Hw. unfold LoopItem_invoke. rewrite goes_on by done.
  assert (∀ w, m_state w = at_round c o z → self cid w = (Ok (set_idx z o), w)) as Hself.
  { intros w1 Hw1. rewrite self_run. unfold get_component_obj. by rewrite Hw1, at_round_get. }
  rewrite (act_ok _ _ _ _ _ (Hself (tick w) Hw)). act_goal. cbn [m_state tick]. rewrite Hw.
  destruct (Hparent z) as (p & Hp & Hmax). rewrite Hp. act_goal. cbv iota beta.
  assert (idx_reached (cp_idx (set_idx z o)) (param "maximum_loop_count" p) = Ok (bool_decide (max <= z))) as Hover.
  { unfold idx_reached, py_le. rewrite Hmax. cbn. f_equal. destruct (Z.compare_spec max z);
      case_bool_decide; (done || lia). }
  rewrite (act_ok _ _ _ (bool_decide (max <= z)) _) by (unfold ofres; by rewrite Hover).
  case_bool_decide as Hle; rewrite ?decide_True, ?decide_False by done.
  - eexists. split; [reflexivity|]. cbn. rewrite Hw. apply at_round_set.
  - unfold check_if_canceled_if. case_bool_decide.
    + rewrite (act_ok _ _ _ _ _ (check_goes_on cid Hnc _)). eexists. split; [reflexivity|].
      cbn. rewrite Hw. unfold update_cpn. rewrite at_round_get. unfold at_round. by rewrite put_put.
    + rewrite (act_ok _ _ _ false (tick w)) by done. eexists. split; [reflexivity|].
      cbn. rewrite Hw. unfold update_cpn. rewrite at_round_get. unfold at_round. by rewrite put_put.
Qed.

(** One answer *)
Lemma item_end_answer z w :
  m_state w = at_round c o z →
  ∃ w', item_end cid w = (Ok (bool_decide (z = -1)), w') ∧ m_state w' = at_round c o z.
Proof.
  intros Hw. unfold item_end.
  rewrite (act_ok _ _ _ (set_idx z o) w) by (rewrite self_run; unfold get_component_obj; by rewrite Hw, at_round_get).
  change (is_kind "iterationitem" (set_idx z o)) with (is_kind "iterationitem" o). rewrite Hkind. act_goal.
  rewrite Hw. assert (loop_end (at_round c o z) (set_idx z o) = Ok (bool_decide (z = -1), z)) as Hl.
  { case_bool_decide as Hz; [by subst|by apply Hend]. }
  rewrite (act_ok _ _ _ (bool_decide (z = -1), z) w) by (unfold ofres; by rewrite Hl).
  cbv iota beta. eexists. split; [reflexivity|]. cbn. rewrite Hw. apply at_round_set.
Qed.

Lemma passes_S n z w :
  m_state w = at_round c o z →
  ∃ w', passes (S n) w = (bs ← passes n; mret (bool_decide ((if decide (max <= z) then -1 else z + 1) = -1) :: bs)) w'
    ∧ m_state w' = at_round c o (if decide (max <= z) then -1 else z + 1).
Proof.
  intros Hw. destruct (loop_item_call z w Hw) as (w1 & H1 & Hw1).
  destruct (item_end_answer _ w1 Hw1) as (w2 & H2 & Hw2). exists w2. split; [|done].
  cbn [passes]. rewrite (act_ok _ _ _ _ _ H1). by rewrite (act_ok _ _ _ _ _ H2).
Qed.

(** From round [z] on there are [max - z] more, and then the loop is over. *)
Lemma passes_run n z w :
  m_state w = at_round c o z → -1 <= z -> z + Z.of_nat n = max → 0 <= max →
  ∃ w', passes (S n) w = (Ok (replicate n false ++ [true]), w') ∧ m_state w' = at_round c o (-1).
Proof.
  revert z w. induction n as [|n IH]; intros z w Hw Hz Hn Hmax.
  - destruct (passes_S 0 z w Hw) as (w1 & H1 & Hw1). rewrite decide_True in H1, Hw1 by lia.
    exists w1. by rewrite H1.
  - destruct (passes_S (S n) z w Hw) as (w1 & H1 & Hw1). rewrite decide_False in H1, Hw1 by lia.
    rewrite bool_decide_eq_false_2 in H1 by lia. destruct (IH _ _ Hw1) as (w2 & H2 & Hw2); [lia..|].
    exists w2. rewrite H1, (act_ok _ _ _ _ _ H2). done.
Qed.
End rounds.

(** A loop has one round too many when it is entered again: without a condition
    that ends it, a new loop with [maximum_loop_count] [max] goes around [max] times
    and is over; its counter stays at -1, and the next time it goes around [max + 1]
    times. *)
Theorem loop_rounds `{CanvasEnv} cid c o pid max w :
  (∀ n, cv_canceled n = false) → is_kind "iterationitem" o = false →
  (∀ z, ∃ p, parent_of (at_round cid c o z) (set_idx z o) = Ok (pid, p) ∧ param "maximum_loop_count" p = PInt max) →
  (∀ z, z ≠ (-1)%Z → loop_end (at_round cid c o z) (set_idx z o) = Ok (false, z)) →
  (0 <= max)%Z → m_state w = at_round cid c o 0 →
  let m := Z.to_nat max in
  ∃ w1 w2, passes cid (S m) w = (Ok (replicate m false ++ [true]), w1) ∧
    passes cid (S (S m)) w1 = (Ok (replicate (S m) false ++ [true]), w2).
Proof.
  intros Hnc Hk Hp He Hmax Hw m.
  destruct (passes_run cid c o pid max Hnc Hk Hp He m 0 w Hw) as (w1 & H1 & Hw1); [lia..|].
  destruct (passes_run cid c o pid max Hnc Hk Hp He (S m) (-1) w1 Hw1) as (w2 & H2 & _); [lia..|]. by exists w1, w2.
Qed.

Example loop_rounds_witness :
  ∃ w1 w2, passes "LoopItem:I" 3 (fresh demo_loop) = (Ok [false; false; true], w1) ∧
    passes "LoopItem:I" 4 w1 = (Ok [false; false; false; true], w2).
Proof.
  destruct (component_of demo_loop "LoopItem:I") as [o|] eqn:Ho; [|by vm_compute in Ho].
  apply (loop_rounds "LoopItem:I" demo_loop o "Loop:L" 2 (fresh demo_loop)).
  - done.
  - vm_compute in Ho. injection Ho as <-. reflexivity.
  - intros z. vm_compute in Ho. injection Ho as <-. eexists. split; reflexivity.
  - intros z Hz. unfold loop_end. rewrite decide_False by done. vm_compute in Ho. injection Ho as <-. reflexivity.
  - done.
  - vm_compute in Ho. injection Ho as <-. reflexivity.
Defined.

(** ** Iterations *)

(** An iteration that is entered again starts with the last element: its item, whose
    counter a finished iteration leaves at -1, reads the array at the counter, and
    Python counts from the end; a new one (counter 0) starts with the first. *)
Theorem iteration_first_item `{CanvasEnv} cid c o pid p ref l x w :
  (∀ n, cv_canceled n = false) → component_of c cid = Some o →
  parent_of c o = Ok (pid, p) → param "items_ref" p = PStr ref → get_variable_value c ref = Ok (PList l) →
  m_state w = c →
  (cp_idx o = -1)%Z ∧ last l = Some x ∨ cp_idx o = 0%Z ∧ head l = Some x →
  ∃ o' w', IterationItem_invoke cid w = (Ok (), w') ∧ component_of (m_state w') cid = Some o' ∧
    output o' "item" = x ∧ output o' "index" = PInt (cp_idx o) ∧ cp_idx o' = (cp_idx o + 1)%Z.
Proof.
  intros Hnc Ho Hp Href Hl Hw Hx. unfold IterationItem_invoke. rewrite goes_on by done.
  rewrite (act_ok _ _ _ o (tick w)) by (rewrite self_run; unfold get_component_obj; cbn; by rewrite Hw, Ho).
  act_goal. cbn [m_state tick]. rewrite Hw, Hp. act_goal. cbv iota beta. rewrite Href. act_goal.
  rewrite (act_ok _ _ _ (PList l) (tick w)) by (unfold variable, gets, ofres, mbind, Act_bind; cbn; by rewrite Hw, Hl).
  assert (cp_idx o = -1 ∨ cp_idx o = 0)%Z as Hidx by (destruct Hx as [[-> _]|[-> _]]; auto).
  rewrite (decide_False (P := (0 < cp_idx o)%Z)) by lia. act_goal. cbv iota.
  assert (l ≠ [] ∧ (cp_idx o < Z.of_nat (length l))%Z) as [Hne Hlt] by (destruct Hx as [[-> Hx]|[-> Hx]]; destruct l; try done; cbn; lia).
  rewrite (decide_False (P := (Z.of_nat (length l) <= cp_idx o)%Z)) by lia. rewrite goes_on by done.
  assert ((if decide ((if decide (cp_idx o < 0)%Z then cp_idx o + Z.of_nat (length l) else cp_idx o) < 0)%Z then None
           else l !! Z.to_nat (if decide (cp_idx o < 0)%Z then cp_idx o + Z.of_nat (length l) else cp_idx o)) = Some x) as Hi.
  { destruct Hx as [[-> Hx]|[-> Hx]].
    - rewrite decide_False by (rewrite decide_True by lia; destruct l; [done|cbn; lia]). rewrite decide_True by lia.
      rewrite last_lookup in Hx. rewrite <-Hx. f_equal. destruct l; [done|cbn; lia].
    - rewrite decide_False by (rewrite decide_False by lia; lia). rewrite decide_False by lia. by destruct l. }
  cbv zeta. rewrite (act_ok _ _ _ x (tick (tick w))) by (unfold ofres; by rewrite Hi).
  eexists _, _. split; [reflexivity|]. cbn [m_state set_state tick]. unfold update_cpn. rewrite Hw, Ho, component_put, decide_True by done.
  split; [reflexivity|]. change (output (set_idx ?z ?a) ?k) with (output a k). rewrite !output_set. done.
Qed.

(** An iteration over two texts, before its first round and after it is over *)
Example iteration_first_item_witness :
  (∃ o' w', IterationItem_invoke "IterationItem:J" (fresh (demo_iteration (-1))) = (Ok (), w') ∧
     component_of (m_state w') "IterationItem:J" = Some o' ∧ output o' "item" = PStr "b" ∧
     output o' "index" = PInt (-1) ∧ cp_idx o' = 0%Z) ∧
  (∃ o' w', IterationItem_invoke "IterationItem:J" (fresh (demo_iteration 0)) = (Ok (), w') ∧
     component_of (m_state w') "IterationItem:J" = Some o' ∧ output o' "item" = PStr "a" ∧
     output o' "index" = PInt 0 ∧ cp_idx o' = 1%Z).
Proof.
  split.
  - apply (iteration_first_item "IterationItem:J" (demo_iteration (-1)) (demo_item (-1)) "Iteration:I" demo_parent
      "begin@items" [PStr "a"; PStr "b"]); try reflexivity. by left.
  - apply (iteration_first_item "IterationItem:J" (demo_iteration 0) (demo_item 0) "Iteration:I" demo_parent
      "begin@items" [PStr "a"; PStr "b"]); try reflexivity. by right.
Defined.

(** ** Lists without duplicates *)

(** The keys of two elements are the same *)
Definition duplicates (x y : pyv) : bool := py_eq (_hashable x) (_hashable y).

(** [drop_duplicates] keeps the first of equal elements: its result is a
    subsequence of the list, no element of it equals an earlier one, and every element
    of the list is kept or equals one that was. *)
Theorem drop_duplicates_spec l :
  sublist (drop_duplicates [] l) l ∧
  (∀ (i j : nat) x y, (i < j)%nat → drop_duplicates [] l !! i = Some x → drop_duplicates [] l !! j = Some y → duplicates y x = false) ∧
  ∀ x, x ∈ l → x ∈ drop_duplicates [] l ∨ ∃ y, y ∈ drop_duplicates [] l ∧ duplicates x y = true.
Proof.
  assert (∀ seen, sublist (drop_duplicates seen l) l ∧
    (∀ j y, drop_duplicates seen l !! j = Some y → existsb (py_eq (_hashable y)) seen = false) ∧
    (∀ (i j : nat) x y, (i < j)%nat → drop_duplicates seen l !! i = Some x → drop_duplicates seen l !! j = Some y → duplicates y x = false) ∧
    ∀ x, x ∈ l → x ∈ drop_duplicates seen l ∨ (∃ y, y ∈ drop_duplicates seen l ∧ duplicates x y = true)
                 ∨ existsb (py_eq (_hashable x)) seen = true) as Hall.
  { induction l as [|x l IH]; intros seen; cbn [drop_duplicates].
    { split; [constructor|]. split; [by intros j|]. split; [by intros i j|]. intros x Hx. by inversion Hx. }
    destruct (existsb (py_eq (_hashable x)) seen) eqn:Hseen.
    - destruct (IH seen) as (H1 & H2 & H3 & H4). split; [by constructor|]. split; [done|]. split; [done|].
      intros y [->|Hy]%elem_of_cons; [by right; right|by apply H4].
    - destruct (IH (seen ++ [_hashable x])) as (H1 & H2 & H3 & H4).
      assert (∀ j y, drop_duplicates (seen ++ [_hashable x]) l !! j = Some y →
        existsb (py_eq (_hashable y)) seen = false ∧ duplicates y x = false) as Hnew.
      { intros j y Hj. specialize (H2 _ _ Hj). rewrite existsb_app in H2. apply orb_false_iff in H2 as [H2 H5].
        split; [done|]. cbn in H5. by rewrite orb_false_r in H5. }
      split; [by constructor|]. split.
      { intros [|j] y Hj; [by injection Hj as <-|]. by eapply Hnew. }
      split.
      { intros [|i] [|j] y z Hij Hi Hj; try lia; [injection Hi as <-; by eapply Hnew|].
        apply (H3 i j); [lia|done|done]. }
      intros y [->|Hy]%elem_of_cons; [left; by left|].
      destruct (H4 y Hy) as [Hin|[(z & Hz & Hd)|Hs]]; [left; by right|right; left; exists z; split; [by right|done]|].
      rewrite existsb_app in Hs. apply orb_true_iff in Hs as [Hs|Hs]; [by right; right|].
      cbn in Hs. rewrite orb_false_r in Hs. right. left. exists x. split; [by left|done]. }
  destruct (Hall []) as (H1 & _ & H3 & H4). split; [done|]. split; [done|].
  intros x Hx. destruct (H4 x Hx) as [|[|]]; [by left|by right|done].
Qed.
