(* ===== verification/FlowRun.v ===== *)
(** The assistant's graph on the canvas: what the walk can reach, whatever the agents
    answer. *)
From S2P Require Import Prelude Float PyText Json Dsl Effects Comp Refs PyNum PyOps Migration Canvas LlmStream Components.
From S2P Require Import CanvasLoad CanvasRun CanvasSteps CanvasRefine CanvasWalk CanvasTable CanvasProps Flow FlowProps.

Section flow.
Context `{CanvasEnv}.

(** A loaded component, before its checks *)
Definition unchecked (custom_header : pyv) (kv : string * pyv) : res (string * Cpn) :=
  obj ← item "obj" kv.2;
  name ← (v ← item "component_name" obj; as_str v);
  conf ← (v ← item "params" obj; as_fields v);
  match class_params name with
  | None => Err exn_type
  | Some (p, i, out) =>
      down ← (v ← item "downstream" kv.2; as_strs v);
      up ← (v ← item "upstream" kv.2; as_strs v);
      parent ← get_item "parent_id" PNone kv.2;
      o ← update_params (dict_set "custom_header" custom_header conf)
        {| cp_component_name := name; cp_param := p; cp_inputs := i; cp_outputs := out; cp_idx := 0;
           cp_downstream := down; cp_upstream := up;
           cp_parent_id := match parent with PStr s => Some s | _ => None end |};
      Ok (kv.1, o)
  end.

Lemma load_unchecked nodes hdr kv ko : load_component nodes hdr kv = Ok ko → unchecked hdr kv = Ok ko.
Proof.
  unfold load_component, unchecked, mbind, res_bind. repeat case_match; naive_solver.
Qed.

Lemma load_all_unchecked nodes hdr l l' :
  res_mapM (load_component nodes hdr) l = Ok l' → res_mapM (unchecked hdr) l = Ok l'.
Proof.
  revert l'. induction l as [|kv l IH]; intros l'; cbn [res_mapM]; [done|].
  destruct (load_component nodes hdr kv) as [ko|] eqn:Hko; [|done]. apply load_unchecked in Hko. rewrite Hko.
  destruct (res_mapM _ l) as [kos|]; [|done]. by rewrite (IH kos).
Qed.

(** A member of the graph *)
Definition flow_item (k : string) (llm : string) (kbs : list string) : res pyv :=
  match of_json (build_qms_3core_dsl llm kbs) with PDict d => item k (PDict d) | _ => Err exn_type end.
Definition flow_entries (llm : string) (kbs : list string) : list (string * pyv) :=
  match flow_item "components" llm kbs with Ok (PDict l) => l | _ => [] end.

Definition flow_table : table := Eval vm_compute in table_of (cleared demo_flow).

(** What is known of the loaded components *)
Definition flow_like (comps : list (string * Cpn)) : Prop :=
  let comps := (λ kv, (kv.1, reset true kv.2)) <$> comps in
  (λ kv, (kv.1, node_of kv.2)) <$> comps = flow_table ∧
  forallb (λ kv, flat_cpn kv.2 && assign_safeb kv.2 && negb (is_kind "userfillup" kv.2)) comps = true.

Lemma flow_unchecked llm kbs hdr :
  ∃ comps, res_mapM (unchecked hdr) (flow_entries llm kbs) = Ok comps ∧ flow_like comps.
Proof. eexists. split; [vm_compute; reflexivity|]. split; vm_compute; reflexivity. Qed.

Lemma res_bind_Ok {X Y} (r : res X) (f : X → res Y) y : r ≫= f = Ok y → ∃ x, r = Ok x ∧ f x = Ok y.
Proof. destruct r as [x|e]; [by exists x|done]. Qed.

Lemma as_fields_Ok v d : as_fields v = Ok d → v = PDict d.
Proof. destruct v; try done. by intros [= ->]. Qed.

Lemma flow_no_path llm kbs : flow_item "path" llm kbs = Ok (PList []).
Proof. vm_compute. reflexivity. Qed.

Lemma flow_loaded now dsl j llm kbs tenant task hdr c :
  json_loads dsl = Some j → normalize_chunker_dsl j = Ok (build_qms_3core_dsl llm kbs) →
  load now dsl tenant task hdr = Ok c →
  flow_like (cv_components c) ∧ cv_path c = [].
Proof.
  intros Hj Hn. unfold load. rewrite Hj. cbn [mbind res_bind]. rewrite Hn. cbn [mbind res_bind].
  intros (d & Hd & Hl)%res_bind_Ok. cbv zeta in Hl.
  apply res_bind_Ok in Hl as (entries & He & Hl). apply res_bind_Ok in Hl as (comps & Hc & Hl).
  apply res_bind_Ok in Hl as (path & Hp & Hl). apply res_bind_Ok in Hl as (history & _ & Hl).
  apply res_bind_Ok in Hl as (globals & _ & Hl). apply res_bind_Ok in Hl as (variables & _ & Hl).
  apply res_bind_Ok in Hl as (retrieval & _ & [= <-]). cbn [cv_components cv_path].
  apply as_fields_Ok in Hd.
  assert (∀ k, flow_item k llm kbs = item k (PDict d)) as Hitem by (intros k; unfold flow_item; by rewrite Hd).
  apply res_bind_Ok in He as (v & Hv & ->%as_fields_Ok).
  assert (flow_entries llm kbs = entries) as <- by (unfold flow_entries; by rewrite Hitem, Hv).
  apply load_all_unchecked in Hc. destruct (flow_unchecked llm kbs hdr) as (comps' & Hc' & Hlike).
  rewrite Hc in Hc'. injection Hc' as <-. split; [done|].
  apply res_bind_Ok in Hp as (v' & Hv' & Hp). rewrite <-Hitem, flow_no_path in Hv'. injection Hv' as <-.
  by injection Hp as <-.
Qed.

(** ** What the walk reaches *)

(** Every state of the walk that starts at [Begin] *)
Definition flow_states : list (phase * list string) :=
  explore 200 flow_table [walk_start ["begin"]] [walk_start ["begin"]].

(** The components of the branches from the integration on *)
Definition answering : list string :=
  b ← ["process"; "learning"; "precheck"];
  ["agent:integrate_" +:+ b; "agent:format_" +:+ b; "eval:" +:+ b; "switch:need_improve_" +:+ b;
   "assign:final_eval_" +:+ b; "agent:reflect_" +:+ b; "agent:rule_" +:+ b; "agent:memory_update_" +:+ b;
   "assign:final_update_" +:+ b; "msg:" +:+ b].

Definition unanswered (s : phase * list string) : bool :=
  forallb (λ id, negb (bool_decide (id ∈ answering))) (take (settled s.1) s.2).

Lemma flow_states_closed : closed flow_table flow_states = true.
Proof. vm_compute. reflexivity. Qed.
Lemma flow_states_start : walk_start ["begin"] ∈ flow_states.
Proof. decided. Qed.
Lemma flow_states_unanswered : forallb unanswered flow_states = true.
Proof. vm_compute. reflexivity. Qed.

#[local] Opaque flow_states flow_table.

Lemma flow_reaches c ph p :
  flow_like (cv_components c) → rtc (mstep (cleared c)) (walk_start ["begin"]) (ph, p) → unanswered (ph, p) = true.
Proof.
  intros [Ht Hall] Hr. pose proof flow_states_unanswered as Hu. rewrite forallb_forall in Hu.
  apply (Hu (ph, p)). apply (proj1 (list_elem_of_In _ _)). eapply (closed_reached (cleared c)); [| | |exact Hr].
  - unfold flat, cleared. cbn [cv_components set_components]. rewrite forallb_forall in Hall |- *.
    intros kv Hin. specialize (Hall kv Hin). rewrite !andb_true_iff in Hall. apply Hall.
  - assert (table_of (cleared c) = flow_table) as -> by exact Ht. exact flow_states_closed.
  - exact flow_states_start.
Qed.

End flow.

