(* ===== verification/Texts.v ===== *)
(** Texts as lists of code points: the methods of [str] and the functions of [re] that
    cutting documents into chunks uses. *)
From S2P Require Import Prelude PyText Regex Refs LlmStream.
Open Scope Z_scope.

Abbreviation text := (list N).

(** ** [str] *)

(** The characters [str.isspace] accepts, one code point each *)
Definition space_codes : list N := Eval vm_compute in concat (decode <$> ws_encodings).
Definition is_space (c : N) : bool := existsb (N.eqb c) space_codes.

Fixpoint lstrip_by (P : N → bool) (s : text) : text :=
  match s with c :: s' => if P c then lstrip_by P s' else s | [] => [] end.
Definition rstrip_by (P : N → bool) (s : text) : text := rev (lstrip_by P (rev s)).
Definition strip_by (P : N → bool) (s : text) : text := rstrip_by P (lstrip_by P s).

(** [s.strip()] *)
Definition strip (s : text) : text := strip_by is_space s.
(** [bool(s)], and [bool(s.strip())] *)
Definition full (s : text) : bool := bool_decide (s ≠ []).
Definition visible (s : text) : bool := full (strip s).

(** [p in s], or [s.find(p) >= 0] *)
Definition holds (s p : text) : bool := 0 <=? find s p.

(** [s.split(c)[0]] *)
Fixpoint head_at (c : N) (s : text) : text :=
  match s with [] => [] | d :: s' => if (d =? c)%N then [] else d :: head_at c s' end.

(** [s.split()]: the words between white space *)
Fixpoint words_go (word s : text) : list text :=
  let flush := if full word then [word] else [] in
  match s with
  | [] => flush
  | c :: s' => if is_space c then flush ++ words_go [] s' else words_go (word ++ [c]) s'
  end.
Definition words (s : text) : list text := words_go [] s.

(** [sep.join(l)] *)
Fixpoint join (sep : text) (l : list text) : text :=
  match l with [] => [] | [x] => x | x :: l' => x ++ sep ++ join sep l' end.

(** [sorted(l, key=len, reverse=True)]: stable *)
Definition longest_first (l : list text) : list text :=
  isort (λ a b, Nat.leb (length b) (length a)) l.

(** ** [re] *)

Definition of_text (t : text) : re := foldr (λ c r, Seq (Cls (N.eqb c)) r) Eps t.
(** ["|".join(re.escape(t) for t in ts)] *)
Definition any_of (ts : list text) : re := foldr (λ t r, Alt (of_text t) r) (Cls (λ _, false)) ts.

(** [re.match(r, s)], [re.search(r, s)] and [re.fullmatch(r, s)] as conditions *)
Definition re_match (r : re) (s : text) : bool := bool_decide (matches r None s ≠ []).
Definition re_search (r : re) (s : text) : bool := bool_decide (search r s ≠ None).
Definition re_fullmatch (r : re) (s : text) : bool := existsb (λ h, bool_decide (h.2 = [])) (matches r None s).

(** [re.split("(r)", s)]: the texts between the matches, each followed by its match,
    and the last one. The patterns here match no empty text. *)
Definition re_split (r : re) (s : text) : list (text * text) * text :=
  let '(l, tail) := finditer r s in ((λ m, (m.1.1, m.1.2)) <$> l, tail).

(** The list [re.split] returns *)
Definition split_list (r : re) (s : text) : list text :=
  let '(l, tail) := re_split r s in concat ((λ p, [p.1; p.2]) <$> l) ++ [tail].

(** [re.sub(r, t, s)] for a text [t] *)
Definition re_sub (r : re) (t s : text) : text :=
  let '(l, tail) := finditer r s in concat ((λ m, m.1.1 ++ t) <$> l) ++ tail.

(** ["`([^`]+)`"] *)
Definition quoted_patt : re :=
  Seq (Cls (N.eqb 96)) (Seq (Grp (Rep true 1 None (Cls (λ c, negb (c =? 96)%N)))) (Cls (N.eqb 96))).

(** [[m.group(1) for m in re.finditer(r"`([^`]+)`", delimiter)]] *)
Definition quoted (delimiter : text) : list text := (λ m, m.2) <$> (finditer quoted_patt delimiter).1.

(** The delimiters in backticks, the longest first. Two different ones of the same
    length match at no common place, so their order is of no importance. *)
Definition custom_delimiters (delimiter : text) : list text :=
  longest_first (dict_fromkeys (quoted delimiter)).

(** [RAGFlowPdfParser.remove_tag]: the position tags of the PDF parser *)
Definition tag_char (c : N) : bool := (c =? 9)%N || range 48 57 c || (c =? 46)%N || (c =? 45)%N.
Definition remove_tag (s : text) : text :=
  re_sub (Seq (lit "@@") (Seq (Rep false 1 None (Cls tag_char)) (lit "##"))) [] s.

(** ** What splitting keeps *)

Lemma before_suffix s x t : s = x ++ t → before s t = x.
Proof. intros ->. apply before_app. Qed.

(** The pieces and the matches put together are the text. *)
Lemma finditer_text r s :
  concat ((λ m, m.1.1 ++ m.1.2) <$> (finditer r s).1) ++ (finditer r s).2 = s.
Proof.
  unfold finditer. generalize (length s) as fuel. intros fuel. revert s.
  induction fuel as [|fuel IH]; intros s; [done|]. cbn [finditer_go].
  destruct (search r s) as [[s1 [g rest]]|] eqn:Hs; [|done].
  apply search_Some in Hs as (x & -> & Hm). apply match_at_lang in Hm as (w & -> & _).
  case_decide as Hlen; [|done]. specialize (IH rest). destruct (finditer_go fuel r rest) as [l tail].
  simpl in *. rewrite (before_suffix (x ++ w ++ rest) x (w ++ rest)), (before_suffix (w ++ rest) w rest) by done.
  rewrite <-!app_assoc. do 2 f_equal. exact IH.
Qed.

Lemma re_split_text r s : concat ((λ p, p.1 ++ p.2) <$> (re_split r s).1) ++ (re_split r s).2 = s.
Proof.
  pose proof (finditer_text r s) as H. unfold re_split. destruct (finditer r s) as [l tail]. simpl in *.
  by rewrite <-list_fmap_compose.
Qed.

Lemma split_list_text r s : concat (split_list r s) = s.
Proof.
  etrans; [|apply (re_split_text r s)]. unfold split_list. destruct (re_split r s) as [l tail]. simpl.
  rewrite concat_app. simpl. rewrite app_nil_r. f_equal.
  induction l as [|[a b] l IH]; [done|]. rewrite !fmap_cons. simpl. by rewrite IH, <-app_assoc.
Qed.

Lemma holds_nil s : holds s [] = true.
Proof. unfold holds, find. by destruct s. Qed.

Example texts_ex :
  (strip (codes " a b "), words (codes " ab  c "), head_at 64 (codes "x@@1"),
   split_list (any_of [codes "--"; codes "-"]) (codes "a--b-c"),
   custom_delimiters (codes "`#`;`##`;`#`"), remove_tag (codes "a@@1	2.0##b"))
  = (codes "a b", [codes "ab"; codes "c"], codes "x",
     [codes "a"; codes "--"; codes "b"; codes "-"; codes "c"],
     [codes "##"; codes "#"], codes "ab").
Proof. vm_compute. reflexivity. Qed.
