(* ===== verification/Chunks.v ===== *)
(** Merging the sections of a document into chunks (rag/nlp/__init__.py): [naive_merge]
    and its variants for images and for Word documents, and delimiters.

    Tokens are counted by tiktoken, which is the class [Tokens]; an exception of it
    counts as no token. Images are of any type: a section without one, or with one that
    is empty, has [None]. Pasting two images together is a parameter. *)
From S2P Require Import Prelude Float PyText Json Dsl Effects Comp Regex PyNum PyOps Refs LlmStream Texts.
Open Scope Z_scope.

Class Tokens := { num_tokens : text → nat }.

Section chunks.
Context `{Tokens}.
Definition num_tokens_from_string (s : text) : Z := Z.of_nat (num_tokens s).
Definition len {A} (l : list A) : Z := Z.of_nat (length l).

(** ** The threshold of a chunk and the overlap of two *)

(** [n * (100 - overlapped_percent) / 100.] *)
Definition share (n overlapped_percent : Z) : res double :=
  x ← int_to_double (n * (100 - overlapped_percent)); Ok (fdiv x (double_of_Z 100)).

(** [tk > chunk_token_num * (100 - overlapped_percent) / 100.] *)
Definition exceeds (tk chunk_token_num overlapped_percent : Z) : res bool :=
  x ← share chunk_token_num overlapped_percent;
  Ok (match num_compare (NInt tk) (NFlt x) with Some Gt => true | _ => false end).

(** [s[int(len(s) * (100 - overlapped_percent) / 100.):]] *)
Definition overlap (s : text) (overlapped_percent : Z) : res text :=
  x ← share (len s) overlapped_percent;
  match float_int x with
  | Some k => Ok (slice_from s k)
  | None => Err (OtherError "cannot convert float to integer")
  end.

(** ** [naive_merge] *)

(** The chunks [cks] are [mg_closed] and then [mg_cur], with [mg_tk] tokens booked. *)
Record Merge := { mg_closed : list text; mg_cur : text; mg_tk : Z }.
Definition merge_start : Merge := {| mg_closed := []; mg_cur := []; mg_tk := 0 |}.

(** [t + pos], unless [pos] is in [s] *)
Definition with_pos (s t pos : text) : text := if holds s pos then t else t ++ pos.
(** A short text has no position. *)
Definition kept_pos (tnum : Z) (pos : text) : text := if tnum <? 8 then [] else pos.

(** [cks[-1] == "" or tk_nums[-1] > ...] *)
Definition starts_new (cur : text) (tk chunk_token_num overlapped_percent : Z) : res bool :=
  if full cur then exceeds tk chunk_token_num overlapped_percent else Ok true.

Definition add_chunk (chunk_token_num overlapped_percent : Z) (m : Merge) (t pos : text) : res Merge :=
  let tnum := num_tokens_from_string t in
  let pos := kept_pos tnum pos in
  new ← starts_new (mg_cur m) (mg_tk m) chunk_token_num overlapped_percent;
  if new : bool then
    o ← overlap (remove_tag (mg_cur m)) overlapped_percent;
    let t := o ++ t in
    Ok {| mg_closed := mg_closed m ++ [mg_cur m]; mg_cur := with_pos t t pos; mg_tk := tnum |}
  else
    Ok {| mg_closed := mg_closed m; mg_cur := mg_cur m ++ with_pos (mg_cur m) t pos;
          mg_tk := mg_tk m + tnum |}.

(** A document: one text, texts, or texts with positions *)
Inductive Sections := OneText (s : text) | Plain (l : list text) | Tagged (l : list (text * text)).
Definition tagged (s : Sections) : list (text * text) :=
  match s with
  | OneText s => if full s then [(s, [])] else []
  | Plain l => (λ s, (s, [])) <$> l
  | Tagged l => l
  end.

Definition newline : text := [10%N].

(** The segments between custom delimiters; a delimiter itself is dropped. *)
Definition segments (ds : list text) (sec : text) : list text :=
  filter (λ sub, re_fullmatch (any_of ds) sub = false) (split_list (any_of ds) sec).

(** A segment with its position *)
Definition segment_chunk (pos sub : text) : text :=
  let t := newline ++ sub in
  let pos := kept_pos (num_tokens_from_string t) pos in
  if full pos then with_pos t t pos else t.

Definition naive_merge (sections : Sections) (chunk_token_num : Z) (delimiter : text)
    (overlapped_percent : Z) : res (list text) :=
  let secs := tagged sections in
  if decide (secs = []) then Ok [] else
  let ds := custom_delimiters delimiter in
  if decide (ds = []) then
    m ← foldl (λ m sec, m ← m; add_chunk chunk_token_num overlapped_percent m (newline ++ sec.1) sec.2)
          (Ok merge_start) secs;
    Ok (mg_closed m ++ [mg_cur m])
  else Ok (concat ((λ sec, segment_chunk sec.2 <$> segments ds sec.1) <$> secs)).

(** ** [naive_merge_with_images] *)

Section images.
Context {Img : Type} (concat_img : option Img → option Img → option Img).

Record ImgMerge := { im_merge : Merge; im_closed : list (option Img); im_cur : option Img }.

(** The image goes with the text: a new chunk has it, an open chunk gets it pasted. *)
Definition add_image_chunk (chunk_token_num overlapped_percent : Z) (m : ImgMerge)
    (t : text) (image : option Img) (pos : text) : res ImgMerge :=
  new ← starts_new (mg_cur (im_merge m)) (mg_tk (im_merge m)) chunk_token_num overlapped_percent;
  m' ← add_chunk chunk_token_num overlapped_percent (im_merge m) t pos;
  if new : bool then
    Ok {| im_merge := m'; im_closed := im_closed m ++ [im_cur m]; im_cur := image |}
  else
    Ok {| im_merge := m'; im_closed := im_closed m;
          im_cur := match im_cur m with None => image | Some i => concat_img (Some i) image end |}.

(** A text may be missing; it has a position when it comes in a pair. *)
Definition naive_merge_with_images (texts : list (option text * text)) (images : list (option Img))
    (chunk_token_num : Z) (delimiter : text) (overlapped_percent : Z)
    : res (list text * list (option Img)) :=
  if decide (texts = []) then Ok ([], [])
  else if decide (length texts ≠ length images) then Ok ([], []) else
  let ds := custom_delimiters delimiter in
  let pairs := zip ((λ t, (default [] t.1, t.2)) <$> texts) images in
  if decide (ds = []) then
    m ← foldl (λ m p, m ← m; add_image_chunk chunk_token_num overlapped_percent m (newline ++ p.1.1) p.2 p.1.2)
          (Ok {| im_merge := merge_start; im_closed := []; im_cur := None |}) pairs;
    Ok (mg_closed (im_merge m) ++ [mg_cur (im_merge m)], im_closed m ++ [im_cur m])
  else
    let cks := concat ((λ p, (λ sub, (segment_chunk p.1.2 sub, p.2)) <$> segments ds p.1.1) <$> pairs) in
    Ok (cks.*1, cks.*2).

(** ** [naive_merge_docx] *)

Inductive CkType := CkText | CkTable | CkImage.
#[export] Instance CkType_eq_dec : EqDecision CkType.
Proof. solve_decision. Defined.

Record Ck := {
  ck_text : text; ck_image : option Img; ck_type : CkType; ck_tk_nums : Z;
  ck_context_above : text; ck_context_below : text }.   (* empty when they are not set *)

Definition ck_of (ty : CkType) (image : option Img) (t : text) : Ck :=
  {| ck_text := t; ck_image := image; ck_type := ty; ck_tk_nums := num_tokens_from_string t;
     ck_context_above := []; ck_context_below := [] |}.

(** A section of a Word document: its text, image and table *)
Record DocxSection := { dx_text : option text; dx_image : option Img; dx_table : option text }.

(** The state of [_build_cks]: the chunks and the text since the last delimiter *)
Definition flushed (cks : list Ck) (seg : text) : list Ck :=
  if visible seg then cks ++ [ck_of CkText None (strip seg)] else cks.

(** One piece of a text that is split at custom delimiters *)
Definition add_piece (ds : list text) (st : list Ck * text) (sub : text) : list Ck * text :=
  if negb (visible sub) || re_fullmatch (any_of ds) (strip sub) then (flushed st.1 st.2, [])
  else (st.1, st.2 ++ sub).

Definition build_section (ds : list text) (st : list Ck * text) (sec : DocxSection) : list Ck * text :=
  let t := default [] (dx_text sec) in
  let t := if full t then newline ++ t else [] in
  let table := default [] (dx_table sec) in
  if full table then (st.1 ++ [ck_of CkTable (dx_image sec) (t ++ table)], st.2)
  else match dx_image sec with
  | Some image => (st.1 ++ [ck_of CkImage (Some image) t], st.2)
  | None =>
      if decide (ds = []) then (flushed st.1 t, st.2)
      else foldl (add_piece ds) st (split_list (any_of ds) t)
  end.

Definition _build_cks (sections : list DocxSection) (delimiter : text) : list Ck :=
  let ds := custom_delimiters delimiter in
  let '(cks, seg) := foldl (build_section ds) ([], []) sections in
  if decide (ds = []) then cks else flushed cks seg.

(** [tables] and [images]: the indices of the chunks of a type *)
Definition indices (ty : CkType) (cks : list Ck) : list nat :=
  (filter (λ p : nat * Ck, ck_type p.2 = ty) (imap pair cks)).*1.

(** The sentences of a text, with what ends them *)
Definition sentence_patt : re := Alt (Cls (one_of ("。!?？；！" +:+ String "010" ""))) (lit ". ").
Definition sentences (t : text) : list text :=
  let '(l, tail) := re_split sentence_patt t in ((λ p, p.1 ++ p.2) <$> l) ++ [tail].

(** Sentences are put together by [add] until [need] tokens are reached. *)
Fixpoint gather (add : text → text → text) (need : Z) (acc : text) (sents : list text) : text :=
  match sents with
  | [] => acc
  | s :: sents =>
      let acc := add acc s in
      if need <=? num_tokens_from_string acc then acc else gather add need acc sents
  end.
Definition take_sentences_from_end (t : text) (need : Z) : text :=
  gather (λ acc s, s ++ acc) need [] (rev (sentences t)).
Definition take_sentences_from_start (t : text) (need : Z) : text :=
  gather (λ acc s, acc ++ s) need [] (sentences t).

(** What the texts next to a chunk give, the nearest first: whole texts, and of the one
    that is too long the part [piece] takes *)
Fixpoint picked (piece : text → Z → text) (remain : Z) (cks : list Ck) : list text :=
  match cks with
  | [] => []
  | c :: cks =>
      if remain <=? 0 then []
      else if decide (ck_type c = CkText) then
        if remain <=? ck_tk_nums c then [piece (ck_text c) remain]
        else ck_text c :: picked piece (remain - ck_tk_nums c) cks
      else picked piece remain cks
  end.

Definition _add_context (size : Z) (cks : list Ck) (idx : nat) : list Ck :=
  match cks !! idx with
  | Some c =>
      if decide (ck_type c = CkText) then cks else
      <[idx := {| ck_text := ck_text c; ck_image := ck_image c; ck_type := ck_type c;
                  ck_tk_nums := ck_tk_nums c;
                  ck_context_above := concat (rev (picked take_sentences_from_end size (rev (take idx cks))));
                  ck_context_below := concat (picked take_sentences_from_start size (drop (S idx) cks)) |}]> cks
  | None => cks
  end.

(** [merged[prev]] with the text of [c] behind its own *)
Definition joined (c c' : Ck) : Ck :=
  {| ck_text := ck_text c ++ ck_text c'; ck_image := ck_image c; ck_type := ck_type c;
     ck_tk_nums := ck_tk_nums c + ck_tk_nums c';
     ck_context_above := ck_context_above c; ck_context_below := ck_context_below c |}.

(** The state of [_merge_cks]: [merged], [image_idxs] and [prev_text_ck] *)
Definition Merging : Type := list Ck * list nat * option nat.
Definition merge_ck (chunk_token_num : Z) (has_custom : bool) (st : Merging) (c : Ck) : Merging :=
  let '(merged, image_idxs, prev) := st in
  match ck_type c with
  | CkText =>
      let open j := match merged !! j with Some p => ck_tk_nums p <? chunk_token_num | None => false end in
      match prev with
      | Some j =>
          if open j && negb has_custom then (alter (λ p, joined p c) j merged, image_idxs, prev)
          else (merged ++ [c], image_idxs, Some (length merged))
      | None => (merged ++ [c], image_idxs, Some (length merged))
      end
  | CkImage => (merged ++ [c], image_idxs ++ [length merged], prev)
  | CkTable => (merged ++ [c], image_idxs, prev)
  end.

Definition _merge_cks (cks : list Ck) (chunk_token_num : Z) (has_custom : bool) : list Ck * list nat :=
  (foldl (merge_ck chunk_token_num has_custom) ([], [], None) cks).1.

Definition naive_merge_docx (sections : list DocxSection) (chunk_token_num : Z) (delimiter : text)
    (table_context_size image_context_size : Z) : list Ck * list nat :=
  let cks := _build_cks sections delimiter in
  let with_context size ty cks' := if 0 <? size then foldl (_add_context size) cks' (indices ty cks) else cks' in
  let cks' := with_context image_context_size CkImage (with_context table_context_size CkTable cks) in
  _merge_cks cks' chunk_token_num (bool_decide (custom_delimiters delimiter ≠ [])).
End images.

(** ** Delimiters *)

(** [re.escape] *)
Definition re_special : text := codes "()[]{}?*+-|^$\.&~# " ++ [9; 10; 13; 11; 12]%N.
Definition re_escape (t : text) : text := t ≫= λ c, if existsb (N.eqb c) re_special then [92; c]%N else [c].

Definition singles (t : text) : list text := (λ c, [c]) <$> t.

(** The delimiters of a text as one pattern: what is in backticks is one delimiter,
    every other character is one of its own. *)
Definition get_delimiters (delimiters : text) : text :=
  let '(l, tail) := finditer quoted_patt delimiters in
  let dels := concat ((λ m, m.2 :: singles m.1.1) <$> l) ++ singles tail in
  join (codes "|") (re_escape <$> filter (λ d, d ≠ []) (longest_first dels)).

(** [re.findall(re.escape(start) + "(.*?)" + re.escape(end), text, DOTALL)] *)
Definition extract_between (t start_tag end_tag : text) : list text :=
  findall_go (S (length t)) (Seq (of_text start_tag) (Seq (Grp (Rep false 0 None any)) (of_text end_tag))) t.
End chunks.
