(* ===== verification/Bullets.v ===== *)
(** The numbering of sections (rag/nlp/__init__.py): the patterns of headings and
    questions, which family of them a document uses, and what is no title.

    A section is a text with a layout, which names what the parser took it for. *)
From S2P Require Import Prelude Float PyText Json Regex PyNum Refs LlmStream Texts.
Open Scope Z_scope.

(** ** The patterns *)

Definition chars (s : string) : re := Cls (one_of s).
Definition digit09 : re := Cls (range 48 57).
Definition many1 (r : re) : re := Rep true 1 None r.
Definition at_most2 (r : re) : re := Rep true 0 (Some 2%nat) r.
Definition zh_digits : string := "零一二三四五六七八九十百".
Definition zh_or_digits : string := "零一二三四五六七八九十百0123456789".
Fixpoint seqs (rs : list re) : re := match rs with [] => Eps | r :: rs => Seq r (seqs rs) end.
Definition words_of (ws : list string) : re := foldr (λ w r, Alt (lit w) r) (Cls (λ _, false)) ws.
Definition numbers : list string := ["ONE"; "TWO"; "THREE"; "FOUR"; "FIVE"; "SIX"; "SEVEN"; "EIGHT"; "NINE"; "TEN"].
(** ["(I+V?|VI*|XI|IX|X)"] *)
Definition roman : re :=
  let i := Cls (N.eqb 73) in let v := Cls (N.eqb 86) in
  Alt (Seq (many1 i) (Rep true 0 (Some 1%nat) v))
    (Alt (Seq v (Rep true 0 None i)) (Alt (lit "XI") (Alt (lit "IX") (lit "X")))).
Definition hashes (n : nat) : re := seqs (replicate n (Cls (N.eqb 35))).
Definition not_hash : re := Cls (λ c, negb (c =? 35)%N).
Definition rest_of_line : re := Rep true 0 None dot.
Definition in_parens (r : re) : re := seqs [chars "(（"; r; chars ")）"].

Definition BULLET_PATTERN : list (list re) := [
  [ seqs [lit "第"; many1 (chars zh_or_digits); Alt (Seq (Rep true 0 (Some 1%nat) (lit "分")) (lit "编")) (lit "部分")];
    seqs [lit "第"; many1 (chars zh_or_digits); lit "章"];
    seqs [lit "第"; many1 (chars zh_or_digits); lit "节"];
    seqs [lit "第"; many1 (chars zh_or_digits); lit "条"];
    in_parens (many1 (chars zh_digits)) ];
  [ seqs [lit "第"; many1 digit09; lit "章"];
    seqs [lit "第"; many1 digit09; lit "节"];
    seqs [at_most2 digit09; chars ". 、"];
    seqs [at_most2 digit09; lit "."; at_most2 digit09;
          Cls (λ c, negb (range 97 122 c || range 65 90 c || one_of "/%~-" c))];
    seqs [at_most2 digit09; lit "."; at_most2 digit09; lit "."; at_most2 digit09];
    seqs [at_most2 digit09; lit "."; at_most2 digit09; lit "."; at_most2 digit09; lit "."; at_most2 digit09] ];
  [ seqs [lit "第"; many1 (chars zh_or_digits); lit "章"];
    seqs [lit "第"; many1 (chars zh_or_digits); lit "节"];
    seqs [many1 (chars zh_digits); chars " 、"];
    in_parens (many1 (chars zh_digits));
    in_parens (at_most2 digit09) ];
  [ Seq (lit "PART ") (words_of numbers);
    Seq (lit "Chapter ") roman;
    Seq (lit "Section ") (many1 digit09);
    Seq (lit "Article ") (many1 digit09) ];
  [ Seq (hashes 1) not_hash;
    Seq (hashes 2) not_hash;
    Seq (hashes 3) rest_of_line;
    Seq (hashes 4) rest_of_line;
    Seq (hashes 5) rest_of_line;
    Seq (hashes 6) rest_of_line ] ].

Definition QUESTION_PATTERN : list re := [
  seqs [lit "第"; Grp (many1 (chars zh_or_digits)); lit "问"];
  seqs [lit "第"; Grp (many1 (chars zh_or_digits)); lit "条"];
  in_parens (Grp (many1 (chars zh_digits)));
  seqs [lit "第"; Grp (many1 digit09); lit "问"];
  seqs [lit "第"; Grp (many1 digit09); lit "条"];
  seqs [Grp (Rep true 1 (Some 2%nat) digit09); chars ". 、"];
  seqs [Grp (many1 (chars zh_digits)); chars " 、"];
  in_parens (Grp (Rep true 1 (Some 2%nat) digit09));
  Seq (lit "QUESTION ") (Grp (words_of numbers));
  Seq (lit "QUESTION ") (Grp roman);
  Seq (lit "QUESTION ") (Grp (many1 digit09)) ].

(** ** Bullets *)

Definition not_bullet (line : text) : bool :=
  existsb (λ r, re_match r line)
    [ lit "0";
      seqs [many1 digit09; many1 (lit " "); Cls (λ c, range 48 57 c || one_of "~个只-" c)];
      seqs [many1 digit09; Rep true 2 None (lit ".")] ].

Definition is_bullet (p : re) (sec : text) : bool := re_match p sec && negb (not_bullet sec).

(** The first of the largest numbers above 0: [-1] when there is none *)
Definition best_of (hits : list Z) : Z :=
  (foldl (λ rm p, if p.2 <=? rm.2 then rm else p) (-1, 0) (imap (λ i h, (Z.of_nat i, h)) hits)).1.

(** A family gets a hit for every section that one of its patterns matches. *)
Definition bullets_category (sections : list text) : Z :=
  best_of ((λ pro, Z.of_nat (length (filter (λ sec, existsb (λ p, is_bullet p (strip sec)) pro = true) sections)))
    <$> BULLET_PATTERN).

(** A pattern of questions gets one hit, however many sections it matches. *)
Definition qbullets_category (sections : list text) : Z * option re :=
  let res := best_of ((λ pro, if existsb (is_bullet pro) sections then 1 else 0) <$> QUESTION_PATTERN) in
  (res, if decide (res < 0) then last QUESTION_PATTERN else QUESTION_PATTERN !! Z.to_nat res).

(** ** Languages *)

(** [is_english] of a list of texts: those that are one character of the class *)
Definition english_char (c : N) : bool :=
  range 97 122 c || range 65 90 c || range 48 57 c || is_space c || one_of "`.,':;/?<>!()-" c || (c =? 34)%N.
Definition is_english (texts : list text) : bool :=
  let texts := filter (λ t, visible t = true) texts in
  if decide (texts = []) then false else
  let eng := length (filter (λ t, re_fullmatch (Cls english_char) (strip t) = true) texts) in
  flt (lit_float "0.8") (Z_ratio (Z.of_nat eng) (Z.of_nat (length texts))).

(** [is_english] of one text: of its characters, also the white space *)
Definition is_english_text (t : text) : bool :=
  if decide (t = []) then false else
  let eng := length (filter (λ c, re_fullmatch (Cls english_char) (strip [c]) = true) t) in
  flt (lit_float "0.8") (Z_ratio (Z.of_nat eng) (Z.of_nat (length t))).

Definition is_chinese (t : text) : bool :=
  if decide (t = []) then false else
  flt (lit_float "0.2")
    (Z_ratio (Z.of_nat (length (filter (λ c, range 19968 40959 c = true) t))) (Z.of_nat (length t))).

(** ** Titles *)

Definition not_title (txt : text) : bool :=
  if re_match (seqs [lit "第"; many1 (chars zh_or_digits); lit "条"]) txt then false
  else if (12 <? Z.of_nat (length (words txt))) || ((find txt (codes " ") <? 0) && (32 <=? Z.of_nat (length txt))) then true
  else re_search (chars ",;，。；！!") txt.

(** [re.search(r"(title|head)", layout)] *)
Definition title_layout (layout : text) : bool := re_search (Alt (lit "title") (lit "head")) layout.

(** [BULLET_PATTERN[bull]] *)
Definition patterns_of (bull : Z) : option (list re) :=
  BULLET_PATTERN !! slice_pos BULLET_PATTERN bull.

(** The index of the first pattern for which [P] holds *)
Fixpoint first_index {A} (P : A → bool) (l : list A) : option nat :=
  match l with [] => None | x :: l => if P x then Some O else S <$> first_index P l end.

(** The levels of the sections by their patterns: [n] for a title without a number,
    [n + 1] for the others, where [n] is the number of patterns *)
Definition title_level (ps : list re) (sec : text * text) : nat :=
  match first_index (λ p, re_match p (strip sec.1) && negb (not_bullet sec.1)) ps with
  | Some j => j
  | None =>
      if title_layout sec.2 && negb (not_title (head_at 64 sec.1)) then length ps else S (length ps)
  end.

(** [sorted(Counter(levels).items(), key=lambda x: x[1] * -1)]: in the order of the first
    occurrence, the most frequent first *)
Definition by_frequency {A} `{EqDecision A} (levels : list A) : list A :=
  isort (λ a b, Nat.leb (length (filter (λ l, l = b) levels)) (length (filter (λ l, l = a) levels)))
    (dict_fromkeys levels).

(** The most frequent level of headings, and the level of every section *)
Definition title_frequency (bull : Z) (sections : list (text * text)) : option (nat * list nat) :=
  ps ← patterns_of bull;
  let n := length ps in
  Some (if decide (sections = []) then (S n, [])
        else if decide (bull < 0) then (S n, replicate (length sections) (S n))
        else
          let levels := title_level ps <$> sections in
          (default (S n) (fetchone (λ l, (l ≤ n)%nat) (by_frequency levels)), levels)).

(** [make_colon_as_title]: a section that ends with a colon behind a long separator
    gets a title of its own. *)
Definition colon_title (sec : text * text) : option text :=
  let txt := strip (head_at 64 sec.1) in
  match last txt with
  | Some c =>
      if negb (one_of ":：" c) then None else
      match split_list (Alt (chars "。？！!?;；") (lit " .")) (rev txt) with
      | first :: second :: _ => if (length second <? 32)%nat then None else Some (rev first)
      | _ => None
      end
  | None => None
  end.
Definition make_colon_as_title (sections : list (text * text)) : list (text * text) :=
  concat ((λ sec, match colon_title sec with Some t => [(t, codes "title"); sec] | None => [sec] end) <$> sections).
