(* ===== verification/Outline.v ===== *)
(** Merging the sections of a document by its headings (rag/nlp/__init__.py): the tree of
    [tree_merge] and the search for headings of [hierarchical_merge].

    The stack of [Node.build_tree] holds nodes that hang in the tree already and still
    grow. Here it holds the open nodes, and a node is hung under its parent when it is
    closed: its parent gets no other child in between. *)
From S2P Require Import Prelude Float PyText Json Dsl Effects Comp Regex PyNum PyOps Refs LlmStream Texts.
From S2P Require Import Chunks Bullets.
Open Scope Z_scope.

Definition exn_index : exn := OtherError "list index out of range".

(** [t and len(t.split("@")[0].strip()) > 1 and not re.match(r"[0-9]+$", ...)] *)
Definition worth_keeping (t : text) : bool :=
  let h := strip (head_at 64 t) in
  full t && (1 <? len h) && negb (re_fullmatch (many1 digit09) h).

(** ** The tree *)

(** The texts of a node are its lines; the title chunker builds the same trees of
    indexes. *)
Section tree.
Context {A : Type}.

Inductive Node := MkNode (level : Z) (texts : list A) (children : list Node).

(** An open node of the stack *)
Record Frame := { fr_level : Z; fr_texts : list A; fr_children : list Node }.
Definition node_of (f : Frame) : Node := MkNode (fr_level f) (fr_texts f) (fr_children f).
Definition add_child (f : Frame) (n : Node) : Frame :=
  {| fr_level := fr_level f; fr_texts := fr_texts f; fr_children := fr_children f ++ [n] |}.
Definition add_text (f : Frame) (t : A) : Frame :=
  {| fr_level := fr_level f; fr_texts := fr_texts f ++ [t]; fr_children := fr_children f |}.

(** [while len(stack) > 1 and level <= stack[-1].get_level(): stack.pop()]: the top of the
    stack and what is below it *)
Fixpoint climb (level : Z) (top : Frame) (below : list Frame) : Frame * list Frame :=
  match below with
  | [] => (top, [])
  | p :: below' =>
      if level <=? fr_level top then climb level (add_child p (node_of top)) below' else (top, below)
  end.

Definition add_line (depth : Z) (stack : Frame * list Frame) (line : Z * A) : Frame * list Frame :=
  let '(level, t) := line in
  let '(top, below) := stack in
  if negb (depth =? -1) && (depth <? level) then (add_text top t, below)
  else
    let '(top, below) := climb level top below in
    ({| fr_level := level; fr_texts := [t]; fr_children := [] |}, top :: below).

(** All open nodes are closed at the end. *)
Fixpoint close_all (top : Frame) (below : list Frame) : Node :=
  match below with [] => node_of top | p :: below' => close_all (add_child p (node_of top)) below' end.

Definition root_frame : Frame := {| fr_level := 0; fr_texts := []; fr_children := [] |}.

Definition build_tree (depth : Z) (lines : list (Z * A)) : Node :=
  let '(top, below) := foldl (add_line depth) (root_frame, []) lines in close_all top below.
End tree.
Arguments Node : clear implicits.
Arguments Frame : clear implicits.

Definition lines_text (l : list text) : text := join newline l.

(** [_dfs]: the chunks of a node under the titles of its ancestors *)
Fixpoint dfs (depth : Z) (titles : list text) (n : Node text) : list text :=
  let '(MkNode level texts child) := n in
  let within := (1 <=? level) && (level <=? depth) in
  let path := if within then titles ++ texts else titles in
  (if (level =? 0) && negb (bool_decide (texts = [])) then [lines_text (titles ++ texts)] else []) ++
  (if (depth <? level) && negb (bool_decide (texts = [])) then [lines_text (path ++ texts)]
   else if bool_decide (child = []) && within then [lines_text path] else []) ++
  concat (map (dfs depth path) child).

Definition get_tree (depth : Z) (root : Node text) : list text := dfs depth [] root.

(** ** [tree_merge] *)

(** The level of a section, from 1, and its text *)
Definition get_level (ps : list re) (sec : text * text) : Z * text :=
  let t := strip (re_sub (Cls (N.eqb 12288)) (codes " ") sec.1) in
  let n := len ps in
  (match first_index (λ p, re_match p (strip t)) ps with
   | Some i => Z.of_nat i + 1
   | None => if title_layout sec.2 && negb (not_title t) then n + 1 else n + 2
   end, t).

Definition outline (ps : list re) (secs : list (text * text)) : list (Z * text) :=
  filter (λ l, full (strip_by (N.eqb 10) l.2) = true) (get_level ps <$> filter (λ s, worth_keeping s.1 = true) secs).

Definition sorted_levels (lines : list (Z * text)) : list Z := isort Z.leb (dict_fromkeys lines.*1).

(** [l[i]] *)
Definition at_index {A} (l : list A) (i : Z) : res A :=
  let j := if i <? 0 then i + len l else i in
  if j <? 0 then Err exn_index else match l !! Z.to_nat j with Some x => Ok x | None => Err exn_index end.

(** The deepest level that is a title: the [depth]-th of the levels, but not the one of
    the body *)
Definition target_level (n : Z) (levels : list Z) (depth : Z) : res Z :=
  target ← at_index levels (if depth <=? len levels then depth - 1 else -1);
  if target =? n + 2 then at_index levels (if 1 <? len levels then -2 else 0) else Ok target.

Definition tree_merge (bull : Z) (sections : Sections) (depth : Z) : res Sections :=
  let secs := tagged sections in
  if decide (secs = []) then Ok sections else
  if bull <? 0 then Ok sections else
  match patterns_of bull with
  | None => Err exn_index
  | Some ps =>
      let lines := outline ps secs in
      target ← target_level (len ps) (sorted_levels lines) depth;
      Ok (Plain (filter (λ t, t ≠ []) (get_tree target (build_tree target lines))))
  end.

(** ** [hierarchical_merge] *)

(** The levels of the sections: an index for every pattern, then titles, then the rest *)
Definition section_level (ps : list re) (sec : text * text) : nat :=
  match first_index (λ p, re_match p (strip sec.1)) ps with
  | Some j => j
  | None => if title_layout sec.2 && negb (not_title sec.1) then length ps else S (length ps)
  end.

(** The indices of the sections of every level *)
Definition level_lists (ps : list re) (secs : list (text * text)) : list (list Z) :=
  (λ l : nat, (λ p : nat * nat, Z.of_nat p.1) <$> filter (λ p : nat * nat, p.2 = l) (imap pair (section_level ps <$> secs)))
    <$> seq 0 (length ps + 2).

Definition exn_assert : exn := OtherError "AssertionError".

(** [while e - s > 1: ...]: the interval is halved in every step. *)
Fixpoint bisect (fuel : nat) (arr : list Z) (target s e : Z) : res Z :=
  match fuel with
  | O => Ok s
  | S fuel =>
      if e - s <=? 1 then Ok s else
      let i := (e + s) / 2 in
      x ← at_index arr i;
      if x <? target then bisect fuel arr target i e
      else if target <? x then bisect fuel arr target s i
      else Err exn_assert
  end.

Definition binary_search (arr : list Z) (target : Z) : res Z :=
  match arr, last arr with
  | first :: _, Some final =>
      if final <? target then Ok (len arr - 1)
      else if target <? first then Ok (-1)
      else bisect (length arr) arr target 0 (len arr)
  | _, _ => Ok (-1)
  end.

(** The headings of a section [j] among those of the other levels: the last one replaces
    the one before it when it stands further behind *)
Fixpoint headings (ck : list Z) (j : Z) (levels : list (list Z)) : res (list Z) :=
  match levels with
  | [] => Ok ck
  | l :: levels =>
      jj ← binary_search l j;
      if jj <? 0 then headings ck j levels else
      x ← at_index l jj;
      final ← at_index ck (-1);
      headings ((if final <? x then take (length ck - 1) ck else ck) ++ [x]) j levels
  end.

(** The state: the indices that are read, and the chunks *)
Definition Chosen : Type := list Z * list (list Z).

(** [n] levels in all; [above] are the levels behind the [i]-th *)
Definition choose (n : nat) (i : nat) (above : list (list Z)) (st : Chosen) (j : Z) : res Chosen :=
  let '(readed, cks) := st in
  if decide (j ∈ readed) then Ok st
  else if decide (i + 1 = n - 1)%nat then Ok (j :: readed, cks ++ [[j]])
  else
    ck ← headings [j] j above;
    Ok (j :: ck ++ readed, cks ++ [ck]).

Fixpoint choose_levels (n : nat) (i : nat) (depth : nat) (levels : list (list Z)) (st : Chosen) : res Chosen :=
  match depth, levels with
  | S depth, arr :: above =>
      st ← foldl (λ st j, st ← st; choose n i above st j) (Ok st) arr;
      choose_levels n (S i) depth above st
  | _, _ => Ok st
  end.

Section pack.
Context `{Tokens}.

(** [num_tokens_from_string(re.sub(r"@@[0-9]+.*", "", t))] *)
Definition untagged_tokens (t : text) : Z :=
  num_tokens_from_string (re_sub (Seq (lit "@@") (Seq (many1 digit09) rest_of_line)) [] t).

(** Single sections are put together up to 218 tokens; the state is [res[:-1]], [res[-1]]
    and [num[-1]]. *)
Definition Packing : Type := list (list text) * list text * Z.
Definition pack (st : Packing) (ck : list text) : Packing :=
  let '(closed, cur, num) := st in
  match ck with
  | [t] =>
      let n := untagged_tokens t in
      if n + num <? 218 then (closed, cur ++ [t], num + n) else (closed ++ [cur], ck, n)
  | _ => (closed ++ [cur], ck, 218)
  end.

Definition hierarchical_merge (bull : Z) (sections : Sections) (depth : Z) : res (list (list text)) :=
  let secs := tagged sections in
  if decide (secs = []) then Ok [] else
  if bull <? 0 then Ok [] else
  match patterns_of bull with
  | None => Err exn_index
  | Some ps =>
      let secs := filter (λ s, worth_keeping s.1 = true) secs in
      let levels := rev (level_lists ps secs) in
      st ← choose_levels (length levels) 0 (slice_pos levels depth) levels ([], []);
      if decide (st.2 = []) then Ok [] else
      cks ← mapM (λ ck, mapM (at_index secs.*1) (rev ck)) st.2;
      let '(closed, cur, _) := foldl pack ([], [], 0) cks in
      Ok (closed ++ [cur])
  end.
End pack.
