(* ===== verification/PdfPositions.v ===== *)
(** The coordinates of chunks of PDF documents (rag/flow/parser/pdf_chunk_metadata.py):
    the shapes in which parsers give them, and the fields of the index.

    An item is a dict of Python values; a tuple is a list. *)
From S2P Require Import Prelude Float PyText Json Dsl Effects Comp Regex PyNum PyOps Refs LlmStream Texts Canvas.
Open Scope Z_scope.

Definition PDF_POSITIONS_KEY : string := "_pdf_positions".
Definition index_error : exn := OtherError "list index out of range".

(** The values that are there *)
Definition present {A} (l : list (option A)) : list A := omap (λ x, x) l.

(** [except (TypeError, ValueError)]: [None] when the value is of no use *)
Definition caught {A} (r : res A) : res (option A) :=
  match r with
  | Ok a => Ok (Some a)
  | Err (ValueError _) => Ok None
  | Err e => if decide (e = exn_type) then Ok None else Err e
  end.

(** [int(v)], where a nan is a [ValueError] and an infinity is none *)
Definition int_value (v : pyv) : res Z :=
  match v with
  | PFloat l =>
      match lit_float l with
      | S754_nan => Err (ValueError "cannot convert float NaN to integer")
      | x => match float_int x with Some z => Ok z | None => Err overflow end
      end
  | _ => py_int_of v
  end.

(** ** Position tags *)

(** [RAGFlowPdfParser.extract_positions]: the tags of a text, each as its pages, counted
    from 0, and four numbers *)
Definition position_tag_patt : re :=
  let number := Rep true 1 None (Cls (λ c, range 48 57 c || (c =? 45)%N)) in
  let numbers := Rep true 1 None (Cls (λ c, range 48 57 c || (c =? 46)%N || (c =? 9)%N)) in
  Seq (lit "@@") (Seq number (Seq (Cls (N.eqb 9)) (Seq numbers (lit "##")))).

Definition float_of_text (s : string) : res pyv := x ← py_float_of (PStr s); Ok (pfloat x).

Definition extract_tag (tag : string) : res (list Z * list pyv) :=
  match py_split "009" (py_strip_char "@" (py_strip_char "#" tag)) with
  | [pn; x0; x1; y0; y1] =>
      rect ← res_mapM float_of_text [x0; x1; y0; y1];
      pages ← res_mapM (λ p, z ← py_int_of (PStr p); Ok (z - 1)) (py_split "-" pn);
      Ok (pages, rect)
  | _ => Err (ValueError "not enough values to unpack (expected 5)")
  end.

Definition extract_positions (txt : string) : res (list (list Z * list pyv)) :=
  res_mapM extract_tag ((λ m, of_codes m.1.2) <$> (finditer position_tag_patt (codes txt)).1).

(** ** Positions of an item *)

Definition coordinates (v : pyv) : option (list pyv) :=
  match v with PList l => if (5 <=? length l)%nat then Some l else None | _ => None end.

Definition rect_keys : list string := ["x0"; "x1"; "top"; "bottom"].

Definition is_list (v : pyv) : option (list pyv) := match v with PList l => Some l | _ => None end.
Definition is_none (v : pyv) : bool := match v with PNone => true | _ => false end.
(** [isinstance(v, str) and v] *)
Definition is_tag (v : pyv) : option string := match v with PStr s => if truthy s then Some s else None | _ => None end.

Definition _extract_raw_positions (item : fields) : res (list pyv) :=
  let field k := get k PNone item in
  if is_list (field PDF_POSITIONS_KEY) is Some l then Ok l
  else if is_list (field "positions") is Some l then Ok l
  else if is_tag (field "position_tag") is Some tag then
    ps ← extract_positions tag;
    res_mapM (λ p : list Z * list pyv,
      match last p.1 with Some pn => Ok (PList (PInt pn :: p.2)) | None => Err index_error end) ps
  else if is_list (field "position_int") is Some l then Ok (PList <$> omap coordinates l)
  else
    let rect := field <$> rect_keys in
    if is_none (field "page_number") || existsb is_none rect then Ok [] else Ok [PList (field "page_number" :: rect)].

(** The page an item says it is on, counted from 1 *)
Definition ref_page_number (item : fields) : res (option Z) :=
  match get "page_number" PNone item with
  | (PInt _ | PBool _ | PFloat _) as v =>
      z ← int_value v; Ok (Some (if decide (z <= 0) then z + 1 else z))
  | _ => Ok None
  end.

(** The page of a position: one less than that of the item, or below 1, it was counted
    from 0. *)
Definition page_of (ref : option Z) (z : Z) : Z :=
  match ref with
  | Some r => if decide (z = r - 1) then r else if decide (z <= 0) then z + 1 else z
  | None => if decide (z <= 0) then z + 1 else z
  end.

Definition normalize_position (ref : option Z) (pos : pyv) : res (option pyv) :=
  match coordinates pos with
  | Some (p :: l :: r :: t :: b :: _) =>
      p ← (match p with
           | PList ps => match last ps with Some p => Ok p | None => Err index_error end
           | p => Ok p
           end);
      caught (z ← int_value p;
              rect ← res_mapM (λ v, x ← py_float_of v; Ok (pfloat x)) [l; r; t; b];
              Ok (PList (PInt (page_of ref z) :: rect)))
  | _ => Ok None
  end.

Definition extract_pdf_positions (item : fields) : res (list pyv) :=
  positions ← _extract_raw_positions item;
  ref ← ref_page_number item;
  ps ← res_mapM (normalize_position ref) positions;
  Ok (present ps).

(** ** Fields of the index *)

Definition int_position (pos : pyv) : res (option (list Z)) :=
  match coordinates pos with
  | Some l => caught (res_mapM int_value (take 5 l))
  | None => Ok None
  end.

Definition build_pdf_position_fields (positions : list pyv) : res fields :=
  ps ← res_mapM int_position positions;
  let ps := present ps in
  let column (i : nat) := PList ((λ p : list Z, PInt (default 0 (p !! i))) <$> ps) in
  Ok [("position_int", PList ((λ p, PList (PInt <$> p)) <$> ps));
      ("page_num_int", column 0%nat); ("top_int", column 3%nat)].

Definition finalize_pdf_chunk (chunk : fields) : res fields :=
  positions ← extract_pdf_positions chunk;
  chunk ← (match positions with
           | [] => Ok chunk
           | _ => new ← build_pdf_position_fields positions;
                  Ok (foldl (λ d kv, dict_set kv.1 kv.2 d) chunk new)
           end);
  Ok (filter (λ kv, kv.1 ≠ PDF_POSITIONS_KEY) chunk).

(** [normalize_pdf_item_metadata] *)
Definition normalize_pdf_item_metadata (item : fields) : res fields :=
  positions ← extract_pdf_positions item;
  Ok (match positions with
      | [] => filter (λ kv, kv.1 ≠ PDF_POSITIONS_KEY) item
      | _ => dict_set PDF_POSITIONS_KEY (PList positions) item
      end).

(** ** Merging *)

(** The positions that no earlier one equals, as Python compares numbers *)
Fixpoint distinct (seen l : list pyv) : list pyv :=
  match l with
  | [] => []
  | p :: l => if existsb (py_eq p) seen then distinct seen l else p :: distinct (p :: seen) l
  end.

Definition first_five (pos : pyv) : option pyv := (λ l, PList (take 5 l)) <$> coordinates pos.

(** [(item[0], item[3], item[1])]: page, top, left *)
Definition reading_key (pos : pyv) : pyv :=
  match pos with PList [page; x0; _; top; _] => PList [page; top; x0] | p => p end.
Definition reading_leb (a b : pyv) : bool :=
  match py_lt (reading_key b) (reading_key a) with Ok lt => negb lt | Err _ => true end.

(** [merge_pdf_positions] of items: their positions, each once, in the order of reading *)
Definition merge_pdf_positions (sources : list fields) : res (list pyv) :=
  positions ← res_mapM extract_pdf_positions sources;
  Ok (isort reading_leb (distinct [] (omap first_five (concat positions)))).
