(* ===== verification/TokenChunker.v ===== *)
(** The chunker of an ingestion pipeline (rag/flow/chunker/token_chunker.py): the parsed
    document is split at delimiters, or merged up to a number of tokens, and written as
    the documents of the index.

    The schema of the input is checked by pydantic, and the preview of a chunk is cut out
    of the pages and stored: both are parameters. The sizes of contexts are integers.
    Progress is not modelled. *)
From S2P Require Import Prelude Float PyText Json Dsl Effects Comp Regex PyNum PyOps Refs LlmStream Texts Canvas.
From S2P Require Import Chunks PdfPositions.
Open Scope Z_scope.

(** ** Parameters *)

(** [normalize_overlapped_percent] of common/float_utils.py *)
Definition normalize_overlapped_percent (v : pyv) : res Z :=
  value ← caught (py_float_of v);
  match value with
  | None => Ok 0
  | Some x =>
      let x := if flt f0 x && flt x f1 then fmul x (double_of_Z 100) else x in
      match float_int x with
      | Some z => Ok (Z.max 0 (Z.min z 90))
      | None => Err (OtherError "cannot convert float to integer")
      end
  end.

(** The texts of a list of delimiters, or of one *)
Definition shown_text (d : pyv) : option string := match d with PStr s => if truthy s then Some s else None | _ => None end.
Definition elements (v : pyv) : res (list pyv) := match v with PNone => Ok [] | PStr _ => Ok [v] | _ => as_iter v end.
Definition shown_texts (l : list pyv) : list string := omap shown_text l.
Definition delimiter_list (v : pyv) : res (list string) := l ← elements v; Ok (shown_texts l).

Definition is_plain_number (v : pyv) : bool := match v with PInt _ | PFloat _ => true | _ => false end.
(** [param < 0], [param > 1] *)
Definition below (v : pyv) (z : Z) : bool := match py_lt v (PInt z) with Ok b => b | Err _ => false end.
Definition beyond (v : pyv) (z : Z) : bool := match py_lt (PInt z) v with Ok b => b | Err _ => false end.

(** Parameters come from JSON and hold no objects. *)
Definition unsupported (description : string) (v : pyv) (wanted : string) : res unit :=
  Err (ValueError (description +:+ " " +:+ py_str (λ _, "") v +:+ " not supported, should be " +:+ wanted)).

(** [TokenChunkerParam.check]: the delimiters and children delimiters it leaves *)
Definition check_token_chunker (params : fields) : res (list string * list string) :=
  let field k := get k PNone params in
  ds ← delimiter_list (field "delimiters");
  children ← delimiter_list (field "children_delimiters");
  _ ← (match field "chunk_token_size" with
       | PInt z => if decide (0 < z) then Ok () else unsupported "Chunk token size." (PInt z) "positive integer"
       | v => unsupported "Chunk token size." v "positive integer"
       end);
  let ov := field "overlapped_percent" in
  _ ← (if negb (is_plain_number ov) || below ov 0 || beyond ov 1
       then unsupported "Overlapped percentage: [0, 1)" ov "a float number in range [0, 1]" else Ok ());
  let nonnegative description v :=
    if negb (is_plain_number v) || below v 0 then unsupported description v "non-negative numeric" else Ok () in
  _ ← nonnegative "Table context size." (field "table_context_size");
  _ ← nonnegative "Image context size." (field "image_context_size");
  Ok (ds, children).

(** ** Splitting *)

(** [_compile_delimiter_pattern]: the delimiters in backticks of all texts together *)
Definition _compile_delimiter_pattern (delimiters : list text) : list text :=
  custom_delimiters (concat delimiters).

(** The pattern of the children delimiters, which are taken as they are *)
Definition children_pattern (delimiters : list text) : list text :=
  longest_first (dict_fromkeys delimiters).

(** [_split_text_by_pattern]: a delimiter stays with the text before it; without a text
    before it, it is dropped. *)
Definition piece_of (p : text * text) : option text :=
  if full p.1 then let chunk := p.1 ++ p.2 in if visible chunk then Some chunk else None else None.

Definition _split_text_by_pattern (t : text) (pattern : list text) : list text :=
  if decide (pattern = []) then [t] else
  let '(l, tail) := re_split (any_of pattern) t in omap piece_of (l ++ [(tail, [])]).

(** ** The chunks of structured input *)

Record JChunk := {
  jc_text : text; jc_type : CkType; jc_img_id : pyv; jc_positions : list pyv; jc_tk_nums : Z;
  jc_above : text; jc_below : text; jc_mom : option text }.

Section chunker.
Context `{Tokens}.

Definition jchunk (ty : CkType) (t : text) (img_id : pyv) (positions : list pyv) : JChunk :=
  {| jc_text := t; jc_type := ty; jc_img_id := img_id; jc_positions := positions;
     jc_tk_nums := num_tokens_from_string t; jc_above := []; jc_below := []; jc_mom := None |}.

Definition doc_type (item : fields) : CkType :=
  let v := get "doc_type_kwd" PNone item in
  let s := py_lower (py_strip (if py_bool v then py_str (λ _, "") v else "")) in
  if decide (s = "table") then CkTable else if decide (s = "image") then CkImage else CkText.

Definition item_text (item : fields) : text :=
  match get "text" PNone item, get "content_with_weight" PNone item with
  | PStr s, _ | _, PStr s => codes s
  | _, _ => []
  end.

Definition build_item (pattern : list text) (item : fields) : res (list JChunk) :=
  positions ← extract_pdf_positions item;
  let t := item_text item in
  match doc_type item with
  | CkText =>
      Ok ((λ s, jchunk CkText s PNone positions)
            <$> filter (λ s, visible s = true) (_split_text_by_pattern t pattern))
  | ty => Ok [jchunk ty t (get "img_id" PNone item) positions]
  end.

Definition _build_json_chunks (items : list fields) (pattern : list text) : res (list JChunk) :=
  cks ← res_mapM (build_item pattern) items; Ok (concat cks).

(** [_take_sentences] *)
Definition _take_sentences (t : text) (need : Z) (from_end : bool) : text :=
  if from_end then take_sentences_from_end t need else take_sentences_from_start t need.

(** [_attach_context_to_media_chunks]: the texts around a chunk, the nearest first *)
Fixpoint context_parts (from_end : bool) (remain : Z) (cks : list JChunk) : list text :=
  match cks with
  | [] => []
  | c :: cks =>
      if remain <=? 0 then []
      else if decide (jc_type c = CkText) then
        if remain <=? jc_tk_nums c then [_take_sentences (jc_text c) remain from_end]
        else jc_text c :: context_parts from_end (remain - jc_tk_nums c) cks
      else context_parts from_end remain cks
  end.

Definition with_context (c : JChunk) (above below : text) : JChunk :=
  {| jc_text := jc_text c; jc_type := jc_type c; jc_img_id := jc_img_id c; jc_positions := jc_positions c;
     jc_tk_nums := jc_tk_nums c; jc_above := above; jc_below := below; jc_mom := jc_mom c |}.

(** The contexts are read from the texts, which they do not change. *)
Fixpoint attach (table_size image_size : Z) (before after : list JChunk) : list JChunk :=
  match after with
  | [] => []
  | c :: after' =>
      let size := match jc_type c with CkTable => table_size | CkImage => image_size | CkText => 0 end in
      (if size <=? 0 then c
       else with_context c (concat (rev (context_parts true size before))) (concat (context_parts false size after')))
        :: attach table_size image_size (c :: before) after'
  end.
Definition _attach_context_to_media_chunks (cks : list JChunk) (table_size image_size : Z) : list JChunk :=
  attach table_size image_size [] cks.

(** [_merge_text_chunks_by_token_size]: the state is [merged] without its last chunk, the
    last chunk, and whether it is the text at [prev_text_idx] *)
Definition set_text (c : JChunk) (t : text) (positions : list pyv) (tk : Z) : JChunk :=
  {| jc_text := t; jc_type := jc_type c; jc_img_id := jc_img_id c; jc_positions := positions;
     jc_tk_nums := tk; jc_above := jc_above c; jc_below := jc_below c; jc_mom := jc_mom c |}.

Definition merge_into (p c : JChunk) : JChunk :=
  set_text p
    (if full (jc_text p) && full (jc_text c) then jc_text p ++ newline ++ jc_text c else jc_text p ++ jc_text c)
    (jc_positions p ++ jc_positions c) (jc_tk_nums p + jc_tk_nums c).

Definition above_threshold (tk : Z) (threshold : double) : bool :=
  match num_compare (NInt tk) (NFlt threshold) with Some Gt => true | _ => false end.

Definition merge_step (threshold : double) (overlapped_percent : Z)
    (st : list JChunk * option JChunk) (c : JChunk) : res (list JChunk * option JChunk) :=
  let '(merged, prev) := st in
  let closed := merged ++ option_list prev in
  if decide (jc_type c ≠ CkText) then Ok (closed ++ [c], None) else
  match prev with
  | None => Ok (merged, Some c)
  | Some p =>
      if above_threshold (jc_tk_nums p) threshold then
        c ← (if (0 <? overlapped_percent) && full (jc_text p) then
               o ← overlap (jc_text p) overlapped_percent;
               let t := o ++ jc_text c in
               Ok (set_text c t (jc_positions c) (num_tokens_from_string t))
             else Ok c);
        Ok (closed, Some c)
      else Ok (merged, Some (merge_into p c))
  end.

Definition _merge_text_chunks_by_token_size (cks : list JChunk) (chunk_token_size overlapped_percent : Z)
    : res (list JChunk) :=
  threshold ← share chunk_token_size overlapped_percent;
  '(merged, prev) ← foldl (λ st c, st ← st; merge_step threshold overlapped_percent st c) (Ok ([], None)) cks;
  Ok (merged ++ option_list prev).

(** [_split_chunk_docs_by_children] *)
Definition child_of (mom : text) (c : JChunk) (t : text) : JChunk :=
  {| jc_text := t; jc_type := jc_type c; jc_img_id := jc_img_id c; jc_positions := jc_positions c;
     jc_tk_nums := jc_tk_nums c; jc_above := jc_above c; jc_below := jc_below c; jc_mom := Some mom |}.
Definition _split_chunk_docs_by_children (cks : list JChunk) (pattern : list text) : list JChunk :=
  if decide (pattern = []) then cks else
  concat ((λ c, if decide (jc_type c ≠ CkText) then [c]
                else child_of (jc_text c) c
                       <$> filter (λ t, visible t = true) (_split_text_by_pattern (jc_text c) pattern)) <$> cks).

(** ** The documents *)

Definition type_kwd (ty : CkType) : string :=
  match ty with CkText => "text" | CkTable => "table" | CkImage => "image" end.
Definition text_value (t : text) : pyv := PStr (of_codes t).

Definition doc_of (c : JChunk) : fields :=
  [("text", text_value (jc_above c ++ jc_text c ++ jc_below c)); ("doc_type_kwd", PStr (type_kwd (jc_type c)))]
  ++ (match jc_positions c with [] => [] | l => [(PDF_POSITIONS_KEY, PList l)] end)
  ++ (match jc_mom c with Some m => if full m then [("mom", text_value m)] else [] | None => [] end)
  ++ (if py_bool (jc_img_id c) then [("img_id", jc_img_id c)] else []).

Definition _finalize_json_chunks (cks : list JChunk) : res (list fields) :=
  res_mapM (λ c, finalize_pdf_chunk (doc_of c))
    (filter (λ c, visible (jc_above c ++ jc_text c ++ jc_below c) = true) cks).

(** [restore_pdf_text_previews]: the id of the image that [preview] stores for the
    positions of a text of a PDF document, if it can *)
Context (preview : list pyv → option string).
Definition restore (c : JChunk) : res JChunk :=
  if decide (jc_type c ≠ CkText) then Ok c else
  ps ← extract_pdf_positions [(PDF_POSITIONS_KEY, PList (jc_positions c))];
  Ok (match ps, preview ps with
      | _ :: _, Some id =>
          {| jc_text := jc_text c; jc_type := jc_type c; jc_img_id := PStr id; jc_positions := jc_positions c;
             jc_tk_nums := jc_tk_nums c; jc_above := jc_above c; jc_below := jc_below c; jc_mom := jc_mom c |}
      | _, _ => c
      end).
Definition restore_pdf_text_previews (name : string) (cks : list JChunk) : res (list JChunk) :=
  if py_endswith (py_lower name) ".pdf" then res_mapM restore cks else Ok cks.

(** ** [TokenChunker._invoke] *)

(** A validated input: the texts of its formats are those of [output_format]. *)
Inductive Payload := Formatted (t : text) | Structured (items : list fields).
Record Upstream := { up_name : string; up_payload : Payload }.

Record TokenChunkerParam := {
  tp_chunk_token_size : Z; tp_delimiters : list text; tp_overlapped_percent : pyv;
  tp_children_delimiters : list text; tp_table_context_size : Z; tp_image_context_size : Z }.

(** The chunks of a text; blank ones are left out, and they are stripped unless they are
    split into children. *)
Definition text_docs (cks : list text) (children : list text) : list fields :=
  let shown := filter (λ c, visible c = true) cks in
  if decide (children = []) then (λ c, [("text", text_value (strip c))]) <$> shown
  else concat ((λ c, (λ t, [("text", text_value t); ("mom", text_value c)])
         <$> filter (λ t, visible t = true) (_split_text_by_pattern c children)) <$> shown).

Definition token_chunks (p : TokenChunkerParam) (up : Upstream) : res (list fields) :=
  let pattern := _compile_delimiter_pattern (tp_delimiters p) in
  let children := children_pattern (tp_children_delimiters p) in
  overlapped_percent ← normalize_overlapped_percent (tp_overlapped_percent p);
  match up_payload up with
  | Formatted payload =>
      cks ← (if decide (pattern = []) then
               naive_merge (OneText payload) (tp_chunk_token_size p) [] overlapped_percent
             else Ok (_split_text_by_pattern payload pattern));
      Ok (text_docs cks children)
  | Structured items =>
      cks ← _build_json_chunks items pattern;
      let cks := _attach_context_to_media_chunks cks (tp_table_context_size p) (tp_image_context_size p) in
      cks ← (if decide (pattern = []) then
               _merge_text_chunks_by_token_size cks (tp_chunk_token_size p) overlapped_percent
             else Ok cks);
      cks ← restore_pdf_text_previews (up_name up) (_split_chunk_docs_by_children cks children);
      _finalize_json_chunks cks
  end.

(** The outputs of the component *)
Definition TokenChunker_invoke (p : TokenChunkerParam) (input : string + Upstream) : res fields :=
  match input with
  | inl e => Ok [("_ERROR", PStr ("Input error: " +:+ e))]
  | inr up =>
      cks ← token_chunks p up;
      Ok [("output_format", PStr "chunks"); ("chunks", PList (PDict <$> cks))]
  end.
End chunker.
