(* ===== verification/TitleChunker.v ===== *)
(** The title chunker of an ingestion pipeline (rag/flow/chunker/title_chunker): the lines
    of a parsed document get the levels of an outline or of the most frequent family of
    headings, and are put together along the tree of headings, or in groups of a section.

    Patterns are given by their syntax, an empty one as [Eps]. The reader of PDF files
    and the previews of chunks are parameters. Progress is not modelled. *)
From S2P Require Import Prelude Float PyText Json Dsl Effects Comp Regex PyNum PyOps Refs LlmStream Texts Canvas CanvasLoad.
From S2P Require Import Chunks Bullets PdfPositions TokenChunker.
Open Scope Z_scope.

(** [sys.maxsize - 1] *)
Definition BODY_LEVEL : Z := 2 ^ 63 - 2.

(** ** Parameters *)

(** [TitleChunkerParam.check]: there is no default for [method]. *)
Definition check_title_chunker (params : fields) : res unit :=
  let field k := get k PNone params in
  match dict_get "method" params with
  | None => Err attribute_error
  | Some (PList _ | PDict _) => Err exn_type
  | Some m =>
      _ ← (if py_eq m (PStr "hierarchy") || py_eq m (PStr "group")
           then check_empty (field "levels") "Hierarchical setups." else Ok ());
      if py_eq m (PStr "hierarchy") then check_empty (field "hierarchy") "Hierarchy number." else Ok ()
  end.

Record TitleChunkerParam := {
  tt_method : string; tt_levels : list (list re); tt_hierarchy : pyv; tt_include_heading_content : bool }.

(** A validated input: [file] holds what is known of the source. *)
Record TitleUpstream := { tu_upstream : Upstream; tu_file : fields }.

(** ** Lines *)

Record LineRecord := {
  lr_text : text; lr_type : string; lr_img_id : pyv; lr_layout : text; lr_positions : list pyv }.
Definition is_text (r : LineRecord) : bool := bool_decide (lr_type r = "text").

Definition plain_record (line : text) : LineRecord :=
  {| lr_text := line; lr_type := "text"; lr_img_id := PNone; lr_layout := []; lr_positions := [] |}.

Definition shown_value (v : pyv) : text := codes (py_str (λ _, "") v).
(** [str(v or d)] *)
Definition text_or (v : pyv) (d : string) : text := if py_bool v then shown_value v else codes d.

Definition item_record (item : fields) : res LineRecord :=
  positions ← extract_pdf_positions item;
  Ok {| lr_text := text_or (get "text" PNone item) "";
        lr_type := of_codes (text_or (get "doc_type_kwd" PNone item) "text");
        lr_img_id := get "img_id" PNone item;
        lr_layout := strip (shown_value (get "layout_type" (PStr "") item) ++ codes " "
                            ++ shown_value (get "layoutno" (PStr "") item));
        lr_positions := positions |}.

(** [payload.split("\n")] *)
Fixpoint split_lines (line s : text) : list text :=
  match s with
  | [] => [line]
  | c :: s' => if (c =? 10)%N then line :: split_lines [] s' else split_lines (line ++ [c]) s'
  end.

Definition extract_line_records (payload : Payload) : res (list LineRecord) :=
  match payload with
  | Formatted t => Ok (plain_record <$> filter (λ l, full l = true) (split_lines [] t))
  | Structured items => res_mapM item_record items
  end.

(** ** Outlines (deepdoc/parser/utils.py) *)

(** The outline of a PDF file as its reader gives it: an entry is its title and page
    index, if it has both. *)
Inductive PdfOutline := Entry (target : option (text * Z)) | Entries (l : list PdfOutline).

Fixpoint outline_dfs (depth : Z) (n : PdfOutline) : option (list (text * Z * Z)) :=
  match n with
  | Entry target => t ← target; Some [(t.1, depth, t.2 + 1)]
  | Entries l =>
      (fix go l := match l with
                   | [] => Some []
                   | n :: l => a ← outline_dfs (depth + 1) n; b ← go l; Some (a ++ b)
                   end) l
  end.

Section title.
Context `{Tokens} (pdf_outline : pyv → option (list PdfOutline)) (preview : list pyv → option string).

(** An error leaves no outline at all. *)
Definition extract_pdf_outlines (source : pyv) : list (text * Z * Z) :=
  default [] (nodes ← pdf_outline source; ls ← mapM (outline_dfs 0) nodes; Some (concat ls)).

Definition extract_outlines (file : fields) : list (text * Z * Z) :=
  match fetchone (λ v, py_bool v = true) ((λ k, get k PNone file) <$> ["blob"; "binary"; "path"; "name"]) with
  | Some source => extract_pdf_outlines source
  | None => []
  end.

(** ** Levels *)

Definition match_regex_level (t : text) (level_group : list re) : option Z :=
  (λ i, Z.of_nat i + 1) <$> first_index (λ p, is_bullet p (strip t)) level_group.

Definition is_empty_pattern (p : re) : bool := match p with Eps => true | _ => false end.

(** The lines that one of the patterns of a family matches *)
Definition group_hits (lines : list text) (group : list re) : Z :=
  len (filter (λ s, full (strip s) && existsb (λ p, is_bullet p (strip s)) group = true) lines).

Definition select_level_group (lines : list text) (raw_levels : list (list re)) : list re :=
  let selected := best_of (group_hits lines <$> raw_levels) in
  if selected <? 0 then [] else
  filter (λ p, is_empty_pattern p = false) (default [] (raw_levels !! Z.to_nat selected)).

(** A letter under [re.I]: the other case, and what else folds to [i] or [s] *)
Definition letter (c : N) : re :=
  Cls (λ d, (d =? c)%N || (d =? c - 32)%N
         || ((c =? 105)%N && ((d =? 304)%N || (d =? 305)%N)) || ((c =? 115)%N && (d =? 383)%N)).
Definition word_ci (s : string) : re := seqs (letter <$> codes s).
(** [re.search(r"(section|title|head)", layout, re.I)] *)
Definition heading_layout (layout : text) : bool :=
  re_search (Alt (word_ci "section") (Alt (word_ci "title") (word_ci "head"))) layout.

Definition match_layout_level (t layout : text) (fallback_level : Z) : Z :=
  if heading_layout layout && negb (not_title (strip (head_at 64 t))) then fallback_level else BODY_LEVEL.

(** The pairs of neighbouring characters *)
Definition char_pairs (s : text) : list (N * N) := zip s (tail s).

Definition _outline_similarity (left right : text) : double :=
  let left_pairs := dict_fromkeys (char_pairs left) in
  let right_pairs := dict_fromkeys (take (length left) (char_pairs right)) in
  Z_ratio (len (filter (λ p, p ∈ right_pairs) left_pairs))
    (Z.max (Z.max (len left_pairs) (len right_pairs)) 1).

Record Resolved := { rs_levels : list Z; rs_most_level : option Z }.

Definition outline_level (outlines : list (text * Z * Z)) (r : LineRecord) : Z :=
  if negb (is_text r) then BODY_LEVEL else
  match fetchone (λ o, flt (lit_float "0.8") (_outline_similarity o.1.1 (lr_text r)) = true) outlines with
  | Some o => o.1.2 + 1
  | None => BODY_LEVEL
  end.

(** Levels of an outline start at 0. *)
Definition resolve_outline_levels (file : fields) (line_records : list LineRecord) : option Resolved :=
  let outlines := extract_outlines file in
  if decide (line_records = []) then None
  else if fle (Z_ratio (len outlines) (len line_records)) (lit_float "0.03") then None
  else
    let max_level := foldr Z.max 0 ((λ o, o.1.2) <$> outlines) + 1 in
    Some {| rs_levels := outline_level outlines <$> line_records;
            rs_most_level := Some (Z.max 1 (max_level - 1)) |}.

Definition frequency_level (level_group : list re) (r : LineRecord) : Z :=
  if negb (is_text r) then BODY_LEVEL else
  match match_regex_level (lr_text r) level_group with
  | Some level => level
  | None => match_layout_level (lr_text r) (lr_layout r) (len level_group + 1)
  end.

Definition resolve_frequency_levels (raw_levels : list (list re)) (line_records : list LineRecord) : Resolved :=
  let level_group := select_level_group (lr_text <$> line_records) raw_levels in
  let levels := frequency_level level_group <$> line_records in
  {| rs_levels := levels; rs_most_level := fetchone (λ l, l < BODY_LEVEL) (by_frequency levels) |}.

Definition resolve_title_levels (file : fields) (raw_levels : list (list re)) (line_records : list LineRecord)
    : Resolved :=
  default (resolve_frequency_levels raw_levels line_records) (resolve_outline_levels file line_records).

(** The level of headings that a chunk may start with; [None] without headings *)
Definition resolve_target_level (levels : list Z) (hierarchy : pyv) : res (option Z) :=
  match isort Z.leb (dict_fromkeys (filter (λ l, 0 < l < BODY_LEVEL) levels)) with
  | [] => Ok None
  | title_levels =>
      h ← int_value hierarchy;
      Ok (title_levels !! Z.to_nat (Z.min (Z.max h 1) (len title_levels) - 1))
  end.

(** ** Chunks *)

Definition record_fields (r : LineRecord) : fields :=
  [("text", text_value (lr_text r)); ("doc_type_kwd", PStr (lr_type r)); ("img_id", lr_img_id r);
   ("layout", text_value (lr_layout r)); (PDF_POSITIONS_KEY, PList (lr_positions r))].

Definition joined_lines (records : list LineRecord) : text := concat ((λ r, lr_text r ++ newline) <$> records).

Definition chunk_of_group (formatted : bool) (records : list LineRecord) : res (option fields) :=
  match records with
  | [] => Ok None
  | r :: _ =>
      if formatted then Ok (Some [("text", text_value (joined_lines records))])
      else if is_text r then
        positions ← merge_pdf_positions (record_fields <$> records);
        Ok (Some [("text", text_value (remove_tag (joined_lines records))); ("doc_type_kwd", PStr "text");
                  (PDF_POSITIONS_KEY, PList positions)])
      else Ok (Some [("text", text_value (lr_text r)); ("doc_type_kwd", PStr (lr_type r)); ("img_id", lr_img_id r);
                     (PDF_POSITIONS_KEY, PList (lr_positions r))])
  end.

Definition build_chunks_from_record_groups (formatted : bool) (groups : list (list LineRecord)) : res (list fields) :=
  cks ← res_mapM (chunk_of_group formatted) groups; Ok (present cks).

(** [restore_pdf_text_previews] *)
Definition restore_fields (chunk : fields) : res fields :=
  if negb (py_eq (get "doc_type_kwd" (PStr "text") chunk) (PStr "text")) then Ok chunk else
  ps ← extract_pdf_positions chunk;
  Ok (match ps, preview ps with
      | _ :: _, Some id => dict_set "img_id" (PStr id) chunk
      | _, _ => chunk
      end).

(** [set_chunks]: the chunks of the output *)
Definition set_chunks (formatted : bool) (name : string) (chunks : list fields) : res (list fields) :=
  if formatted then Ok chunks else
  chunks ← (if py_endswith (py_lower name) ".pdf" then res_mapM restore_fields chunks else Ok chunks);
  res_mapM finalize_pdf_chunk chunks.

(** ** Groups of a section (group_chunker.py) *)

Definition MIN_GROUP_TOKENS : Z := 32.
Definition MAX_GROUP_TOKENS : Z := 1024.

Fixpoint section_ids (target_level : option Z) (sid : Z) (levels : list Z) : list Z :=
  match levels with
  | [] => []
  | level :: levels =>
      let sid := match target_level with Some t => if level <=? t then sid + 1 else sid | None => sid end in
      sid :: section_ids target_level sid levels
  end.
(** The first line starts no new section. *)
Definition _build_section_ids (levels : list Z) (target_level : option Z) : list Z :=
  match levels with [] => [] | _ :: levels => 0 :: section_ids target_level 0 levels end.

Definition _resolve_group_target_level (levels : list Z) (hierarchy : pyv) (most_level : option Z)
    : res (option Z) :=
  if negb (py_bool hierarchy) then Ok most_level else
  h ← int_value hierarchy;
  if 0 <? h then resolve_target_level levels hierarchy else Ok most_level.

(** The groups that are closed, the group of texts that is open, its tokens, and the
    section of its last line *)
Record Grouping := { gr_closed : list (list LineRecord); gr_open : list LineRecord; gr_tk : Z; gr_sid : Z }.
Definition grouping_start : Grouping := {| gr_closed := []; gr_open := []; gr_tk := 0; gr_sid := -2 |}.
Definition all_groups (g : Grouping) : list (list LineRecord) :=
  gr_closed g ++ (if decide (gr_open g = []) then [] else [gr_open g]).

Definition group_record (g : Grouping) (r : LineRecord * Z) : Grouping :=
  let '(record, sec_id) := r in
  if negb (is_text record) then
    {| gr_closed := all_groups g ++ [[record]]; gr_open := []; gr_tk := 0; gr_sid := -2 |}
  else if negb (visible (lr_text record)) then g
  else
    let token_count := num_tokens_from_string (lr_text record) in
    if bool_decide (gr_open g ≠ [])
       && ((gr_tk g <? MIN_GROUP_TOKENS) || (gr_tk g <? MAX_GROUP_TOKENS) && (sec_id =? gr_sid g))
    then {| gr_closed := gr_closed g; gr_open := gr_open g ++ [record]; gr_tk := gr_tk g + token_count; gr_sid := sec_id |}
    else {| gr_closed := all_groups g; gr_open := [record]; gr_tk := token_count; gr_sid := sec_id |}.

Definition group_records (records : list (LineRecord * Z)) : list (list LineRecord) :=
  all_groups (foldl group_record grouping_start records).

Definition GroupTitleChunker_groups (hierarchy : pyv) (records : list LineRecord) (resolved : Resolved)
    : res (list (list LineRecord)) :=
  target_level ← _resolve_group_target_level (rs_levels resolved) hierarchy (rs_most_level resolved);
  Ok (group_records (zip records (_build_section_ids (rs_levels resolved) target_level))).

(** ** Paths of headings (hierarchy_chunker.py) *)

Inductive _ChunkNode := MkChunkNode (level : Z) (title_indexes body_indexes : list nat) (children : list _ChunkNode).

(** An open node of the stack, as in the trees of [tree_merge] *)
Record ChunkFrame := {
  cf_level : Z; cf_titles : list nat; cf_body : list nat; cf_children : list _ChunkNode }.
Definition chunk_node_of (f : ChunkFrame) : _ChunkNode :=
  MkChunkNode (cf_level f) (cf_titles f) (cf_body f) (cf_children f).
Definition add_chunk_child (f : ChunkFrame) (n : _ChunkNode) : ChunkFrame :=
  {| cf_level := cf_level f; cf_titles := cf_titles f; cf_body := cf_body f; cf_children := cf_children f ++ [n] |}.
Definition add_body_index (f : ChunkFrame) (i : nat) : ChunkFrame :=
  {| cf_level := cf_level f; cf_titles := cf_titles f; cf_body := cf_body f ++ [i]; cf_children := cf_children f |}.

Fixpoint chunk_climb (level : Z) (top : ChunkFrame) (below : list ChunkFrame) : ChunkFrame * list ChunkFrame :=
  match below with
  | [] => (top, [])
  | p :: below' =>
      if level <=? cf_level top then chunk_climb level (add_chunk_child p (chunk_node_of top)) below' else (top, below)
  end.

Definition add_index (depth : Z) (stack : ChunkFrame * list ChunkFrame) (line : Z * nat)
    : ChunkFrame * list ChunkFrame :=
  let '(level, index) := line in
  let '(top, below) := stack in
  if depth <? level then (add_body_index top index, below)
  else
    let '(top, below) := chunk_climb level top below in
    ({| cf_level := level; cf_titles := [index]; cf_body := []; cf_children := [] |}, top :: below).

Fixpoint close_chunks (top : ChunkFrame) (below : list ChunkFrame) : _ChunkNode :=
  match below with
  | [] => chunk_node_of top
  | p :: below' => close_chunks (add_chunk_child p (chunk_node_of top)) below'
  end.

Definition build_chunk_tree (indexed_lines : list (Z * nat)) (depth : Z) : _ChunkNode :=
  let root := {| cf_level := 0; cf_titles := []; cf_body := []; cf_children := [] |} in
  let '(top, below) := foldl (add_index depth) (root, []) indexed_lines in close_chunks top below.

(** [_ChunkNode._dfs]: the paths of a node under the titles of its ancestors *)
Fixpoint chunk_dfs (depth : Z) (include_heading_content : bool) (titles : list nat) (n : _ChunkNode)
    : list (list nat) :=
  let '(MkChunkNode level title_indexes body_indexes children) := n in
  let within := (1 <=? level) && (level <=? depth) in
  let path_titles :=
    if within then titles ++ title_indexes ++ (if include_heading_content then [] else body_indexes) else titles in
  (if (level =? 0) && negb (bool_decide (body_indexes = [])) then [titles ++ body_indexes] else []) ++
  (if include_heading_content && negb (bool_decide (body_indexes = [])) && within then [path_titles ++ body_indexes]
   else if bool_decide (children = []) && within then [path_titles] else []) ++
  concat (map (chunk_dfs depth include_heading_content path_titles) children).

Definition get_paths (root : _ChunkNode) (depth : Z) (include_heading_content : bool) : list (list nat) :=
  chunk_dfs depth include_heading_content [] root.

(** The groups of a run of texts for its target level *)
Definition run_groups (include_heading_content : bool) (run : list (LineRecord * Z)) (target_level : option Z)
    : list (list LineRecord) :=
  match target_level with
  | None => [run.*1]
  | Some target =>
      let root := build_chunk_tree (zip run.*2 (seq 0 (length run))) target in
      let paths := filter (λ path : list nat, path ≠ []) (get_paths root target include_heading_content) in
      map (λ path : list nat, omap (λ i : nat, run.*1 !! i) path) paths
  end.

(** [flush_text_records] *)
Definition flush_text_records (hierarchy : pyv) (include_heading_content : bool) (run : list (LineRecord * Z))
    : res (list (list LineRecord)) :=
  if decide (run = []) then Ok [] else
  target_level ← resolve_target_level run.*2 hierarchy;
  Ok (run_groups include_heading_content run target_level).

(** The groups so far, and the texts since the last table or image *)
Definition hierarchy_record (hierarchy : pyv) (include_heading_content : bool)
    (st : list (list LineRecord) * list (LineRecord * Z)) (r : LineRecord * Z)
    : res (list (list LineRecord) * list (LineRecord * Z)) :=
  let '(groups, run) := st in
  if is_text r.1 then Ok (groups, run ++ [r])
  else
    new ← flush_text_records hierarchy include_heading_content run;
    Ok (groups ++ new ++ [[r.1]], []).

Definition HierarchyTitleChunker_groups (hierarchy : pyv) (include_heading_content : bool)
    (records : list LineRecord) (resolved : Resolved) : res (list (list LineRecord)) :=
  '(groups, run) ← foldl (λ st r, st ← st; hierarchy_record hierarchy include_heading_content st r)
    (Ok ([], [])) (zip records (rs_levels resolved));
  new ← flush_text_records hierarchy include_heading_content run;
  Ok (groups ++ new).

(** ** [TitleChunker._invoke] *)

Definition title_chunks (p : TitleChunkerParam) (up : TitleUpstream)
    (groups : list LineRecord → Resolved → res (list (list LineRecord))) : res fields :=
  let formatted := match up_payload (tu_upstream up) with Formatted _ => true | Structured _ => false end in
  line_records ← extract_line_records (up_payload (tu_upstream up));
  let resolved := resolve_title_levels (tu_file up) (tt_levels p) line_records in
  groups ← groups line_records resolved;
  chunks ← build_chunks_from_record_groups formatted groups;
  chunks ← set_chunks formatted (up_name (tu_upstream up)) chunks;
  Ok [("output_format", PStr "chunks"); ("chunks", PList (PDict <$> chunks))].

Definition TitleChunker_invoke (p : TitleChunkerParam) (input : string + TitleUpstream) : res fields :=
  match input with
  | inl e => Ok [("_ERROR", PStr ("Input error: " +:+ e))]
  | inr up =>
      if decide (tt_method p = "hierarchy") then
        title_chunks p up (HierarchyTitleChunker_groups (tt_hierarchy p) (tt_include_heading_content p))
      else if decide (tt_method p = "group") then title_chunks p up (GroupTitleChunker_groups (tt_hierarchy p))
      else Ok [("_ERROR", PStr ("Unsupported TitleChunker method: " +:+ tt_method p))]
  end.
End title.
