(* ===== verification/Metadata.v ===== *)
(** Metadata of documents (common/metadata_utils.py): conditions that select documents,
    their application to a question, the merging of metadata, and schemas of it; with the
    theorems on them.

    [ast.literal_eval] and [json_repair.loads] are parameters, as is the model that writes
    conditions. Cases are those of ASCII; keys of metadata are texts. A set of documents
    that becomes a list has the order of [elements]. *)
From S2P Require Import Prelude Float PyText Json Dsl Effects Comp Regex PyNum PyOps Refs LlmStream Texts Canvas.
Open Scope Z_scope.

(** ** Conditions *)

Definition op_mapping : list (string * string) :=
  [("is", "="); ("not is", "≠"); (">=", "≥"); ("<=", "≤"); ("!=", "≠")].

(** [d.get(k, k)] for a dict with texts as keys *)
Definition mapped_op (op : pyv) : res pyv :=
  match op with
  | PStr s => Ok (PStr (default s (dict_get s op_mapping)))
  | PList _ | PDict _ => Err exn_type
  | v => Ok v
  end.

Definition convert_condition (cond : pyv) : res pyv :=
  op ← item "comparison_operator" cond; op ← mapped_op op;
  key ← item "name" cond; value ← item "value" cond;
  Ok (PDict [("op", op); ("key", key); ("value", value)]).

Definition convert_conditions (metadata_condition : option fields) : res (list pyv) :=
  conds ← as_iter (get "conditions" (PList []) (default [] metadata_condition));
  res_mapM convert_condition conds.

Definition shown (v : pyv) : string := py_str (λ _, "") v.

(** [str.isdigit]: decimal digits, and the digits in superscripts, circles and the like *)
Definition other_digits : list (N * N) :=
  [(178, 179); (185, 185); (4969, 4977); (6618, 6618); (8304, 8304); (8308, 8313); (8320, 8329); (9312, 9320);
   (9332, 9340); (9352, 9360); (9450, 9450); (9461, 9469); (9471, 9471); (10102, 10110); (10112, 10120);
   (10122, 10130); (68160, 68163); (69216, 69224); (69714, 69722); (127232, 127242)]%N.
Definition isdigit_char (c : N) : bool := is_digit_code c || existsb (λ r, range r.1 r.2 c) other_digits.

(** YYYY-MM-DD *)
Definition is_date (s : string) : bool :=
  match codes s with
  | [y1; y2; y3; y4; a; m1; m2; b; d1; d2] =>
      (a =? 45)%N && (b =? 45)%N && forallb isdigit_char [y1; y2; y3; y4; m1; m2; d1; d2]
  | _ => false
  end.

Definition comparisons : list string := ["="; "≠"; ">"; "<"; "≥"; "≤"].

Definition lowered (v : pyv) : pyv := match v with PStr s => PStr (py_lower s) | v => v end.

(** [any] and [all] of conditions that may raise *)
Fixpoint any_res {A} (f : A → res bool) (l : list A) : res bool :=
  match l with [] => Ok false | x :: l => b ← f x; if b : bool then Ok true else any_res f l end.
Fixpoint all_res {A} (f : A → res bool) (l : list A) : res bool :=
  match l with [] => Ok true | x :: l => b ← f x; if b : bool then all_res f l else Ok false end.

(** A value that is no list is treated as the only element of one. *)
Definition elements_of (v : pyv) : list pyv := match v with PList l => l | v => [v] end.
Definition joined_lower (v : pyv) : string := py_lower (foldr String.append "" (shown <$> elements_of v)).

Definition found_in (value input : pyv) : res bool :=
  match value with PStr p => Ok (py_in p (shown input)) | _ => Err exn_type end.

Definition matched (operator : string) (input value : pyv) : res bool :=
  let op s := bool_decide (operator = s) in
  if op "contains" then any_res (found_in value) (elements_of input)
  else if op "not contains" then all_res (λ i, b ← found_in value i; Ok (negb b)) (elements_of input)
  else if op "in" then all_res (py_contains value) (elements_of input)
  else if op "not in" then all_res (λ i, b ← py_contains value i; Ok (negb b)) (elements_of input)
  else if op "start with" then Ok (py_startswith (joined_lower input) (py_lower (shown value)))
  else if op "end with" then Ok (py_endswith (joined_lower input) (py_lower (shown value)))
  else if op "empty" then Ok (negb (py_bool input))
  else if op "not empty" then Ok (py_bool input)
  else if op "=" then Ok (py_eq input value)
  else if op "≠" then Ok (negb (py_eq input value))
  else if op ">" then py_lt value input
  else if op "<" then py_lt input value
  else if op "≥" then py_le value input
  else if op "≤" then py_le input value
  else Ok false.

Section filter.
Context (literal : string → option pyv).

Definition literal_eval (v : pyv) : option pyv := match v with PStr s => literal s | _ => None end.

(** The first exception of the [try] leaves what was assigned before it. *)
Definition evaluated (input value : pyv) : pyv * pyv :=
  match (match input with PList l => head l | v => Some v end) with
  | None => (input, value)
  | Some i =>
      match literal_eval i with
      | None => (i, value)
      | Some i => (i, default value (literal_eval value))
      end
  end.

(** The value of a document and the value it is compared with; [None] when the document
    is skipped. *)
Definition prepared (operator : string) (input value : pyv) : option (pyv * pyv) :=
  if decide (operator ∈ comparisons) then
    let input_str := py_strip (shown input) in
    let value_str := py_strip (shown value) in
    if is_date value_str then
      if is_date input_str then Some (PStr input_str, PStr value_str) else None
    else let '(input, value) := evaluated input value in Some (lowered input, lowered value)
  else Some (lowered input, lowered value).

(** One value of the loop of [filter_out]; the value of the condition is changed for
    those that follow. *)
Definition filter_value (operator : string) (st : pyv * list string) (entry : pyv * list string)
    : pyv * list string :=
  let '(value, ids) := st in
  match prepared operator entry.1 value with
  | None => (value, ids)
  | Some (input, value) =>
      (value, match matched operator input value with Ok true => ids ++ entry.2 | _ => ids end)
  end.

Definition filter_out (v2docs : list (pyv * list string)) (operator value : pyv) : list string :=
  let operator := match operator with PStr s => s | _ => "" end in
  (foldl (filter_value operator) (value, []) v2docs).2.

(** The values of each key with the documents that have them *)
Definition Metas : Type := list (string * list (pyv * list string)).

Definition values_of (metas : Metas) (key : pyv) : res (option (list (pyv * list string))) :=
  match key with
  | PStr k => Ok (dict_get k metas)
  | PList _ | PDict _ => Err exn_type
  | _ => Ok None
  end.

Definition filter_ids (metas : Metas) (f : pyv) : res (gset string) :=
  k ← item "key" f;
  values ← values_of metas k;
  match values with
  | None => Ok ∅
  | Some v2docs =>
      op ← item "op" f; value ← item "value" f; Ok (list_to_set (filter_out v2docs op value))
  end.

Fixpoint run_filters (metas : Metas) (logic : string) (doc_ids : gset string) (filters : list pyv) : res (gset string) :=
  match filters with
  | [] => Ok doc_ids
  | f :: filters =>
      ids ← filter_ids metas f;
      if decide (doc_ids = ∅) then run_filters metas logic ids filters
      else if decide (logic = "and") then
        if decide (doc_ids ∩ ids = ∅) then Ok ∅ else run_filters metas logic (doc_ids ∩ ids) filters
      else run_filters metas logic (doc_ids ∪ ids) filters
  end.

Definition meta_filter (metas : Metas) (filters : list pyv) (logic : string) : res (gset string) :=
  run_filters metas logic ∅ filters.

(** ** Their application to a question *)

(** The model that writes conditions for metadata under constraints, and what replaces
    variables in conditions *)
Context (gen_meta_filter : Metas → list (string * pyv) → res fields) (manual_value_resolver : option (pyv → res pyv)).

(** [logic] is compared with a text only. *)
Definition logic_of (v : pyv) : string := match v with PStr s => s | _ => "" end.

Definition generated_ids (metas selected : Metas) (constraints : list (string * pyv)) : res (list string) :=
  filters ← gen_meta_filter selected constraints;
  conds ← item "conditions" (PDict filters); conds ← as_iter conds;
  ids ← meta_filter metas conds (logic_of (get "logic" (PStr "and") filters));
  Ok (elements ids).

(** The keys and the constraints of [semi_auto] *)
Definition semi_auto_item (st : list string * list (string * pyv)) (it : pyv) : list string * list (string * pyv) :=
  let '(selected_keys, constraints) := st in
  match it with
  | PStr s => (selected_keys ++ [s], constraints)
  | PDict d =>
      match get "key" PNone d with
      | PStr key =>
          (selected_keys ++ [key],
           let op := get "op" PNone d in if py_bool op then dict_set key op constraints else constraints)
      | _ => st
      end
  | _ => st
  end.

Definition selected_metas (metas : Metas) (keys : list string) : Metas :=
  foldl (λ d k, match dict_get k metas with Some v => dict_set k v d | None => d end) [] keys.

Definition apply_meta_data_filter (meta_data_filter : fields) (metas : Metas) (base_doc_ids : list string)
    : res (option (list string)) :=
  let none_if_empty (ids : list string) := if decide (ids = []) then None else Some ids in
  let method := get "method" PNone meta_data_filter in
  if py_eq method (PStr "auto") then
    ids ← generated_ids metas metas []; Ok (none_if_empty (base_doc_ids ++ ids))
  else if py_eq method (PStr "semi_auto") then
    items ← as_iter (get "semi_auto" (PList []) meta_data_filter);
    let '(keys, constraints) := foldl semi_auto_item ([], []) items in
    let selected := selected_metas metas keys in
    if decide (selected = []) then Ok (Some base_doc_ids) else
    ids ← generated_ids metas selected constraints; Ok (none_if_empty (base_doc_ids ++ ids))
  else if py_eq method (PStr "manual") then
    filters ← as_iter (get "manual" (PList []) meta_data_filter);
    filters ← (match manual_value_resolver with Some r => res_mapM r filters | None => Ok filters end);
    ids ← meta_filter metas filters (logic_of (get "logic" (PStr "and") meta_data_filter));
    let doc_ids := base_doc_ids ++ elements ids in
    Ok (Some (if decide (doc_ids = [] ∧ filters ≠ []) then ["-999"] else doc_ids))
  else Ok (Some base_doc_ids).
End filter.

(** ** Merging *)

(** [dedupe_list]: the first of those that are written alike *)
Fixpoint dedupe_seen (seen : list string) (values : list pyv) : list pyv :=
  match values with
  | [] => []
  | v :: values =>
      if decide (shown v ∈ seen) then dedupe_seen seen values else v :: dedupe_seen (shown v :: seen) values
  end.
Definition dedupe_list (values : list pyv) : list pyv := dedupe_seen [] values.

Definition is_text_value (v : pyv) : bool := match v with PStr _ => true | _ => false end.

(** The value that counts: a text, or the texts of a list *)
Definition kept_value (v : pyv) : option pyv :=
  match v with
  | PStr _ => Some v
  | PList l =>
      let l := filter (λ x, is_text_value x = true) l in
      if decide (l = []) then None else Some (PList (dedupe_list l))
  | _ => None
  end.

Definition merge_value (old : option pyv) (v : pyv) : pyv :=
  match old with
  | Some (PList l) => PList (dedupe_list (l ++ match v with PList l' => l' | v => [v] end))
  | _ => v
  end.

Definition update_key (metadata : fields) (kv : string * pyv) : fields :=
  match kept_value kv.2 with
  | None => metadata
  | Some v => dict_set kv.1 (merge_value (dict_get kv.1 metadata) v) metadata
  end.

Definition update_metadata_to (repair : string → option pyv) (metadata : fields) (meta : pyv) : fields :=
  let update v := match v with PDict kvs => foldl update_key metadata kvs | _ => metadata end in
  match meta with
  | PStr s => if truthy s then match repair s with Some v => update v | None => metadata end else metadata
  | v => update v
  end.

(** ** Schemas *)

Definition schema_entry (properties : fields) (it : pyv) : res fields :=
  key ← get_item "key" PNone it;
  if negb (py_bool key) then Ok properties else
  description ← get_item "description" (PStr "") it;
  enum ← get_item "enum" PNone it;
  match key with
  | PStr key =>
      Ok (dict_set key (PDict (("description", description) ::
        (if py_bool enum then [("enum", enum); ("type", PStr "string")] else []))) properties)
  | _ => Err exn_type
  end.

Definition metadata_schema (metadata : list pyv) : res fields :=
  if decide (metadata = []) then Ok [] else
  properties ← foldl (λ acc it, acc ← acc; schema_entry acc it) (Ok []) metadata;
  Ok [("type", PStr "object"); ("properties", PDict properties); ("additionalProperties", PBool false)].

Definition is_dict (v : pyv) : bool := match v with PDict _ => true | _ => false end.
Definition is_list_value (v : pyv) : bool := match v with PList _ => true | _ => false end.

Definition _is_json_schema (obj : fields) : bool :=
  bool_decide (is_Some (dict_get "$schema" obj)) ||
  (py_eq (get "type" PNone obj) (PStr "object") && is_dict (get "properties" PNone obj)).

(** [key not in item or P(item[key])] *)
Definition if_present (k : string) (P : pyv → bool) (d : fields) : bool :=
  match dict_get k d with Some v => P v | None => true end.

Definition is_metadata_item (it : pyv) : bool :=
  match it with
  | PDict d =>
      match get "key" PNone d with PStr k => truthy k | _ => false end &&
      if_present "enum" is_list_value d && if_present "description" is_text_value d &&
      if_present "descriptions" is_text_value d
  | _ => false
  end.
Definition _is_metadata_list (obj : list pyv) : bool := bool_decide (obj ≠ []) && forallb is_metadata_item obj.

Definition normalized_item (it : pyv) : pyv :=
  match it with
  | PDict d =>
      PDict ([("key", get "key" PNone d); ("description", get "description" (get "descriptions" (PStr "") d) d)]
             ++ match dict_get "enum" d with Some e => [("enum", e)] | None => [] end)
  | v => v
  end.

Definition turn2jsonschema (obj : pyv) : res fields :=
  match obj with
  | PDict d => Ok (if _is_json_schema d then d else [])
  | PList l => if _is_metadata_list l then metadata_schema (normalized_item <$> l) else Ok []
  | _ => Ok []
  end.

(** ** Theorems: conditions *)

Section spec.
Context (literal : string → option pyv).

(** The conditions from the first that any document meets *)
Fixpoint from_first_met (idss : list (gset string)) : list (gset string) :=
  match idss with [] => [] | s :: idss' => if decide (s = ∅) then from_first_met idss' else idss end.

Lemma run_filters_and metas filters : ∀ idss acc,
  res_mapM (filter_ids literal metas) filters = Ok idss → acc ≠ ∅ →
  ∃ r, run_filters literal metas "and" acc filters = Ok r ∧ ∀ d, d ∈ r ↔ d ∈ acc ∧ ∀ s, s ∈ idss → d ∈ s.
Proof.
  induction filters as [|f filters IH]; intros idss acc; simpl.
  - intros [= <-] _. exists acc. split; [done|]. set_solver.
  - destruct (filter_ids literal metas f) as [ids|]; [|done]. destruct (res_mapM _ filters) as [idss'|]; [|done].
    intros [= <-] Hacc. cbn [mbind res_bind]. rewrite decide_False by done. case_decide as Hempty.
    + exists ∅. split; [done|]. intros d. split; [set_solver|]. intros [Hd Hs].
      assert (d ∈ acc ∩ ids); [|set_solver]. apply elem_of_intersection. split; [done|]. apply Hs. left.
    + destruct (IH idss' (acc ∩ ids) eq_refl Hempty) as (r & Hr & Hspec). exists r. split; [done|].
      intros d. rewrite Hspec, elem_of_intersection. setoid_rewrite elem_of_cons. naive_solver.
Qed.

Lemma run_filters_or metas logic filters : ∀ idss acc,
  logic ≠ "and" → res_mapM (filter_ids literal metas) filters = Ok idss →
  ∃ r, run_filters literal metas logic acc filters = Ok r ∧ ∀ d, d ∈ r ↔ d ∈ acc ∨ ∃ s, s ∈ idss ∧ d ∈ s.
Proof.
  induction filters as [|f filters IH]; intros idss acc Hl; simpl.
  - intros [= <-]. exists acc. split; [done|]. set_solver.
  - destruct (filter_ids literal metas f) as [ids|]; [|done]. destruct (res_mapM _ filters) as [idss'|]; [|done].
    intros [= <-]. cbn [mbind res_bind]. rewrite (decide_False (P := logic = "and")) by done.
    setoid_rewrite elem_of_cons. case_decide as Hempty.
    + destruct (IH idss' ids Hl eq_refl) as (r & Hr & Hspec). exists r. split; [done|].
      intros d. rewrite Hspec. subst acc. set_solver.
    + destruct (IH idss' (acc ∪ ids) Hl eq_refl) as (r & Hr & Hspec). exists r. split; [done|].
      intros d. rewrite Hspec. set_solver.
Qed.

(** C34. Conditions on metadata select documents as their logic says, up to one exception:
    for any logic but "and" the documents that meet one of them; for "and" those that
    meet all conditions from the first that any document meets: conditions in front of it
    that no document meets are ignored. *)
Theorem meta_filter_spec metas filters logic idss :
  res_mapM (filter_ids literal metas) filters = Ok idss →
  ∃ r, meta_filter literal metas filters logic = Ok r ∧
    (logic ≠ "and" → ∀ d, d ∈ r ↔ ∃ s, s ∈ idss ∧ d ∈ s) ∧
    (logic = "and" → ∀ d, d ∈ r ↔ from_first_met idss ≠ [] ∧ ∀ s, s ∈ from_first_met idss → d ∈ s).
Proof.
  intros Hf. unfold meta_filter. destruct (decide (logic = "and")) as [->|Hl].
  - revert idss Hf. induction filters as [|f filters IH]; intros idss; simpl.
    + intros [= <-]. exists ∅. split; [done|]. split; [done|]. set_solver.
    + destruct (filter_ids literal metas f) as [ids|]; [|done]. destruct (res_mapM _ filters) as [idss'|] eqn:E; [|done].
      intros [= <-]. cbn [mbind res_bind from_first_met]. rewrite (decide_True (P := ∅ = ∅)) by done.
      destruct (decide (ids = ∅)) as [->|Hne].
      { destruct (IH idss' eq_refl) as (r & Hr & _ & Hspec). by exists r. }
      destruct (run_filters_and metas filters idss' ids E Hne) as (r & Hr & Hspec). exists r. split; [done|].
      split; [done|]. intros _ d. rewrite Hspec. setoid_rewrite elem_of_cons. naive_solver.
  - destruct (run_filters_or metas logic filters idss ∅ Hl Hf) as (r & Hr & Hspec). exists r. split; [done|].
    split; [|done]. intros _ d. rewrite Hspec. set_solver.
Qed.

Lemma py_lower_idemp s : py_lower (py_lower s) = py_lower s.
Proof. unfold py_lower. induction s as [|c s IH]; simpl; [done|]. by rewrite IH, lower_ascii_idemp. Qed.

(** Without a comparison a document is selected for its own value. *)
Lemma filter_out_other v2docs operator value :
  operator ∉ comparisons →
  filter_out literal v2docs (PStr operator) value =
  concat ((λ e, match matched operator (lowered e.1) (lowered value) with Ok true => e.2 | _ => [] end) <$> v2docs).
Proof.
  intros Hop. unfold filter_out.
  assert (∀ v ids, lowered v = lowered value → (foldl (filter_value literal operator) (v, ids) v2docs).2 =
    ids ++ concat ((λ e, match matched operator (lowered e.1) (lowered value) with Ok true => e.2 | _ => [] end) <$> v2docs)) as Hf;
    [|by apply (Hf value [])].
  induction v2docs as [|[i docs] v2docs IH]; intros v ids Hv; simpl; [by rewrite app_nil_r|].
  unfold prepared. rewrite decide_False by done. rewrite IH.
  - rewrite Hv. destruct (matched _ _ _) as [[]|]; simpl; rewrite <-?app_assoc; done.
  - rewrite <-Hv. destruct v; simpl; try done. f_equal. apply py_lower_idemp.
Qed.
End spec.

(** Manual conditions always restrict the documents: no document is written as one that
    does not exist, and never as the empty list, which stands for all. *)
Lemma manual_filter_restricts literal gen resolver f metas base :
  py_eq (get "method" PNone f) (PStr "manual") = true →
  (∃ x l, get "manual" (PList []) f = PList (x :: l)) →
  match apply_meta_data_filter literal gen resolver f metas base with
  | Ok r => ∃ ids, r = Some ids ∧ ids ≠ [] | Err _ => True end.
Proof.
  intros Hm (x & l & Hl). destruct (get "method" PNone f) as [| | | |m| | |] eqn:Em; try done.
  simpl in Hm. apply bool_decide_eq_true in Hm as ->. unfold apply_meta_data_filter. rewrite Em, Hl. simpl.
  cbn [mbind res_bind]. destruct (match resolver with Some r => _ | None => _ end) as [fs|] eqn:Efs; [|done].
  assert (fs ≠ []) as Hfs.
  { destruct resolver as [r|]; [|by injection Efs as <-]. simpl in Efs. destruct (r x); [|done].
    destruct (res_mapM r l); [|done]. by injection Efs as <-. }
  cbn [mbind res_bind]. destruct (meta_filter _ _ _ _) as [ids|]; [|done]. eexists. split; [done|].
  case_decide as Hd; [done|]. intros E. by apply Hd.
Qed.

(** ** Theorems: merging *)

Lemma dedupe_seen_incl seen l : dedupe_seen seen l = [] ↔ ∀ v, v ∈ l → shown v ∈ seen.
Proof.
  revert seen. induction l as [|v l IH]; intros seen; simpl; [split; [by intros _ v ?%elem_of_nil|done]|].
  setoid_rewrite elem_of_cons. case_decide as Hv; [rewrite IH; naive_solver|]. split; [done|].
  intros H. by destruct Hv; apply H; left.
Qed.

Lemma dedupe_seen_app seen a b :
  dedupe_seen seen (a ++ b) = dedupe_seen seen a ++ dedupe_seen (rev (shown <$> dedupe_seen seen a) ++ seen) b.
Proof.
  revert seen. induction a as [|v a IH]; intros seen; simpl; [done|]. case_decide; [apply IH|].
  simpl. rewrite IH. by rewrite <-app_assoc.
Qed.

Lemma dedupe_seen_all seen l v : v ∈ l → shown v ∈ (shown <$> dedupe_seen seen l) ∨ shown v ∈ seen.
Proof.
  revert seen. induction l as [|x l IH]; intros seen; [by intros ?%elem_of_nil|]. simpl.
  intros [->|Hv]%elem_of_cons; case_decide; simpl.
  - by right.
  - left. left.
  - by apply IH.
  - destruct (IH (shown x :: seen) Hv) as [?|[->|?]%elem_of_cons]; [left; by right|left; left|by right].
Qed.

(** The first list absorbs what it holds already. *)
Lemma dedupe_absorb a b : (∀ v, v ∈ b → ∃ x, x ∈ a ∧ shown x = shown v) → dedupe_list (a ++ b) = dedupe_list a.
Proof.
  intros Hb. unfold dedupe_list. rewrite dedupe_seen_app.
  assert (dedupe_seen (rev (shown <$> dedupe_seen [] a) ++ []) b = []) as ->; [|by rewrite app_nil_r].
  apply dedupe_seen_incl. intros v Hv. destruct (Hb v Hv) as (x & Hx & <-).
  rewrite app_nil_r, <-elem_of_reverse. unfold reverse. rewrite rev_append_rev, app_nil_r, rev_involutive.
  by destruct (dedupe_seen_all [] a x Hx) as [?|?%elem_of_nil].
Qed.

Lemma dedupe_seen_disjoint seen l v : v ∈ dedupe_seen seen l → shown v ∉ seen.
Proof.
  revert seen. induction l as [|x l IH]; intros seen; simpl; [by intros ?%elem_of_nil|].
  case_decide; [apply IH|]. intros [->|Hv]%elem_of_cons; [done|]. apply IH in Hv. set_solver.
Qed.

Lemma dedupe_seen_id seen l :
  NoDup (shown <$> l) → (∀ v, v ∈ l → shown v ∉ seen) → dedupe_seen seen l = l.
Proof.
  revert seen. induction l as [|v l IH]; intros seen Hnd Hs; simpl; [done|].
  apply NoDup_cons in Hnd as [Hv Hnd]. rewrite decide_False by (apply Hs; left). f_equal. apply IH; [done|].
  intros x Hx. apply not_elem_of_cons. split; [|apply Hs; by right]. intros E. apply Hv. rewrite <-E.
  by apply (list_elem_of_fmap_2 shown).
Qed.

Lemma dedupe_seen_NoDup seen l : NoDup (shown <$> dedupe_seen seen l).
Proof.
  revert seen. induction l as [|x l IH]; intros seen; simpl; [constructor|]. case_decide; [done|].
  simpl. constructor; [|done]. intros Hx. apply list_elem_of_fmap in Hx as (y & Hy & Hin).
  apply dedupe_seen_disjoint in Hin. apply Hin. rewrite Hy. left.
Qed.

Lemma dedupe_idemp l : dedupe_list (dedupe_list l) = dedupe_list l.
Proof. apply dedupe_seen_id; [apply dedupe_seen_NoDup|]. by intros v _ ?%elem_of_nil. Qed.

Lemma dedupe_keeps l v : v ∈ l → ∃ x, x ∈ dedupe_list l ∧ shown x = shown v.
Proof.
  intros Hv. destruct (dedupe_seen_all [] l v Hv) as [H|?%elem_of_nil]; [|done].
  apply list_elem_of_fmap in H as (x & -> & Hx). by exists x.
Qed.

(** Merging a value again changes nothing. *)
Lemma merge_value_idemp old v w : kept_value w = Some v → merge_value (Some (merge_value old v)) v = merge_value old v.
Proof.
  intros Hv. assert (∀ o, (∀ l, o ≠ Some (PList l)) → merge_value (Some v) v = v) as Hv'.
  { intros _ _. destruct w; try done; simpl in Hv; [by injection Hv as <-|]. case_decide; [done|].
    injection Hv as <-. simpl. rewrite dedupe_absorb; [by rewrite dedupe_idemp|]. eauto. }
  destruct old as [[]|]; try by apply (Hv' None). simpl. rewrite dedupe_absorb; [by rewrite dedupe_idemp|].
  intros x Hx. apply dedupe_keeps, elem_of_app. by right.
Qed.

Definition settled (metadata : fields) (kv : string * pyv) : Prop := update_key metadata kv = metadata.

Lemma update_key_settled metadata kv : settled (update_key metadata kv) kv.
Proof.
  unfold settled, update_key. destruct (kept_value kv.2) as [v|] eqn:Hv; [|done].
  rewrite dict_get_set, decide_True by done. rewrite (merge_value_idemp _ _ _ Hv).
  apply dict_set_same. by rewrite dict_get_set, decide_True.
Qed.

Lemma update_key_other metadata kv kv' : kv.1 ≠ kv'.1 → settled metadata kv → settled (update_key metadata kv') kv.
Proof.
  unfold settled, update_key. intros Hne. destruct (kept_value kv'.2) as [v'|]; [|done].
  destruct (kept_value kv.2) as [v|]; [|done]. intros Hs. rewrite dict_get_set, decide_False by done.
  apply dict_set_same. rewrite dict_get_set, decide_False by done.
  rewrite <-Hs at 1. by rewrite dict_get_set, decide_True.
Qed.

Lemma update_settled l metadata kv : kv.1 ∉ l.*1 → settled metadata kv → settled (foldl update_key metadata l) kv.
Proof.
  revert metadata. induction l as [|kv' l IH]; intros metadata Hk Hs; simpl in *; [done|].
  apply not_elem_of_cons in Hk as [Hne Hk]. apply IH; [done|]. by apply update_key_other.
Qed.

Lemma update_all_settled l metadata :
  NoDup l.*1 → Forall (settled (foldl update_key metadata l)) l.
Proof.
  revert metadata. induction l as [|kv l IH]; intros metadata Hnd; simpl in *; [constructor|].
  apply NoDup_cons in Hnd as [Hk Hnd]. constructor; [|by apply IH]. apply update_settled, update_key_settled. done.
Qed.


(** ** Theorems: schemas *)

Lemma normalized_schema_ok l : forallb is_metadata_item l = true → ∀ acc,
  ∃ p, foldl (λ acc it, acc ← acc; schema_entry acc it) (Ok acc) (normalized_item <$> l) = Ok p.
Proof.
  induction l as [|it l IH]; simpl; [eauto|]. intros [Hit Hl]%andb_true_iff acc.
  destruct it as [| | | | | |d|]; try done. simpl in Hit. rewrite !andb_true_iff in Hit. destruct Hit as [[[Hk _] _] _].
  cbn [mbind res_bind]. unfold schema_entry. simpl.
  change (get "key" PNone (("key", get "key" PNone d) :: _)) with (get "key" PNone d).
  destruct (get "key" PNone d) as [| | | |k| | |]; try done. cbn [mbind res_bind].
  assert (py_bool (PStr k) = true) as -> by done. simpl. by apply IH.
Qed.

(** What turn2jsonschema returns is a schema it accepts: it never raises, and turning
    its result again gives the same. *)
Theorem turn2jsonschema_fixed obj :
  ∃ d, turn2jsonschema obj = Ok d ∧ turn2jsonschema (PDict d) = Ok d.
Proof.
  assert (turn2jsonschema (PDict []) = Ok []) as Hnil by done.
  destruct obj as [| | | | |l|d|]; simpl; eauto.
  - destruct (_is_metadata_list l) eqn:E; [|eauto]. unfold _is_metadata_list in E. apply andb_true_iff in E as [Hne Hl].
    apply bool_decide_eq_true in Hne. unfold metadata_schema. rewrite decide_False by (by destruct l).
    destruct (normalized_schema_ok l Hl []) as [p Hp]. rewrite Hp. cbn [mbind res_bind]. eauto.
  - destruct (_is_json_schema d) eqn:E; [|eauto]. exists d. by rewrite E.
Qed.

(** ** Examples *)

(** The literals of integers *)
Definition int_literal (s : string) : option pyv := PInt <$> py_int s.
Definition demo_metas : Metas :=
  [("year", [(PStr "2023", ["d1"]); (PStr "2024", ["d2"; "d3"])]); ("author", [(PStr "Ann", ["d1"; "d2"])])].
Definition condition (key op value : string) : pyv := PDict [("key", PStr key); ("op", PStr op); ("value", PStr value)].
Definition demo_ids (logic : string) (filters : list pyv) : list string :=
  match meta_filter int_literal demo_metas filters logic with Ok s => elements s | Err _ => [] end.

Example meta_filter_ex :
  (demo_ids "and" [condition "year" "≥" "2024"; condition "author" "is" "ann"],
   demo_ids "and" [condition "year" "≥" "2024"; condition "author" "contains" "an"],
   demo_ids "or" [condition "year" "=" "2023"; condition "author" "contains" "zoe"]) = ([], ["d2"], ["d1"]).
Proof. vm_compute. reflexivity. Qed.

(** No document is of the year 2030, and the condition is ignored. *)
Example first_condition_ignored :
  demo_ids "and" [condition "year" "=" "2030"; condition "author" "contains" "ann"] = ["d1"; "d2"].
Proof. vm_compute. reflexivity. Qed.

(** Whether a text is compared with the number or with its digits depends on the values in
    front of it. *)
Example order_of_values :
  (filter_out int_literal [(PStr "x", ["d1"]); (PStr "5", ["d2"])] (PStr ">") (PStr "4"),
   filter_out int_literal [(PStr "5", ["d2"]); (PStr "x", ["d1"])] (PStr ">") (PStr "4")) = (["d1"; "d2"], ["d2"]).
Proof. vm_compute. reflexivity. Qed.

Lemma meta_filter_spec_witness :
  let filters := [condition "year" "=" "2030"; condition "author" "contains" "ann"] in
  ∃ idss, res_mapM (filter_ids int_literal demo_metas) filters = Ok idss ∧
  ∃ r, meta_filter int_literal demo_metas filters "and" = Ok r ∧
    ("and" ≠ "and" → ∀ d, d ∈ r ↔ ∃ s, s ∈ idss ∧ d ∈ s) ∧
    ("and" = "and" → ∀ d, d ∈ r ↔ from_first_met idss ≠ [] ∧ ∀ s, s ∈ from_first_met idss → d ∈ s).
Proof.
  intros filters.
  set (idss := match res_mapM (filter_ids int_literal demo_metas) filters with Ok l => l | Err _ => [] end).
  assert (res_mapM (filter_ids int_literal demo_metas) filters = Ok idss) as H by (vm_compute; reflexivity).
  exists idss. split; [exact H|]. exact (meta_filter_spec int_literal demo_metas filters "and" idss H).
Defined.

