(* ===== verification/Prompts.v ===== *)
(** The size of prompts (rag/prompts/generator.py): messages that are cut to the context of
    a model, and retrieved chunks and memories that are written into it; with the
    theorems on them.

    The encoder of tokens, the metadata of documents and the hash of identifiers are
    parameters. *)
From S2P Require Import Prelude Float PyText Json Dsl Effects Comp Regex PyNum PyOps Refs LlmStream Texts Canvas.
From S2P Require Import Chunks.
From Stdlib Require Import QArith Lqa.
Open Scope Z_scope.

Definition get_value (d : fields) (k1 k2 : string) : pyv := get k1 (get k2 PNone d) d.

(** ** References *)

Definition chunk_format (chunk : fields) : fields :=
  [("id", get_value chunk "chunk_id" "id"); ("content", get_value chunk "content" "content_with_weight");
   ("document_id", get_value chunk "doc_id" "document_id"); ("document_name", get_value chunk "docnm_kwd" "document_name");
   ("dataset_id", get_value chunk "kb_id" "dataset_id"); ("image_id", get_value chunk "image_id" "img_id");
   ("positions", get_value chunk "positions" "position_int"); ("url", get "url" PNone chunk);
   ("similarity", get "similarity" PNone chunk); ("vector_similarity", get "vector_similarity" PNone chunk);
   ("term_similarity", get "term_similarity" PNone chunk); ("row_id", get "row_id" PNone chunk);
   ("doc_type", get_value chunk "doc_type_kwd" "doc_type")].

Definition chunks_format (reference : pyv) : list fields :=
  match reference with
  | PDict d => match get "chunks" (PList []) d with
               | PList raw => omap (λ c, match c with PDict chunk => Some (chunk_format chunk) | _ => None end) raw
               | _ => []
               end
  | _ => []
  end.

(** ** Messages *)

Record Msg := { ms_role : string; ms_content : text }.
Definition set_content (t : text) (m : Msg) : Msg := {| ms_role := ms_role m; ms_content := t |}.

(** [l[:n]] *)
Definition slice_to {A} (l : list A) (n : Z) : list A := take (slice_pos l n) l.

Section encoder.
Context {Tok : Type} (encode : text → list Tok) (decode : list Tok → text).

Definition tokens (t : text) : Z := len (encode t).

(** The messages are dicts that the caller shares: [msg] holds their places in [store]. *)
Definition content_at (store : list Msg) (i : nat) : text := from_option ms_content [] (store !! i).
Definition count (store : list Msg) (msg : list nat) : Z := foldr Z.add 0 ((λ i, tokens (content_at store i)) <$> msg).

Definition is_system (store : list Msg) (i : nat) : bool :=
  match store !! i with Some m => bool_decide (ms_role m = "system") | None => false end.

(** The system messages, and the last one if there are several *)
Definition shortened (store : list Msg) : list nat :=
  let all := seq 0 (length store) in
  filter (λ i, is_system store i = true) all ++ (if (1 <? length store)%nat then option_list (last all) else []).

Definition cut (store : list Msg) (i : nat) (n : Z) : list Msg :=
  alter (set_content (decode (slice_to (encode (content_at store i)) n))) i store.

(** The count that is returned, the messages, and the store *)
Definition message_fit_in (store : list Msg) (max_length : Z) : res (Z * list nat * list Msg) :=
  let all := seq 0 (length store) in
  let c := count store all in
  if c <? max_length then Ok (c, all, store) else
  let msg_ := shortened store in
  let c := count store msg_ in
  if c <? max_length then Ok (c, msg_, store) else
  match head msg_, last msg_ with
  | Some first, Some final =>
      let ll := tokens (content_at store first) in
      let ll2 := tokens (content_at store final) in
      if ll + ll2 =? 0 then Err (OtherError "division by zero")
      else if flt (lit_float "0.8") (Z_ratio ll (ll + ll2)) then
        Ok (max_length, msg_, cut store first (max_length - ll2))
      else Ok (max_length, msg_, cut store final (max_length - ll2))
  | _, _ => Err (OtherError "list index out of range")
  end.

(** ** Chunks and memories *)

(** [max_tokens * 0.97 < used] *)
Definition over_budget (max_tokens used : Z) : bool :=
  match num_compare (NInt used) (NFlt (fmul (double_of_Z max_tokens) (lit_float "0.97"))) with
  | Some Gt => true | _ => false end.

(** [num_tokens_from_string] of any value: what is no text has no tokens. *)
Definition value_tokens (v : pyv) : Z := match v with PStr s => tokens (codes s) | _ => 0 end.

(** The number of contents that are not empty, up to the first that exceeds the budget *)
Fixpoint chunks_num (max_tokens used : Z) (contents : list pyv) : nat :=
  match contents with
  | [] => O
  | c :: contents =>
      if negb (py_bool c) then chunks_num max_tokens used contents
      else
        let used := used + value_tokens c in
        S (if over_budget max_tokens used then O else chunks_num max_tokens used contents)
  end.

Definition chunk_content (ck : fields) : pyv := get_value ck "content" "content_with_weight".

(** Line feeds become a space. *)
Definition line_feeds : re := Rep true 1 None (Cls (N.eqb 10)).
Definition draw_node (k : string) (v : pyv) : text :=
  let line := match v with PNone => [] | PStr s => codes s | v => codes (py_str (λ _, "") v) end in
  if decide (line = []) then []
  else 10%N :: codes "├── " ++ codes k ++ codes ": " ++ re_sub line_feeds (codes " ") line.

(** The metadata of the documents with the given identifiers, and the hash of an
    identifier *)
Context (document_metadata : list pyv → list (string * fields)) (hash_str2int : pyv → Z).

Definition metadata_of (docs : list (string * fields)) (v : pyv) : fields :=
  match v with PStr k => default [] (dict_get k docs) | _ => [] end.

Definition knowledge (docs : list (string * fields)) (hash_id : bool) (i : nat) (ck : fields) : res text :=
  match chunk_content ck with
  | PStr content =>
      Ok (10%N :: codes "ID: "
          ++ codes (str_of_Z (if hash_id then hash_str2int (get_value ck "id" "chunk_id") else Z.of_nat i))
          ++ draw_node "Title" (get_value ck "docnm_kwd" "document_name")
          ++ (match dict_get "url" ck with Some url => draw_node "URL" url | None => [] end)
          ++ concat ((λ kv, draw_node kv.1 kv.2) <$> metadata_of docs (get_value ck "doc_id" "document_id"))
          ++ 10%N :: codes "└── Content:" ++ 10%N :: codes content)
  | _ => Err exn_type
  end.

Definition kb_prompt (chunks : list fields) (max_tokens : Z) (hash_id : bool) : res (list text) :=
  let n := chunks_num max_tokens 0 (chunk_content <$> chunks) in
  let shown := take n chunks in
  let docs := document_metadata ((λ ck, get_value ck "doc_id" "document_id") <$> shown) in
  res_mapM (λ p, knowledge docs hash_id p.1 p.2) (zip (seq 0 (length shown)) shown).

(** [used + current > max_tokens * 0.97] *)
Fixpoint memory_contents (max_tokens used : Z) (messages : list text) : list text :=
  match messages with
  | [] => []
  | m :: messages =>
      if over_budget max_tokens (used + tokens m) then []
      else m :: memory_contents max_tokens (used + tokens m) messages
  end.
Definition memory_prompt (message_list : list text) (max_tokens : Z) : list text := memory_contents max_tokens 0 message_list.
End encoder.

(** ** Theorems: messages *)

Section fit.
Context {Tok : Type} (encode : text → list Tok) (decode : list Tok → text).
Implicit Types store : list Msg.

Lemma slice_to_prefix {A} (l : list A) n : slice_to l n = take (length (slice_to l n)) l.
Proof.
  unfold slice_to. rewrite length_take. destruct (Nat.le_gt_cases (slice_pos l n) (length l)).
  - by rewrite Nat.min_l.
  - by rewrite Nat.min_r, !take_ge by lia.
Qed.

Lemma head_last {A} (l : list A) : l ≠ [] → ∃ x y, head l = Some x ∧ last l = Some y ∧ x ∈ l ∧ y ∈ l.
Proof.
  destruct l as [|x l]; [done|]. intros _. exists x.
  destruct (last (x :: l)) as [y|] eqn:E; [|by apply last_None in E]. exists y. split_and!; [done|done|left|].
  by apply last_Some_elem_of in E.
Qed.

(** What is returned when the messages are too long: the system messages and the last
    one, in order; at most one of them is changed, to a prefix of its tokens. *)
Lemma message_fit_in_keeps store max_length :
  0 < max_length →
  match message_fit_in encode decode store max_length with
  | Ok (c, msg, store') =>
      (msg = seq 0 (length store) ∨ msg = shortened store) ∧ c <= max_length ∧
      (store' = store ∧ c = count encode store msg ∨
       ∃ i n, i ∈ msg ∧ store' = alter (set_content (decode (take n (encode (content_at store i))))) i store)
  | Err _ => ∃ i j, head (shortened store) = Some i ∧ last (shortened store) = Some j ∧
      tokens encode (content_at store i) = 0 ∧ tokens encode (content_at store j) = 0
  end.
Proof.
  intros Hmax. unfold message_fit_in. destruct (Z.ltb_spec (count encode store (seq 0 (length store))) max_length).
  { split; [by left|]. split; [lia|]. by left. }
  destruct (Z.ltb_spec (count encode store (shortened store)) max_length).
  { split; [by right|]. split; [lia|]. by left. }
  assert (shortened store ≠ []) as Hne.
  { intros E. rewrite E in *. unfold count in *. simpl in *. lia. }
  destruct (head_last _ Hne) as (i & j & -> & -> & Hi & Hj).
  destruct (Z.eqb_spec (tokens encode (content_at store i) + tokens encode (content_at store j)) 0) as [E|E].
  { exists i, j. unfold tokens, len in *. split_and!; [done|done|lia|lia]. }
  unfold cut. destruct (flt _ _); (split; [by right|]; split; [lia|]; right).
  - exists i. eexists. split; [done|]. by rewrite slice_to_prefix at 1.
  - exists j. eexists. split; [done|]. by rewrite slice_to_prefix at 1.
Qed.

End fit.

(** A token for each character: a prompt of 90 and a question of 30 do not fit into 100,
    and nothing is cut although it is said to fit. *)
Definition chars_store (role : string) (n m : nat) : list Msg :=
  [{| ms_role := "system"; ms_content := replicate n 97%N |}; {| ms_role := role; ms_content := replicate m 98%N |}].
Example over_limit :
  match message_fit_in id id (chars_store "user" 90 30) 100 with
  | Ok (c, msg, store') => (c, count id store' msg) | Err _ => (0, 0) end = (100, 120).
Proof. vm_compute. reflexivity. Qed.


(** ** Theorems: budgets *)

Section budget.
Context {Tok : Type} (encode : text → list Tok).

Definition tokens_of (l : list text) : Z := foldr Z.add 0 (tokens encode <$> l).

(** The memories of a prompt are those from the start, as many as fit: they have at most
    97 percent of the tokens, and with the next one they would have more. *)
Theorem memory_prompt_budget messages max_tokens :
  ∃ n, memory_prompt encode messages max_tokens = take n messages ∧ (n ≤ length messages)%nat ∧
    (∀ k, (0 < k ≤ n)%nat → over_budget max_tokens (tokens_of (take k messages)) = false) ∧
    ((n < length messages)%nat → over_budget max_tokens (tokens_of (take (S n) messages)) = true).
Proof.
  unfold memory_prompt.
  assert (∀ used, ∃ n, memory_contents encode max_tokens used messages = take n messages ∧ (n ≤ length messages)%nat ∧
    (∀ k, (0 < k ≤ n)%nat → over_budget max_tokens (used + tokens_of (take k messages)) = false) ∧
    ((n < length messages)%nat → over_budget max_tokens (used + tokens_of (take (S n) messages)) = true)) as H;
    [|apply (H 0)].
  unfold tokens_of. induction messages as [|m messages IH]; intros used; simpl; [exists 0%nat; split_and!; [done|done|intros; lia|intros; lia]|].
  destruct (over_budget max_tokens (used + tokens encode m)) eqn:E.
  - exists 0%nat. split_and!; [done|lia|intros; lia|]. intros _. rewrite take_0. simpl. by rewrite Z.add_0_r.
  - destruct (IH (used + tokens encode m)) as (n & -> & Hn & Hk & Hlast). exists (S n). split; [done|]. split; [lia|].
    split.
    + intros [|k] Hlt; [lia|]. simpl. rewrite Z.add_assoc. destruct k as [|k]; [simpl; by rewrite Z.add_0_r|].
      apply Hk. lia.
    + intros Hlt. specialize (Hlast ltac:(lia)). by rewrite Z.add_assoc.
Qed.

(** The chunks of a prompt exceed the budget: of chunks with texts, those that are
    written are the first ones up to and including the first that no longer fits. *)
Theorem kb_prompt_overflows (contents : list string) max_tokens :
  Forall (λ c, truthy c = true) contents →
  let n := chunks_num encode max_tokens 0 (PStr <$> contents) in
  (n ≤ length contents)%nat ∧
  (∀ k, (0 < k < n)%nat → over_budget max_tokens (tokens_of (codes <$> take k contents)) = false) ∧
  ((n < length contents)%nat → over_budget max_tokens (tokens_of (codes <$> take n contents)) = true).
Proof.
  intros HF.
  assert (∀ used, let n := chunks_num encode max_tokens used (PStr <$> contents) in
    (n ≤ length contents)%nat ∧
    (∀ k, (0 < k < n)%nat → over_budget max_tokens (used + tokens_of (codes <$> take k contents)) = false) ∧
    ((n < length contents)%nat → over_budget max_tokens (used + tokens_of (codes <$> take n contents)) = true)) as H;
    [|apply (H 0)].
  unfold tokens_of. induction HF as [|c contents Hc HF IH]; intros used; simpl; [split_and!; intros; lia|].
  change (py_bool (PStr c)) with (truthy c). rewrite Hc. simpl.
  destruct (over_budget max_tokens (used + tokens encode (codes c))) eqn:E.
  - split_and!; [lia|intros; lia|]. intros _. rewrite take_0. simpl. by rewrite Z.add_0_r.
  - destruct (IH (used + tokens encode (codes c))) as (Hn & Hk & Hlast). split; [exact (le_n_S _ _ Hn)|]. split.
    + intros [|k] [Hk0 Hlt]; [lia|]. simpl. rewrite Z.add_assoc. destruct k as [|k]; [simpl; by rewrite Z.add_0_r|].
      apply Hk. split; [lia|]. exact (proj2 (Nat.succ_lt_mono _ _) Hlt).
    + intros Hlt. rewrite Z.add_assoc. apply Hlast. exact (proj2 (Nat.succ_lt_mono _ _) Hlt).
Qed.
End budget.

(** The chunk that does not fit is written, and an empty chunk in front pushes the last one
    out. *)
Example kb_prompt_ex :
  (chunks_num id 10 0 (PStr <$> ["12345"; "6789012"; "x"]), chunks_num id 100 0 (PStr <$> ["one"; ""; "two"])) = (2, 2)%nat.
Proof. vm_compute. reflexivity. Qed.

(** A chunk without content raises when it is among those that are written. *)
Example kb_prompt_none :
  kb_prompt id (λ _, []) (λ _, 0) [[("content", PNone)]; [("content", PStr "text")]] 100 false = Err exn_type.
Proof. vm_compute. reflexivity. Qed.
