(* ===== verification/ChunkProps.v ===== *)
(** Theorems on chunks: which sections become one chunk, that merging loses no text, and
    what a chunk holds at most. *)
From S2P Require Import Prelude Float PyText Json Dsl Effects Comp Regex PyNum PyOps Refs LlmStream Texts Canvas.
From S2P Require Import Chunks PdfPositions TokenChunker.
From Stdlib Require Import QArith Lqa.
Open Scope Z_scope.

(** ** Without an overlap *)

(** Sizes for which [n * 100] is a double *)
Definition sized (n : Z) : Prop := 0 <= n ∧ n * 100 < 2 ^ 53.

Lemma sized_part {A} (l l' : list A) : (length l ≤ length l')%nat → sized (len l') → sized (len l).
Proof. unfold sized, len. lia. Qed.

Lemma share_all n : sized n → ∃ x, share n 0 = Ok x ∧ fin x = true ∧ (fval x == inject_Z n)%Q.
Proof.
  intros [H0 Hn]. unfold share, int_to_double. rewrite Z.sub_0_r.
  destruct (double_of_Z_exact (n * 100)) as [Hf Hv]; [lia|].
  destruct (double_of_Z_exact n) as [Hf' Hv']; [lia|].
  destruct (double_of_Z_exact 100) as [Hf1 Hv1]; [lia|].
  assert (rounds (fval (double_of_Z (n * 100)) / fval (double_of_Z 100)) (fdiv (double_of_Z (n * 100)) (double_of_Z 100))) as Hr.
  { apply fdiv_rounds; [done|done|]. rewrite Hv1. done. }
  destruct (rounds_exact _ _ (double_of_Z n) Hr Hf') as [Hq Hqv].
  { rewrite Hv, Hv1, Hv', inject_Z_mult. by field. }
  exists (fdiv (double_of_Z (n * 100)) (double_of_Z 100)). split; [|split; [done|]].
  - destruct (double_of_Z (n * 100)); done.
  - rewrite Hqv, Hv, Hv1, inject_Z_mult. by field.
Qed.

Lemma num_compare_fin tk x :
  fin x = true → num_compare (NInt tk) (NFlt x) = Some (Qcompare (inject_Z tk) (fval x)).
Proof. by destruct x. Qed.

(** Comparing with a threshold that is an integer *)
Lemma compare_integer tk n x :
  fin x = true → (fval x == inject_Z n)%Q →
  match num_compare (NInt tk) (NFlt x) with Some Gt => true | _ => false end = (n <? tk).
Proof.
  intros Hf Hv. rewrite num_compare_fin by done. rewrite (Qcompare_comp _ _ (reflexivity _) _ _ Hv).
  unfold Qcompare. simpl. rewrite !Z.mul_1_r. destruct (Z.compare_spec tk n), (Z.ltb_spec n tk); try done; lia.
Qed.

Lemma exceeds_all tk n : sized n → exceeds tk n 0 = Ok (n <? tk).
Proof.
  intros Hn. destruct (share_all n Hn) as (x & Hx & Hf & Hv). unfold exceeds. rewrite Hx. cbn [mbind res_bind].
  by rewrite (compare_integer tk n).
Qed.

Lemma overlap_all s : sized (len s) → overlap s 0 = Ok [].
Proof.
  intros Hs. destruct (share_all _ Hs) as (x & Hx & Hf & Hv). unfold overlap. rewrite Hx. cbn [mbind res_bind].
  destruct (float_int_floor x Hf) as (a & -> & Ha & H1 & H2).
  { rewrite Hv. apply (inject_Z_le 0). apply Hs. }
  rewrite Hv in H1, H2. rewrite <-Zle_Qle in H1. rewrite <-Zlt_Qlt in H2.
  assert (a = len s) as -> by lia. unfold slice_from, slice_pos, len.
  rewrite decide_False by lia. rewrite Z.min_id, Nat2Z.id. by rewrite drop_all.
Qed.

(** Removing tags makes a text no longer. *)
Lemma length_re_sub r s : (length (re_sub r [] s) ≤ length s)%nat.
Proof.
  rewrite <-(finditer_text r s) at 2. unfold re_sub. destruct (finditer r s) as [l tail]. simpl.
  rewrite !length_app. apply Nat.add_le_mono_r. induction l as [|m l IH]; [done|].
  rewrite !fmap_cons. cbn [concat]. rewrite !length_app. cbn [length]. lia.
Qed.

Lemma overlap_untagged s : sized (len s) → overlap (remove_tag s) 0 = Ok [].
Proof.
  intros Hs. apply overlap_all. revert Hs. apply sized_part, length_re_sub.
Qed.

(** ** Sections and groups *)

Section groups.
Context `{Tokens}.

(** The text of a group *)
Definition glue (g : list text) : text := concat g.
Definition tokens (g : list text) : Z := foldr (λ t acc, num_tokens_from_string t + acc) 0 g.

Lemma tokens_snoc g t : tokens (g ++ [t]) = tokens g + num_tokens_from_string t.
Proof. induction g; simpl; [lia|]. rewrite IHg. lia. Qed.

(** The groups after an open group [g]: one is closed when it has more than [limit]
    tokens. *)
Fixpoint groups_go (limit : Z) (g l : list text) : list (list text) :=
  match l with
  | [] => [g]
  | t :: l => if limit <? tokens g then g :: groups_go limit [t] l else groups_go limit (g ++ [t]) l
  end.

(** A group is not empty, and all but its last text are within the limit; a group
    before another one exceeds it. *)
Definition grouped (limit : Z) (gs : list (list text)) : Prop :=
  (∀ g, g ∈ gs → ∃ g' t, g = g' ++ [t] ∧ (g' = [] ∨ tokens g' <= limit)) ∧
  (∀ i g g', gs !! i = Some g → gs !! S i = Some g' → limit < tokens g).

Lemma groups_go_concat limit g l : concat (groups_go limit g l) = g ++ l.
Proof.
  revert g. induction l as [|t l IH]; intros g; simpl; [by rewrite !app_nil_r|].
  destruct (limit <? tokens g); simpl; rewrite IH; [done|by rewrite <-app_assoc].
Qed.

Lemma groups_go_grouped limit l : ∀ g' t,
  (g' = [] ∨ tokens g' <= limit) → grouped limit (groups_go limit (g' ++ [t]) l).
Proof.
  induction l as [|u l IH]; intros g' t Hg; cbn [groups_go].
  - split; [|by intros [|i]].
    intros g ->%list_elem_of_singleton. eauto.
  - destruct (Z.ltb_spec limit (tokens (g' ++ [t]))) as [Hgt|Hle]; [|apply IH; auto].
    destruct (IH [] u ltac:(auto)) as [H1 H2]. split.
    + intros g [->|Hg']%elem_of_cons; [eauto|by apply H1].
    + intros [|i] g0 g1; simpl; [by intros [= <-] _|apply H2].
Qed.

(** A chunk that is added without a position and without an overlap *)
Lemma add_chunk_plain limit m t :
  sized limit → sized (len (mg_cur m)) →
  add_chunk limit 0 m t [] =
  Ok (if full (mg_cur m) && negb (limit <? mg_tk m)
      then {| mg_closed := mg_closed m; mg_cur := mg_cur m ++ t; mg_tk := mg_tk m + num_tokens_from_string t |}
      else {| mg_closed := mg_closed m ++ [mg_cur m]; mg_cur := t; mg_tk := num_tokens_from_string t |}).
Proof.
  intros Hl Hc. unfold add_chunk, starts_new, kept_pos, with_pos.
  assert ((if num_tokens_from_string t <? 8 then [] else []) = @nil N) as -> by (by destruct (_ <? _)).
  rewrite exceeds_all by done. rewrite !holds_nil, overlap_untagged by done. cbn [mbind res_bind].
  destruct (full (mg_cur m)), (limit <? mg_tk m); simpl; by rewrite ?holds_nil.
Qed.

Definition merge_fold (limit : Z) (m : res Merge) (l : list text) : res Merge :=
  foldl (λ m t, m ← m; add_chunk limit 0 m t []) m l.

Lemma full_concat (g : list text) : g ≠ [] → Forall (λ t, t ≠ []) g → full (concat g) = true.
Proof. intros Hg HF. apply bool_decide_eq_true. destruct HF as [|[|c t] g]; done. Qed.

Lemma merge_fold_groups limit l : ∀ closed g,
  sized limit → sized (len (concat (g ++ l))) → g ≠ [] → Forall (λ t, t ≠ []) (g ++ l) →
  ∃ m, merge_fold limit (Ok {| mg_closed := closed; mg_cur := concat g; mg_tk := tokens g |}) l = Ok m ∧
    mg_closed m ++ [mg_cur m] = closed ++ (glue <$> groups_go limit g l).
Proof.
  induction l as [|t l IH]; intros closed g Hl Hs Hg HF; [by eexists|]. simpl in *.
  rewrite add_chunk_plain; [|done|].
  2:{ revert Hs. apply sized_part. simpl. rewrite concat_app, length_app. lia. }
  simpl. rewrite full_concat; [|done|by apply Forall_app in HF as [? _]]. simpl.
  pose proof HF as (HFg & HFt)%Forall_app. destruct (limit <? tokens g) eqn:E; simpl.
  - destruct (IH (closed ++ [concat g]) [t]) as (m & Hm & Hc); [done| |done|done|].
    { revert Hs. apply sized_part. rewrite !concat_app, !length_app. simpl. rewrite ?app_nil_r, ?length_app. lia. }
    simpl in Hm. rewrite app_nil_r, Z.add_0_r in Hm. exists m. split; [exact Hm|].
    by rewrite Hc, <-app_assoc.
  - destruct (IH closed (g ++ [t])) as (m & Hm & Hc);
      [done|by rewrite <-app_assoc|by destruct g|by rewrite <-app_assoc|].
    rewrite concat_app, tokens_snoc in Hm. simpl in Hm. rewrite app_nil_r in Hm. eauto.
Qed.

Lemma merge_fold_start limit l :
  sized limit → sized (len (concat l)) → l ≠ [] → Forall (λ t, t ≠ []) l →
  ∃ m gs, merge_fold limit (Ok merge_start) l = Ok m ∧
    mg_closed m ++ [mg_cur m] = [] :: (glue <$> gs) ∧ concat gs = l ∧ grouped limit gs.
Proof.
  intros Hl Hs Hne HF. destruct l as [|t l]; [done|].
  destruct (merge_fold_groups limit l [[]] [t]) as (m & Hm & Hc); [done|done|done|done|].
  exists m, (groups_go limit [t] l). split; [|split; [exact Hc|]].
  - simpl. rewrite add_chunk_plain; [|done|by split]. simpl in *. by rewrite app_nil_r, Z.add_0_r in Hm.
  - split; [apply groups_go_concat|]. by apply (groups_go_grouped _ _ []); left.
Qed.
End groups.


(** A document of one text is one chunk, whatever the limit. *)
Lemma naive_merge_one `{Tokens} t limit ov :
  t ≠ [] → (∃ x, share 0 ov = Ok x ∧ float_int x = Some 0) →
  naive_merge (OneText t) limit [] ov = Ok [[]; newline ++ t].
Proof.
  intros Ht (x & Hx & Hi).
  assert (overlap (remove_tag []) ov = Ok []) as Ho by (unfold overlap; change (len (remove_tag [])) with 0; by rewrite Hx; cbn [mbind res_bind]; rewrite Hi).
  unfold naive_merge. cbn [tagged]. unfold full. rewrite bool_decide_true by done. cbn [foldl].
  unfold add_chunk, starts_new, with_pos, kept_pos. cbn [mg_cur merge_start full mbind res_bind]. rewrite Ho.
  destruct (_ <? 8); by rewrite ?holds_nil.
Qed.

(** ** Chunks of structured documents *)

Section jgroups.
Context `{Tokens}.

Definition jtokens (g : list JChunk) : Z := foldr (λ c acc, jc_tk_nums c + acc) 0 g.
Definition is_text (c : JChunk) : Prop := jc_type c = CkText.

(** One chunk for a group *)
Definition combine (g : list JChunk) : option JChunk :=
  match g with c :: cs => Some (foldl merge_into c cs) | [] => None end.
Definition flush_group (g : list JChunk) : list (list JChunk) := match g with [] => [] | _ => [g] end.

Fixpoint jgroups_go (size : Z) (g l : list JChunk) : list (list JChunk) :=
  match l with
  | [] => flush_group g
  | c :: l =>
      if decide (jc_type c ≠ CkText) then flush_group g ++ [c] :: jgroups_go size [] l
      else match g with
      | [] => jgroups_go size [c] l
      | _ => if size <? jtokens g then g :: jgroups_go size [c] l else jgroups_go size (g ++ [c]) l
      end
  end.

Lemma jtokens_snoc g c : jtokens (g ++ [c]) = jtokens g + jc_tk_nums c.
Proof. induction g; simpl; [lia|]. rewrite IHg. lia. Qed.

Lemma combine_snoc g p c : combine g = Some p → combine (g ++ [c]) = Some (merge_into p c).
Proof. destruct g as [|c0 g]; [done|]. simpl. intros [= <-]. by rewrite foldl_app. Qed.

Lemma combine_tokens g p : combine g = Some p → jc_tk_nums p = jtokens g.
Proof.
  revert p. induction g as [|c g IH] using rev_ind; [done|]. intros p.
  destruct (combine g) as [q|] eqn:E.
  - rewrite (combine_snoc _ _ _ E). intros [= <-]. rewrite jtokens_snoc. simpl. by rewrite (IH q).
  - destruct g; [|done]. simpl. intros [= <-]. lia.
Qed.

Lemma jgroups_go_concat size g l : concat (jgroups_go size g l) = g ++ l.
Proof.
  revert g. induction l as [|c l IH]; intros g; simpl.
  - destruct g; simpl; by rewrite ?app_nil_r.
  - case_decide.
    + rewrite concat_app. simpl. rewrite IH. destruct g; simpl; by rewrite ?app_nil_r.
    + destruct g as [|c0 g]; [by rewrite IH|]. destruct (size <? _); cbn [concat]; rewrite IH; [done|].
      by rewrite <-app_assoc.
Qed.

Lemma merge_steps size threshold l : ∀ gs g,
  (∀ tk, above_threshold tk threshold = (size <? tk)) →
  ∃ merged prev,
    foldl (λ st c, st ← st; merge_step threshold 0 st c) (Ok (omap combine gs, combine g)) l = Ok (merged, prev) ∧
    merged ++ option_list prev = omap combine (gs ++ jgroups_go size g l).
Proof.
  intros gs g Ht. revert gs g. induction l as [|c l IH]; intros gs g; simpl.
  - eexists _, _. split; [done|]. rewrite omap_app. by destruct g.
  - assert (omap combine (gs ++ flush_group g) = omap combine gs ++ option_list (combine g)) as Hflush
      by (rewrite omap_app; by destruct g).
    case_decide as Htype.
    + destruct (IH ((gs ++ flush_group g) ++ [[c]]) []) as (m & p & Hm & Hmp). exists m, p. split.
      * rewrite <-Hm. do 3 f_equal. by rewrite omap_app, Hflush.
      * by rewrite Hmp, <-!app_assoc.
    + destruct g as [|c0 g]; [apply (IH gs [c])|]. change (combine (c0 :: g)) with (Some (foldl merge_into c0 g)).
      cbn [mbind res_bind]. rewrite Ht, (combine_tokens (c0 :: g)) by done.
      destruct (size <? _) eqn:E; simpl.
      * destruct (IH (gs ++ [c0 :: g]) [c]) as (m & p & Hm & Hmp). exists m, p. split.
        -- rewrite <-Hm. do 3 f_equal. by rewrite omap_app.
        -- by rewrite Hmp, <-app_assoc.
      * destruct (IH gs (c0 :: g ++ [c])) as (m & p & Hm & Hmp). exists m, p. split; [|done].
        rewrite <-Hm. do 3 f_equal. simpl. by rewrite foldl_app.
Qed.

(** What a group may be *)
Definition media_group (g : list JChunk) : Prop := ∃ c, g = [c] ∧ ¬ is_text c.
Definition text_group (size : Z) (g : list JChunk) : Prop :=
  Forall is_text g ∧ ∃ g' c, g = g' ++ [c] ∧ (g' = [] ∨ jtokens g' <= size).

(** A text before another text exceeds the limit. *)
Definition full_before_text (size : Z) (gs : list (list JChunk)) : Prop :=
  ∀ i g g', gs !! i = Some g → gs !! S i = Some g' → Forall is_text g → Forall is_text g' → size < jtokens g.

Definition jgrouped (size : Z) (gs : list (list JChunk)) : Prop :=
  Forall (λ g, media_group g ∨ text_group size g) gs ∧ full_before_text size gs.

Lemma full_before_cons size g gs :
  full_before_text size gs → (¬ Forall is_text g ∨ size < jtokens g ∨ ∀ g', head gs = Some g' → ¬ Forall is_text g') →
  full_before_text size (g :: gs).
Proof.
  intros Hgs Hg [|i] g0 g1; simpl; [|apply Hgs]. intros [= <-] Hh HF HF'.
  destruct Hg as [Hg|[Hg|Hg]]; [by destruct Hg|done|]. destruct (Hg g1); [by destruct gs|done].
Qed.

Lemma jgroups_go_grouped size l : ∀ g,
  g = [] ∨ text_group size g → jgrouped size (jgroups_go size g l).
Proof.
  assert (∀ c, is_text c → text_group size [c]) as Hone by (intros c Hc; split; [by constructor|by exists [], c; auto]).
  induction l as [|c l IH]; intros g Hg; cbn [jgroups_go].
  - destruct g as [|c g]; [by split; [constructor|intros []]|]. destruct Hg as [?|Hg]; [done|].
    split; [by constructor; [right|constructor]|by intros [|[]]].
  - case_decide as Hc.
    + destruct (IH [] (or_introl eq_refl)) as [IH1 IH2].
      assert (media_group [c]) as Hm by (by exists c).
      assert (¬ Forall is_text [c]) as Hnt by (by intros [? _]%Forall_cons).
      assert (jgrouped size ([c] :: jgroups_go size [] l)) as Hrest.
      { split; [constructor; auto|]. apply full_before_cons; auto. }
      destruct g as [|c0 g]; [done|]. destruct Hg as [?|Hg]; [done|]. destruct Hrest as [H1 H2].
      split; [constructor; auto|]. apply full_before_cons; [done|]. right. right. by intros g' [= <-].
    + destruct g as [|c0 g]; [apply IH; auto|]. destruct Hg as [?|Hg]; [done|].
      destruct (Z.ltb_spec size (jtokens (c0 :: g))) as [Hgt|Hle].
      * destruct (IH [c]) as [IH1 IH2]; [auto|]. split; [constructor; auto|]. apply full_before_cons; auto.
      * apply IH. right. split; [|by exists (c0 :: g), c; auto]. apply Forall_app. split; [apply Hg|by constructor].
Qed.

(** What the chunk of a group holds *)
Lemma join_snoc sep l x : l ≠ [] → join sep (l ++ [x]) = join sep l ++ sep ++ x.
Proof.
  induction l as [|y l IH]; [done|]. intros _. destruct l as [|z l]; [done|].
  simpl in *. rewrite IH by done. by rewrite <-!app_assoc.
Qed.

Definition shown (g : list JChunk) : list text := filter (λ t, t ≠ []) (jc_text <$> g).

Lemma combine_content g p :
  combine g = Some p → jc_text p = join newline (shown g) ∧ jc_positions p = concat (jc_positions <$> g).
Proof.
  revert p. induction g as [|c g IH] using rev_ind; [done|]. intros p. unfold shown. rewrite !fmap_app, filter_app, concat_app.
  destruct (combine g) as [q|] eqn:E.
  - rewrite (combine_snoc _ _ _ E). intros [= <-]. destruct (IH q eq_refl) as [Ht Hp]. simpl.
    rewrite app_nil_r, <-Hp. split; [|done]. rewrite Ht. unfold full, shown in *.
    set (u := filter _ (jc_text <$> g)) in *. rewrite filter_cons, filter_nil.
    assert (Forall (λ t, t ≠ []) u) as Hu by (apply Forall_forall; intros t Hx; apply list_elem_of_filter in Hx; tauto).
    destruct (decide (jc_text c ≠ [])) as [Hc|Hc]; simpl.
    + rewrite (bool_decide_true (jc_text c ≠ [])) by done. destruct u as [|t u]; [done|].
      apply Forall_cons in Hu as [Hu _]. rewrite bool_decide_true by (destruct t; [done|]; by destruct u).
      simpl andb. cbv iota. by rewrite (join_snoc _ (t :: u)).
    + apply dec_stable in Hc. rewrite Hc, (bool_decide_false ([] ≠ [])) by auto. rewrite andb_false_r.
      by rewrite !app_nil_r.
  - destruct g; [|done]. simpl. intros [= <-]. rewrite app_nil_r. split; [|done]. rewrite filter_cons, filter_nil.
    by case_decide.
Qed.
End jgroups.

(** C22. Without an overlap the chunker keeps a structured document in its order: the chunks
    of a token chunker are those of the document in groups. A table or an image is a group
    of its own; texts between two of them are put together, line by line and with their
    positions, until they have more tokens than the limit. *)
Theorem merge_text_chunks_groups `{Tokens} cks size :
  sized size →
  ∃ gs, _merge_text_chunks_by_token_size cks size 0 = Ok (omap combine gs) ∧
    concat gs = cks ∧ jgrouped size gs ∧
    ∀ g, g ∈ gs → ∃ p, combine g = Some p ∧ jc_text p = join newline (shown g) ∧
      jc_positions p = concat (jc_positions <$> g) ∧ jc_tk_nums p = jtokens g.
Proof.
  intros Hs. destruct (share_all size Hs) as (x & Hx & Hf & Hv).
  destruct (merge_steps size x cks [] []) as (m & p & Hm & Hmp).
  { intros tk. by apply compare_integer. }
  exists (jgroups_go size [] cks). split; [|split; [apply jgroups_go_concat|]].
  - unfold _merge_text_chunks_by_token_size. rewrite Hx. cbn [mbind res_bind]. simpl in Hm. rewrite Hm. simpl.
    by rewrite Hmp.
  - destruct (jgroups_go_grouped size cks []) as [H1 H2]; [auto|]. split; [done|]. intros g Hg.
    rewrite Forall_forall in H1. assert (g ≠ []) as Hne.
    { destruct (H1 g Hg) as [(c & -> & _)|(_ & g' & c & -> & _)]; [done|by destruct g']. }
    destruct (combine g) as [q|] eqn:E; [|by destruct g]. exists q. split; [done|].
    destruct (combine_content _ _ E). split_and!; [done|done|by apply combine_tokens].
Qed.

(** ** Texts that are not split *)

Lemma normalized_bounds v z : normalize_overlapped_percent v = Ok z → 0 <= z <= 90.
Proof.
  unfold normalize_overlapped_percent. destruct (caught _) as [[x|]|]; cbn [mbind res_bind]; [|intros [= <-]; lia|done].
  destruct (float_int _); [|done]. intros [= <-]. lia.
Qed.

(** An overlap of 99 percent is one of 90, an overlap of 100 percent one of 1. *)
Example overlap_of_one :
  (normalize_overlapped_percent (PFloat "0.99"), normalize_overlapped_percent (PInt 1)) = (Ok 90, Ok 1).
Proof. vm_compute. reflexivity. Qed.

Lemma strip_newline t : strip (newline ++ t) = strip t.
Proof. done. Qed.

(** The limit of a token chunker does not hold for texts: a Markdown, HTML or plain text
    that is not split at a delimiter becomes one chunk, however long it is and whatever
    the number of tokens asked for. *)
Theorem token_chunker_one_chunk `{Tokens} preview p name t ov :
  _compile_delimiter_pattern (tp_delimiters p) = [] → tp_children_delimiters p = [] →
  normalize_overlapped_percent (tp_overlapped_percent p) = Ok ov → visible t = true →
  TokenChunker_invoke preview p (inr {| up_name := name; up_payload := Formatted t |}) =
  Ok [("output_format", PStr "chunks"); ("chunks", PList [PDict [("text", text_value (strip t))]])].
Proof.
  intros Hd Hc Hov Ht. unfold TokenChunker_invoke, token_chunks. rewrite Hd, Hov. cbn [mbind res_bind up_payload].
  rewrite decide_True by done. rewrite naive_merge_one.
  - cbn [mbind res_bind]. unfold text_docs, children_pattern. rewrite Hc, decide_True by done.
    rewrite filter_cons_False by done. rewrite filter_cons_True by done. rewrite filter_nil. simpl. done.
  - intros ->. done.
  - eexists. split; [unfold share; by rewrite Z.mul_0_l|by vm_compute].
Qed.

(** ** Word documents *)

Section docx.
Context `{Tokens} {Img : Type}.
Implicit Types (cks merged : list (Ck (Img := Img))).

Definition texts_of cks : list text := ck_text <$> filter (λ c, ck_type c = CkText) cks.
Definition media_of cks : list Ck := filter (λ c, ck_type c ≠ CkText) cks.

Lemma texts_of_app l l' : texts_of (l ++ l') = texts_of l ++ texts_of l'.
Proof. unfold texts_of. by rewrite filter_app, fmap_app. Qed.

Lemma indices_snoc ty cks c :
  indices ty (cks ++ [c]) = indices ty cks ++ (if decide (ck_type c = ty) then [length cks] else []).
Proof.
  unfold indices. rewrite imap_app, filter_app, fmap_app. f_equal. simpl. rewrite filter_cons, filter_nil. simpl.
  rewrite Nat.add_0_r. by case_decide.
Qed.

Lemma indices_alter ty f j cks : (∀ c, ck_type (f c) = ck_type c) → indices ty (alter f j cks) = indices ty cks.
Proof.
  intros Hf. revert j. induction cks as [|c cks IH] using rev_ind; intros j; [done|].
  rewrite indices_snoc. destruct (decide (j < length cks)%nat) as [Hj|Hj].
  - rewrite alter_app_l by done. rewrite indices_snoc, IH. by rewrite length_alter.
  - replace j with (length cks + (j - length cks))%nat by lia. rewrite alter_app_r.
    destruct (j - length cks)%nat as [|k]; simpl; by rewrite indices_snoc, ?Hf.
Qed.

(** The state of the merge: [prev] is the last text. *)
Definition merging_ok (seen : list Ck) (st : Merging (Img := Img)) : Prop :=
  let '(merged, image_idxs, prev) := st in
  concat (texts_of merged) = concat (texts_of seen) ∧ media_of merged = media_of seen ∧
  image_idxs = indices CkImage merged ∧
  ∀ j, prev = Some j → ∃ a p b, merged = a ++ p :: b ∧ length a = j ∧ ck_type p = CkText ∧ texts_of b = [].

Lemma merge_ck_ok n custom seen st c :
  merging_ok seen st → merging_ok (seen ++ [c]) (merge_ck n custom st c).
Proof.
  destruct st as [[merged idxs] prev]. intros (Ht & Hm & Hi & Hp).
  assert (ck_type c = CkText → merging_ok (seen ++ [c]) (merged ++ [c], idxs, Some (length merged))) as Hnew.
  { intros Hc. unfold merging_ok. rewrite !texts_of_app, !concat_app, Ht. unfold media_of in *.
    rewrite !filter_app, Hm, indices_snoc, Hc, decide_False, app_nil_r by done. split_and!; [done|done|done|].
    intros j [= <-]. exists merged, c, []. auto. }
  assert (ck_type c ≠ CkText → merging_ok (seen ++ [c])
    (merged ++ [c], idxs ++ (if decide (ck_type c = CkImage) then [length merged] else []), prev)) as Hmedia.
  { intros Hc. unfold merging_ok. rewrite !texts_of_app, !concat_app, Ht. unfold media_of in *.
    rewrite !filter_app, Hm, indices_snoc, Hi. split_and!; [done|done|done|].
    intros j Hj. destruct (Hp j Hj) as (a & p & b & -> & Hlen & Hpt & Hb). exists a, p, (b ++ [c]).
    rewrite texts_of_app, Hb, <-app_assoc. split_and!; [done|done|done|].
    unfold texts_of. by rewrite filter_cons_False. }
  unfold merge_ck. destruct (ck_type c) eqn:Hc.
  - destruct prev as [j|]; [|by apply Hnew]. destruct (_ && _); [|by apply Hnew].
    destruct (Hp j eq_refl) as (a & p & b & -> & <- & Hpt & Hb). unfold merging_ok.
    assert (alter (λ p, joined p c) (length a) (a ++ p :: b) = a ++ joined p c :: b) as Halt.
    { replace (length a) with (length a + 0)%nat by lia. by rewrite alter_app_r. }
    split_and!.
    + rewrite Halt, texts_of_app, texts_of_app, concat_app, concat_app, <-Ht.
      unfold texts_of in *. rewrite filter_app, fmap_app, concat_app. rewrite !filter_cons_True by done.
      rewrite !fmap_cons. cbn [concat]. rewrite filter_nil, Hb. simpl. by rewrite <-!app_assoc, !app_nil_r.
    + rewrite Halt. unfold media_of in *. rewrite (filter_app _ seen), <-Hm.
      rewrite !filter_app, !filter_cons_False by (intros Hx; by apply Hx). by rewrite filter_nil, app_nil_r.
    + by rewrite indices_alter, Hi.
    + intros j [= <-]. exists a, (joined p c), b. auto.
  - specialize (Hmedia ltac:(done)). rewrite decide_False, app_nil_r in Hmedia by done. done.
  - by apply Hmedia.
Qed.

Lemma merge_cks_ok n custom cks : ∀ seen st,
  merging_ok seen st → merging_ok (seen ++ cks) (foldl (merge_ck n custom) st cks).
Proof.
  induction cks as [|c cks IH]; intros seen st Hst; simpl; [by rewrite app_nil_r|].
  rewrite cons_middle, app_assoc. by apply IH, merge_ck_ok.
Qed.
End docx.

(** Merging the chunks of a Word document keeps every text and every medium: the texts
    put together are the same, the tables and images are the same and in the same order,
    and the indices that are returned are those of the images. *)
Theorem merge_cks_keeps `{Tokens} {Img} (cks : list (Ck (Img := Img))) n custom :
  let '(merged, image_idxs) := _merge_cks cks n custom in
  concat (texts_of merged) = concat (texts_of cks) ∧ media_of merged = media_of cks ∧
  image_idxs = indices CkImage merged.
Proof.
  pose proof (merge_cks_ok n custom cks [] ([], [], None)) as Hok. unfold _merge_cks.
  destruct (foldl _ _ cks) as [[merged idxs] prev]. destruct Hok as (H1 & H2 & H3 & _); [|done].
  split_and!; [done|done|done|]. by intros j.
Qed.

#[local] Instance letters : Tokens := {| num_tokens := length |}.

(** The order of texts and tables is not kept: the text behind a table comes before it
    when it is merged, and the text before a table behind it when there are custom
    delimiters. *)
Definition docx_example : list (DocxSection (Img := nat)) :=
  [ {| dx_text := Some (codes "one."); dx_image := None; dx_table := None |};
    {| dx_text := None; dx_image := None; dx_table := Some (codes "<table>") |};
    {| dx_text := Some (codes "two#three"); dx_image := None; dx_table := None |} ].
Example docx_order :
  ((λ c, of_codes (ck_text c)) <$> (naive_merge_docx docx_example 100 [] 0 0).1,
   (λ c, of_codes (ck_text c)) <$> (naive_merge_docx docx_example 100 (codes "`#`") 0 0).1)
  = (["one.two#three"; "<table>"], ["<table>"; "one." +:+ String "010" "two"; "three"]).
Proof. vm_compute. reflexivity. Qed.


Definition jtext (s : string) : JChunk := jchunk CkText (codes s) PNone [].
Definition jtable (s : string) : JChunk := jchunk CkTable (codes s) PNone [].

Lemma merge_text_chunks_groups_witness :
  let cks := [jtext "a"; jtable "t"; jtext "bcd"; jtext "e"; jtext "f"] in
  ∃ gs, _merge_text_chunks_by_token_size cks 2 0 = Ok (omap combine gs) ∧
    concat gs = cks ∧ jgrouped 2 gs ∧
    ∀ g, g ∈ gs → ∃ p, combine g = Some p ∧ jc_text p = join newline (shown g) ∧
      jc_positions p = concat (jc_positions <$> g) ∧ jc_tk_nums p = jtokens g.
Proof. intros cks. apply (merge_text_chunks_groups cks 2). by split. Defined.

Definition plain_param : TokenChunkerParam := {|
  tp_chunk_token_size := 2; tp_delimiters := [newline]; tp_overlapped_percent := PInt 0;
  tp_children_delimiters := []; tp_table_context_size := 0; tp_image_context_size := 0 |}.

Lemma token_chunker_one_chunk_witness :
  TokenChunker_invoke (λ _, None) plain_param (inr {| up_name := "a.md"; up_payload := Formatted (codes "one two three") |}) =
  Ok [("output_format", PStr "chunks"); ("chunks", PList [PDict [("text", text_value (strip (codes "one two three")))]])].
Proof.
  apply (token_chunker_one_chunk _ plain_param _ _ 0); [by vm_compute|done|by vm_compute|by vm_compute].
Defined.
