(* ===== verification/OutlineProps.v ===== *)
(** Theorems on the merging by headings: a tree of headings holds its lines in order, each
    on a branch with the headings that enclose it, and so do the chunks of [tree_merge]. *)
From S2P Require Import Prelude Float PyText Json Dsl Effects Comp Regex PyNum PyOps Refs LlmStream Texts.
From S2P Require Import Chunks Bullets Outline.
Open Scope Z_scope.

Lemma elem_of_concat_list {A} (x : A) ls : x ∈ concat ls ↔ ∃ l, x ∈ l ∧ l ∈ ls.
Proof.
  induction ls as [|l ls IH]; simpl; [split; [by intros ?%elem_of_nil|by intros (? & _ & ?%elem_of_nil)]|].
  rewrite elem_of_app, IH. setoid_rewrite elem_of_cons. naive_solver.
Qed.

Lemma concat_map_map {A B C} (f : B → C) (g : A → list B) l :
  map f (concat (map g l)) = concat (map (λ x, map f (g x)) l).
Proof. induction l as [|x l IH]; [done|]. simpl. by rewrite map_app, IH. Qed.

Lemma StronglySorted_snoc {A} (R : relation A) l x :
  StronglySorted R l → Forall (λ y, R y x) l → StronglySorted R (l ++ [x]).
Proof.
  induction 1 as [|y l Hl IH Hy]; simpl; [by repeat constructor|]. intros [Hyx Hx]%Forall_cons.
  constructor; [by apply IH|]. apply Forall_app. auto.
Qed.

Lemma lookup_concat_map {A B} (f : A → list B) l k s :
  concat (map f l) !! k = Some s →
  ∃ a c b i, l = a ++ c :: b ∧ k = (length (concat (map f a)) + i)%nat ∧ f c !! i = Some s.
Proof.
  revert k. induction l as [|x l IH]; intros k; [done|]. simpl. intros [Hk|[Hlen Hk]]%lookup_app_Some.
  - by exists [], x, l, k.
  - apply IH in Hk as (a & c & b & i & -> & Hk & Hc). exists (x :: a), c, b, i. simpl. rewrite length_app.
    split_and!; [done|lia|done].
Qed.

(** ** Trees *)

Section tree.
Context {A : Type}.
Implicit Types (n : Node A) (top : Frame A) (below : list (Frame A)) (lines : list (Z * A)).

Definition node_level (n : Node A) : Z := let '(MkNode l _ _) := n in l.

Section node_ind.
Context (P : Node A → Prop) (Hnode : ∀ l ts cs, Forall P cs → P (MkNode l ts cs)).
Fixpoint node_ind' (n : Node A) : P n :=
  match n with
  | MkNode l ts cs => Hnode l ts cs ((fix go cs := match cs return Forall P cs with
      | [] => Forall_nil_2 P | c :: cs => Forall_cons_2 P c cs (node_ind' c) (go cs) end) cs)
  end.
End node_ind.

(** A part of the document: a heading with the texts under it that are no headings *)
Local Notation part := (Z * list A)%type.

(** The parts of a tree in the order of the document *)
Fixpoint preorder (n : Node A) : list part :=
  let '(MkNode l ts cs) := n in (l, ts) :: concat (map preorder cs).

Definition frame_order (f : Frame A) : list part :=
  (fr_level f, fr_texts f) :: concat (map preorder (fr_children f)).
Fixpoint open_order (top : Frame A) (below : list (Frame A)) : list part :=
  match below with [] => frame_order top | p :: below' => open_order p below' ++ frame_order top end.

Lemma frame_order_add f g : frame_order (add_child f (node_of g)) = frame_order f ++ frame_order g.
Proof. unfold frame_order. simpl. rewrite map_app, concat_app. simpl. by rewrite app_nil_r. Qed.

Lemma open_order_add p g below : open_order (add_child p (node_of g)) below = open_order p below ++ frame_order g.
Proof. destruct below; simpl; by rewrite frame_order_add, ?app_assoc. Qed.

Lemma climb_order level below : ∀ top,
  let '(top', below') := climb level top below in open_order top' below' = open_order top below.
Proof.
  induction below as [|p below IH]; intros top; simpl; [done|]. destruct (level <=? fr_level top); [|done].
  specialize (IH (add_child p (node_of top))). destruct (climb _ _ _). by rewrite IH, open_order_add.
Qed.

Lemma close_all_order below : ∀ top, preorder (close_all top below) = open_order top below.
Proof. induction below as [|p below IH]; intros top; simpl; [done|]. by rewrite IH, open_order_add. Qed.

(** ** The parts of a document *)

(** A line that is a heading starts a part, any other one belongs to the last part. *)
Definition add_to_last (parts : list part) (t : A) : list part :=
  match rev parts with (l, ts) :: r => rev r ++ [(l, ts ++ [t])] | [] => [] end.
Definition add_part (depth : Z) (parts : list part) (line : Z * A) : list part :=
  if depth <? line.1 then add_to_last parts line.2 else parts ++ [(line.1, [line.2])].
Definition parts_of (depth : Z) (lines : list (Z * A)) : list part :=
  foldl (add_part depth) [(0, [])] lines.

Lemma add_to_last_snoc parts l ts t : add_to_last (parts ++ [(l, ts)]) t = parts ++ [(l, ts ++ [t])].
Proof. unfold add_to_last. rewrite rev_app_distr. simpl. by rewrite rev_involutive. Qed.

Lemma open_order_snoc top below : fr_children top = [] →
  open_order top below =
  (match below with [] => [] | p :: below' => open_order p below' end) ++ [(fr_level top, fr_texts top)].
Proof. intros Hc. destruct below; simpl; unfold frame_order; by rewrite Hc. Qed.

Lemma build_tree_parts depth lines :
  0 <= depth → preorder (build_tree depth lines) = parts_of depth lines.
Proof.
  intros Hd. unfold build_tree, parts_of.
  assert (∀ lines top below parts, fr_children top = [] → open_order top below = parts →
    let '(top', below') := foldl (add_line depth) (top, below) lines in
    preorder (close_all top' below') = foldl (add_part depth) parts lines) as Hfold.
  { clear lines. intros lines. induction lines as [|[level t] lines IH]; intros top below parts Hc Ho; simpl.
    - by rewrite close_all_order.
    - unfold add_part. simpl. assert ((depth =? -1) = false) as -> by lia. simpl. destruct (depth <? level).
      + apply IH; [done|]. rewrite open_order_snoc in Ho by done. rewrite <-Ho, open_order_snoc by done.
        by rewrite add_to_last_snoc.
      + pose proof (climb_order level below top) as Hcl. destruct (climb level top below) as [top' below'].
        apply IH; [done|]. simpl. by rewrite Hcl, Ho. }
  specialize (Hfold lines root_frame [] [(0, [])] eq_refl eq_refl). by destruct (foldl _ _ lines).
Qed.

(** ** Nesting *)

(** Children are deeper than their parent and not deeper than the siblings before them. *)
Inductive nested : Node A → Prop :=
  Nested l ts cs :
    Forall (λ c, l < node_level c ∧ nested c) cs →
    StronglySorted (λ c d, node_level d <= node_level c) cs →
    nested (MkNode l ts cs).

Definition frame_ok (f : Frame A) : Prop := nested (node_of f).
Fixpoint stack_ok (top : Frame A) (below : list (Frame A)) : Prop :=
  frame_ok top ∧
  match below with
  | [] => True
  | p :: below' =>
      fr_level p < fr_level top ∧ Forall (λ c, fr_level top <= node_level c) (fr_children p) ∧ stack_ok p below'
  end.

Lemma frame_ok_add p g :
  frame_ok p → frame_ok g → fr_level p < fr_level g →
  Forall (λ c, fr_level g <= node_level c) (fr_children p) → frame_ok (add_child p (node_of g)).
Proof.
  intros Hp Hg Hl Hc. inversion_clear Hp as [??? HF HS]. constructor; simpl.
  - apply Forall_app. split; [done|]. by constructor.
  - by apply StronglySorted_snoc.
Qed.

Lemma frame_ok_text f t : frame_ok f → frame_ok (add_text f t).
Proof. intros Hf. inversion_clear Hf. by constructor. Qed.

Fixpoint root_level (top : Frame A) (below : list (Frame A)) : Z :=
  match below with [] => fr_level top | p :: below' => root_level p below' end.

Lemma root_level_add p (g : Node A) below : root_level (add_child p g) below = root_level p below.
Proof. by destruct below. Qed.

(** Where a heading of the level [level] is put *)
Lemma climb_ok level below : ∀ top,
  stack_ok top below → Forall (λ c, level <= node_level c) (fr_children top) → root_level top below < level →
  let '(top', below') := climb level top below in
  stack_ok top' below' ∧ fr_level top' < level ∧ Forall (λ c, level <= node_level c) (fr_children top') ∧
  root_level top' below' = root_level top below.
Proof.
  induction below as [|p below IH]; intros top Hok Hc Hroot; simpl; [done|].
  destruct Hok as (Htop & Hlt & Hp & Hok). destruct (Z.leb_spec level (fr_level top)).
  - assert (stack_ok (add_child p (node_of top)) below) as Hok'.
    { destruct below; destruct Hok as [H1 H2]; split; [|done| |done]; by apply frame_ok_add. }
    specialize (IH _ Hok'). rewrite root_level_add in IH. destruct (climb _ _ _) as [top' below'].
    apply IH; [|done]. simpl. apply Forall_app. split; [|by constructor].
    eapply Forall_impl; [exact Hp|]. simpl. lia.
  - split; [exact (conj Htop (conj Hlt (conj Hp Hok)))|]. split; [lia|]. by split.
Qed.

Lemma close_all_ok below : ∀ top, stack_ok top below →
  nested (close_all top below) ∧ node_level (close_all top below) = root_level top below.
Proof.
  induction below as [|p below IH]; intros top Hok; [by destruct Hok|].
  destruct Hok as (Htop & Hlt & Hp & Hok). simpl. rewrite <-(root_level_add p (node_of top)). apply IH.
  destruct below; destruct Hok as [H1 H2]; split; [|done| |done]; by apply frame_ok_add.
Qed.

Lemma build_tree_nested depth lines :
  0 <= depth → Forall (λ l, 1 <= l.1) lines →
  nested (build_tree depth lines) ∧ node_level (build_tree depth lines) = 0.
Proof.
  intros Hd Hlines. unfold build_tree.
  assert (∀ top below, stack_ok top below → fr_children top = [] → root_level top below = 0 →
    let '(top', below') := foldl (add_line depth) (top, below) lines in
    nested (close_all top' below') ∧ node_level (close_all top' below') = 0) as Hfold.
  { induction Hlines as [|[level t] lines Hl Hlines IH]; intros top below Hok Hc Hr; simpl.
    - destruct (close_all_ok below top Hok) as [H1 H2]. by rewrite H2.
    - assert ((depth =? -1) = false) as -> by lia. simpl. destruct (depth <? level).
      + apply IH; [|done|by destruct below]. destruct below; destruct Hok as [H1 H2];
          (split; [by apply frame_ok_text|done]).
      + simpl in Hl. pose proof (climb_ok level below top Hok) as Hcl. rewrite Hc in Hcl.
        destruct (climb level top below) as [top' below']. destruct Hcl as (H1 & H2 & H3 & H4); [done|lia|].
        apply IH; [|done|by simpl; rewrite H4]. simpl. split; [by repeat constructor|]. auto. }
  specialize (Hfold root_frame []). destruct (foldl _ _ lines). apply Hfold; [|done|done].
  split; [by repeat constructor|done].
Qed.

(** ** Branches *)

(** The texts from a node down to each of its leaves *)
Fixpoint branches (n : Node A) : list (list A) :=
  let '(MkNode _ ts cs) := n in
  match cs with [] => [ts] | _ => map (app ts) (concat (map branches cs)) end.

Lemma branches_not_nil n : branches n ≠ [].
Proof.
  induction n as [l ts cs IH] using node_ind'. destruct IH as [|c cs Hc _]; [done|].
  simpl. by destruct (branches c).
Qed.

(** ** Enclosing headings *)

(** The [j]-th part encloses the [k]-th: everything after it up to there is deeper. *)
Definition encloses (ps : list part) (j k : nat) : Prop :=
  (j < k)%nat ∧ ∀ s m s', ps !! j = Some s → (j < m ≤ k)%nat → ps !! m = Some s' → s.1 < s'.1.

Lemma nested_levels n : nested n → Forall (λ p, node_level n <= p.1) (preorder n).
Proof.
  induction n as [l ts cs IH] using node_ind'. intros Hn. inversion_clear Hn as [??? HF _]. simpl.
  constructor; [simpl; lia|]. induction IH as [|c cs Hc _ IH]; [constructor|]. simpl.
  apply Forall_cons in HF as [[Hlt Hnc] HF]. apply Forall_app. split; [|by apply IH].
  eapply Forall_impl; [by apply Hc|]. simpl. lia.
Qed.

(** Siblings before a node do not enclose anything in it. *)
Lemma sibling_not_deeper a c b :
  Forall nested a → StronglySorted (λ c d, node_level d <= node_level c) (a ++ c :: b) →
  Forall (λ p, node_level c <= p.1) (concat (map preorder a)).
Proof.
  intros Ha Hs. induction Ha as [|d a Hd Ha IH]; [constructor|]. simpl in *.
  apply StronglySorted_inv in Hs as [Hs Hfa]. apply Forall_app. split; [|by apply IH].
  apply Forall_app in Hfa as [_ [Hcd _]%Forall_cons]. eapply Forall_impl; [by apply nested_levels|]. simpl. lia.
Qed.

(** Every part is in a branch with all the parts that enclose it. *)
Definition branch_of (n : Node A) (ps : list part) (bs : list (list A)) : Prop :=
  ∀ k s, ps !! k = Some s → ∃ b, b ∈ bs ∧ s.2 ⊆ b ∧
    ∀ j s', encloses ps j k → ps !! j = Some s' → s'.2 ⊆ b.

Lemma children_branches cs :
  Forall nested cs → StronglySorted (λ c d, node_level d <= node_level c) cs →
  Forall (λ c, branch_of c (preorder c) (branches c)) cs →
  ∀ k s, concat (map preorder cs) !! k = Some s → ∃ b, b ∈ concat (map branches cs) ∧ s.2 ⊆ b ∧
    ∀ j s', encloses (concat (map preorder cs)) j k → concat (map preorder cs) !! j = Some s' → s'.2 ⊆ b.
Proof.
  intros Hn Hs IH k s Hk. apply lookup_concat_map in Hk as (a & c & d & i & -> & -> & Hi).
  apply Forall_app in IH as [_ [IHc _]%Forall_cons]. apply Forall_app in Hn as [Hna [Hnc _]%Forall_cons].
  destruct (IHc i s Hi) as (b & Hb & Hsb & Hj). exists b. rewrite !map_app, !concat_app. simpl.
  set (pa := concat (map preorder a)) in *. set (pd := concat (map preorder d)).
  assert (∀ m, (m < length (preorder c))%nat → (pa ++ preorder c ++ pd) !! (length pa + m)%nat = preorder c !! m) as Hl.
  { intros m Hm. rewrite lookup_app_r by lia. rewrite lookup_app_l by lia. f_equal. lia. }
  pose proof (lookup_lt_Some _ _ _ Hi) as Hilen.
  split; [|split; [done|]].
  { apply elem_of_app. right. apply elem_of_app. by left. }
  intros j s' [Hlt Henc] Hs'. destruct (decide (j < length pa)%nat) as [Hja|Hja].
  - exfalso. pose proof (sibling_not_deeper a c d Hna Hs) as HF. rewrite Forall_forall in HF.
    rewrite lookup_app_l in Hs' by done. specialize (HF s' (list_elem_of_lookup_2 _ _ _ Hs')).
    destruct c as [l ts cs']. specialize (Henc s' (length pa + 0)%nat (l, ts)). simpl in HF, Henc.
    assert (s'.1 < l); [|lia]. apply Henc; [by rewrite lookup_app_l|lia|]. by rewrite Hl by (simpl; lia).
  - apply (Hj (j - length pa)%nat).
    + split; [lia|]. intros t m t' Ht Hm Ht'. apply (Henc t (length pa + m)%nat t'); [|lia|].
      * replace j with (length pa + (j - length pa))%nat by lia. rewrite Hl by lia. done.
      * rewrite Hl by (by eapply lookup_lt_Some). done.
    + rewrite <-Hl by lia. by replace (length pa + (j - length pa))%nat with j by lia.
Qed.

Lemma nested_branches n : nested n → branch_of n (preorder n) (branches n).
Proof.
  induction n as [l ts cs IH] using node_ind'. intros Hn. inversion_clear Hn as [??? HF HS].
  assert (Forall nested cs) as Hcs by (eapply Forall_impl; [exact HF|]; simpl; tauto).
  intros [|k] s; simpl.
  - intros [= <-]. pose proof (branches_not_nil (MkNode l ts cs)) as Hb. simpl in Hb.
    destruct cs as [|c cs]; [|destruct (concat (map branches (c :: cs))) as [|b bs] eqn:E; [done|]].
    + exists ts. split; [by left|]. split; [done|]. intros j s' [? _]. lia.
    + exists (ts ++ b). split; [by left|]. split; [apply list_subseteq_app_l; done|]. intros j s' [? _]. lia.
  - intros Hk. destruct (children_branches cs Hcs HS) with k s as (b & Hb & Hsb & Hj); [|done|].
    { clear -IH Hcs. induction IH; [constructor|]. apply Forall_cons in Hcs as [? ?]. auto. }
    destruct cs as [|c cs]; [done|]. exists (ts ++ b). split; [by apply (list_elem_of_fmap_2 (app ts))|].
    split; [by apply list_subseteq_app_r|]. intros [|j] s' [Hlt Henc] Hs'.
    + injection Hs' as <-. by apply list_subseteq_app_l.
    + apply list_subseteq_app_r, (Hj j); [|done]. split; [lia|]. intros t m t' Ht Hm Ht'.
      apply (Henc t (S m) t'); [done|lia|done].
Qed.

Lemma parts_texts depth lines : 0 <= depth → concat (parts_of depth lines).*2 = lines.*2.
Proof.
  intros Hd. unfold parts_of. change (lines.*2) with (concat ([(0, [])] : list part).*2 ++ lines.*2).
  assert ([(0, [])] ≠ ([] : list part)) as Hne by done. revert Hne. generalize ([(0, [])] : list part).
  induction lines as [|[l t] lines IH]; intros ps Hne; simpl; [by rewrite app_nil_r|].
  destruct ps as [|[l' ts] ps _] using rev_ind; [done|].
  unfold add_part. simpl. destruct (depth <? l).
  - rewrite add_to_last_snoc, IH by (by destruct ps). rewrite !fmap_app, !concat_app. simpl.
    by rewrite !app_nil_r, <-!app_assoc.
  - rewrite IH by (by destruct ps). rewrite !fmap_app, !concat_app. simpl.
    by rewrite !app_nil_r, <-!app_assoc.
Qed.

Lemma parts_levels depth lines :
  Forall (λ l, 1 <= l.1) lines →
  ∃ ts rest, parts_of depth lines = (0, ts) :: rest ∧ Forall (λ p, 1 <= p.1 <= depth) rest.
Proof.
  intros HF. unfold parts_of.
  assert (∀ ts rest, Forall (λ p, 1 <= p.1 <= depth) rest → ∃ ts' rest',
    foldl (add_part depth) ((0, ts) :: rest) lines = (0, ts') :: rest' ∧ Forall (λ p, 1 <= p.1 <= depth) rest') as Hf;
    [|by apply (Hf [] [])].
  induction HF as [|[l t] lines Hl HF IH]; intros ts rest Hr; simpl; [eauto|].
  unfold add_part at 2. simpl in *. destruct (Z.ltb_spec depth l).
  - destruct rest as [|[l' ts'] rest _] using rev_ind; [by apply (IH (ts ++ [t]))|].
    rewrite app_comm_cons, add_to_last_snoc. apply Forall_app in Hr as [H1 H2]. apply (IH ts).
    apply Forall_app. split; [done|]. by inversion_clear H2; constructor.
  - apply (IH ts). apply Forall_app. split; [done|]. by constructor; [simpl; lia|].
Qed.
End tree.

(** ** The chunks of a tree *)

(** The chunks of a heading within the depth are its branches. *)
Lemma dfs_branches depth n : ∀ titles,
  Forall (λ p, 1 <= p.1 <= depth) (preorder n) →
  dfs depth titles n = map (λ b, lines_text (titles ++ b)) (branches n).
Proof.
  induction n as [l ts cs IH] using node_ind'. intros titles [Hl Hcs]%Forall_cons. simpl in Hl. simpl.
  assert ((l =? 0) = false) as -> by lia. assert ((1 <=? l) = true) as -> by lia.
  assert ((l <=? depth) = true) as -> by lia. assert ((depth <? l) = false) as -> by lia. simpl.
  assert (concat (map (dfs depth (titles ++ ts)) cs) =
    concat (map (λ c, map (λ b, lines_text (titles ++ ts ++ b)) (branches c)) cs)) as ->.
  { f_equal. induction IH as [|c cs Hc IHc IH']; [done|]. simpl in *. apply Forall_app in Hcs as [H1 H2].
    rewrite IH' by done. f_equal. rewrite Hc by done. apply map_ext. intros b. by rewrite app_assoc. }
  destruct cs as [|c cs]; [done|]. rewrite bool_decide_false by done.
  by rewrite map_map, (concat_map_map _ branches).
Qed.

(** A part that is not empty is in one chunk with all headings that enclose it. *)
Definition kept_in (ps : list (Z * list text)) (chunks : list text) : Prop :=
  ∀ k s, ps !! k = Some s → s.2 ≠ [] → ∃ b, lines_text b ∈ chunks ∧ s.2 ⊆ b ∧
    ∀ j s', encloses ps j k → 1 <= s'.1 → ps !! j = Some s' → s'.2 ⊆ b.

Lemma get_tree_kept depth lines :
  1 <= depth → Forall (λ l, 1 <= l.1) lines →
  kept_in (parts_of depth lines) (get_tree depth (build_tree depth lines)).
Proof.
  intros Hd Hlines. destruct (build_tree_nested depth lines ltac:(lia) Hlines) as [Hn Hl].
  rewrite <-build_tree_parts by lia. destruct (parts_levels depth lines Hlines) as (ts0 & rest & Hp & Hrest).
  rewrite <-build_tree_parts in Hp by lia. destruct (build_tree depth lines) as [l ts cs]. simpl in Hl, Hp. subst l.
  injection Hp as <- Hp. rewrite <-Hp in Hrest. inversion_clear Hn as [??? HF HS].
  assert (Forall nested cs) as Hcs by (eapply Forall_impl; [exact HF|]; simpl; tauto).
  assert (get_tree depth (MkNode 0 ts cs) =
    (if bool_decide (ts = []) then [] else [lines_text ts]) ++ map lines_text (concat (map branches cs))) as ->.
  { unfold get_tree. cbn [dfs]. assert ((depth <? 0) = false) as -> by lia. simpl. rewrite andb_false_r.
    f_equal; [by case_bool_decide|]. simpl. rewrite concat_map_map. f_equal. clear -Hrest.
    induction cs as [|c cs IH]; [done|]. simpl in *. apply Forall_app in Hrest as [H1 H2].
    rewrite dfs_branches by done. f_equal. by apply IH. }
  intros [|k] s Hk Hs; simpl in Hk.
  - injection Hk as <-. exists ts. simpl in Hs. rewrite bool_decide_false by done.
    split; [by left|]. split; [done|]. intros j s' [? _]. lia.
  - destruct (children_branches cs Hcs HS) with k s as (b & Hb & Hsb & Hj); [|done|].
    { apply Forall_forall. intros c Hc. apply nested_branches. rewrite Forall_forall in Hcs. auto. }
    exists b. split; [apply elem_of_app; right; by apply (list_elem_of_fmap_2 lines_text)|]. split; [done|].
    intros [|j] s' [Hlt Henc] Hs' Hj'.
    + injection Hj' as <-. simpl in Hs'. lia.
    + apply (Hj j); [|done]. split; [lia|]. intros t m t' Ht Hm Ht'. apply (Henc t (S m) t'); [done|lia|done].
Qed.

(** ** [tree_merge] *)

Lemma get_level_pos ps sec : 1 <= (get_level ps sec).1.
Proof. unfold get_level, len. simpl. case_match; [lia|]. destruct (_ && _); lia. Qed.

Lemma outline_pos ps secs : Forall (λ l, 1 <= l.1) (outline ps secs).
Proof.
  unfold outline. apply Forall_forall. intros l Hl. apply list_elem_of_filter in Hl as [_ Hl].
  apply list_elem_of_fmap in Hl as (s & -> & _). apply get_level_pos.
Qed.

Lemma at_index_elem {A} (l : list A) i x : at_index l i = Ok x → x ∈ l.
Proof.
  unfold at_index. destruct (_ <? 0); [done|]. destruct (l !! _) eqn:E; [|done]. intros [= <-].
  by eapply list_elem_of_lookup_2.
Qed.

Lemma at_index_nil {A} i : at_index ([] : list A) i = Err exn_index.
Proof. unfold at_index. by destruct (_ <? 0). Qed.

Lemma target_level_elem n levels depth target : target_level n levels depth = Ok target → target ∈ levels.
Proof.
  unfold target_level. destruct (at_index levels (if depth <=? _ then _ else _)) as [t|] eqn:E; cbn [mbind res_bind]; [|done].
  destruct (t =? n + 2); [apply at_index_elem|]. intros [= <-]. by apply at_index_elem in E.
Qed.

Lemma join_not_nil sep (l : list text) x : x ∈ l → x ≠ [] → join sep l ≠ [].
Proof.
  induction l as [|y l IH]; [by intros ?%elem_of_nil|]. intros [->|Hx]%elem_of_cons Hne.
  - destruct l; [done|]. simpl. by destruct y.
  - specialize (IH Hx Hne). destruct l as [|z l]; [done|]. change (join sep (y :: z :: l)) with (y ++ sep ++ join sep (z :: l)).
    intros E. apply app_eq_nil in E as [_ E]. apply app_eq_nil in E as [_ E]. done.
Qed.


(** A document that has a bullet but no section worth keeping raises an exception. *)
Lemma tree_merge_nothing bull secs depth ps :
  0 <= bull → patterns_of bull = Some ps → secs ≠ [] → Forall (λ s, worth_keeping s.1 = false) secs →
  tree_merge bull (Tagged secs) depth = Err exn_index.
Proof.
  intros Hb Hps Hne HF. unfold tree_merge. simpl. rewrite decide_False by done.
  assert ((bull <? 0) = false) as -> by lia. rewrite Hps.
  assert (outline ps secs = []) as ->.
  { unfold outline. assert (filter (λ s, worth_keeping s.1 = true) secs = []) as ->; [|done].
    clear Hne. induction HF as [|s secs Hs _ IH]; [done|]. rewrite filter_cons_False by (by rewrite Hs). done. }
  change (sorted_levels []) with (@nil Z). unfold target_level.
  by rewrite (at_index_nil (if depth <=? _ then _ else _)).
Qed.

Definition demo_law : list (text * text) :=
  (λ s, (codes s, [])) <$> ["preface text"; "第一章 one"; "第一节 two"; "a rule"; "another rule"; "第二节 three"; "a third rule"; "12"].
Definition demo_law_chunks : list text :=
  Eval vm_compute in match tree_merge 0 (Tagged demo_law) 2 with Ok (Plain l) => l | _ => [] end.


(** A document of one full stop is taken for a numbered one, and ends in an exception. *)
Example tree_merge_stop :
  (bullets_category [codes "."], tree_merge (bullets_category [codes "."]) (Plain [codes "."]) 2)
  = (1, Err exn_index).
Proof. vm_compute. reflexivity. Qed.
