(* ===== verification/HeadingProps.v ===== *)
(** Theorems on [hierarchical_merge]: its binary search finds the last heading before a
    section and never fails its assertion, and every section of the levels it reads is in
    a chunk; on the family of headings of a document, which is always one of the list; and
    on two tests that never succeed. *)
From S2P Require Import Prelude Float PyText Json Dsl Effects Comp Regex PyNum PyOps Refs LlmStream Texts.
From S2P Require Import Chunks Bullets Outline OutlineProps.
From Stdlib Require Import QArith Lqa.
Open Scope Z_scope.

(** ** The binary search *)

Lemma at_index_ok {A} (l : list A) i x : 0 <= i → l !! Z.to_nat i = Some x → at_index l i = Ok x.
Proof.
  intros Hi Hx. unfold at_index. assert ((i <? 0) = false) as E by lia. rewrite E. cbv zeta. by rewrite E, Hx.
Qed.

Lemma at_index_in {A} (l : list A) i : 0 <= i < len l → ∃ x, at_index l i = Ok x ∧ l !! Z.to_nat i = Some x.
Proof.
  intros Hi. unfold len in Hi. destruct (l !! Z.to_nat i) as [x|] eqn:E.
  - exists x. split; [apply at_index_ok; [lia|done]|done].
  - apply lookup_ge_None in E. lia.
Qed.

Lemma increasing_lookup arr i j x y :
  StronglySorted Z.lt arr → arr !! i = Some x → arr !! j = Some y → (i < j)%nat → x < y.
Proof.
  intros Hs. revert i j. induction Hs as [|z arr Hs IH Hz]; intros i j; [done|].
  destruct i as [|i], j as [|j]; simpl; intros Hx Hy Hij; try lia.
  - injection Hx as ->. rewrite Forall_forall in Hz. by eapply Hz, list_elem_of_lookup_2.
  - eapply IH; eauto. lia.
Qed.

(** A place [r] in a list: the numbers up to it are below the target, those behind above *)
Definition splits_at (arr : list Z) (target : Z) (r : nat) : Prop :=
  (∃ x, arr !! r = Some x ∧ x < target) ∧ ∀ y, arr !! S r = Some y → target < y.

Lemma bisect_spec fuel arr target : ∀ s e,
  StronglySorted Z.lt arr → target ∉ arr → 0 <= s < e → e <= len arr → e - s <= Z.of_nat fuel →
  (∃ x, arr !! Z.to_nat s = Some x ∧ x < target) →
  (∀ y, arr !! Z.to_nat e = Some y → target < y) →
  ∃ r, bisect fuel arr target s e = Ok (Z.of_nat r) ∧ splits_at arr target r.
Proof.
  induction fuel as [|fuel IH]; intros s e Hs Ht Hse He Hf Hx Hy; [lia|]. cbn [bisect].
  destruct (Z.leb_spec (e - s) 1).
  - exists (Z.to_nat s). split; [f_equal; lia|]. split; [done|]. intros y Hy'. apply Hy.
    by replace (Z.to_nat e) with (S (Z.to_nat s)) by lia.
  - assert (s < (e + s) / 2 < e) as Hi.
    { split; [|apply Z.div_lt_upper_bound; lia].
      assert (s + 1 <= (e + s) / 2); [|lia]. apply Z.div_le_lower_bound; lia. }
    destruct (at_index_in arr ((e + s) / 2)) as (x & Hxi & Hxl); [lia|]. rewrite Hxi. cbn [mbind res_bind].
    destruct (Z.ltb_spec x target); [|destruct (Z.ltb_spec target x)].
    + apply IH; eauto; lia.
    + apply IH; eauto; try lia. intros y Hy'. rewrite Hxl in Hy'. by injection Hy' as <-.
    + exfalso. apply Ht. assert (x = target) as <- by lia. by eapply list_elem_of_lookup_2.
Qed.

(** The last number below the target *)
Definition nearest (arr : list Z) (target : Z) : option Z := last (filter (λ y, y < target) arr).

Lemma nearest_split arr target r :
  StronglySorted Z.lt arr → splits_at arr target r → nearest arr target = arr !! r.
Proof.
  intros Hs [(x & Hx & Hlt) Hy]. rewrite Hx. unfold nearest.
  rewrite <-(take_drop_middle _ _ _ Hx), filter_app, filter_cons_True by done.
  assert (filter (λ y, y < target) (drop (S r) arr) = []) as ->; [|by rewrite last_snoc].
  destruct (drop (S r) arr) as [|y l] eqn:E; [done|].
  assert (Forall (λ z, target < z) (y :: l)) as HF.
  { assert (arr !! S r = Some y) as Hyl by (by rewrite <-(Nat.add_0_r (S r)), <-lookup_drop, E).
    specialize (Hy y Hyl). apply Forall_forall. intros z Hz. rewrite <-E in Hz.
    apply list_elem_of_lookup in Hz as [[|k] Hk]; rewrite lookup_drop in Hk.
    - rewrite Nat.add_0_r, Hyl in Hk. by injection Hk as <-.
    - assert (y < z); [|lia]. eapply increasing_lookup; eauto. lia. }
  clear -HF. induction HF as [|z l' Hz HF IH]; [done|]. by rewrite filter_cons_False by lia.
Qed.

Lemma binary_search_eq arr target :
  arr ≠ [] → ∃ first final, arr !! 0%nat = Some first ∧ arr !! pred (length arr) = Some final ∧
    binary_search arr target =
      if final <? target then Ok (len arr - 1) else if target <? first then Ok (-1)
      else bisect (length arr) arr target 0 (len arr).
Proof.
  destruct arr as [|first l]; [done|]. intros _. destruct (last (first :: l)) as [final|] eqn:E; [|by apply last_None in E].
  exists first, final. split; [done|]. rewrite <-last_lookup. split; [done|]. unfold binary_search. by rewrite E.
Qed.

Lemma binary_search_spec arr target :
  StronglySorted Z.lt arr → target ∉ arr →
  match nearest arr target with
  | Some x => ∃ r, binary_search arr target = Ok r ∧ 0 <= r ∧ at_index arr r = Ok x
  | None => binary_search arr target = Ok (-1)
  end.
Proof.
  intros Hs Ht.
  assert (∀ r, splits_at arr target r → binary_search arr target = Ok (Z.of_nat r) →
    match nearest arr target with
    | Some x => ∃ r, binary_search arr target = Ok r ∧ 0 <= r ∧ at_index arr r = Ok x
    | None => binary_search arr target = Ok (-1)
    end) as Hr.
  { intros r Hr Hb. rewrite (nearest_split _ _ _ Hs Hr). destruct Hr as [(x & Hx & _) _]. rewrite Hx.
    exists (Z.of_nat r). split; [done|]. split; [lia|]. apply at_index_ok; [lia|]. by rewrite Nat2Z.id. }
  destruct arr as [|z arr']; [done|]. destruct (binary_search_eq (z :: arr') target) as (first & final & Hfirst & Hfinal & Hb); [done|].
  remember (z :: arr') as l eqn:El. clear El z arr'. rewrite Hb in Hr |- *.
  assert (0 < length l)%nat by (by destruct l; [|simpl; lia]). destruct (Z.ltb_spec final target).
  - apply (Hr (pred (length l))); [|f_equal; unfold len; lia]. split; [eauto|].
    intros y Hy. apply lookup_lt_Some in Hy. lia.
  - destruct (Z.ltb_spec target first).
    + assert (filter (λ y, y < target) l = []) as Hnil; [|unfold nearest; by rewrite Hnil].
      assert (Forall (λ y, target < y) l) as HF.
      { destruct l as [|x l]; [done|]. injection Hfirst as ->. constructor; [done|].
        apply StronglySorted_inv in Hs as [_ Hs]. eapply Forall_impl; [exact Hs|]. simpl. lia. }
      clear -HF. induction HF as [|z l Hz HF IH]; [done|]. by rewrite filter_cons_False by lia.
    + destruct (bisect_spec (length l) l target 0 (len l)) as (r & Hbr & Hsp); try done.
      * unfold len. lia.
      * unfold len. lia.
      * exists first. split; [done|]. assert (target ≠ first); [|lia]. intros ->. apply Ht. by eapply list_elem_of_lookup_2.
      * intros y Hy. unfold len in Hy. rewrite Nat2Z.id in Hy. apply lookup_lt_Some in Hy. lia.
      * by apply (Hr r).
Qed.

(** ** The headings of a section *)

(** [headings] with the last heading in place of the search *)
Fixpoint chain (ck : list Z) (j : Z) (levels : list (list Z)) : list Z :=
  match levels with
  | [] => ck
  | l :: levels =>
      match nearest l j with
      | None => chain ck j levels
      | Some x => chain ((if default j (last ck) <? x then take (length ck - 1) ck else ck) ++ [x]) j levels
      end
  end.

(** Levels among which the search is sound: sorted, without the section itself *)
Definition searchable (j : Z) (levels : list (list Z)) : Prop :=
  Forall (λ l, StronglySorted Z.lt l ∧ j ∉ l) levels.

Lemma at_index_last {A} (l : list A) d : l ≠ [] → at_index l (-1) = Ok (default d (last l)).
Proof.
  intros Hl. destruct l as [|x l _] using rev_ind; [done|]. rewrite last_snoc. unfold at_index, len.
  rewrite length_app. cbn [length Z.ltb Z.compare default]. cbv zeta.
  destruct (Z.ltb_spec (-1 + Z.of_nat (length l + 1)) 0); [lia|].
  rewrite lookup_app_r by lia. by replace (Z.to_nat (-1 + Z.of_nat (length l + 1)) - length l)%nat with 0%nat by lia.
Qed.

Lemma headings_chain j levels : ∀ ck, ck ≠ [] → searchable j levels → headings ck j levels = Ok (chain ck j levels).
Proof.
  induction levels as [|l levels IH]; intros ck Hck Hl; simpl; [done|].
  apply Forall_cons in Hl as [[Hs Hj] Hl]. pose proof (binary_search_spec l j Hs Hj) as Hb.
  destruct (nearest l j) as [x|].
  - destruct Hb as (r & -> & Hr & Hx). cbn [mbind res_bind]. assert ((r <? 0) = false) as -> by lia.
    rewrite Hx. cbn [mbind res_bind]. rewrite (at_index_last _ j) by done. cbn [mbind res_bind]. apply IH; [|done].
    by intros [_ ?]%app_eq_nil.
  - rewrite Hb. cbn [mbind res_bind]. by apply IH.
Qed.

Lemma nearest_elem l j x : nearest l j = Some x → x ∈ l ∧ x < j.
Proof.
  unfold nearest. intros Hx%last_Some_elem_of. apply list_elem_of_filter in Hx. tauto.
Qed.

(** A chunk starts with its section; the rest are headings before it. *)
Definition chunk_of (P : Z → Prop) (j : Z) (ck : list Z) : Prop :=
  ∃ hs, ck = j :: hs ∧ Forall (λ x, x < j ∧ P x) hs.

Lemma chain_chunk (P : Z → Prop) j levels : ∀ ck,
  chunk_of P j ck → Forall (Forall P) levels → chunk_of P j (chain ck j levels).
Proof.
  induction levels as [|l levels IH]; intros ck Hck Hl; simpl; [done|].
  apply Forall_cons in Hl as [Hl Hls]. destruct (nearest l j) as [x|] eqn:Hx; [|by apply IH].
  apply nearest_elem in Hx as [Hxl Hxj]. rewrite Forall_forall in Hl. apply IH; [|done].
  destruct Hck as (hs & -> & Hhs). destruct (Z.ltb_spec (default j (last (j :: hs))) x) as [Hlt|Hle].
  - destruct hs as [|h hs _] using rev_ind; [simpl in Hlt; lia|]. simpl. exists (hs ++ [x]).
    rewrite length_app. simpl. apply Forall_app in Hhs as [Hhs _]. split; [|apply Forall_app; auto].
    replace (length hs + 1 - 0)%nat with (S (length hs)) by lia. simpl. by rewrite take_app_length.
  - exists (hs ++ [x]). split; [done|]. apply Forall_app. auto.
Qed.

(** ** Choosing the sections *)

(** The levels behind one do not share sections with it. *)
Fixpoint apart (levels : list (list Z)) : Prop :=
  match levels with
  | [] => True
  | arr :: above => StronglySorted Z.lt arr ∧ (∀ j, j ∈ arr → Forall (λ l, j ∉ l) above) ∧ apart above
  end.

Lemma apart_searchable arr above j : apart (arr :: above) → j ∈ arr → searchable j above.
Proof.
  intros (_ & Hj & Ha) Hin. specialize (Hj j Hin). clear Hin arr. revert Ha.
  induction Hj as [|l above Hl _ IH]; [constructor|]. intros (Hs & _ & Ha). constructor; auto. by apply IH.
Qed.

(** What is read is in a chunk, and the chunks are made of sections. *)
Definition chosen_ok (P : Z → Prop) (st : Chosen) : Prop :=
  st.1 ⊆ concat st.2 ∧ Forall (λ ck, ck ≠ [] ∧ Forall P ck) st.2.

Lemma choose_ok P n i above st j :
  chosen_ok P st → P j → searchable j above → Forall (Forall P) above →
  ∃ st', choose n i above st j = Ok st' ∧ chosen_ok P st' ∧ j ∈ st'.1 ∧ st.1 ⊆ st'.1.
Proof.
  destruct st as [readed cks]. intros [H1 H2] Hj Hs HP. unfold choose. case_decide; [by exists (readed, cks)|].
  simpl in *. case_decide.
  - exists (j :: readed, cks ++ [[j]]). split; [done|]. split; [|set_solver]. split; simpl.
    + rewrite concat_app. simpl. set_solver.
    + apply Forall_app. split; [done|]. by repeat constructor.
  - rewrite headings_chain by done. cbn [mbind res_bind].
    destruct (chain_chunk P j above [j]) as (hs & E & Hhs); [by exists []; auto|done|]. rewrite E.
    eexists. split; [done|]. simpl. split; [|set_solver]. split; simpl.
    + rewrite concat_app. simpl. rewrite app_nil_r. set_solver.
    + apply Forall_app. split; [done|]. repeat constructor; [done|done|]. eapply Forall_impl; [exact Hhs|]. simpl. tauto.
Qed.

Lemma choose_level_ok P n i above arr : ∀ st,
  chosen_ok P st → Forall P arr → Forall (λ j, searchable j above) arr → Forall (Forall P) above →
  ∃ st', foldl (λ st j, st ← st; choose n i above st j) (Ok st) arr = Ok st' ∧
    chosen_ok P st' ∧ arr ⊆ st'.1 ∧ st.1 ⊆ st'.1.
Proof.
  induction arr as [|j arr IH]; intros st Hst HP Hs Ha; simpl; [exists st; split_and!; set_solver|].
  apply Forall_cons in HP as [Hj HP]. apply Forall_cons in Hs as [Hsj Hs].
  destruct (choose_ok P n i above st j Hst Hj Hsj Ha) as (st1 & E & H1 & H2 & H3). cbn [mbind res_bind]. rewrite E.
  destruct (IH st1 H1 HP Hs Ha) as (st2 & -> & H4 & H5 & H6). exists st2. split_and!; [done|done|set_solver|set_solver].
Qed.

Lemma choose_levels_ok P n depth : ∀ levels i st,
  chosen_ok P st → apart levels → Forall (Forall P) levels →
  ∃ st', choose_levels n i depth levels st = Ok st' ∧ chosen_ok P st' ∧
    st.1 ⊆ st'.1 ∧ concat (take depth levels) ⊆ st'.1.
Proof.
  induction depth as [|depth IH]; intros levels i st Hst Ha HP; simpl; [exists st; split_and!; set_solver|].
  destruct levels as [|arr above]; simpl; [exists st; split_and!; set_solver|].
  apply Forall_cons in HP as [Harr Habove].
  destruct (choose_level_ok P n i above arr st Hst Harr) as (st1 & -> & H1 & H2 & H3); [|done|].
  { apply Forall_forall. intros j Hj. by eapply apart_searchable. }
  cbn [mbind res_bind]. destruct Ha as (_ & _ & Ha).
  destruct (IH above (S i) st1 H1 Ha Habove) as (st2 & -> & H4 & H5 & H6).
  exists st2. split_and!; [done|done|set_solver|set_solver].
Qed.

(** ** The levels of a document *)

(** The indices of a list at which [P] holds *)
Definition positions {A} (P : A → Prop) `{!∀ x, Decision (P x)} (l : list A) : list Z :=
  (λ p : nat * A, Z.of_nat p.1) <$> filter (λ p, P p.2) (imap pair l).

Lemma imap_pair_snoc {A} (l : list A) x : imap pair (l ++ [x]) = imap pair l ++ [(length l, x)].
Proof. rewrite imap_app. simpl. by rewrite Nat.add_0_r. Qed.

Lemma positions_snoc {A} (P : A → Prop) `{!∀ x, Decision (P x)} l x :
  positions P (l ++ [x]) = positions P l ++ (if decide (P x) then [Z.of_nat (length l)] else []).
Proof.
  unfold positions. rewrite imap_pair_snoc, filter_app, fmap_app, filter_cons, filter_nil. simpl. by case_decide.
Qed.

Lemma elem_of_positions {A} (P : A → Prop) `{!∀ x, Decision (P x)} l j :
  j ∈ positions P l ↔ ∃ i x, j = Z.of_nat i ∧ l !! i = Some x ∧ P x.
Proof.
  induction l as [|y l IH] using rev_ind.
  { split; [by intros ?%elem_of_nil|]. by intros (i & x & _ & Hx & _). }
  rewrite positions_snoc, elem_of_app, IH. split.
  - intros [(i & x & -> & Hx & HP)|Hj].
    + exists i, x. split; [done|]. split; [|done]. apply lookup_app_l_Some, Hx.
    + case_decide as HP; [|by apply elem_of_nil in Hj]. apply list_elem_of_singleton in Hj as ->.
      exists (length l), y. by rewrite lookup_app_r, Nat.sub_diag.
  - intros (i & x & -> & [Hx|[Hlen Hx]]%lookup_app_Some & HP); [left; eauto|]. right.
    destruct (i - length l)%nat as [|k] eqn:Ek; [|done]. injection Hx as ->. rewrite decide_True by done.
    replace i with (length l) by lia. by left.
Qed.

Lemma positions_sorted {A} (P : A → Prop) `{!∀ x, Decision (P x)} l : StronglySorted Z.lt (positions P l).
Proof.
  induction l as [|y l IH] using rev_ind; [constructor|]. rewrite positions_snoc. case_decide; [|by rewrite app_nil_r].
  apply StronglySorted_snoc; [done|]. apply Forall_forall. intros j Hj.
  apply elem_of_positions in Hj as (i & x & -> & Hx & _). apply lookup_lt_Some in Hx. lia.
Qed.

Lemma rev_fmap {A B} (f : A → B) (l : list A) : rev (f <$> l) = f <$> rev l.
Proof. induction l as [|x l IH]; [done|]. simpl. rewrite fmap_app. by f_equal. Qed.

Lemma apart_levels {A} (levs : list A) (f : A → list Z) (lev : Z → option A) :
  NoDup levs → (∀ l, StronglySorted Z.lt (f l)) → (∀ l j, j ∈ f l → lev j = Some l) → apart (f <$> levs).
Proof.
  intros Hnd Hs Hlev. induction Hnd as [|l levs Hl Hnd IH]; [done|]. simpl. split; [done|]. split; [|done].
  intros j Hj. apply Forall_fmap, Forall_forall. intros l' Hl' Hj'. apply Hl.
  assert (Some l = Some l') as [= <-] by (by rewrite <-(Hlev l j Hj), <-(Hlev l' j Hj')). done.
Qed.

Section documents.
Context (ps : list re) (secs : list (text * text)).
Local Abbreviation n := (length ps + 2)%nat.
Definition at_level (l : nat) : list Z := positions (λ l', l' = l) (section_level ps <$> secs).

Lemma rev_level_lists : rev (level_lists ps secs) = at_level <$> rev (seq 0 n).
Proof. unfold level_lists. rewrite rev_fmap. done. Qed.

Lemma at_level_spec l j : j ∈ at_level l ↔ ∃ i s, j = Z.of_nat i ∧ secs !! i = Some s ∧ section_level ps s = l.
Proof.
  unfold at_level. rewrite elem_of_positions. setoid_rewrite list_lookup_fmap_Some. naive_solver.
Qed.

Lemma level_lists_apart : apart (rev (level_lists ps secs)).
Proof.
  rewrite rev_level_lists.
  apply (apart_levels _ _ (λ j, (section_level ps <$> secs) !! Z.to_nat j)).
  - apply NoDup_ListNoDup, NoDup_rev, NoDup_ListNoDup, NoDup_seq.
  - intros l. apply positions_sorted.
  - intros l j Hj. apply at_level_spec in Hj as (i & s & -> & Hs & <-). by rewrite Nat2Z.id, list_lookup_fmap, Hs.
Qed.

Definition in_document (j : Z) : Prop := 0 <= j < len secs.

Lemma level_lists_in : Forall (Forall in_document) (rev (level_lists ps secs)).
Proof.
  rewrite rev_level_lists. apply Forall_fmap, Forall_true. intros l. apply Forall_forall. intros j Hj.
  apply at_level_spec in Hj as (i & s & -> & Hs & _). apply lookup_lt_Some in Hs. unfold in_document, len. lia.
Qed.

(** The sections of the deepest [depth] levels *)
Lemma deep_sections i s depth :
  secs !! i = Some s → (section_level ps s < n)%nat → (length ps + 1 < section_level ps s + depth)%nat →
  Z.of_nat i ∈ concat (take depth (rev (level_lists ps secs))).
Proof.
  intros Hs Hlt Hd. apply elem_of_concat_list. exists (at_level (section_level ps s)). split.
  - apply at_level_spec. eauto.
  - rewrite rev_level_lists, <-fmap_take. apply (list_elem_of_fmap_2 at_level).
    set (l := section_level ps s) in *.
    replace n with (l + S (n - S l))%nat by lia. rewrite seq_app, rev_app_distr. cbn [seq rev].
    rewrite <-app_assoc. apply list_elem_of_lookup. exists (n - S l)%nat. rewrite lookup_take_lt by lia.
    rewrite lookup_app_r by (rewrite length_rev, length_seq; lia). by rewrite length_rev, length_seq, Nat.sub_diag.
Qed.
End documents.

Lemma elem_of_rev {A} (x : A) l : x ∈ rev l ↔ x ∈ l.
Proof. by rewrite !list_elem_of_In, <-in_rev. Qed.

(** ** Packing *)

Section packing.
Context `{Tokens}.

Definition packed (st : Packing) : list text := concat (st.1.1 ++ [st.1.2]).

Lemma pack_concat cks : ∀ st, packed (foldl pack st cks) = packed st ++ concat cks.
Proof.
  induction cks as [|ck cks IH]; intros st; simpl; [by rewrite app_nil_r|]. rewrite IH, app_assoc. f_equal.
  destruct st as [[closed cur] num]. unfold packed, pack. destruct ck as [|t [|u ck]]; [|destruct (_ <? 218)|];
    simpl; rewrite !concat_app; simpl; by rewrite ?app_nil_r, <-?app_assoc.
Qed.

Lemma mapM_at_index {A} (l : list A) js :
  Forall (λ j, 0 <= j < len l) js → ∃ xs, mapM (at_index l) js = Ok xs ∧
    Forall2 (λ j x, l !! Z.to_nat j = Some x) js xs.
Proof.
  induction 1 as [|j js Hj _ IH]; [by exists []|]. destruct IH as (xs & E & HF). destruct (at_index_in l j Hj) as (x & Hx & Hlx).
  exists (x :: xs). split; [|by constructor]. simpl. rewrite Hx. cbn [mbind res_bind]. rewrite E. done.
Qed.

Lemma mapM_chunks {A} (l : list A) cks :
  Forall (λ ck, Forall (λ j, 0 <= j < len l) ck) cks → ∃ xss,
    mapM (λ ck, mapM (at_index l) (rev ck)) cks = Ok xss ∧
    Forall2 (λ ck xs, Forall2 (λ j x, l !! Z.to_nat j = Some x) (rev ck) xs) cks xss.
Proof.
  induction 1 as [|ck cks Hck _ IH]; [by exists []|]. destruct IH as (xss & E & HF).
  destruct (mapM_at_index l (rev ck)) as (xs & Ex & Hxs).
  { apply Forall_forall. intros j Hj. rewrite Forall_forall in Hck. by apply Hck, elem_of_rev. }
  exists (xs :: xss). split; [|by constructor]. simpl. rewrite Ex. cbn [mbind res_bind]. rewrite E. done.
Qed.
End packing.

Lemma first_index_lt {A} (P : A → bool) l i : first_index P l = Some i → (i < length l)%nat.
Proof.
  revert i. induction l as [|x l IH]; intros i; simpl; [done|]. destruct (P x); [intros [= <-]; lia|].
  destruct (first_index P l) as [k|]; [|done]. intros [= <-]. specialize (IH k eq_refl). lia.
Qed.

Lemma section_level_lt ps s : (section_level ps s < length ps + 2)%nat.
Proof.
  unfold section_level. destruct (first_index _ _) eqn:E; [apply first_index_lt in E; lia|]. destruct (_ && _); lia.
Qed.

Lemma level_lists_length ps secs : length (rev (level_lists ps secs)) = (length ps + 2)%nat.
Proof. unfold level_lists. by rewrite length_rev, length_fmap, length_seq. Qed.


#[local] Instance letters : Tokens := {| num_tokens := length |}.

Definition book : list (text * text) :=
  (λ s, (codes s, [])) <$> ["第一章 one"; "第一节 two"; "The first body of the text"; "第二编 three"; "The second body of the text"].


(** A heading of an earlier part of the book stays with the text of a later one: the
    second body is put under the section "two" of the first chapter. *)
Example stale_heading :
  (match hierarchical_merge 0 (Tagged book) 5 with Ok cks => map (map of_codes) cks | Err _ => [] end)
  = [[]; ["第一章 one"; "第一节 two"; "The first body of the text"];
     ["第二编 three"; "第一节 two"; "The second body of the text"]].
Proof. vm_compute. reflexivity. Qed.

(** ** The family of headings *)

Lemma best_of_range hits : -1 <= best_of hits ∧ (best_of hits = -1 ∨ best_of hits < Z.of_nat (length hits)).
Proof.
  unfold best_of. set (n := Z.of_nat (length hits)).
  enough (∀ (l : list (Z * Z)) a, -1 <= a.1 ∧ (a.1 = -1 ∨ a.1 < n) → Forall (λ p, 0 <= p.1 < n) l →
    let r := foldl (λ rm p, if p.2 <=? rm.2 then rm else p) a l in -1 <= r.1 ∧ (r.1 = -1 ∨ r.1 < n)) as Hf.
  { apply Hf; [simpl; lia|]. apply Forall_lookup. intros i p Hp. rewrite list_lookup_imap in Hp.
    destruct (hits !! i) as [h|] eqn:E; [|done]. injection Hp as <-. apply lookup_lt_Some in E. simpl. lia. }
  intros l. induction l as [|p l IH]; intros a Ha Hl; [done|]. apply Forall_cons in Hl as [Hp Hl]. simpl.
  apply IH; [|done]. destruct (p.2 <=? a.2); [done|]. lia.
Qed.

(** The family that is found exists, so that looking up its patterns never fails. *)
Lemma bullets_category_patterns sections : ∃ ps, patterns_of (bullets_category sections) = Some ps.
Proof.
  unfold patterns_of. apply lookup_lt_is_Some. unfold bullets_category, slice_pos.
  set (hits := _ <$> BULLET_PATTERN). pose proof (best_of_range hits) as Hr.
  assert (length hits = 5%nat) as Hl by done. rewrite Hl in Hr. change (length BULLET_PATTERN) with 5%nat.
  case_decide; lia.
Qed.

(** ** Languages *)

Lemma fullmatch_one P t : re_fullmatch (Cls P) t = true → length t = 1%nat.
Proof. destruct t as [|c [|d t]]; [done|done|]. unfold re_fullmatch. simpl. by destruct (P c). Qed.

(** A list of texts is never taken for English when none of them is a single character. *)
Lemma is_english_texts texts : Forall (λ t, length (strip t) ≠ 1%nat) texts → is_english texts = false.
Proof.
  intros HF. unfold is_english. case_decide as Hne; [done|]. set (ts := filter _ texts) in *.
  assert (filter (λ t, re_fullmatch (Cls english_char) (strip t) = true) ts = []) as ->.
  { assert (Forall (λ t, length (strip t) ≠ 1%nat) ts) as Hts.
    { apply Forall_forall. intros t Ht. apply list_elem_of_filter in Ht as [_ Ht].
      rewrite Forall_forall in HF. by apply HF. }
    clear -Hts. induction Hts as [|t ts Ht _ IH]; [done|]. rewrite filter_cons_False; [done|].
    intros H. by apply fullmatch_one in H. }
  assert (0 < Z.of_nat (length ts)) as Hn by (destruct ts; [done|simpl; lia]).
  assert (fle (Z_ratio 0 (Z.of_nat (length ts))) f0 = true) as Hle.
  { apply (rounds_le _ _ _ (Z_ratio_rounds 0 _ Hn)); [done|]. unfold Qdiv. rewrite Qmult_0_l. done. }
  pose proof (Z_ratio_unit 0 (Z.of_nat (length ts)) ltac:(lia) Hn) as [Hf _]. change (Z.of_nat (length [])) with 0.
  apply not_true_iff_false. intros Hlt. rewrite flt_fval in Hlt by done. rewrite fle_fval in Hle by done.
  assert (0 < fval (lit_float "0.8"))%Q by (by vm_compute). change (fval f0) with 0%Q in Hle. lra.
Qed.

(** ** Titles from colons *)

Lemma finditer_match r s m : m ∈ (finditer r s).1 → lang r m.1.2.
Proof.
  unfold finditer. generalize (length s) as fuel. intros fuel. revert s.
  induction fuel as [|fuel IH]; intros s; [by intros ?%elem_of_nil|]. cbn [finditer_go].
  destruct (search r s) as [[s1 [g rest]]|] eqn:Hs; [|by intros ?%elem_of_nil].
  apply search_Some in Hs as (x & -> & Hm). apply match_at_lang in Hm as (w & -> & Hw).
  case_decide as Hlen; [|by intros ?%elem_of_nil]. specialize (IH rest). destruct (finditer_go fuel r rest) as [l tail].
  simpl. intros [->|Hin]%elem_of_cons; [|by apply IH]. simpl. by rewrite (before_suffix (w ++ rest) w rest).
Qed.

(** The length that [make_colon_as_title] asks for is that of the separator, which has at
    most two characters: no title is ever made. *)
Lemma colon_title_never sec : colon_title sec = None.
Proof.
  unfold colon_title. destruct (last _); [|done]. destruct (negb _); [done|].
  unfold split_list, re_split. set (r := Alt _ _). set (txt := rev _).
  pose proof (finditer_match r txt) as Hm. destruct (finditer r txt) as [l tail]. simpl in Hm.
  destruct l as [|m l]; [done|]. simpl. specialize (Hm m ltac:(by left)).
  assert (length m.1.2 <= 2)%nat as Hlen; [|by rewrite (proj2 (Nat.ltb_lt _ _)) by lia].
  unfold r in Hm. destruct Hm as [(c & -> & _)|(w1 & w2 & -> & (c & -> & _) & (w3 & w4 & -> & (d & -> & _) & ->))];
    simpl; lia.
Qed.

Lemma make_colon_as_title_idle sections : make_colon_as_title sections = sections.
Proof.
  unfold make_colon_as_title. induction sections as [|s l IH]; [done|].
  rewrite fmap_cons. cbn [concat]. by rewrite colon_title_never, IH.
Qed.
