(* ===== verification/TitleProps.v ===== *)
(** Theorems on the title chunker: the groups of the hierarchy keep every line under the
    headings that enclose it; the groups of sections are closed as their sizes ask. *)
From S2P Require Import Prelude Float PyText Json Dsl Effects Comp Regex PyNum PyOps Refs LlmStream Texts Canvas CanvasLoad.
From S2P Require Import Chunks Bullets Outline OutlineProps PdfPositions TokenChunker TitleChunker.
Open Scope Z_scope.

(** ** The tree of chunks as a tree of lines *)

Section node_ind.
Context (P : _ChunkNode → Prop) (Hnode : ∀ l t b cs, Forall P cs → P (MkChunkNode l t b cs)).
Fixpoint chunk_node_ind (n : _ChunkNode) : P n :=
  match n with
  | MkChunkNode l t b cs => Hnode l t b cs ((fix go cs := match cs return Forall P cs with
      | [] => Forall_nil_2 P | c :: cs => Forall_cons_2 P c cs (chunk_node_ind c) (go cs) end) cs)
  end.
End node_ind.

Fixpoint erase (n : _ChunkNode) : Node nat :=
  let '(MkChunkNode l t b cs) := n in MkNode l (t ++ b) (map erase cs).
Definition erase_frame (f : ChunkFrame) : Frame nat :=
  {| fr_level := cf_level f; fr_texts := cf_titles f ++ cf_body f; fr_children := map erase (cf_children f) |}.

Lemma erase_add_child f g : erase_frame (add_chunk_child f (chunk_node_of g)) = add_child (erase_frame f) (node_of (erase_frame g)).
Proof. unfold erase_frame, add_child. simpl. by rewrite map_app. Qed.

Lemma erase_climb level below : ∀ top,
  let '(top', below') := chunk_climb level top below in
  climb level (erase_frame top) (map erase_frame below) = (erase_frame top', map erase_frame below').
Proof.
  induction below as [|p below IH]; intros top; simpl; [done|].
  destruct (level <=? cf_level top); [|done]. rewrite <-erase_add_child. apply IH.
Qed.

Lemma erase_close below : ∀ top, erase (close_chunks top below) = close_all (erase_frame top) (map erase_frame below).
Proof. induction below as [|p below IH]; intros top; simpl; [done|]. by rewrite IH, erase_add_child. Qed.

Lemma erase_build lines depth : 0 <= depth → erase (build_chunk_tree lines depth) = build_tree depth lines.
Proof.
  intros Hd. unfold build_chunk_tree, build_tree.
  set (root := {| cf_level := 0; cf_titles := []; cf_body := []; cf_children := [] |}).
  change root_frame with (erase_frame root). change (@nil (Frame nat)) with (map erase_frame []).
  generalize root, (@nil ChunkFrame). clear root.
  induction lines as [|[level i] lines IH]; intros top below; simpl; [apply erase_close|].
  assert ((depth =? -1) = false) as -> by lia. simpl. destruct (depth <? level).
  - replace (add_text (erase_frame top) i) with (erase_frame (add_body_index top i)); [apply IH|].
    unfold erase_frame, add_text. simpl. by rewrite app_assoc.
  - pose proof (erase_climb level below top) as Hc. destruct (chunk_climb level top below) as [top' below'].
    rewrite Hc. exact (IH {| cf_level := level; cf_titles := [i]; cf_body := []; cf_children := [] |} (top' :: below')).
Qed.

(** ** What its nodes hold *)

Section nodes.
Context (Q : Z → list nat → list nat → Prop).

Fixpoint all_nodes (n : _ChunkNode) : Prop :=
  let '(MkChunkNode l t b cs) := n in Q l t b ∧ fold_right and True (map all_nodes cs).
Definition all_frame (f : ChunkFrame) : Prop := all_nodes (chunk_node_of f).

Lemma all_nodes_and l : fold_right and True (map all_nodes l) ↔ Forall all_nodes l.
Proof. induction l as [|n l IH]; simpl; [done|]. by rewrite Forall_cons, IH. Qed.

Lemma all_frame_eq f : all_frame f ↔ Q (cf_level f) (cf_titles f) (cf_body f) ∧ Forall all_nodes (cf_children f).
Proof. unfold all_frame. simpl. by rewrite all_nodes_and. Qed.

Lemma all_frame_add f g : all_frame f → all_frame g → all_frame (add_chunk_child f (chunk_node_of g)).
Proof. rewrite !all_frame_eq. simpl. intros [H1 H2] Hg. split; [done|]. apply Forall_app. split; [done|]. constructor; [|done]. by apply (all_frame_eq g). Qed.

Lemma all_climb level below : ∀ top, all_frame top → Forall all_frame below →
  let '(top', below') := chunk_climb level top below in all_frame top' ∧ Forall all_frame below'.
Proof.
  induction below as [|p below IH]; intros top Ht Hb; simpl; [done|].
  destruct (level <=? cf_level top); [|done]. apply Forall_cons in Hb as [Hp Hb]. by apply IH; [apply all_frame_add|].
Qed.

Lemma all_close below : ∀ top, all_frame top → Forall all_frame below → all_nodes (close_chunks top below).
Proof.
  induction below as [|p below IH]; intros top Hf HF; [done|]. apply Forall_cons in HF as [Hp HF].
  simpl. by apply IH; [apply all_frame_add|].
Qed.

(** A heading starts a node, any other line is added to the body of one. *)
Definition line_ok (depth : Z) (line : Z * nat) : Prop :=
  if depth <? line.1 then ∀ l t b, Q l t b → Q l t (b ++ [line.2]) else Q line.1 [line.2] [].

Lemma all_build lines depth : Q 0 [] [] → Forall (line_ok depth) lines → all_nodes (build_chunk_tree lines depth).
Proof.
  intros H0 Hlines. unfold build_chunk_tree.
  assert (∀ top below, all_frame top → Forall all_frame below →
    let '(top', below') := foldl (add_index depth) (top, below) lines in all_nodes (close_chunks top' below')) as Hf.
  { induction Hlines as [|[level i] lines Hl _ IH]; intros top below Ht Hb; simpl; [by apply all_close|].
    unfold line_ok in Hl. simpl in Hl. destruct (depth <? level).
    - apply IH; [|done]. apply all_frame_eq in Ht as [H1 H2]. apply all_frame_eq. simpl. by split; [apply Hl|].
    - pose proof (all_climb level below top Ht Hb) as Hc. destruct (chunk_climb level top below) as [top' below'].
      destruct Hc. apply IH; [|by constructor]. by apply all_frame_eq. }
  specialize (Hf {| cf_level := 0; cf_titles := []; cf_body := []; cf_children := [] |} []).
  destruct (foldl _ _ lines). apply Hf; [by split|constructor].
Qed.
End nodes.

(** ** Paths are branches *)

(** The tree whose branches are the paths: with the content of headings, the body of a
    node is a leaf in front of its children. *)
Definition body_leaf (depth : Z) (b : list nat) : list (Node nat) :=
  if bool_decide (b = []) then [] else [MkNode (depth + 1) b []].
Fixpoint shape (depth : Z) (inc : bool) (n : _ChunkNode) : Node nat :=
  let '(MkChunkNode l t b cs) := n in
  if inc then MkNode l t (body_leaf depth b ++ map (shape depth inc) cs)
  else MkNode l (t ++ b) (map (shape depth inc) cs).
(** The body of the root is a path of its own in either case. *)
Definition root_shape (depth : Z) (inc : bool) (n : _ChunkNode) : Node nat :=
  let '(MkChunkNode l t b cs) := n in MkNode l t (body_leaf depth b ++ map (shape depth inc) cs).

Lemma branches_app {A} l (ts : list A) cs : cs ≠ [] → branches (MkNode l ts cs) = map (app ts) (concat (map branches cs)).
Proof. by destruct cs. Qed.

Definition within (depth l : Z) : bool := (1 <=? l) && (l <=? depth).

Lemma chunk_dfs_branches depth inc n : ∀ titles,
  all_nodes (λ l _ _, within depth l = true) n →
  chunk_dfs depth inc titles n = map (app titles) (branches (shape depth inc n)).
Proof.
  induction n as [l t b cs IH] using chunk_node_ind. intros titles [Hl Hcs]. rewrite all_nodes_and in Hcs.
  assert (∀ path, concat (map (chunk_dfs depth inc path) cs) =
    map (app path) (concat (map branches (map (shape depth inc) cs)))) as Hc.
  { intros path. rewrite map_map, concat_map_map. f_equal. clear Hl.
    induction IH as [|c cs Hc _ IH]; [done|]. apply Forall_cons in Hcs as [H1 H2]. simpl.
    rewrite IH by done. f_equal. by apply Hc. }
  simpl. unfold within in Hl. rewrite Hl, Hc. apply andb_true_iff in Hl as [Hl _].
  assert ((l =? 0) = false) as -> by lia. simpl. destruct inc; simpl.
  - unfold body_leaf. case_bool_decide as Hb; simpl.
    + subst b. destruct cs as [|c cs]; simpl; rewrite ?app_nil_r; [done|].
      rewrite !map_map. apply map_ext. intros x. by rewrite app_assoc.
    + rewrite !map_map. simpl. rewrite app_nil_r. f_equal; [by rewrite <-app_assoc|].
      apply map_ext. intros x. by rewrite app_assoc.
  - destruct cs as [|c cs]; simpl; [done|]. rewrite (map_map (app (t ++ b)) (app titles)).
    apply map_ext. intros x. by rewrite <-!app_assoc.
Qed.

Lemma get_paths_branches depth inc b cs :
  Forall (all_nodes (λ l _ _, within depth l = true)) cs → 0 <= depth → b ≠ [] ∨ cs ≠ [] →
  get_paths (MkChunkNode 0 [] b cs) depth inc = branches (root_shape depth inc (MkChunkNode 0 [] b cs)).
Proof.
  intros Hcs Hd Hne. unfold get_paths, root_shape. rewrite branches_app.
  2:{ unfold body_leaf. case_bool_decide; [|done]. by destruct Hne, cs. }
  rewrite (map_ext (app []) id), map_id by done. simpl. rewrite andb_false_r, andb_false_r. simpl.
  rewrite map_app, concat_app. f_equal; [unfold body_leaf; by case_bool_decide|]. clear Hne. rewrite map_map.
  induction Hcs as [|c cs Hc _ IH]; [done|]. simpl. rewrite IH. f_equal. rewrite chunk_dfs_branches by done.
  by rewrite (map_ext (app []) id), map_id.
Qed.

(** ** Nesting of the shapes *)

Lemma shape_level depth inc n : node_level (shape depth inc n) = node_level (erase n).
Proof. destruct n as [l t b cs]. by destruct inc. Qed.

Lemma nested_children depth b cs l (ts : list nat) :
  l <= depth → Forall (λ c, l < node_level c ∧ nested c) cs →
  StronglySorted (λ c d, node_level d <= node_level c) cs →
  Forall (λ c, node_level c <= depth) cs →
  nested (MkNode l ts (body_leaf depth b ++ cs)).
Proof.
  intros Hl HF HS Hd. unfold body_leaf. case_bool_decide; [by constructor|]. constructor; simpl.
  - constructor; [|done]. simpl. split; [lia|]. repeat constructor.
  - constructor; [done|]. eapply Forall_impl; [exact Hd|]. simpl. lia.
Qed.

Lemma map_sorted {A B} (f : A → B) (R : relation B) l :
  StronglySorted (λ x y, R (f x) (f y)) l → StronglySorted R (map f l).
Proof. induction 1 as [|x l Hl IH Hx]; simpl; constructor; [done|]. by apply Forall_fmap. Qed.

Lemma sorted_map {A B} (f : A → B) (R : relation B) l :
  StronglySorted R (map f l) → StronglySorted (λ x y, R (f x) (f y)) l.
Proof.
  induction l as [|x l IH]; simpl; [constructor|]. intros [H1 H2]%StronglySorted_inv.
  constructor; [by apply IH|]. exact (proj1 (List.Forall_map _ _ _) H2).
Qed.

Lemma shapes_sorted depth inc cs :
  StronglySorted (λ c d, node_level d <= node_level c) (map erase cs) →
  StronglySorted (λ c d, node_level d <= node_level c) (map (shape depth inc) cs).
Proof.
  intros H. apply sorted_map in H. apply map_sorted.
  induction H as [|c cs H IH Hc]; constructor; [done|]. eapply Forall_impl; [exact Hc|].
  intros d. by rewrite !shape_level.
Qed.

Lemma within_le depth l : within depth l = true → 1 <= l <= depth.
Proof. unfold within. intros [? ?]%andb_true_iff. lia. Qed.

Lemma all_nodes_level (P : Z → Prop) n : all_nodes (λ l _ _, P l) n → P (node_level (erase n)).
Proof. destruct n. by intros []. Qed.

Lemma nested_shape depth inc n :
  all_nodes (λ l _ _, within depth l = true) n → nested (erase n) → nested (shape depth inc n).
Proof.
  induction n as [l t b cs IH] using chunk_node_ind. intros [Hl Hcs] Hn. rewrite all_nodes_and in Hcs.
  apply within_le in Hl. simpl in Hn. inversion_clear Hn as [??? HF HS]. apply List.Forall_map in HF.
  assert (Forall (λ c, l < node_level c ∧ nested c) (map (shape depth inc) cs)) as HF'.
  { apply List.Forall_map. rewrite Forall_forall in IH, Hcs, HF |- *. intros c Hc. destruct (HF c Hc).
    rewrite shape_level. auto. }
  apply (shapes_sorted depth inc) in HS. simpl. destruct inc; [|by constructor].
  apply nested_children; [lia|done|done|]. apply List.Forall_map. eapply Forall_impl; [exact Hcs|]. intros c Hc.
  rewrite shape_level. apply (all_nodes_level (λ l, within depth l = true)), within_le in Hc. lia.
Qed.

Lemma nested_root_shape depth inc b cs :
  0 <= depth → Forall (all_nodes (λ l _ _, within depth l = true)) cs →
  nested (erase (MkChunkNode 0 [] b cs)) → nested (root_shape depth inc (MkChunkNode 0 [] b cs)).
Proof.
  intros Hd Hcs Hn. simpl in Hn. inversion_clear Hn as [??? HF HS]. apply List.Forall_map in HF. simpl.
  apply nested_children; [done| |by apply shapes_sorted|].
  - apply List.Forall_map. rewrite Forall_forall in Hcs, HF |- *. intros c Hc. destruct (HF c Hc).
    rewrite shape_level. split; [done|]. apply nested_shape; auto.
  - apply List.Forall_map. eapply Forall_impl; [exact Hcs|]. intros c Hc. rewrite shape_level.
    apply (all_nodes_level (λ l, within depth l = true)), within_le in Hc. lia.
Qed.

(** ** The parts of the shapes *)

Section parts.
Context (depth : Z) (levels : list Z).

(** A part that starts with its heading, or has no heading; anything else is below the
    depth. *)
Definition body_ok (b : list nat) : Prop := Forall (λ i, ∃ l, levels !! i = Some l ∧ depth < l) b.
Definition heading_ok (l : Z) (t b : list nat) : Prop :=
  (l = 0 ∧ t = [] ∨ 1 <= l <= depth ∧ ∃ i, t = [i] ∧ levels !! i = Some l) ∧ body_ok b.
Definition part_ok (p : Z * list nat) : Prop :=
  depth < p.1 ∧ body_ok p.2 ∨ 1 <= p.1 <= depth ∧ ∃ i b, p.2 = i :: b ∧ levels !! i = Some p.1 ∧ body_ok b.

Lemma shape_parts inc n :
  all_nodes heading_ok n → all_nodes (λ l _ _, within depth l = true) n →
  Forall part_ok (preorder (shape depth inc n)).
Proof.
  induction n as [l t b cs IH] using chunk_node_ind. intros [[Ht Hb] Hcs] [Hl Hw]. rewrite all_nodes_and in Hcs, Hw.
  apply within_le in Hl. destruct Ht as [[-> _]|(Hd & i & -> & Hi)]; [lia|].
  assert (Forall part_ok (concat (map preorder (map (shape depth inc) cs)))) as Hc.
  { clear -IH Hcs Hw. induction IH as [|c cs Hc _ IH]; [constructor|]. apply Forall_cons in Hcs as [? ?].
    apply Forall_cons in Hw as [? ?]. simpl. apply Forall_app. auto. }
  simpl. destruct inc; simpl.
  - rewrite map_app, concat_app. constructor; [right; split; [done|]; exists i, []; split_and!; [done|done|constructor]|].
    apply Forall_app. split; [|done]. unfold body_leaf. case_bool_decide; [constructor|].
    apply Forall_singleton. left. simpl. split; [lia|done].
  - constructor; [|done]. right. split; [done|]. by exists i, b.
Qed.

Lemma root_shape_parts inc b cs :
  body_ok b → Forall (all_nodes heading_ok) cs → Forall (all_nodes (λ l _ _, within depth l = true)) cs →
  ∃ ps, preorder (root_shape depth inc (MkChunkNode 0 [] b cs)) = (0, []) :: ps ∧ Forall part_ok ps.
Proof.
  intros Hb Hcs Hw. simpl. eexists. split; [done|]. rewrite map_app, concat_app. apply Forall_app. split.
  - unfold body_leaf. case_bool_decide; [constructor|]. apply Forall_singleton. left. simpl. split; [lia|done].
  - induction Hcs as [|c cs Hc _ IH]; [constructor|]. apply Forall_cons in Hw as [? ?]. simpl.
    apply Forall_app. split; [by apply shape_parts|auto].
Qed.
End parts.

(** The shapes hold the indexes in the order of the tree. *)
Lemma preorder_concat {A} (ns : list (Node A)) :
  concat (concat (map preorder ns)).*2 = concat (map (λ n, concat (preorder n).*2) ns).
Proof. induction ns as [|n ns IH]; [done|]. simpl. by rewrite fmap_app, concat_app, IH. Qed.

Lemma shape_texts depth inc n : concat (preorder (shape depth inc n)).*2 = concat (preorder (erase n)).*2.
Proof.
  induction n as [l t b cs IH] using chunk_node_ind.
  assert (concat (map (λ n, concat (preorder n).*2) (map (shape depth inc) cs)) =
          concat (map (λ n, concat (preorder n).*2) (map erase cs))) as Hc.
  { rewrite !map_map. f_equal. apply map_ext_in. intros c Hc. rewrite Forall_forall in IH. apply IH. by apply list_elem_of_In. }
  simpl. destruct inc; simpl; rewrite !preorder_concat; [|by rewrite Hc].
  rewrite map_app, concat_app, Hc, app_assoc. do 2 f_equal. unfold body_leaf. case_bool_decide; [by subst|].
  simpl. by rewrite !app_nil_r.
Qed.

Lemma root_shape_texts depth inc b cs :
  concat (preorder (root_shape depth inc (MkChunkNode 0 [] b cs))).*2 =
  concat (preorder (erase (MkChunkNode 0 [] b cs))).*2.
Proof.
  simpl. rewrite !preorder_concat, map_app, concat_app. f_equal.
  - unfold body_leaf. case_bool_decide; [by subst|]. simpl. by rewrite !app_nil_r.
  - rewrite !map_map. f_equal. apply map_ext. intros c. apply shape_texts.
Qed.

(** ** Headings over a line *)

(** The [j]-th line is a heading over the [i]-th: every heading after it up to there is
    deeper. *)
Definition heads (depth : Z) (levels : list Z) (j i : nat) : Prop :=
  (j < i)%nat ∧ ∃ lj, levels !! j = Some lj ∧ lj <= depth ∧
    ∀ m lm, (j < m ≤ i)%nat → levels !! m = Some lm → lm <= depth → lj < lm.

Lemma concat_sorted (L : list (list nat)) k k' a a' x y :
  StronglySorted lt (concat L) → L !! k = Some a → L !! k' = Some a' → (k < k')%nat → x ∈ a → y ∈ a' → (x < y)%nat.
Proof.
  revert k k'. induction L as [|b L IH]; intros k k' HS Hk Hk' Hlt Hx Hy; [done|]. simpl in HS.
  apply StronglySorted_app in HS as (Hb & _ & HS). destruct k' as [|k']; [lia|]. simpl in Hk'.
  destruct k as [|k]; [|eapply IH; eauto; lia]. injection Hk as ->. apply Hb; [done|].
  apply elem_of_concat_list. exists a'. split; [done|]. by eapply list_elem_of_lookup_2.
Qed.

Section heads.
Context (depth : Z) (levels : list Z) (ps : list (Z * list nat)).
Context (Hps : Forall (part_ok depth levels) ps) (Hseq : concat ps.*2 = seq 0 (length levels)).

Lemma parts_sorted : StronglySorted lt (concat ps.*2).
Proof.
  rewrite Hseq. generalize 0%nat. clear Hseq. induction (length levels) as [|n IH]; intros m; simpl; [constructor|].
  constructor; [done|]. apply Forall_forall. intros x Hx. apply elem_of_seq in Hx. lia.
Qed.

Lemma parts_lt k k' s s' x y :
  ps !! k = Some s → ps !! k' = Some s' → (k < k')%nat → x ∈ s.2 → y ∈ s'.2 → (x < y)%nat.
Proof.
  intros Hk Hk'. apply (concat_sorted ps.*2 k k'); [apply parts_sorted| |]; by rewrite list_lookup_fmap, ?Hk, ?Hk'.
Qed.

Lemma part_head_le k s x b y : ps !! k = Some s → s.2 = x :: b → y ∈ s.2 → (x ≤ y)%nat.
Proof.
  intros Hk Hs Hy. pose proof parts_sorted as HS. rewrite <-(take_drop_middle ps k s Hk) in HS.
  rewrite fmap_app, concat_app in HS. apply StronglySorted_app in HS as (_ & _ & HS). simpl in HS.
  apply StronglySorted_app in HS as (_ & HS & _). rewrite Hs in HS, Hy. apply StronglySorted_inv in HS as [_ HF].
  apply elem_of_cons in Hy as [->|Hy]; [done|]. rewrite Forall_forall in HF. apply Nat.lt_le_incl. auto.
Qed.

Lemma heads_enclose k s i j :
  heads depth levels j i → ps !! k = Some s → i ∈ s.2 →
  ∃ k' s', ps !! k' = Some s' ∧ j ∈ s'.2 ∧ (k' = k ∨ encloses ps k' k).
Proof.
  intros (Hji & lj & Hlj & Hd & Hm) Hk Hi.
  assert (j ∈ concat ps.*2) as Hj by (rewrite Hseq; apply elem_of_seq; apply lookup_lt_Some in Hlj; lia).
  apply elem_of_concat_list in Hj as (js & Hj & Hjs). apply list_elem_of_fmap in Hjs as (s' & -> & Hs').
  apply list_elem_of_lookup in Hs' as [k' Hk']. exists k', s'. split; [done|]. split; [done|].
  destruct (decide (k' = k)) as [|Hne]; [by left|right].
  assert (k' < k)%nat as Hlt.
  { destruct (decide (k < k')%nat); [|lia]. pose proof (parts_lt k k' s s' i j Hk Hk' ltac:(lia) Hi Hj). lia. }
  split; [done|]. intros t m s'' Ht Hmk Hs''. rewrite Hk' in Ht. injection Ht as <-.
  pose proof (Forall_lookup_1 _ _ _ _ Hps Hk') as Hok. pose proof (Forall_lookup_1 _ _ _ _ Hps Hs'') as Hok''.
  assert (∀ b, body_ok depth levels b → j ∉ b) as Hnb.
  { intros b Hb Hjb. unfold body_ok in Hb. rewrite Forall_forall in Hb. destruct (Hb j Hjb) as (l & Hl & ?).
    rewrite Hlj in Hl. injection Hl as <-. lia. }
  destruct Hok as [[_ Hb]|(Hl & x & b & Hx & Hlx & Hb)]; [by destruct (Hnb _ Hb)|].
  rewrite Hx in Hj. apply elem_of_cons in Hj as [<-|Hj]; [|by destruct (Hnb _ Hb)].
  rewrite Hlj in Hlx. injection Hlx as ->.
  destruct Hok'' as [[Hd' _]|(Hl'' & y & c & Hy & Hly & _)]; [lia|].
  assert (y ∈ s''.2) as Hy' by (rewrite Hy; left).
  apply (Hm y); [|done|lia]. split.
  - apply (parts_lt k' m s' s''); [done|done|lia|rewrite Hx; left|done].
  - destruct (decide (m = k)) as [->|Hne']; [|pose proof (parts_lt m k s'' s y i Hs'' Hk ltac:(lia) Hy' Hi); lia].
    rewrite Hs'' in Hk. injection Hk as ->. exact (part_head_le k s y c i Hs'' Hy Hi).
Qed.
End heads.

(** A branch is part of the tree, in its order. *)
Lemma sublist_concat_map {A B} (f : A → list B) l x b : x ∈ l → b `sublist_of` f x → b `sublist_of` concat (map f l).
Proof.
  intros Hx Hb. induction Hx as [x l|x y l Hx IH]; simpl.
  - by apply sublist_inserts_r.
  - by apply sublist_inserts_l, IH.
Qed.

Lemma branches_sublist {A} (n : Node A) b : b ∈ branches n → b `sublist_of` concat (preorder n).*2.
Proof.
  revert b. induction n as [l ts cs IH] using node_ind'. intros b Hb. cbn [preorder]. rewrite fmap_cons. cbn [concat snd].
  rewrite preorder_concat. destruct cs as [|c cs].
  - apply list_elem_of_singleton in Hb as ->. simpl. by rewrite app_nil_r.
  - cbn [branches] in Hb. apply (list_elem_of_fmap_1 (app ts)) in Hb as (b' & -> & Hb).
    apply sublist_app; [done|]. apply elem_of_concat_list in Hb as (bs & Hb & Hbs).
    apply (list_elem_of_fmap_1 branches) in Hbs as (d & -> & Hd). apply (sublist_concat_map _ _ d); [done|].
    rewrite Forall_forall in IH. by apply IH.
Qed.

(** ** The groups of a run *)

Section tree.
Context (depth : Z) (levels : list Z) (Hd : 0 <= depth) (Hpos : Forall (λ l, 1 <= l) levels).
Let lines := zip levels (seq 0 (length levels)).

Lemma lines_levels : Forall (λ line, levels !! line.2 = Some line.1) lines.
Proof.
  apply Forall_forall. intros [l i] Hl. apply list_elem_of_lookup in Hl as [k Hk].
  apply lookup_zip_with_Some in Hk as (l' & i' & [= <- <-] & Hl' & Hi'). apply lookup_seq in Hi' as [-> _]. done.
Qed.

Lemma lines_fst : lines.*1 = levels.
Proof. apply fst_zip. by rewrite length_seq. Qed.
Lemma lines_snd : lines.*2 = seq 0 (length levels).
Proof. apply snd_zip. by rewrite length_seq. Qed.

Lemma within_descendants n :
  all_nodes (heading_ok depth levels) n → nested (erase n) → 1 <= node_level (erase n) →
  all_nodes (λ l _ _, within depth l = true) n.
Proof.
  induction n as [l t b cs IH] using chunk_node_ind. intros [[Hl _] Hcs] Hn Hpos'. rewrite all_nodes_and in Hcs.
  simpl in Hn, Hpos'. inversion_clear Hn as [??? HF _]. apply List.Forall_map in HF.
  split; [unfold within; destruct Hl as [[-> _]|[Hl _]]; lia|]. rewrite all_nodes_and.
  rewrite Forall_forall in IH, Hcs, HF |- *. intros c Hc. destruct (HF c Hc). apply IH; [done|auto|done|lia].
Qed.

(** The root that is built has no heading, its descendants have one each, and the tree
    holds every line once, in order. *)
Lemma build_chunk_tree_ok : ∃ b cs, build_chunk_tree lines depth = MkChunkNode 0 [] b cs ∧
  body_ok depth levels b ∧ Forall (all_nodes (heading_ok depth levels)) cs ∧
  Forall (all_nodes (λ l _ _, within depth l = true)) cs ∧ nested (erase (MkChunkNode 0 [] b cs)) ∧
  concat (preorder (erase (MkChunkNode 0 [] b cs))).*2 = seq 0 (length levels).
Proof.
  assert (all_nodes (heading_ok depth levels) (build_chunk_tree lines depth)) as Hall.
  { apply all_build; [split; [by left|constructor]|]. pose proof lines_levels as HF.
    rewrite Forall_forall in HF |- *. intros [l i] Hl. specialize (HF _ Hl). unfold line_ok. simpl in *.
    destruct (Z.ltb_spec depth l).
    - intros l' t b [Ht Hb]. split; [done|]. apply Forall_app. split; [done|]. apply Forall_singleton. eauto.
    - split; [|constructor]. right. split; [|eauto]. split; [|done]. by apply (Forall_lookup_1 _ _ _ _ Hpos HF). }
  assert (Forall (λ l, 1 <= l.1) lines) as Hlines.
  { apply (List.Forall_map fst (λ l, 1 <= l)). change (Forall (λ l, 1 <= l) lines.*1). by rewrite lines_fst. }
  pose proof (erase_build lines depth Hd) as He. destruct (build_tree_nested depth lines Hd Hlines) as [Hn Hl].
  rewrite <-He in Hn, Hl.
  assert (concat (preorder (erase (build_chunk_tree lines depth))).*2 = seq 0 (length levels)) as Hp.
  { by rewrite He, build_tree_parts, parts_texts, lines_snd. }
  destruct (build_chunk_tree lines depth) as [l t b cs]. simpl in Hl. subst l. destruct Hall as [[Ht Hb] Hcs].
  rewrite all_nodes_and in Hcs. destruct Ht as [[_ ->]|[? _]]; [|lia]. exists b, cs. split_and!; try done.
  simpl in Hn. inversion_clear Hn as [??? HF _]. apply List.Forall_map in HF.
  rewrite Forall_forall in Hcs, HF |- *. intros c Hc. destruct (HF c Hc). apply within_descendants; [auto|done|lia].
Qed.

Lemma paths_kept inc :
  (∀ p, p ∈ get_paths (build_chunk_tree lines depth) depth inc → p `sublist_of` seq 0 (length levels)) ∧
  ∀ i, (i < length levels)%nat → ∃ p, p ∈ get_paths (build_chunk_tree lines depth) depth inc ∧ i ∈ p ∧
    ∀ j, heads depth levels j i → j ∈ p.
Proof.
  destruct build_chunk_tree_ok as (b & cs & -> & Hb & Hcs & Hw & Hn & Hseq).
  destruct (decide (b = [] ∧ cs = [])) as [[-> ->]|Hne].
  { assert (get_paths (MkChunkNode 0 [] [] []) depth inc = []) as -> by by destruct inc.
    split; [by intros p ?%elem_of_nil|]. intros i Hi. destruct levels; [simpl in Hi; lia|done]. }
  rewrite get_paths_branches by (try done; destruct b, cs; naive_solver).
  rewrite <-(root_shape_texts depth inc) in Hseq.
  destruct (root_shape_parts depth levels inc b cs Hb Hcs Hw) as (ps & Hps & Hok).
  pose proof (nested_branches _ (nested_root_shape depth inc b cs Hd Hw Hn)) as Hbr.
  split.
  - intros p Hp. apply branches_sublist in Hp. by rewrite Hseq in Hp.
  - intros i Hi. rewrite Hps in Hbr, Hseq. change (concat ps.*2 = seq 0 (length levels)) in Hseq.
    assert (i ∈ concat ps.*2) as Hin by (rewrite Hseq; apply elem_of_seq; lia).
    apply elem_of_concat_list in Hin as (js & Hin & His). apply list_elem_of_fmap in His as (s & -> & Hs).
    apply list_elem_of_lookup in Hs as [k Hk]. destruct (Hbr (S k) s Hk) as (p & Hp & Hsp & Hup).
    exists p. split; [done|]. split; [by apply Hsp|]. intros j Hj.
    destruct (heads_enclose depth levels ps Hok Hseq k s i j Hj Hk Hin) as (k' & s' & Hk' & Hj' & Henc).
    destruct Henc as [->|Henc]; [rewrite Hk in Hk'; injection Hk' as <-; by apply Hsp|].
    apply (Hup (S k') s'); [|done|done]. destruct Henc as [Hlt Henc]. split; [lia|].
    intros t [|m] t' Ht Hm Ht'; [lia|]. apply (Henc t m t'); [done|lia|done].
Qed.
End tree.

Lemma omap_sublist {A B} (f : A → option B) l k : l `sublist_of` k → omap f l `sublist_of` omap f k.
Proof.
  induction 1 as [|x l k H IH|x l k H IH]; csimpl; [done| |]; destruct (f x); auto using sublist_skip, sublist_cons.
Qed.

Lemma omap_lookup_seq {A} (l : list A) : omap (λ i, l !! i) (seq 0 (length l)) = l.
Proof.
  assert (∀ l k : list A, omap (λ i, (k ++ l) !! i) (seq (length k) (length l)) = l) as H; [|apply (H l [])].
  clear l. induction l as [|x l IH]; intros k; [done|]. csimpl.
  rewrite lookup_app_r, Nat.sub_diag by done. simpl. f_equal. specialize (IH (k ++ [x])).
  rewrite length_app, <-app_assoc, Nat.add_1_r in IH. exact IH.
Qed.

Lemma resolve_target_level_total levels hierarchy h :
  int_value hierarchy = Ok h → ∃ target, resolve_target_level levels hierarchy = Ok target ∧
    match target with Some t => 1 <= t | None => True end.
Proof.
  intros Hh. unfold resolve_target_level. destruct (isort _ _) as [|l ls] eqn:E; [by exists None|].
  rewrite Hh. cbn [mbind res_bind]. eexists. split; [done|]. case_match eqn:Hl; [|done].
  apply list_elem_of_lookup_2 in Hl. rewrite <-E, elem_of_isort, elem_of_dict_fromkeys in Hl.
  apply list_elem_of_filter in Hl. lia.
Qed.

(** Every line of a run is in a group with all the headings over it, and a group is in
    the order of the document. *)
Definition run_kept (hierarchy : pyv) (run : list (LineRecord * Z)) (gs : list (list LineRecord)) : Prop :=
  (∀ g, g ∈ gs → g `sublist_of` run.*1) ∧
  ∃ target, resolve_target_level run.*2 hierarchy = Ok target ∧
    ∀ i r, run.*1 !! i = Some r → ∃ g, g ∈ gs ∧ r ∈ g ∧
      ∀ t j h, target = Some t → heads t run.*2 j i → run.*1 !! j = Some h → h ∈ g.

Lemma flush_kept hierarchy inc run h :
  int_value hierarchy = Ok h → Forall (λ r, 1 <= r.2) run →
  ∃ gs, flush_text_records hierarchy inc run = Ok gs ∧ run_kept hierarchy run gs.
Proof.
  intros Hh Hpos. destruct (resolve_target_level_total run.*2 hierarchy h Hh) as (target & Ht & Htpos).
  unfold flush_text_records, run_kept. case_decide as Hrun.
  { subst run. exists []. split; [done|]. split; [by intros g ?%elem_of_nil|]. exists target. by split. }
  rewrite Ht. cbn [mbind res_bind]. eexists. split; [done|].
  destruct target as [t|].
  2:{ split; [by intros g ->%list_elem_of_singleton|]. exists None. split; [done|]. intros i r Hi.
      exists run.*1. split; [left|]. split; [by eapply list_elem_of_lookup_2|done]. }
  assert (Forall (λ l, 1 <= l) run.*2) as Hlev by (by apply Forall_fmap).
  destruct (paths_kept t run.*2 ltac:(lia) Hlev inc) as [Hsub Hin]. rewrite length_fmap in Hsub, Hin.
  split.
  - intros g Hg. apply list_elem_of_fmap in Hg as (p & -> & Hp).
    apply list_elem_of_filter in Hp as [_ Hp]. apply Hsub, (omap_sublist (λ i, run.*1 !! i)) in Hp.
    replace (length run) with (length run.*1) in Hp by apply length_fmap. by rewrite omap_lookup_seq in Hp.
  - exists (Some t). split; [done|]. intros i r Hi. assert (i < length run)%nat as Hlen.
    { apply lookup_lt_Some in Hi. by rewrite length_fmap in Hi. }
    destruct (Hin i Hlen) as (p & Hp & Hip & Hj). exists (omap (λ i, run.*1 !! i) p). split_and!.
    + apply list_elem_of_fmap. exists p. split; [done|]. apply list_elem_of_filter.
      split; [|done]. by destruct p; [apply elem_of_nil in Hip|].
    + apply list_elem_of_omap. eauto.
    + intros t' j x [= <-] Hh' Hx. apply list_elem_of_omap. exists j. auto.
Qed.

(** The runs of texts between tables and images *)
Fixpoint pieces (run l : list (LineRecord * Z)) : list (list (LineRecord * Z) + LineRecord) :=
  match l with
  | [] => [inl run]
  | r :: l => if is_text r.1 then pieces (run ++ [r]) l else inl run :: inr r.1 :: pieces [] l
  end.

Definition piece_kept (hierarchy : pyv) (p : list (LineRecord * Z) + LineRecord) (gs : list (list LineRecord)) : Prop :=
  match p with inl run => run_kept hierarchy run gs | inr r => gs = [[r]] end.

Lemma hierarchy_pieces hierarchy inc h l : ∀ groups run,
  int_value hierarchy = Ok h → Forall (λ r, 1 <= r.2) (run ++ l) →
  ∃ gss, ('(groups, run) ← foldl (λ st r, st ← st; hierarchy_record hierarchy inc st r) (Ok (groups, run)) l;
          new ← flush_text_records hierarchy inc run; Ok (groups ++ new)) = Ok (groups ++ concat gss) ∧
    Forall2 (piece_kept hierarchy) (pieces run l) gss.
Proof.
  induction l as [|r l IH]; intros groups run Hh Hpos.
  - rewrite app_nil_r in Hpos. destruct (flush_kept hierarchy inc run h Hh Hpos) as (gs & Hgs & Hk).
    exists [gs]. simpl. rewrite Hgs. cbn [mbind res_bind]. rewrite app_nil_r. split; [done|].
    constructor; [exact Hk|constructor].
  - simpl. unfold hierarchy_record at 1. cbn [mbind res_bind]. destruct (is_text r.1).
    + apply IH; [done|]. by rewrite <-app_assoc.
    + apply Forall_app in Hpos as [Hrun [_ Hl]%Forall_cons].
      destruct (flush_kept hierarchy inc run h Hh Hrun) as (gs & Hgs & Hk). rewrite Hgs. cbn [mbind res_bind].
      destruct (IH (groups ++ gs ++ [[r.1]]) [] Hh Hl) as (gss & Hg & HF). exists (gs :: [[r.1]] :: gss).
      split; [|constructor; [exact Hk|]; by constructor]. etrans; [exact Hg|]. simpl. by rewrite <-!app_assoc.
Qed.

(** ** Levels *)

Section outline_ind.
Context (P : PdfOutline → Prop) (Hentry : ∀ t, P (Entry t)) (Hentries : ∀ l, Forall P l → P (Entries l)).
Fixpoint outline_ind' (n : PdfOutline) : P n :=
  match n with
  | Entry t => Hentry t
  | Entries l => Hentries l ((fix go l := match l return Forall P l with
      | [] => Forall_nil_2 P | n :: l => Forall_cons_2 P n l (outline_ind' n) (go l) end) l)
  end.
End outline_ind.

Lemma outline_dfs_depth n : ∀ d l, 0 <= d → outline_dfs d n = Some l → Forall (λ o, 0 <= o.1.2) l.
Proof.
  induction n as [[t|]|ns IH] using outline_ind'; intros d l Hd; simpl; [|done|].
  - intros [= <-]. by apply Forall_singleton.
  - revert l. induction IH as [|n ns Hn _ IH]; intros l; [by intros [= <-]|].
    destruct (outline_dfs (d + 1) n) as [a|] eqn:Ha; [|done]. cbn [mbind option_bind].
    match goal with |- (b ← ?g; _) = _ → _ => destruct g as [b|] eqn:Hb end; [|done].
    intros [= <-]. apply Forall_app. split; [apply (Hn (d + 1)); [lia|done]|by apply IH].
Qed.

Section levels.
Context (pdf_outline : pyv → option (list PdfOutline)).

Lemma extract_outlines_depth file : Forall (λ o, 0 <= o.1.2) (extract_outlines pdf_outline file).
Proof.
  unfold extract_outlines. case_match; [|constructor]. unfold extract_pdf_outlines.
  destruct (pdf_outline _) as [ns|]; [|constructor]. cbn [mbind option_bind].
  destruct (mapM (outline_dfs 0) ns) as [ls|] eqn:E; [|constructor]. apply mapM_Some in E. simpl.
  induction E as [|n l ns ls Hn _ IH]; [constructor|]. simpl. apply Forall_app. split; [|done].
  by apply (outline_dfs_depth n 0).
Qed.

Lemma body_level_pos : 1 <= BODY_LEVEL.
Proof. by vm_compute. Qed.

(** Every line has a level from 1. *)
Lemma resolve_levels_pos file raw_levels records :
  let levels := rs_levels (resolve_title_levels pdf_outline file raw_levels records) in
  length levels = length records ∧ Forall (λ l, 1 <= l) levels.
Proof.
  pose proof body_level_pos as Hbody. simpl. unfold resolve_title_levels.
  destruct (resolve_outline_levels _ _ _) as [r|] eqn:E; simpl.
  - unfold resolve_outline_levels in E. case_decide; [done|]. destruct (fle _ _); [done|]. injection E as <-. simpl.
    split; [apply length_fmap|]. apply Forall_fmap, Forall_true. intros x. simpl. unfold outline_level.
    destruct (is_text x); [simpl|done]. destruct (fetchone _ _) as [o|] eqn:Ho; [|done].
    apply fetchone_Some in Ho as [Ho _]. pose proof (extract_outlines_depth file) as HF.
    rewrite Forall_forall in HF. specialize (HF o Ho). lia.
  - split; [apply length_fmap|]. apply Forall_fmap, Forall_true. intros x. simpl. unfold frequency_level.
    destruct (is_text x); [simpl|done]. unfold match_regex_level. destruct (first_index _ _); simpl; [lia|].
    unfold match_layout_level, len. destruct (_ && _); lia.
Qed.

End levels.

(** ** Groups of a section *)

Section grouped.
Context `{Tokens}.

Definition group_tokens (g : list (LineRecord * Z)) : Z :=
  foldr Z.add 0 ((λ r, num_tokens_from_string (lr_text r.1)) <$> g).

(** A line joins a group that is small, or that is not large and ends in its section. *)
Definition joins (g : list (LineRecord * Z)) (y : LineRecord * Z) : Prop :=
  group_tokens g < MIN_GROUP_TOKENS ∨
  group_tokens g < MAX_GROUP_TOKENS ∧ ∃ x, last g = Some x ∧ x.2 = y.2.

(** A table or an image, or texts each of which joins those before it *)
Definition title_group (g : list (LineRecord * Z)) : Prop :=
  (∃ r, g = [r] ∧ is_text r.1 = false) ∨
  g ≠ [] ∧ Forall (λ r, is_text r.1 = true) g ∧ ∀ a y b, g = a ++ y :: b → a ≠ [] → joins a y.

(** A group is closed only by a table or an image, or by a line that does not join it. *)
Definition separate (g h : list (LineRecord * Z)) : Prop :=
  ∀ x y, last g = Some x → head h = Some y → is_text x.1 = true → is_text y.1 = true → ¬ joins g y.

(** Blank texts are left out. *)
Definition is_shown (r : LineRecord * Z) : bool := negb (is_text r.1) || visible (lr_text r.1).

Record group_state (l : list (LineRecord * Z)) (st : Grouping) (closed : list (list (LineRecord * Z)))
    (cur : list (LineRecord * Z)) : Prop := {
  gs_closed : gr_closed st = (λ g, g.*1) <$> closed;
  gs_open : gr_open st = cur.*1;
  gs_tk : gr_tk st = group_tokens cur;
  gs_sid : ∀ x, last cur = Some x → x.2 = gr_sid st;
  gs_concat : concat closed ++ cur = filter (λ r, is_shown r = true) l;
  gs_groups : Forall title_group closed;
  gs_cur : cur = [] ∨ title_group cur ∧ Forall (λ r, is_text r.1 = true) cur;
  gs_sorted : Sorted separate closed;
  gs_last : if decide (cur = []) then ∀ h, TlRel separate h closed else TlRel separate cur closed }.

Lemma group_tokens_snoc g y : group_tokens (g ++ [y]) = group_tokens g + num_tokens_from_string (lr_text y.1).
Proof.
  unfold group_tokens. rewrite fmap_app.
  induction ((λ r : LineRecord * Z, num_tokens_from_string (lr_text r.1)) <$> g) as [|a l IH]; simpl in *; lia.
Qed.

Lemma title_group_one r : is_text r.1 = true → title_group [r].
Proof.
  intros Hr. right. split; [done|]. split; [by apply Forall_singleton|]. intros a y b Hab Ha.
  destruct a as [|x [|z a]]; [done| |]; by inversion Hab.
Qed.

Lemma title_group_snoc g y :
  title_group g → Forall (λ r, is_text r.1 = true) g → is_text y.1 = true → joins g y → title_group (g ++ [y]).
Proof.
  intros [(r & -> & Hr)|(Hne & Ht & Hj)] Hall Hy Hjy; [by inversion Hall; congruence|].
  right. split; [by destruct g|]. split; [apply Forall_app; split; [done|by apply Forall_singleton]|].
  intros a z b Hab Ha. destruct b as [|w b _] using rev_ind.
  - apply app_inj_tail in Hab as [-> ->]. done.
  - rewrite app_comm_cons, app_assoc in Hab. apply app_inj_tail in Hab as [-> _]. by apply (Hj a z b).
Qed.

(** The groups of a state *)
Definition groups_of (closed : list (list (LineRecord * Z))) (cur : list (LineRecord * Z)) : list (list (LineRecord * Z)) :=
  closed ++ (if decide (cur = []) then [] else [cur]).

Lemma all_groups_of l st closed cur : group_state l st closed cur →
  all_groups st = (λ g, g.*1) <$> groups_of closed cur ∧ concat (groups_of closed cur) = filter (λ r, is_shown r = true) l ∧
  Forall title_group (groups_of closed cur) ∧ Sorted separate (groups_of closed cur).
Proof.
  intros [H1 H2 H3 H4 H5 H6 H7 H8 H9]. unfold all_groups, groups_of. rewrite H1, H2.
  destruct (decide (cur = [])) as [->|Hne].
  - rewrite decide_True by done. rewrite app_nil_r in H5. by rewrite !app_nil_r.
  - rewrite decide_False by (by destruct cur). rewrite fmap_app, concat_app. simpl. rewrite app_nil_r.
    destruct H7 as [|[H7 _]]; [done|]. split_and!; [done|done| |by apply Sorted_snoc].
    apply Forall_app. split; [done|by apply Forall_singleton].
Qed.

(** A group that follows all others *)
Lemma groups_tl cur closed h :
  (if decide (cur = []) then ∀ h, TlRel separate h closed else TlRel separate cur closed) →
  (cur ≠ [] → separate cur h) → TlRel separate h (groups_of closed cur).
Proof.
  unfold groups_of. case_decide as Hc; intros Hl Hs; [rewrite app_nil_r; apply Hl|]. constructor. by apply Hs.
Qed.

Lemma separate_media_l g h r : last g = Some r → is_text r.1 = false → separate g h.
Proof. intros Hg Hr x y Hx _ Hxt _. congruence. Qed.
Lemma separate_media_r g r : is_text r.1 = false → separate g [r].
Proof. intros Hr x y _ [= <-] _ Hy. congruence. Qed.

Lemma shown_snoc l r :
  filter (λ r, is_shown r = true) (l ++ [r]) = filter (λ r, is_shown r = true) l ++ (if is_shown r then [r] else []).
Proof. rewrite filter_app. f_equal. rewrite filter_cons. by destruct (is_shown r). Qed.

Lemma group_media l st closed cur r :
  group_state l st closed cur → is_text r.1 = false →
  group_state (l ++ [r]) (group_record st r) (groups_of closed cur ++ [[r]]) [].
Proof.
  intros Hst Hr. destruct (all_groups_of _ _ _ _ Hst) as (Ha & Hc & Hg & Hs). destruct r as [r sid].
  simpl in Hr. unfold group_record. rewrite Hr. split; simpl; try done.
  - by rewrite Ha, fmap_app.
  - rewrite app_nil_r, concat_app, Hc, shown_snoc. unfold is_shown. simpl. by rewrite Hr.
  - apply Forall_app. split; [done|]. apply Forall_singleton. left. by exists (r, sid).
  - by left.
  - apply Sorted_snoc; [done|]. apply groups_tl; [apply Hst|]. intros _. by apply separate_media_r.
  - intros h. constructor. by eapply separate_media_l.
Qed.

Lemma group_blank l st closed cur r :
  group_state l st closed cur → is_text r.1 = true → visible (lr_text r.1) = false →
  group_state (l ++ [r]) (group_record st r) closed cur.
Proof.
  intros [] Hr Hv. destruct r as [r sid]. simpl in Hr, Hv. unfold group_record. rewrite Hr, Hv. simpl.
  split; try done. rewrite shown_snoc. unfold is_shown. simpl. by rewrite Hr, Hv, app_nil_r.
Qed.

(** The condition of the code is that the line joins the open group. *)
Lemma joins_cond l st closed cur r : group_state l st closed cur → cur ≠ [] →
  (gr_tk st <? MIN_GROUP_TOKENS) || (gr_tk st <? MAX_GROUP_TOKENS) && (r.2 =? gr_sid st) = true ↔ joins cur r.
Proof.
  intros Hst Hne. unfold joins. rewrite (gs_tk _ _ _ _ Hst), orb_true_iff, andb_true_iff.
  apply last_is_Some in Hne as [x Hx]. pose proof (gs_sid _ _ _ _ Hst x Hx) as Hsid. rewrite <-Hsid, Hx.
  split; (intros [?|[? Ht]]; [left; lia|right; split; [lia|]]).
  - exists x. split; [done|]. lia.
  - destruct Ht as (x' & [= <-] & ->). apply Z.eqb_refl.
Qed.

Lemma group_text l st closed cur r :
  group_state l st closed cur → is_text r.1 = true → visible (lr_text r.1) = true →
  ∃ closed' cur', group_state (l ++ [r]) (group_record st r) closed' cur'.
Proof.
  intros Hst Hr Hv. pose proof (joins_cond _ _ _ _ r Hst) as Hj.
  destruct (all_groups_of _ _ _ _ Hst) as (Ha & Hc & Hg & Hs).
  pose proof (groups_tl cur closed [r] (gs_last _ _ _ _ Hst)) as Htl. destruct r as [r sid]. simpl in Hr, Hv, Hj.
  unfold group_record. rewrite Hr, Hv. simpl. rewrite (gs_open _ _ _ _ Hst).
  assert (is_shown (r, sid) = true) as Hsh by (unfold is_shown; simpl; by rewrite Hv, orb_true_r).
  assert (∀ c, (c = true → cur ≠ [] ∧ joins cur (r, sid)) → (c = false → cur ≠ [] → ¬ joins cur (r, sid)) →
    ∃ closed' cur', group_state (l ++ [(r, sid)])
      (if c then {| gr_closed := gr_closed st; gr_open := cur.*1 ++ [r];
                    gr_tk := gr_tk st + num_tokens_from_string (lr_text r); gr_sid := sid |}
       else {| gr_closed := all_groups st; gr_open := [r]; gr_tk := num_tokens_from_string (lr_text r); gr_sid := sid |})
      closed' cur') as Hif.
  { intros [] Ht Hf.
    - destruct (Ht eq_refl) as [Hne Hjoin]. exists closed, (cur ++ [(r, sid)]). destruct Hst as [H1 H2 H3 H4 H5 H6 H7 H8 H9].
      destruct H7 as [|[H7 Hall]]; [done|]. split; simpl; try done.
      + by rewrite fmap_app.
      + by rewrite group_tokens_snoc, H3.
      + intros x. rewrite last_snoc. by intros [= <-].
      + by rewrite app_assoc, H5, shown_snoc, Hsh.
      + right. split; [by apply title_group_snoc|]. apply Forall_app. split; [done|]. by apply Forall_singleton.
      + rewrite decide_False in H9 by done. rewrite decide_False by (by destruct cur). inversion H9 as [|g gs Hg']; constructor.
        intros x y Hx Hy. apply Hg'; [done|]. by destruct cur.
    - exists (groups_of closed cur), [(r, sid)]. split; simpl; try done.
      + unfold group_tokens. simpl. lia.
      + by intros x [= <-].
      + by rewrite Hc, shown_snoc, Hsh.
      + right. split; [by apply title_group_one|by apply Forall_singleton].
      + apply Htl. intros Hne x y _ [= <-] _ _. by apply Hf. }
  apply Hif.
  - intros [Hne Hcond]%andb_true_iff. apply bool_decide_eq_true in Hne.
    assert (cur ≠ []) as Hne' by (by destruct cur). split; [done|]. by apply Hj.
  - intros Hfalse Hne Hjoin. apply Hj in Hjoin; [|done]. rewrite Hjoin, andb_true_r in Hfalse.
    apply bool_decide_eq_false in Hfalse. apply Hfalse. by destruct cur.
Qed.

Lemma group_fold l : ∃ closed cur, group_state l (foldl group_record grouping_start l) closed cur.
Proof.
  induction l as [|r l (closed & cur & Hst)] using rev_ind.
  - exists [], []. split; try done; by constructor.
  - rewrite foldl_app. simpl. destruct (is_text r.1) eqn:Hr; [|eauto using group_media].
    destruct (visible (lr_text r.1)) eqn:Hv; eauto using group_text, group_blank.
Qed.

(** C24. The grouping by titles cuts where its sizes and sections ask, and loses nothing but
    blank texts: the groups are the lines in order; a table or an image is a group of its
    own; a text joins the group before it exactly when this holds less than 32 tokens, or
    less than 1024 and ends in the same section. *)
Theorem group_chunker_groups hierarchy records resolved target :
  length (rs_levels resolved) = length records →
  _resolve_group_target_level (rs_levels resolved) hierarchy (rs_most_level resolved) = Ok target →
  let lines := zip records (_build_section_ids (rs_levels resolved) target) in
  lines.*1 = records ∧
  ∃ gs, GroupTitleChunker_groups hierarchy records resolved = Ok ((λ g, g.*1) <$> gs) ∧
    concat gs = filter (λ r, is_shown r = true) lines ∧ Forall title_group gs ∧ Sorted separate gs.
Proof.
  intros Hlen Ht lines. split.
  - apply fst_zip. rewrite <-Hlen. clear. destruct (rs_levels resolved) as [|l ls]; [done|]. simpl. apply le_n_S.
    generalize 0. induction ls as [|l' ls IH]; intros sid; simpl; [done|]. apply le_n_S, IH.
  - unfold GroupTitleChunker_groups. rewrite Ht. cbn [mbind res_bind]. unfold group_records. fold lines.
    destruct (group_fold lines) as (closed & cur & Hst).
    destruct (all_groups_of _ _ _ _ Hst) as (-> & Hc & Hg & Hs). by exists (groups_of closed cur).
Qed.
End grouped.

(** ** A document *)

Definition demo_record (ty : string) (s : string) : LineRecord :=
  {| lr_text := codes s; lr_type := ty; lr_img_id := PNone; lr_layout := []; lr_positions := [] |}.
Definition demo_lines : list LineRecord :=
  (demo_record "text" <$> ["a preface"; "# first"; "one"; "## deeper"; "two"; "   "]) ++
  [demo_record "table" "a table"] ++ (demo_record "text" <$> ["three"; "# second"; "four"]).
Definition no_outline (_ : pyv) : option (list PdfOutline) := None.
Definition demo_resolved : Resolved := resolve_title_levels no_outline [] BULLET_PATTERN demo_lines.

Example demo_levels : rs_levels demo_resolved =
  [BODY_LEVEL; 1; BODY_LEVEL; 2; BODY_LEVEL; BODY_LEVEL; BODY_LEVEL; BODY_LEVEL; 1; BODY_LEVEL].
Proof. vm_compute. reflexivity. Qed.

(** The lines of the groups, with and without the content of headings of their own *)
Definition demo_groups (inc : bool) : list (list text) :=
  match HierarchyTitleChunker_groups (PInt 2) inc demo_lines demo_resolved with
  | Ok gs => map (map lr_text) gs | Err _ => [] end.

Example demo_hierarchy :
  demo_groups true = map (map codes)
    [["a preface"]; ["# first"; "one"]; ["# first"; "## deeper"; "two"; "   "]; ["a table"]; ["three"]; ["# second"; "four"]]
  ∧ demo_groups false = map (map codes)
    [["a preface"]; ["# first"; "one"; "## deeper"; "two"; "   "]; ["a table"]; ["three"]; ["# second"; "four"]].
Proof. split; vm_compute; reflexivity. Qed.


#[local] Instance word_tokens : Tokens := {| num_tokens := λ t, length t |}.

Lemma group_chunker_groups_witness :
  let lines := zip demo_lines (_build_section_ids (rs_levels demo_resolved) (Some 1)) in
  lines.*1 = demo_lines ∧
  ∃ gs, GroupTitleChunker_groups (PInt 1) demo_lines demo_resolved = Ok ((λ g, g.*1) <$> gs) ∧
    concat gs = filter (λ r, is_shown r = true) lines ∧ Forall title_group gs ∧ Sorted separate gs.
Proof.
  apply (group_chunker_groups (PInt 1) demo_lines demo_resolved (Some 1)); vm_compute; reflexivity.
Defined.

Example demo_sections :
  match GroupTitleChunker_groups (PInt 1) demo_lines demo_resolved with
  | Ok gs => map (map lr_text) gs | Err _ => [] end =
  map (map codes) [["a preface"; "# first"; "one"; "## deeper"; "two"]; ["a table"]; ["three"; "# second"; "four"]].
Proof. vm_compute. reflexivity. Qed.

(** An empty pattern counts a hit for every line and is dropped afterwards: its family is
    chosen, and no line gets a level. *)
Example empty_pattern_wins :
  let group := [Seq (hashes 1) not_hash] in
  (select_level_group (codes <$> ["# a"; "b"; "c"]) [group],
   length (select_level_group (codes <$> ["# a"; "b"; "c"]) [group; [Eps]])) = (group, 0%nat).
Proof. vm_compute. reflexivity. Qed.

(** The parameters have no method unless the graph gives one. *)
Example no_method : check_title_chunker [("levels", PList [PList [PStr "^#"]]); ("hierarchy", PInt 2)] = Err attribute_error.
Proof. reflexivity. Qed.
