(* ===== verification/MemoryStore.v ===== *)
(** [MemoryStore] (qms_agent_backend/memory_store.py): the SQLite store of what the
    QMS assistant remembers of its users: typed memories with weights, the log of
    the conversations, the profiles, the feedback. Rows are in the order of their
    [AUTOINCREMENT] identifiers, which nothing else reads. *)
From S2P Require Import Prelude Float PyText Json Dsl Schema Effects Comp Regex PyNum.

Local Open Scope Z_scope.

(** ** Rows *)

Record MemoryItem := {
  mi_user_id : string; mi_memory_type : string; mi_content : string; mi_weight : double;
  mi_last_seen : string }.

Record LogRow := {
  lo_user_id : string; lo_session_id : string; lo_question : string; lo_answer : string;
  lo_references_json : string; lo_created_at : string }.

Record ProfileRow := {
  pr_user_id : string; pr_profile_json : string; pr_updated_at : string }.

Record FeedbackRow := {
  fb_user_id : string; fb_session_id : string; fb_question : string; fb_original_answer : string;
  fb_corrected_answer : string; fb_eval_signal : string; fb_score : double; fb_created_at : string }.

Record MemDb := {
  typed_memory : list MemoryItem; conversation_log : list LogRow; user_profile : list ProfileRow;
  feedback_log : list FeedbackRow }.

Definition mem_empty : MemDb :=
  {| typed_memory := []; conversation_log := []; user_profile := []; feedback_log := [] |}.

Definition on_memory f (d : MemDb) : MemDb :=
  {| typed_memory := f (typed_memory d); conversation_log := conversation_log d;
     user_profile := user_profile d; feedback_log := feedback_log d |}.
Definition on_log f (d : MemDb) : MemDb :=
  {| typed_memory := typed_memory d; conversation_log := f (conversation_log d);
     user_profile := user_profile d; feedback_log := feedback_log d |}.
Definition on_profile f (d : MemDb) : MemDb :=
  {| typed_memory := typed_memory d; conversation_log := conversation_log d;
     user_profile := f (user_profile d); feedback_log := feedback_log d |}.
Definition on_feedback f (d : MemDb) : MemDb :=
  {| typed_memory := typed_memory d; conversation_log := conversation_log d;
     user_profile := user_profile d; feedback_log := f (feedback_log d) |}.

(** ** Text *)

(** [[A-Za-z]{3,}|[\u4e00-\u9fa5]{2,}] *)
Definition is_letter (c : N) : bool := range 65 90 c || range 97 122 c.
Definition is_han (c : N) : bool := range 19968 40869 c.
Definition token_re : re :=
  Grp (Alt (Rep true 3 None (Cls is_letter)) (Rep true 2 None (Cls is_han))).

Definition stop_words : list string :=
  ["请"; "帮"; "一下"; "这个"; "那个"; "我们"; "你们"; "以及"; "还有"; "如何"; "什么"; "根据"; "关于";
   "the"; "and"; "for"; "with"; "that"; "this"; "from"; "what"; "how"; "please"].

(** ** The parts of a profile *)

(** [glossary_map] *)
Definition glossary_add (m : list (string * string)) (g : string) : list (string * string) :=
  match py_split1 "="%char g with
  | Some (k, v) =>
      let k := py_strip k in
      let v := py_strip v in
      if truthy k && truthy v then dict_set k v m else m
  | None => m
  end.

Definition glossary_map (items : list string) : list (string * string) := foldl glossary_add [] items.

(** [token_freq] *)
Definition count_token (freq : list (string * nat)) (t : string) : list (string * nat) :=
  let tk := py_lower t in
  if decide (tk ∈ stop_words) then freq else dict_set tk (S (default 0%nat (dict_get tk freq))) freq.

Definition row_text (r : LogRow) : string := lo_question r +:+ " " +:+ py_take 200 (lo_answer r).

Definition token_freq (rows : list LogRow) : list (string * nat) :=
  foldl (λ freq r, foldl count_token freq (findall token_re (row_text r))) [] rows.

(** The most frequent tokens, the first seen first among equals *)
Definition top_topics (rows : list LogRow) : list string :=
  take 8 (fst <$> isort (λ a b : string * nat, (b.2 <=? a.2)%nat) (token_freq rows)).

(** ** Operations *)

Class MemEnv := { mv_now : nat → string }.

(** [MIN(10.0, weight + excluded.weight * 0.2)] *)
Definition d02 : double := decimal_float false 2 (-1).
Definition d01 : double := decimal_float false 1 (-1).
Definition d10 : double := double_of_Z 10.
Definition reinforced (weight w : double) : double := py_min d10 (fadd weight (fmul w d02)).
(** [MAX(0.1, weight * factor)] *)
Definition decayed (factor weight : double) : double := py_max d01 (fmul weight factor).

(** [ORDER BY weight DESC, last_seen DESC] *)
Definition by_weight (a b : MemoryItem) : bool :=
  flt (mi_weight b) (mi_weight a) ||
  (negb (flt (mi_weight a) (mi_weight b)) && str_leb (mi_last_seen b) (mi_last_seen a)).

Definition same_memory (a b : MemoryItem) : Prop :=
  mi_user_id a = mi_user_id b ∧ mi_memory_type a = mi_memory_type b ∧ mi_content a = mi_content b.
#[export] Instance same_memory_dec a b : Decision (same_memory a b).
Proof. unfold same_memory. apply _. Defined.

Definition set_weight (w : double) (t : string) (m : MemoryItem) : MemoryItem :=
  {| mi_user_id := mi_user_id m; mi_memory_type := mi_memory_type m; mi_content := mi_content m;
     mi_weight := w; mi_last_seen := t |}.

(** [INSERT ... ON CONFLICT(user_id, memory_type, content) DO UPDATE] *)
Definition upsert_memory (m : MemoryItem) (t : list MemoryItem) : list MemoryItem :=
  match fetchone (λ r, same_memory r m) t with
  | None => t ++ [m]
  | Some _ =>
      update_where (λ r, same_memory r m)
        (λ r, set_weight (reinforced (mi_weight r) (mi_weight m)) (mi_last_seen m) r) t
  end.

(** The row an item is stored as *)
Definition memory_row (now : string) (item : MemoryItem) : MemoryItem :=
  {| mi_user_id := mi_user_id item; mi_memory_type := mi_memory_type item;
     mi_content := py_strip (mi_content item); mi_weight := mi_weight item; mi_last_seen := now |}.

Section ops.
Context {C : Type} `{MemEnv}.
Notation Act := (Act MemDb C).

Definition mem_now : Act string := observe mv_now.
Definition mem_connect {A} (m : Act A) : Act A := transaction (λ old _, old) m.

Definition upsert_memories (items : list MemoryItem) : Act unit :=
  now ← mem_now;
  mem_connect (each (λ item, modify (on_memory (upsert_memory (memory_row now item)))) items).

Definition memories_of (user_id : string) (d : MemDb) : list MemoryItem :=
  isort by_weight (filter (λ m, mi_user_id m = user_id) (typed_memory d)).

Definition get_top_memories (user_id : string) (limit : nat) : Act (list MemoryItem) :=
  mem_connect (gets (λ d, take limit (memories_of user_id d))).

Definition log_interaction (user_id session_id question : string) (answer : option string)
    (references : list json) : Act unit :=
  mem_connect (
    t ← mem_now;
    match answer with
    | None => fails (IntegrityError "NOT NULL constraint failed: conversation_log.answer")
    | Some answer =>
        modify (on_log (λ l, l ++ [{|
          lo_user_id := user_id; lo_session_id := session_id; lo_question := question;
          lo_answer := answer; lo_references_json := json_dumps (JArr references);
          lo_created_at := t |}]))
    end).

(** An entry of a history; [None] is the [ValueError] of [json.loads]. *)
Record HistoryEntry := {
  he_session_id : option string; he_question : string; he_answer : string; he_references : json;
  he_created_at : string }.

Definition history_entry (with_session : bool) (r : LogRow) : option HistoryEntry :=
  references ← json_loads (lo_references_json r);
  Some {| he_session_id := if with_session then Some (lo_session_id r) else None;
          he_question := lo_question r; he_answer := lo_answer r; he_references := references;
          he_created_at := lo_created_at r |}.

Definition history (with_session : bool) (rows : list LogRow) : Act (list HistoryEntry) :=
  ofres (match mapM (history_entry with_session) rows with
         | Some l => Ok l
         | None => Err (ValueError "Expecting value")
         end).

(** [ORDER BY id DESC LIMIT n] *)
Definition last_rows (n : nat) (l : list LogRow) : list LogRow := take n (reverse l).

Definition recent_history (user_id session_id : string) (limit : nat) : Act (list HistoryEntry) :=
  rows ← mem_connect (gets (λ d, last_rows limit
    (filter (λ r, lo_user_id r = user_id ∧ lo_session_id r = session_id) (conversation_log d))));
  history false rows.

Definition recent_history_all_sessions (user_id : string) (limit : nat) : Act (list HistoryEntry) :=
  rows ← mem_connect (gets (λ d, last_rows limit
    (filter (λ r, lo_user_id r = user_id) (conversation_log d))));
  history true rows.

(** ** Profiles *)

Definition contents (ty : string) (rows : list MemoryItem) : list string :=
  mi_content <$> filter (λ m, mi_memory_type m = ty) rows.

Definition profile_of (user_id now : string) (mem_rows : list MemoryItem) (log_rows : list LogRow)
    : json :=
  JObj [("user_id", JStr user_id);
        ("persona", json_strs (take 6 (contents "profile" mem_rows)));
        ("preferences", json_strs (take 8 (contents "preference" mem_rows)));
        ("long_term_objectives", json_strs (take 6 (contents "objective" mem_rows)));
        ("glossary", JObj ((λ kv, (kv.1, JStr kv.2)) <$> glossary_map (contents "glossary" mem_rows)));
        ("recurring_topics", json_strs (top_topics log_rows));
        ("memory_count", JInt (Z.of_nat (length mem_rows)));
        ("conversation_count", JInt (Z.of_nat (length log_rows)));
        ("updated_at", JStr now)].

(** [INSERT ... ON CONFLICT(user_id) DO UPDATE] *)
Definition upsert_profile (r : ProfileRow) (t : list ProfileRow) : list ProfileRow :=
  match fetchone (λ p, pr_user_id p = pr_user_id r) t with
  | None => t ++ [r]
  | Some _ => update_where (λ p, pr_user_id p = pr_user_id r) (λ _, r) t
  end.

Definition refresh_user_profile (user_id : string) : Act json :=
  mem_connect (
    mem_rows ← gets (memories_of user_id);
    log_rows ← gets (λ d, last_rows 200 (filter (λ r, lo_user_id r = user_id) (conversation_log d)));
    now ← mem_now;
    let profile := profile_of user_id now mem_rows log_rows in
    modify (on_profile (upsert_profile {|
      pr_user_id := user_id; pr_profile_json := json_dumps profile; pr_updated_at := now |})) ;;
    mret profile).

Definition get_user_profile (user_id : string) (auto_build : bool) : Act json :=
  row ← mem_connect (gets (λ d, fetchone (λ p, pr_user_id p = user_id) (user_profile d)));
  match row with
  | Some r => ofres (match json_loads (pr_profile_json r) with
                     | Some j => Ok j
                     | None => Err (ValueError "Expecting value")
                     end)
  | None => if auto_build then refresh_user_profile user_id else mret (JObj [])
  end.

(** ** Feedback *)

Definition d099 : double := decimal_float false 99 (-2).

Definition is_stale (user_id kw : string) (m : MemoryItem) : Prop :=
  mi_user_id m = user_id ∧ sql_like (mi_content m) ("%" +:+ kw +:+ "%") = true.
#[export] Instance is_stale_dec u k m : Decision (is_stale u k m).
Proof. unfold is_stale. apply _. Defined.

Definition decay_memories_by_keywords (user_id : string) (keywords : list string)
    (decay_factor : double) : Act nat :=
  let clean_keywords := filter (λ k, k ≠ "") (py_strip <$> keywords) in
  match clean_keywords with
  | [] => mret 0%nat
  | _ =>
      let factor := py_min d099 (py_max d01 decay_factor) in
      mem_connect (folding (λ affected kw,
        t ← mem_now;
        n ← gets (λ d, rowcount (is_stale user_id kw) (typed_memory d));
        modify (on_memory (update_where (is_stale user_id kw)
                  (λ m, set_weight (decayed factor (mi_weight m)) t m))) ;;
        mret (affected + n)%nat) 0%nat clean_keywords)
  end.

Definition log_feedback (user_id session_id question original_answer corrected_answer
    eval_signal : string) (score : double) : Act unit :=
  mem_connect (
    t ← mem_now;
    modify (on_feedback (λ l, l ++ [{|
      fb_user_id := user_id; fb_session_id := session_id; fb_question := question;
      fb_original_answer := original_answer; fb_corrected_answer := corrected_answer;
      fb_eval_signal := eval_signal; fb_score := score; fb_created_at := t |}]))).
End ops.
