(* ===== verification/QmsService.v ===== *)
(** [QMSAgentService] (qms_agent_backend/qms_agent_service.py): the assistant of the
    quality system. It keeps one chat of RAGFlow and a session per user, adds the
    memory of the user to each question, learns typed memories from questions,
    answers and corrections, and lets corrections weaken memories. *)
From S2P Require Import Prelude Float PyText Json Dsl Schema Effects Comp Regex PyNum MemoryStore.

Local Open Scope Z_scope.

Definition nl : string := String (ascii_of_N 10) "".

(** ** The service and its environment *)

Record QMSAgentConfig := {
  qc_api_key : string; qc_base_url : string; qc_chat_id : string; qc_chat_name : string;
  qc_dataset_ids : option (list string); qc_db_path : string }.

(** A chat object of the SDK: its id and the value of its [dataset_ids] *)
Record Chat := { ch_id : string; ch_dataset_ids : option (list string) }.

Record Qms := {
  q_memory : MemDb;
  q_session_map : list (string * string);          (* user -> session id *)
  q_chat : Chat }.

Inductive QCall :=
  | QGetChat (id : string)
  | QUpdateChat (id : string) (dataset_ids : list string)
  | QListChats (keywords : string)
  | QCreateChat (name : string) (dataset_ids : list string)
  | QCreateSession (chat_id name : string)
  | QAsk (session_id prompt : string).

Class QmsEnv := {
  qv_memory :: MemEnv;
  qv_stamp : nat → string;                          (* datetime.now().strftime("%Y%m%d%H%M%S") *)
  qv_get_chat : nat → string → res Chat;
  qv_update_chat : nat → string → list string → res unit;
  qv_list_chats : nat → string → res json;          (* rag.get("/chats", ...).json() *)
  qv_create_chat : nat → string → list string → res Chat;
  qv_create_session : nat → string → string → res string;
  qv_ask : nat → string → string → res (list Answer) }.

(** ** Finding or creating the chat *)

(** [The dataset\s+([0-9a-f]{32})\s+doesn't own parsed file] *)
Definition unparsed_re : re :=
  let ws := Rep true 1 None (Cls is_space_code) in
  Seq (lit "The dataset") (Seq ws
    (Seq (Grp (Rep true 32 (Some 32%nat) (Cls (λ c, range 48 57 c || range 97 102 c))))
      (Seq ws (lit "doesn't own parsed file")))).

Definition _drop_invalid_dataset_id (err_text : string) (ds_ids : list string) : list string :=
  match search_group unparsed_re err_text with
  | None => ds_ids
  | Some bad_id => filter (λ x, x ≠ bad_id) ds_ids
  end.

(** [v == s] *)
Definition is_text (s : string) (v : option json) : bool :=
  match v with Some (JStr t) => bool_decide (t = s) | _ => false end.

Section chat.
Context {T : Type} `{QmsEnv}.
Notation Act := (Act T QCall).
Context (cfg : QMSAgentConfig).

Definition get_chat (id : string) : Act Chat := call (QGetChat id) (λ n, qv_get_chat n id).
Definition update_chat (id : string) (ds : list string) : Act unit :=
  call (QUpdateChat id ds) (λ n, qv_update_chat n id ds).
Definition create_chat (name : string) (ds : list string) : Act Chat :=
  call (QCreateChat name ds) (λ n, qv_create_chat n name ds).

(** Each turn of the loop drops an id, or is the last: [length ds_ids + 1] turns are
    enough. *)
Fixpoint create_loop (fuel : nat) (name : string) (cur : list string) : Act Chat :=
  match fuel with
  | O => fails OutOfFuel
  | S fuel' =>
      catch (create_chat name cur) (λ e,
        let nxt := _drop_invalid_dataset_id (exn_str e) cur in
        if decide (nxt = cur) then fails e else create_loop fuel' name nxt)
  end.

Definition _create_chat_with_valid_datasets (name : string) (ds_ids : list string) : Act Chat :=
  create_loop (S (length ds_ids)) name ds_ids.

Fixpoint bind_loop (fuel : nat) (chat : Chat) (e : exn) (cur : list string) : Act Chat :=
  match fuel with
  | O => fails OutOfFuel
  | S fuel' =>
      let nxt := _drop_invalid_dataset_id (exn_str e) cur in
      if decide (nxt = cur) then mret chat
      else catch (update_chat (ch_id chat) nxt ;; get_chat (ch_id chat))
             (λ e2, bind_loop fuel' chat e2 nxt)
  end.

Definition expected_dataset_ids : list string := default [] (qc_dataset_ids cfg).

(** [set(a) != set(b)] *)
Definition other_set (a b : list string) : bool :=
  negb (bool_decide (Forall (λ x, x ∈ b) a) && bool_decide (Forall (λ x, x ∈ a) b)).

Definition _bind_datasets_if_needed (chat : Chat) : Act Chat :=
  match expected_dataset_ids with
  | [] => mret chat
  | expected =>
      if other_set (default [] (ch_dataset_ids chat)) expected then
        catch (update_chat (ch_id chat) expected ;; get_chat (ch_id chat))
          (λ e, bind_loop (S (length expected)) chat e expected)
      else mret chat
  end.

(** The loop over the chats of a reply; [None]: no chat of the name. Any exception
    means that none is found. *)
Fixpoint named_chat (chats : list json) : Act (option Chat) :=
  match chats with
  | [] => mret None
  | JObj c :: l =>
      let id := of_json (default JNull (dict_get "id" c)) in
      if is_text (qc_chat_name cfg) (dict_get "name" c) && py_bool id
      then Some <$> get_chat (py_str (λ _, "") id) else named_chat l
  | _ :: _ => fails (OtherError "AttributeError")
  end.

(** [j == 0] *)
Definition equals_0 (j : json) : bool :=
  match j with
  | JInt z => z =? 0
  | JBool b => negb b
  | JFloat l => feqb (lit_float l) f0
  | _ => false
  end.

(** The chats of a reply: [data["chats"]] of a dict, or [data] itself *)
Definition listed_chats (j : json) : res (list json) :=
  match j with
  | JObj kvs =>
      if negb (equals_0 (default JNull (dict_get "code" kvs))) then Ok []
      else
          match dict_get "data" kvs with
          | Some (JObj d) => match dict_get "chats" d with
                             | Some (JArr l) => Ok l
                             | None => Ok []
                             | Some _ => Err (OtherError "AttributeError")
                             end
          | Some (JArr l) => Ok l
          | None => Ok []
          | Some j => if py_bool (of_json j) then Err (OtherError "TypeError") else Ok []
          end
  | _ => Err (OtherError "AttributeError")
  end.

Definition _find_existing_chat_by_name : Act (option Chat) :=
  catch (j ← call (QListChats (qc_chat_name cfg)) (λ n, qv_list_chats n (qc_chat_name cfg));
         chats ← ofres (listed_chats j);
         named_chat chats)
        (λ _, mret None).

Definition _ensure_chat : Act Chat :=
  if truthy (qc_chat_id cfg) then
    c ← get_chat (qc_chat_id cfg); _bind_datasets_if_needed c
  else
    existed ← _find_existing_chat_by_name;
    match existed with
    | Some c => _bind_datasets_if_needed c
    | None =>
        catch (c ← _create_chat_with_valid_datasets (qc_chat_name cfg) expected_dataset_ids;
               _bind_datasets_if_needed c)
          (λ e,
            if py_in "Duplicated chat name" (exn_str e) then
              existed ← _find_existing_chat_by_name;
              match existed with
              | Some c => _bind_datasets_if_needed c
              | None =>
                  stamp ← observe qv_stamp;
                  c ← _create_chat_with_valid_datasets (qc_chat_name cfg +:+ "-" +:+ stamp)
                        expected_dataset_ids;
                  _bind_datasets_if_needed c
              end
            else fails e)
    end.
End chat.

(** ** What the service learns from texts *)

(** The characters a topic may have: no comma, no full stop, no line break *)
Definition clause (lo hi : nat) : re :=
  Grp (Rep true lo (Some hi) (Cls (λ c, negb (one_of ("，。" +:+ nl) c)))).

(** [(?:我是|我在|我负责)([^，。\n]{2,40})] *)
Definition profile_re : re := Seq (alts [lit "我是"; lit "我在"] (lit "我负责")) (clause 2 40).
(** [(?:目标|希望|我要|需要)([^，。\n]{3,60})] *)
Definition objective_re : re :=
  Seq (alts [lit "目标"; lit "希望"; lit "我要"] (lit "需要")) (clause 3 60).

(** [.*?] *)
Definition lazy : re := Rep false 0 None dot.

(** The patterns of a preference, each a group *)
Definition pref_patterns : list re :=
  [Grp (Seq (lit "请") (Seq lazy (Seq (lit "简短") lazy)));
   Grp (Seq (lit "请") (Seq lazy (Seq (lit "详细") lazy)));
   Grp (Seq (lit "给我") (Seq lazy (Seq (lit "步骤") lazy)));
   Grp (Seq (lit "用") (Seq lazy (Seq (lit "表格") lazy)));
   Grp (Seq (lit "中英双语") lazy);
   Grp (Seq (lit "先给步骤") lazy);
   Grp (Seq (lit "尽量简短") lazy);
   Grp (Seq (lit "先") (Seq lazy (Seq (lit "再") lazy)));
   Grp (Seq (lit "要点式") lazy);
   Grp (Seq (lit "分点回答") lazy)].

Definition d1 (m : Z) : double := decimal_float false m (-1).     (* m / 10 *)

Definition item (user_id ty content : string) (weight : double) : MemoryItem :=
  {| mi_user_id := user_id; mi_memory_type := ty; mi_content := content; mi_weight := weight;
     mi_last_seen := "" |}.

(** A fact on a term the text mentions *)
Definition glossary_item (user_id term definition text : string) : list MemoryItem :=
  if py_in term text then [item user_id "glossary" definition (double_of_Z 1)] else [].

Definition _extract_typed_memories (user_id question answer : string) : list MemoryItem :=
  let text := question +:+ nl +:+ answer in
  ((λ p, item user_id "profile" (py_strip p) (d1 15)) <$> findall profile_re text) ++
  (pref_patterns ≫= λ pat,
     (λ p, item user_id "preference" (py_strip p) (d1 12)) <$> findall pat text) ++
  ((λ o, item user_id "objective" (py_strip o) (d1 13)) <$> findall objective_re question) ++
  glossary_item user_id "NCM" "NCM=不合格品管理流程" text ++
  glossary_item user_id "管理评审" "管理评审=管理层定期体系有效性评估" text ++
  glossary_item user_id "风险管理" "风险管理=识别-评估-控制-监测闭环" text ++
  [item user_id "history" (py_take 120 question) (d1 8)].

(** [[A-Za-z0-9\u4e00-\u9fa5_\-]{2,30}], as the group *)
Definition term_group : re :=
  Grp (Rep true 2 (Some 30%nat)
    (Cls (λ c, is_letter c || range 48 57 c || is_han c || one_of "_-" c))).
Definition spaces : re := Rep true 0 None (Cls is_space_code).

Definition negative_patterns : list re :=
  [Seq term_group (Seq spaces (lit "改为"));
   Seq (lit "不是") (Seq spaces term_group);
   Seq (lit "不要") (Seq spaces term_group);
   Seq (lit "错误") (Seq (Cls (one_of ":：")) (Seq spaces term_group))].

Definition _extract_negative_keywords_from_feedback (text : string) : list string :=
  let kws := filter (λ kw, 2 ≤ py_len kw)%nat
               (negative_patterns ≫= λ pat, py_strip <$> findall pat text) in
  take 12 (dict_fromkeys kws).

(** [any(x in raw for x in l)] *)
Definition any_in (l : list string) (raw : string) : bool := existsb (λ x, py_in x raw) l.

Definition _build_feedback_eval_signal (question original_answer corrected_answer note : string)
    : string :=
  let q := py_take 180 (py_strip question) in
  let o := py_take 260 (py_strip original_answer) in
  let c := py_take 260 (py_strip corrected_answer) in
  let n := py_take 160 (py_strip note) in
  let raw := py_lower (corrected_answer +:+ nl +:+ note) in
  let tag (name : string) (l : list string) := if any_in l raw then [name] else [] in
  let tags := tag "evidence" ["引用"; "证据"; "来源"; "条款"] ++
              tag "workflow" ["步骤"; "流程"; "顺序"; "环节"] ++
              tag "terminology" ["术语"; "定义"; "概念"] ++
              tag "style" ["格式"; "简短"; "详细"; "分点"; "表格"] in
  let issue_tags := match tags with [] => ["general"] | _ => tags end in
  "[feedback_eval] tags=" +:+ py_join "," issue_tags +:+ " | question=" +:+ q +:+
  " | original=" +:+ o +:+ " | corrected=" +:+ c +:+ " | note=" +:+ n.

(** ** References *)

(** [c.get(k1) or c.get(k2) or ... or "unknown"] *)
Definition first_truthy (keys : list string) (c : list (string * json)) : json :=
  match filter (λ j, py_bool (of_json j) = true) (omap (λ k, dict_get k c) keys) with
  | j :: _ => j
  | [] => JStr "unknown"
  end.

(** The documents of the chunks, by their identifiers *)
Definition add_doc (docs : list (hkey * json)) (c : pyv) : res (list (hkey * json)) :=
  match to_json c with
  | Some (JObj c) =>
      let doc_id := first_truthy ["document_id"; "doc_id"; "id"] c in
      let doc_name := first_truthy ["document_name"; "docnm_kwd"; "doc_name"] c in
      match hash_of (of_json doc_id) with
      | Err e => Err e
      | Ok key =>
          Ok (match fetchone (λ d, d.1 = key) docs with
              | Some _ => docs
              | None => docs ++ [(key, JObj [("document_id", doc_id); ("document_name", doc_name)])]
              end)
      end
  | _ => Err (OtherError "AttributeError")
  end.

Fixpoint add_docs (docs : list (hkey * json)) (l : list pyv) : res (list (hkey * json)) :=
  match l with
  | [] => Ok docs
  | c :: l' => match add_doc docs c with Ok docs' => add_docs docs' l' | Err e => Err e end
  end.

Definition _extract_reference_docs (reference : option pyv) : res (list json) :=
  match reference with
  | Some (PList l) => match add_docs [] l with Ok docs => Ok (docs.*2) | Err e => Err e end
  | Some v => if py_bool v then Err exn_type else Ok []
  | None => Ok []
  end.

(** [(d.get("document_name") or "").lower()], of a text *)
Definition is_template (d : json) : res bool :=
  match d with
  | JObj kvs =>
      match default (JStr "") (dict_get "document_name" kvs) with
      | JStr s => Ok (any_in ["template"; "tpl"; "form"; "表单"; "模板"] (py_lower s))
      | j => if py_bool (of_json j) then Err (OtherError "AttributeError") else Ok false
      end
  | _ => Err (OtherError "AttributeError")
  end.

Fixpoint _pick_template_hints (docs : list json) : res (list json) :=
  match docs with
  | [] => Ok []
  | d :: l =>
      match is_template d, _pick_template_hints l with
      | Ok b, Ok l' => Ok (if b then d :: l' else l')
      | Err e, _ | Ok _, Err e => Err e
      end
  end.

(** ** Questions *)

Definition on_memories (d : MemDb) (s : Qms) : Qms :=
  {| q_memory := d; q_session_map := q_session_map s; q_chat := q_chat s |}.
Definition on_sessions (f : list (string * string) → list (string * string)) (s : Qms) : Qms :=
  {| q_memory := q_memory s; q_session_map := f (q_session_map s); q_chat := q_chat s |}.

(** The replies *)
Record AskReply := {
  ar_session_id : string; ar_module : option string; ar_answer : string; ar_references : list json;
  ar_template_hints : list json }.

Record LongTermMemory := { lt_profile : json; lt_typed_memories : list MemoryItem }.

Record FeedbackReply := {
  fr_session_id : string; fr_eval_signal : string; fr_negative_keywords : list string;
  fr_decayed_memories : nat; fr_learned_items : nat; fr_profile_updated_at : json }.

Section service.
Context `{QmsEnv}.
Abbreviation Q := (Act Qms QCall).

(** An operation of [self.memory] *)
Definition mem {A} (m : Act MemDb QCall A) : Q A := zoom q_memory on_memories m.

Definition _get_or_create_session (user_id : string) : Q string :=
  known ← gets (λ s, dict_get user_id (q_session_map s));
  match known with
  | Some sid => mret sid
  | None =>
      chat ← gets q_chat;
      sid ← call (QCreateSession (ch_id chat) ("qms-" +:+ user_id))
              (λ n, qv_create_session n (ch_id chat) ("qms-" +:+ user_id));
      modify (on_sessions (dict_set user_id sid)) ;;
      mret sid
  end.

(** [profile.get(k, [])] *)
Definition profile_items (k : string) (profile : json) : res (list string) :=
  match profile with
  | JObj kvs =>
      match dict_get k kvs with
      | None => Ok []
      | Some j => match json_str_items j with Some l => Ok l | None => Err exn_type end
      end
  | _ => Err (OtherError "AttributeError")
  end.

Definition none_yet : string := "暂无".

Definition _join_items (items : list string) (max_n : nat) : string :=
  match items with
  | [] => none_yet
  | _ => py_join "；" (take max_n items)
  end.

Definition _build_memory_context (user_id : string) : Q string :=
  memories ← mem (get_top_memories user_id 10);
  history ← mem (recent_history_all_sessions user_id 6);
  profile ← mem (get_user_profile user_id true);
  persona ← ofres (profile_items "persona" profile);
  preferences ← ofres (profile_items "preferences" profile);
  objectives ← ofres (profile_items "long_term_objectives" profile);
  topics ← ofres (profile_items "recurring_topics" profile);
  mret (py_join nl (
    ["[长期用户画像]";
     "- persona: " +:+ _join_items persona 4;
     "- preferences: " +:+ _join_items preferences 5;
     "- objectives: " +:+ _join_items objectives 4;
     "- recurring_topics: " +:+ match topics with
                                | [] => none_yet
                                | _ => py_join "、" (take 6 topics)
                                end;
     "[用户记忆]"] ++
    match memories with
    | [] => ["- " +:+ none_yet]
    | _ => (λ m, "- (" +:+ mi_memory_type m +:+ ") " +:+ mi_content m) <$> memories
    end ++
    ["[跨会话最近对话]"] ++
    match history with
    | [] => ["- " +:+ none_yet]
    | _ => (λ h, "- Q: " +:+ py_take 100 (he_question h)) <$> history
    end)).

Definition process_prompt (mem_ctx question : string) : string :=
  py_strip (py_join nl [""; "你是SSME DX & SSME US QMS流程助手。"; "回答目标："; "1) 直接给出可执行步骤（编号）";
    "2) 给出关键控制点（至少3条）"; "3) 给出常见错误与避免建议"; "4) 若检索结果中有模板/表单文件，单独列出“相关模板”";
    "5) 仅使用可追溯到知识库的内容，不编造条款编号"; ""; mem_ctx; ""; "用户问题：" +:+ question; ""]).

Definition learning_prompt (module mem_ctx question : string) : string :=
  py_strip (py_join nl [""; "你是QMS培训专家，面向员工做体系化教学。"; "主题模块：" +:+ module; "教学要求：";
    "1) 先给“模块总览”"; "2) 再给“核心原则/关键术语”"; "3) 再给“流程框架（输入-活动-输出）”";
    "4) 再给“岗位落地建议（执行/记录/证据）”"; "5) 最后给“3道自测题（含参考答案）”";
    "并在回答末尾给出“下一轮可深入问题建议”。"; ""; mem_ctx; ""; "用户补充问题：" +:+ question; ""]).

(** [next(session.ask(prompt, stream=False))] *)
Definition ask_session (sid prompt : string) : Q Answer :=
  answers ← call (QAsk sid prompt) (λ n, qv_ask n sid prompt);
  match answers with
  | [] => fails (OtherError "")
  | msg :: _ => mret msg
  end.

(** What is recorded of an answered question *)
Definition learn (user_id sid logged question : string) (answer : option string) (refs : list json)
    : Q unit :=
  mem (log_interaction user_id sid logged answer refs) ;;
  mem (upsert_memories (_extract_typed_memories user_id question (default "" answer))) ;;
  mem (refresh_user_profile user_id) ;;
  mret ().

Definition ask_process_qa (user_id question : string) : Q AskReply :=
  sid ← _get_or_create_session user_id;
  mem_ctx ← _build_memory_context user_id;
  msg ← ask_session sid (process_prompt mem_ctx question);
  refs ← ofres (_extract_reference_docs (an_reference msg));
  template_hints ← ofres (_pick_template_hints refs);
  learn user_id sid question question (an_content msg) refs ;;
  mret {| ar_session_id := sid; ar_module := None; ar_answer := default "" (an_content msg);
          ar_references := refs; ar_template_hints := template_hints |}.

Definition ask_learning_qa (user_id module question : string) : Q AskReply :=
  sid ← _get_or_create_session user_id;
  mem_ctx ← _build_memory_context user_id;
  msg ← ask_session sid (learning_prompt module mem_ctx question);
  refs ← ofres (_extract_reference_docs (an_reference msg));
  learn user_id sid ("[" +:+ module +:+ "] " +:+ question) question (an_content msg) refs ;;
  mret {| ar_session_id := sid; ar_module := Some module; ar_answer := default "" (an_content msg);
          ar_references := refs; ar_template_hints := [] |}.

Definition get_user_long_term_memory (user_id : string) : Q LongTermMemory :=
  profile ← mem (get_user_profile user_id true);
  top_memories ← mem (get_top_memories user_id 20);
  mret {| lt_profile := profile; lt_typed_memories := top_memories |}.

(** ** Feedback *)

(** [max(0.1, min(2.0, score))] *)
Definition clamp_score (score : double) : double := py_max d01 (py_min (double_of_Z 2) score).

(** [min(4.0, i.weight * (1.2 + 0.6 * score))] *)
Definition amplified (score : double) (i : MemoryItem) : MemoryItem :=
  {| mi_user_id := mi_user_id i; mi_memory_type := mi_memory_type i; mi_content := mi_content i;
     mi_weight := py_min (double_of_Z 4) (fmul (mi_weight i) (fadd (d1 12) (fmul (d1 6) score)));
     mi_last_seen := mi_last_seen i |}.

Definition amplified_items (user_id question corrected_answer eval_signal : string) (score : double)
    : list MemoryItem :=
  (amplified score <$> _extract_typed_memories user_id question corrected_answer) ++
  [item user_id "history" ("反馈修正: " +:+ py_take 220 eval_signal)
     (py_min (d1 35) (fadd (d1 15) score))].

Definition require_text (name s : string) : Q unit :=
  if truthy (py_strip s) then mret () else fails (ValueError (name +:+ " is required")).

Definition submit_user_feedback (user_id question original_answer corrected_answer : string)
    (score : json) (note : string) (session_id : option string) : Q FeedbackReply :=
  require_text "question" question ;;
  require_text "original_answer" original_answer ;;
  require_text "corrected_answer" corrected_answer ;;
  session ← _get_or_create_session user_id;
  let sid := opt_or session_id session in
  score ← ofres (float_of_json score);
  let score := clamp_score score in
  let eval_signal := _build_feedback_eval_signal question original_answer corrected_answer note in
  let neg_keywords := _extract_negative_keywords_from_feedback (corrected_answer +:+ nl +:+ note) in
  decayed ← mem (decay_memories_by_keywords user_id neg_keywords (decimal_float false 82 (-2)));
  let items := amplified_items user_id question corrected_answer eval_signal score in
  mem (upsert_memories items) ;;
  mem (log_feedback user_id sid question original_answer corrected_answer eval_signal score) ;;
  mem (log_interaction user_id sid ("[USER_FEEDBACK] " +:+ question)
         (Some (py_strip (corrected_answer +:+ nl +:+ nl +:+ note))) []) ;;
  profile ← mem (refresh_user_profile user_id);
  mret {| fr_session_id := sid; fr_eval_signal := eval_signal; fr_negative_keywords := neg_keywords;
          fr_decayed_memories := decayed; fr_learned_items := length items;
          fr_profile_updated_at := match profile with
                                   | JObj kvs => default JNull (dict_get "updated_at" kvs)
                                   | _ => JNull
                                   end |}.
End service.

(** ** Configuration *)

Definition placeholders : list string :=
  ["你的token"; "你的RAGFlow_API_TOKEN"; "your_token"; "your_api_token"].

Definition load_config_from_env (getenv : string → option string) : res QMSAgentConfig :=
  let env k d := py_strip (default d (getenv k)) in
  let raw := env "QMS_DATASET_IDS" "" in
  let dataset_ids :=
    if truthy raw then Some (filter (λ x, x ≠ "") (py_strip <$> py_split ","%char raw)) else None in
  let api_key := env "RAGFLOW_API_KEY" "" in
  if negb (truthy api_key) then Err (RuntimeError "RAGFLOW_API_KEY is required")
  else if decide (api_key ∈ placeholders) then
    Err (RuntimeError "RAGFLOW_API_KEY 不能使用占位符，请替换为真实 API Token。")
  else if negb (forallb (λ c, (c <? 256)%N) (codes api_key)) then
    Err (RuntimeError "RAGFLOW_API_KEY 包含非 ASCII/Latin-1 字符，请检查是否填了中文或全角符号。")
  else
    Ok {| qc_api_key := api_key; qc_base_url := env "RAGFLOW_BASE_URL" "http://127.0.0.1:9380";
          qc_chat_id := env "QMS_CHAT_ID" ""; qc_chat_name := env "QMS_CHAT_NAME" "QMS Assistant";
          qc_dataset_ids := dataset_ids;
          qc_db_path := env "QMS_MEMORY_DB" "./extensions/qms_agent_backend/data/qms_memory.sqlite3" |}.
