(* ===== verification/QmsServer.v ===== *)
(** The HTTP API of the QMS assistant (qms_agent_backend/server.py), and the service
    as a transition system: it is started, which finds or creates its chat, and then
    serves requests one by one. *)
From S2P Require Import Prelude Float PyText Json Dsl Schema Effects Comp Regex PyNum.
From S2P Require Import MemoryStore QmsService.

Local Open Scope Z_scope.

Inductive QmsData :=
  | QHealthy
  | QMemory (m : LongTermMemory)
  | QAnswer (r : AskReply)
  | QFeedback (r : FeedbackReply).

Inductive QmsReply := QOk (d : QmsData) | QFail (status : Z) (message : string).

Record QmsRequest := {
  qq_method : string;                        (* GET, POST *)
  qq_path : string;                          (* without the query *)
  qq_query : string;                         (* the query, with its question mark *)
  qq_user_id : option string;                (* the first user_id of the query *)
  qq_body : string }.                        (* "" when Content-Length is 0 *)

Section server.
Context `{QmsEnv}.
Abbreviation Q := (Act Qms QCall).

(** [(payload.get(k) or d).strip()] *)
Definition text_field (k d : string) (payload : list (string * json)) : res string :=
  let j := default JNull (dict_get k payload) in
  if py_bool (of_json j) then
    match j with JStr s => Ok (py_strip s) | _ => Err (OtherError "AttributeError") end
  else Ok (py_strip d).

Definition bad_request (name : string) : QmsReply := QFail 400 (name +:+ " is required").

(** [do_GET]: an exception is not answered. The health path is compared with its
    query, the other one without it. *)
Definition do_GET (rq : QmsRequest) : Q QmsReply :=
  if decide (qq_path rq +:+ qq_query rq = "/healthz") then mret (QOk QHealthy)
  else if decide (qq_path rq = "/v1/qms/memory/profile") then
    data ← get_user_long_term_memory (py_strip (opt_or (qq_user_id rq) "anonymous"));
    mret (QOk (QMemory data))
  else mret (QFail 404 "not found").

Definition ask_procedure (payload : list (string * json)) : Q QmsReply :=
  user_id ← ofres (text_field "user_id" "anonymous" payload);
  question ← ofres (text_field "question" "" payload);
  if negb (truthy question) then mret (bad_request "question")
  else data ← ask_process_qa user_id question; mret (QOk (QAnswer data)).

Definition learn_module (payload : list (string * json)) : Q QmsReply :=
  user_id ← ofres (text_field "user_id" "anonymous" payload);
  module ← ofres (text_field "module" "管理评审" payload);
  question ← ofres (text_field "question" "请系统讲解该模块并给实践建议" payload);
  data ← ask_learning_qa user_id module question; mret (QOk (QAnswer data)).

Definition feedback (payload : list (string * json)) : Q QmsReply :=
  user_id ← ofres (text_field "user_id" "anonymous" payload);
  question ← ofres (text_field "question" "" payload);
  original_answer ← ofres (text_field "original_answer" "" payload);
  corrected_answer ← ofres (text_field "corrected_answer" "" payload);
  note ← ofres (text_field "note" "" payload);
  session_id ← ofres (text_field "session_id" "" payload);
  let score := default (JFloat "1.0") (dict_get "score" payload) in
  if negb (truthy question) then mret (bad_request "question")
  else if negb (truthy original_answer) then mret (bad_request "original_answer")
  else if negb (truthy corrected_answer) then mret (bad_request "corrected_answer")
  else
    data ← submit_user_feedback user_id question original_answer corrected_answer score note
             (if truthy session_id then Some session_id else None);
    mret (QOk (QFeedback data)).

Definition is_object (j : json) : Q (list (string * json)) :=
  match j with JObj kvs => mret kvs | _ => fails (OtherError "AttributeError") end.

(** [do_POST]: every exception is answered with its text. The path is compared with
    its query. *)
Definition do_POST (rq : QmsRequest) : Q QmsReply :=
  catch
    (payload ← ofres (match json_loads (if truthy (qq_body rq) then qq_body rq else "{}") with
                      | Some j => Ok j
                      | None => Err (ValueError "Expecting value")
                      end);
     let path := qq_path rq +:+ qq_query rq in
     if decide (path = "/v1/qms/ask-procedure") then kvs ← is_object payload; ask_procedure kvs
     else if decide (path = "/v1/qms/learn-module") then kvs ← is_object payload; learn_module kvs
     else if decide (path = "/v1/qms/feedback") then kvs ← is_object payload; feedback kvs
     else mret (QFail 404 "not found"))
    (λ e, mret (QFail 500 (exn_str e))).

Definition handle (rq : QmsRequest) : Q QmsReply :=
  if decide (qq_method rq = "GET") then do_GET rq
  else if decide (qq_method rq = "POST") then do_POST rq
  else mret (QFail 501 "Unsupported method").

(** ** The service as a transition system *)

Definition with_chat (d : MemDb) (chat : Chat) : Qms :=
  {| q_memory := d; q_session_map := []; q_chat := chat |}.

(** [QMSAgentService(cfg)] on the store the file holds, and the requests after it *)
Inductive qms_reaches (cfg : QMSAgentConfig) (w0 : Mach MemDb QCall) : Mach Qms QCall → Prop :=
  | qms_started chat w :
      _ensure_chat cfg w0 = (Ok chat, w) →
      qms_reaches cfg w0
        {| m_state := with_chat (m_state w) chat; m_tick := m_tick w; m_calls := m_calls w |}
  | qms_served w rq : qms_reaches cfg w0 w → qms_reaches cfg w0 (handle rq w).2.
End server.
