(* ===== verification/QmsProps.v ===== *)
(** Theorems on the QMS assistant: the invariant of its memory along every sequence
    of requests, the weights of the memories, the separation of the users, the
    profile that is kept up to date, and the ending of the loops that find a chat. *)
From S2P Require Import Prelude Float PyText Json Dsl Schema Effects Comp Regex PyNum.
From S2P Require Import MemoryStore QmsService QmsServer.
From Stdlib Require Import QArith Lqa.

Local Open Scope Z_scope.

(** ** Weights *)

(** A weight lies between 0.1 and 10. *)
Definition weight_ok (w : double) : Prop := fin_between d01 d10 w.

Definition two : double := double_of_Z 2.

Lemma fval_consts :
  fin d01 = true ∧ fin d10 = true ∧ fin d02 = true ∧ fin d099 = true ∧
  (1 # 11 <= fval d01)%Q ∧ (fval d01 <= 1 # 9)%Q ∧ (fval d10 == 10)%Q ∧
  (0 <= fval d02)%Q ∧ (fval d02 <= 1)%Q ∧ (fval d01 <= fval d099)%Q ∧ (fval d099 <= 1)%Q.
Proof. by vm_compute. Qed.

Lemma between_le a b c x y :
  fin a = true → fin b = true → fin c = true → fin_between a b x → fin_between a b y →
  fin_between a b (py_min x y) ∧ fin_between a b (py_max x y).
Proof. intros. split; [by apply py_min_between|by apply py_max_between]. Qed.

(** A memory met again gets no lighter and stays below 10. *)
Lemma reinforced_ok weight w :
  weight_ok weight → weight_ok w → weight_ok (reinforced weight w) ∧ fle weight (reinforced weight w) = true.
Proof.
  destruct fval_consts as (F1 & F10 & F02 & _ & L1 & U1 & E10 & L2 & U2 & _).
  unfold weight_ok. rewrite !fin_between_fval by done. intros (Hf & Hl & Hu) (Hwf & Hwl & Hwu).
  assert (fin_between f0 d10 (fmul w d02)) as Hm.
  { apply (rounds_between (fval w * fval d02)); [by apply fmul_rounds|done|done| |];
      change (fval f0) with 0%Q; nra. }
  rewrite fin_between_fval in Hm by done. destruct Hm as (Hmf & Hm0 & Hmu). change (fval f0) with 0%Q in Hm0.
  assert (fin_between weight (double_of_Z 20) (fadd weight (fmul w d02))) as Ha.
  { assert (fval (double_of_Z 20) == 20)%Q as E20 by reflexivity.
    apply (rounds_between (fval weight + fval (fmul w d02))); [by apply fadd_rounds|done|done| |];
      rewrite ?E20; lra. }
  destruct Ha as (Haf & Hal & _). unfold reinforced, py_min.
  destruct (flt _ d10) eqn:Hlt.
  - rewrite flt_fval in Hlt by done. rewrite fle_fval in Hal by done. split; [|by apply fle_fval].
    repeat split; try done; lra.
  - split; [repeat split; try done; lra|]. by apply fle_fval.
Qed.

Lemma decayed_ok factor weight :
  fin_between d01 d099 factor → weight_ok weight →
  weight_ok (decayed factor weight) ∧ fle (decayed factor weight) weight = true.
Proof.
  destruct fval_consts as (F1 & F10 & F02 & F99 & L1 & U1 & E10 & _ & _ & L9 & U9).
  unfold weight_ok. rewrite !fin_between_fval by done. intros (Hf & Hl & Hu) (Hwf & Hwl & Hwu).
  assert (fin_between f0 weight (fmul weight factor)) as Hm.
  { apply (rounds_between (fval weight * fval factor)); [by apply fmul_rounds|done|done| |];
      change (fval f0) with 0%Q; nra. }
  rewrite fin_between_fval in Hm by done. destruct Hm as (Hmf & Hm0 & Hmu).
  unfold decayed, py_max. destruct (flt d01 _) eqn:Hlt.
  - rewrite flt_fval in Hlt by done. split; [repeat split; try done; lra|]. by apply fle_fval.
  - split; [repeat split; try done; lra|]. by apply fle_fval.
Qed.

(** ** The invariant of the memory *)

Definition memory_key (m : MemoryItem) : string * string * string :=
  (mi_user_id m, mi_memory_type m, mi_content m).

Lemma same_memory_key a b : same_memory a b ↔ memory_key a = memory_key b.
Proof. unfold same_memory, memory_key. destruct a, b; simpl. naive_solver. Qed.

Record mem_wf (d : MemDb) : Prop := {
  wf_memory_keys : NoDup (memory_key <$> typed_memory d);
  wf_weights : Forall (λ m, weight_ok (mi_weight m)) (typed_memory d);
  wf_profile_keys : NoDup (pr_user_id <$> user_profile d);
  wf_profiles : Forall (λ p, is_Some (json_loads (pr_profile_json p))) (user_profile d);
  wf_scores : Forall (λ f, fin_between d01 two (fb_score f)) (feedback_log d) }.

Lemma mem_wf_empty : mem_wf mem_empty.
Proof. split; constructor. Qed.

(** A statement on one table leaves the other tables. *)
Ltac mem_table H := destruct H as [? ? ? ? ?]; split; simpl; try done; try by apply Forall_snoc.

Lemma upsert_memory_keys m t :
  NoDup (memory_key <$> t) → NoDup (memory_key <$> upsert_memory m t).
Proof.
  unfold upsert_memory. intros Hnd. destruct (fetchone _ t) eqn:E.
  - by rewrite update_where_key.
  - apply NoDup_key_snoc; [done|]. intros y Hy Hk. eapply fetchone_None in E; [|exact Hy].
    by destruct E; apply same_memory_key.
Qed.

Lemma upsert_memory_wf m d :
  weight_ok (mi_weight m) → mem_wf d → mem_wf (on_memory (upsert_memory m) d).
Proof.
  intros Hm Hwf. mem_table Hwf; [by apply upsert_memory_keys|].
  unfold upsert_memory. case_match; [|by apply Forall_snoc].
  apply Forall_update_where; [done|]. intros x Hx. by apply reinforced_ok.
Qed.

Lemma decay_wf (P : MemoryItem → Prop) `{!∀ m, Decision (P m)} factor t d :
  fin_between d01 d099 factor → mem_wf d →
  mem_wf (on_memory (update_where P (λ m, set_weight (decayed factor (mi_weight m)) t m)) d).
Proof.
  intros Hf Hwf. mem_table Hwf; [by rewrite update_where_key|].
  apply Forall_update_where; [done|]. intros x Hx. by apply decayed_ok.
Qed.

Lemma upsert_profile_wf r d :
  is_Some (json_loads (pr_profile_json r)) → mem_wf d → mem_wf (on_profile (upsert_profile r) d).
Proof.
  intros Hr Hwf. unfold upsert_profile. mem_table Hwf; case_match.
  - assert (pr_user_id <$> update_where (λ p, pr_user_id p = pr_user_id r) (λ _, r) (user_profile d) =
      pr_user_id <$> user_profile d) as ->; [|done].
    unfold update_where. rewrite <-list_fmap_compose. apply list_fmap_ext. intros i x _. simpl.
    by case_decide.
  - by apply insert_key.
  - by apply Forall_update_where.
  - by apply Forall_snoc.
Qed.

(** *** What the store writes as JSON can be read *)

Lemma glossary_map_keys items : NoDup (glossary_map items).*1.
Proof.
  unfold glossary_map. assert (NoDup ([] : list (string * string)).*1) as H by constructor.
  revert H. generalize ([] : list (string * string)). induction items as [|g items IH]; intros m Hm; simpl; [done|].
  apply IH. unfold glossary_add. destruct (py_split1 _ g) as [[k v]|]; [|done].
  destruct (_ && _); [|done]. by apply NoDup_dict_set.
Qed.

Lemma json_ok_strs l : json_ok (json_strs l).
Proof. apply json_ok_arr, Forall_fmap, Forall_forall. done. Qed.

Lemma profile_json_ok u t ms ls : json_ok (profile_of u t ms ls).
Proof.
  unfold profile_of. apply json_ok_obj. split; [by apply (bool_decide_unpack _); vm_compute|].
  repeat (apply Forall_cons; split; [try done; try apply json_ok_strs|]); [|apply Forall_nil; done].
  simpl. apply json_ok_obj. split.
  - rewrite <-list_fmap_compose. apply (glossary_map_keys _).
  - apply Forall_fmap, Forall_forall. done.
Qed.

Lemma profile_readable u t ms ls : json_loads (json_dumps (profile_of u t ms ls)) = Some (profile_of u t ms ls).
Proof. apply json_loads_dumps, profile_json_ok. Qed.

(** ** Operations *)

(** Walks through an operation of the store or of the service; what is left are its
    statements. *)
Ltac qms_tac :=
  repeat first [exact I | done | progress cbv zeta
    | lazymatch goal with
      | |- sat _ (mem_connect _) _ => apply sat_transaction; [by intros|]
      | |- sat _ mem_now _ => apply sat_observe; intros ?
      end
    | sat1 | solve [eauto with sat nocore]].

Section memory.
Context {C : Type} `{MemEnv}.
Abbreviation keeps m := (sat (C := C) mem_wf m (λ _, True)).

Lemma upsert_memories_wf items :
  Forall (λ i, weight_ok (mi_weight i)) items → keeps (upsert_memories items).
Proof.
  intros Hall. unfold upsert_memories. apply sat_bind with (λ _, True); [by apply sat_observe|].
  intros now _. apply sat_transaction; [by intros|].
  induction Hall as [|i items Hi _ IH]; simpl; [by apply sat_ret|].
  apply sat_bind with (λ _, True); [|by intros].
  apply sat_modify; [|done]. intros d. by apply upsert_memory_wf.
Qed.

Lemma get_top_memories_wf u n : keeps (get_top_memories u n).
Proof. unfold get_top_memories. qms_tac. Qed.

Lemma log_interaction_wf u s q a r : keeps (log_interaction u s q a r).
Proof.
  unfold log_interaction. qms_tac. apply sat_modify; [|done]. intros d Hd. mem_table Hd.
Qed.

Lemma recent_all_wf u n : keeps (recent_history_all_sessions u n).
Proof. unfold recent_history_all_sessions, history. qms_tac. Qed.

Lemma refresh_wf u : keeps (refresh_user_profile u).
Proof.
  unfold refresh_user_profile. qms_tac. apply sat_modify; [|done]. intros d. apply upsert_profile_wf.
  simpl. by rewrite profile_readable.
Qed.
Hint Resolve refresh_wf : sat.

Lemma get_profile_wf u b : keeps (get_user_profile u b).
Proof. unfold get_user_profile. qms_tac. Qed.

Lemma decay_memories_wf u kws x : is_double x → keeps (decay_memories_by_keywords u kws x).
Proof.
  intros Hx. unfold decay_memories_by_keywords. cbv zeta. destruct (filter _ _) as [|k l]; [by apply sat_ret|].
  apply sat_transaction; [by intros|]. apply sat_folding; [done|]. intros acc kw _ _. qms_tac.
  apply sat_modify; [|done]. intros d. apply decay_wf. by apply clamp_between.
Qed.

Lemma log_feedback_wf u s q o c e x : fin_between d01 two x → keeps (log_feedback u s q o c e x).
Proof.
  intros Hx. unfold log_feedback. qms_tac. apply sat_modify; [|done]. intros d Hd. mem_table Hd.
Qed.
End memory.

#[export] Hint Resolve get_top_memories_wf log_interaction_wf recent_all_wf refresh_wf get_profile_wf : sat.

(** *** What the service stores *)

Lemma extracted_ok u q a :
  Forall (λ i, weight_ok (mi_weight i) ∧ fin_between (double_of_Z 0) two (mi_weight i))
    (_extract_typed_memories u q a).
Proof.
  unfold _extract_typed_memories. cbv zeta.
  assert (∀ ty w (l : list string), weight_ok w ∧ fin_between (double_of_Z 0) two w →
    Forall (λ i, weight_ok (mi_weight i) ∧ fin_between (double_of_Z 0) two (mi_weight i))
      ((λ p, item u ty (py_strip p) w) <$> l)) as Hmap.
  { intros ty w l Hw. apply Forall_fmap, Forall_forall. done. }
  assert (∀ t x s, Forall (λ i, weight_ok (mi_weight i) ∧ fin_between (double_of_Z 0) two (mi_weight i))
    (glossary_item u t x s)) as Hglo.
  { intros t x s. unfold glossary_item. destruct (py_in t s); [|constructor]. constructor; [|constructor]. by vm_compute. }
  rewrite !Forall_app. split_and!; try apply Hglo; try (apply Hmap; by vm_compute).
  - apply Forall_bind, Forall_forall. intros pat _. apply Hmap. by vm_compute.
  - constructor; [by vm_compute|constructor].
Qed.

Lemma clamp_score_ok x : is_double x → fin_between d01 two (clamp_score x).
Proof. intros Hx. by apply (clamp_between d01 two x). Qed.

(** [min(b, x)] of a number above 0.1, for a bound [b] of at most 10 *)
Lemma capped_ok b x hi :
  weight_ok b → fin hi = true → fin_between d01 hi x → weight_ok (py_min b x).
Proof.
  intros Hb Hhi (Hx & Hl & _). unfold py_min. destruct (flt x b) eqn:Hlt; [|done].
  destruct Hb as (Hb & _ & Hbu). destruct fval_consts as (F1 & F10 & _).
  rewrite flt_fval in Hlt by done. rewrite fle_fval in Hbu by done. split; [done|]. split; [done|].
  apply fle_fval; [done|done|lra].
Qed.

Lemma amplified_ok score i :
  fin_between d01 two score → weight_ok (mi_weight i) ∧ fin_between (double_of_Z 0) two (mi_weight i) →
  weight_ok (mi_weight (amplified score i)).
Proof.
  intros Hs [Hw Hw2]. destruct fval_consts as (F1 & F10 & _ & _ & L1 & U1 & _).
  assert (E2 : (fval two == 2)%Q) by reflexivity.
  assert (E4 : (fval (double_of_Z 4) == 4)%Q) by reflexivity.
  assert (E8 : (fval (double_of_Z 8) == 8)%Q) by reflexivity.
  unfold weight_ok in Hw. rewrite fin_between_fval in Hs, Hw, Hw2 by done.
  destruct Hs as (Hsf & Hsl & Hsu), Hw as (Hwf & Hwl & _), Hw2 as (_ & _ & Hwu). rewrite E2 in *.
  assert (fin (d1 6) = true ∧ (0 <= fval (d1 6))%Q ∧ (fval (d1 6) <= 1)%Q) as (F6 & L6 & U6) by by vm_compute.
  assert (fin (d1 12) = true ∧ (1 <= fval (d1 12))%Q ∧ (fval (d1 12) <= 2)%Q) as (F12 & L12 & U12) by by vm_compute.
  assert (fin_between f0 two (fmul (d1 6) score)) as Hm.
  { apply (rounds_between (fval (d1 6) * fval score)); [by apply fmul_rounds|done|done| |];
      rewrite ?E2; change (fval f0) with 0%Q; nra. }
  rewrite fin_between_fval in Hm by done. destruct Hm as (Hmf & Hml & Hmu).
  rewrite E2 in Hmu. change (fval f0) with 0%Q in Hml.
  assert (fin_between f1 (double_of_Z 4) (fadd (d1 12) (fmul (d1 6) score))) as Ha.
  { apply (rounds_between (fval (d1 12) + fval (fmul (d1 6) score))); [by apply fadd_rounds|done|done| |];
      rewrite ?E4, ?fval_f1; lra. }
  rewrite fin_between_fval in Ha by done. destruct Ha as (Haf & Hal & Hau). rewrite fval_f1 in Hal. rewrite E4 in Hau.
  apply (capped_ok (double_of_Z 4) _ (double_of_Z 8)); [by vm_compute|done|].
  apply (rounds_between (fval (mi_weight i) * fval (fadd (d1 12) (fmul (d1 6) score))));
    [by apply fmul_rounds|done|done| |]; rewrite ?E8; nra.
Qed.

Lemma amplified_items_ok u q c e score :
  fin_between d01 two score → Forall (λ i, weight_ok (mi_weight i)) (amplified_items u q c e score).
Proof.
  intros Hs. unfold amplified_items. apply Forall_app. split.
  - apply Forall_fmap. eapply Forall_impl; [apply extracted_ok|]. intros i. by apply amplified_ok.
  - constructor; [|constructor]. apply (capped_ok _ _ (double_of_Z 4)); [by vm_compute|done|].
    destruct fval_consts as (F1 & F10 & _ & _ & L1 & U1 & _).
    assert (E4 : (fval (double_of_Z 4) == 4)%Q) by reflexivity.
    assert (fin (d1 15) = true ∧ (fval (d1 15) == 3 # 2)%Q) as (F15 & E15) by by vm_compute.
    rewrite fin_between_fval in Hs by done. destruct Hs as (Hsf & Hsl & Hsu).
    change (fval two) with (fval (double_of_Z 2)) in Hsu.
    assert (E2 : (fval (double_of_Z 2) == 2)%Q) by reflexivity. rewrite E2 in Hsu.
    apply (rounds_between (fval (d1 15) + fval score)); [by apply fadd_rounds|done|done| |];
      rewrite ?E4, ?E15; lra.
Qed.

(** ** The service *)

Definition qms_wf (s : Qms) : Prop := mem_wf (q_memory s).

Section service.
Context `{QmsEnv}.
Abbreviation keeps m := (sat qms_wf m (λ _, True)).

Lemma mem_keeps {A} (m : Act MemDb QCall A) : sat mem_wf m (λ _, True) → keeps (mem m).
Proof. apply sat_zoom; done. Qed.

Ltac svc :=
  repeat first [progress qms_tac
    | lazymatch goal with |- sat _ (mem _) _ => apply mem_keeps end
    | apply sat_modify; [by intros|done]].

Lemma get_session_wf u : keeps (_get_or_create_session u).
Proof. unfold _get_or_create_session. svc. Qed.

Lemma memory_context_wf u : keeps (_build_memory_context u).
Proof. unfold _build_memory_context. svc. Qed.

Lemma ask_session_wf sid p : keeps (ask_session sid p).
Proof. unfold ask_session. svc. Qed.

Lemma learn_wf u sid lq q a r : keeps (learn u sid lq q a r).
Proof.
  unfold learn. svc. apply upsert_memories_wf. eapply Forall_impl; [apply extracted_ok|]. by intros i [].
Qed.
Hint Resolve get_session_wf memory_context_wf ask_session_wf learn_wf : sat.

Lemma ask_process_wf u q : keeps (ask_process_qa u q).
Proof. unfold ask_process_qa. svc. Qed.

Lemma ask_learning_wf u m q : keeps (ask_learning_qa u m q).
Proof. unfold ask_learning_qa. svc. Qed.

Lemma long_term_wf u : keeps (get_user_long_term_memory u).
Proof. unfold get_user_long_term_memory. svc. Qed.

Lemma submit_feedback_wf u q o c s n sid : keeps (submit_user_feedback u q o c s n sid).
Proof.
  unfold submit_user_feedback, require_text. do 3 (apply sat_bind with (λ _, True); [svc|intros _ _]).
  apply sat_bind with (λ _, True); [svc|]. intros session _.
  apply sat_bind with is_double; [by apply sat_ofres, float_of_json_double|]. intros x Hx. cbv zeta.
  apply clamp_score_ok in Hx. svc.
  - apply decay_memories_wf. by left.
  - by apply upsert_memories_wf, amplified_items_ok.
  - by apply log_feedback_wf.
Qed.
Hint Resolve ask_process_wf ask_learning_wf long_term_wf submit_feedback_wf : sat.

Lemma qms_handle_wf rq : keeps (handle rq).
Proof.
  unfold handle, do_GET, do_POST, ask_procedure, learn_module, feedback, is_object. svc.
Qed.
End service.

(** ** Finding the chat *)

Section chat.
Context `{QmsEnv} {T : Type} (cfg : QMSAgentConfig).
Abbreviation A := (Act T QCall).

(** It leaves the store. *)
Abbreviation quiet m := (runs (on_state QCall (eq (A := T))) m).

Lemma quiet_create fuel name cur : quiet (create_loop fuel name cur).
Proof.
  revert cur. induction fuel as [|fuel IH]; intros cur; simpl; [apply runs_fails|].
  apply runs_catch; [apply runs_call|]. intros e. cbv zeta. case_decide; [apply runs_fails|apply IH].
Qed.

Lemma quiet_bind_loop fuel c e cur : quiet (bind_loop fuel c e cur).
Proof.
  revert e cur. induction fuel as [|fuel IH]; intros e cur; simpl; [apply runs_fails|].
  case_decide; [apply runs_ret|]. apply runs_catch; [|intros e2; apply IH].
  apply runs_bind; [apply runs_call|]. intros _. apply runs_call.
Qed.

Lemma quiet_bind c : quiet (_bind_datasets_if_needed cfg c).
Proof.
  unfold _bind_datasets_if_needed, update_chat, get_chat. runs_tac. apply quiet_bind_loop.
Qed.

Lemma quiet_named l : quiet (named_chat cfg l).
Proof.
  induction l as [|c l IH]; simpl; [apply runs_ret|]. destruct c; try apply runs_fails.
  case_match; [|apply IH]. apply runs_fmap, runs_call.
Qed.

Lemma quiet_find : quiet (_find_existing_chat_by_name cfg).
Proof. unfold _find_existing_chat_by_name. runs_tac. apply quiet_named. Qed.

Lemma ensure_chat_quiet : quiet (_ensure_chat cfg).
Proof.
  unfold _ensure_chat, get_chat, _create_chat_with_valid_datasets.
  runs_tac; first [apply quiet_find | apply quiet_bind | apply quiet_create].
Qed.

(** *** It ends *)

(** [m] ends, after at most [k] calls. *)
Definition ends {R} (k : nat) (m : A R) : Prop :=
  ∀ w, (m w).1 ≠ Err OutOfFuel ∧ (length (m_calls (m w).2) ≤ length (m_calls w) + k)%nat.

Lemma ends_weaken {R} k k' (m : A R) : ends k m → (k ≤ k')%nat → ends k' m.
Proof. intros Hm Hk w. destruct (Hm w). split; [done|lia]. Qed.

Lemma ends_ret {R} (x : R) : ends 0 (mret x).
Proof. intros w. split; [done|simpl; lia]. Qed.

Lemma ends_bind {R1 R2} k1 k2 (m : A R1) (f : R1 → A R2) :
  ends k1 m → (∀ x, ends k2 (f x)) → ends (k1 + k2) (m ≫= f).
Proof.
  intros Hm Hf w. unfold mbind, Act_bind. destruct (Hm w) as [H1 H2].
  destruct (m w) as [[x|e] w']; simpl in *; [|split; [congruence|lia]].
  destruct (Hf x w') as [H3 H4]. split; [done|lia].
Qed.

Lemma ends_fmap {R1 R2} k (f : R1 → R2) (m : A R1) : ends k m → ends k (f <$> m).
Proof.
  intros Hm w. unfold fmap, Act_fmap. destruct (Hm w) as [H1 H2].
  destruct (m w) as [[x|e] w']; simpl in *; (split; [congruence|lia]).
Qed.

(** A handler that ends for an exception [e], which is no lack of fuel *)
Lemma ends_catch {R} k1 k2 (m : A R) h :
  ends k1 m → (∀ e, e ≠ OutOfFuel → ends k2 (h e)) → ends (k1 + k2) (catch m h).
Proof.
  intros Hm Hh w. unfold catch. destruct (Hm w) as [H1 H2].
  destruct (m w) as [[x|e] w']; simpl in *; [split; [done|lia]|].
  destruct (Hh e ltac:(congruence) w') as [H3 H4]. split; [done|lia].
Qed.

Lemma ends_call {R} c (f : nat → res R) : (∀ n, f n ≠ Err OutOfFuel) → ends 1 (call c f).
Proof. intros Hf w. split; [apply Hf|]. simpl. rewrite length_app. simpl. lia. Qed.

Lemma ends_fails {R} e : e ≠ OutOfFuel → ends 0 (fails e : A R).
Proof. intros He w. split; [simpl; congruence|simpl; lia]. Qed.

(** The services raise exceptions, and a lack of fuel is none. *)
Context (Hget : ∀ n i, qv_get_chat n i ≠ Err OutOfFuel).
Context (Hupd : ∀ n i l, qv_update_chat n i l ≠ Err OutOfFuel).
Context (Hlist : ∀ n k, qv_list_chats n k ≠ Err OutOfFuel).
Context (Hcreate : ∀ n k l, qv_create_chat n k l ≠ Err OutOfFuel).

(** A turn of a loop that goes on has dropped an identifier. *)
Lemma drop_shorter text cur :
  _drop_invalid_dataset_id text cur ≠ cur → (length (_drop_invalid_dataset_id text cur) < length cur)%nat.
Proof.
  unfold _drop_invalid_dataset_id. destruct (search_group _ _) as [bad|]; [|done]. intros Hne.
  apply Nat.le_neq. split; [apply length_filter|]. intros Hl. apply Hne.
  clear Hne. induction cur as [|x cur IH]; [done|]. rewrite filter_cons in *.
  case_decide; simpl in *; [f_equal; apply IH; lia|].
  pose proof (length_filter (λ x, x ≠ bad) cur). lia.
Qed.

Lemma create_ends fuel name cur :
  (length cur < fuel)%nat → ends (S (length cur)) (create_loop fuel name cur).
Proof.
  revert cur. induction fuel as [|fuel IH]; intros cur Hf; [lia|]. simpl.
  apply (ends_catch 1 (length cur)); [by apply ends_call|]. intros e He. cbv zeta.
  case_decide as Hd; [eapply ends_weaken; [by apply ends_fails|lia]|].
  apply drop_shorter in Hd. eapply ends_weaken; [apply IH|]; lia.
Qed.

Lemma bind_loop_ends fuel c e cur :
  (length cur < fuel)%nat → ends (2 * length cur) (bind_loop fuel c e cur).
Proof.
  revert e cur. induction fuel as [|fuel IH]; intros e cur Hf; [lia|]. simpl.
  case_decide as Hd; [eapply ends_weaken; [by apply ends_ret|lia]|]. apply drop_shorter in Hd.
  eapply ends_weaken; [apply (ends_catch 2 (2 * pred (length cur)))|lia].
  - apply (ends_bind 1 1); [by apply ends_call|]. intros _. by apply ends_call.
  - intros e2 _. eapply ends_weaken; [apply IH|]; lia.
Qed.

Abbreviation ids := (expected_dataset_ids cfg).

Lemma bind_ends c : ends (2 + 2 * length ids) (_bind_datasets_if_needed cfg c).
Proof.
  unfold _bind_datasets_if_needed.
  destruct ids as [|i l] eqn:E; [eapply ends_weaken; [apply ends_ret|lia]|].
  case_match; [|eapply ends_weaken; [apply ends_ret|lia]].
  apply (ends_catch 2 (2 * length (i :: l))).
  - apply (ends_bind 1 1); [by apply ends_call|]. intros _. by apply ends_call.
  - intros e _. apply bind_loop_ends. lia.
Qed.

Lemma named_ends l : ends 1 (named_chat cfg l).
Proof.
  induction l as [|c l IH]; simpl; [eapply ends_weaken; [apply ends_ret|lia]|].
  destruct c; try (eapply ends_weaken; [by apply ends_fails|lia]).
  case_match; [|apply IH]. by apply ends_fmap, ends_call.
Qed.

Lemma find_ends : ends 2 (_find_existing_chat_by_name cfg).
Proof.
  unfold _find_existing_chat_by_name. apply (ends_catch 2 0); [|intros e _; apply ends_ret].
  apply (ends_bind 1 1); [by apply ends_call|]. intros j. apply (ends_bind 0 1); [|intros l; apply named_ends].
  intros w. split; [|simpl; lia]. simpl. unfold listed_chats. by repeat case_match.
Qed.
End chat.

(** C9. Whatever requests are served, in any order, a store that is well formed at
    the start stays so: a user has one memory of a type and a content and at most
    one profile, which can be read; every weight is a number between 0.1 and 10 and
    every score of a feedback one between 0.1 and 2, whatever number, text, infinity
    or not-a-number a request sends as its score. *)
Theorem qms_safe `{QmsEnv} cfg w0 w :
  mem_wf (m_state w0) → qms_reaches cfg w0 w → mem_wf (q_memory (m_state w)).
Proof.
  intros H0 Hr. induction Hr as [chat w Hchat|w rq _ IH].
  - simpl. pose proof (ensure_chat_quiet cfg w0) as Hq. unfold on_state in Hq. rewrite Hchat in Hq. simpl in Hq.
    by rewrite <-Hq.
  - exact (proj1 (qms_handle_wf rq w IH)).
Qed.

(** C31. The start of the assistant ends: dropping the data sets without parsed files,
    one per answer of the service, takes no more turns than there are data sets, so
    that finding, creating or updating the chat makes at most ten calls and six more
    for each configured data set, whatever the services answer. *)
Theorem ensure_chat_ends `{QmsEnv} {T} cfg (w : Mach T QCall) :
  (∀ n i, qv_get_chat n i ≠ Err OutOfFuel) → (∀ n i l, qv_update_chat n i l ≠ Err OutOfFuel) →
  (∀ n k, qv_list_chats n k ≠ Err OutOfFuel) → (∀ n k l, qv_create_chat n k l ≠ Err OutOfFuel) →
  (_ensure_chat cfg w).1 ≠ Err OutOfFuel ∧
  (length (m_calls (_ensure_chat cfg w).2) ≤
     length (m_calls w) + 10 + 6 * length (expected_dataset_ids cfg))%nat.
Proof.
  intros Hget Hupd Hlist Hcreate. set (n := length (expected_dataset_ids cfg)).
  assert (Hb : ∀ c, ends (2 + 2 * n) (_bind_datasets_if_needed (T := T) cfg c)) by (intros; by apply bind_ends).
  assert (Hc : ∀ name, ends (S n) (_create_chat_with_valid_datasets (T := T) name (expected_dataset_ids cfg))).
  { intros name. apply create_ends; [done|lia]. }
  assert (Hf : ends 2 (_find_existing_chat_by_name (T := T) cfg)) by by apply find_ends.
  enough (ends (10 + 6 * n) (_ensure_chat (T := T) cfg)) as He by (destruct (He w); split; [done|lia]).
  unfold _ensure_chat. destruct (truthy _).
  { eapply ends_weaken; [apply (ends_bind 1 (2 + 2 * n)); [by apply ends_call|apply Hb]|lia]. }
  eapply ends_weaken; [apply (ends_bind 2 (8 + 6 * n)); [done|]|lia].
  intros [c|]; [eapply ends_weaken; [apply Hb|lia]|].
  eapply ends_weaken; [apply (ends_catch (S n + (2 + 2 * n)) (2 + (S n + (2 + 2 * n))))|lia].
  - apply ends_bind; [apply Hc|apply Hb].
  - intros e He. destruct (py_in _ _); [|eapply ends_weaken; [by apply ends_fails|lia]].
    apply ends_bind; [done|]. intros [c|]; [eapply ends_weaken; [apply Hb|lia]|].
    eapply ends_weaken; [apply (ends_bind 0 (S n + (2 + 2 * n)))|lia].
    + intros ?. split; [done|simpl; lia].
    + intros stamp. apply ends_bind; [apply Hc|apply Hb].
Qed.

(** ** An abstract memory *)

Section spec.
Local Open Scope nat_scope.

(** The memory as a map from user, type and content to a weight *)
Abbreviation mkey := (string * string * string)%type.
Abbreviation AbsMemory := (gmap mkey double).

Definition abs_of (t : list MemoryItem) : AbsMemory :=
  list_to_map ((λ m, (memory_key m, mi_weight m)) <$> t).

(** To learn an item: a new entry, or a heavier one *)
Definition abs_learn (m : AbsMemory) (i : MemoryItem) : AbsMemory :=
  partial_alter (λ o, Some (match o with
                            | Some x => reinforced x (mi_weight i)
                            | None => mi_weight i
                            end))
    (mi_user_id i, mi_memory_type i, py_strip (mi_content i)) m.

(** To weaken the entries of a user whose content is like a keyword *)
Definition abs_weaken (user : string) (factor : double) (m : AbsMemory) (kw : string) : AbsMemory :=
  map_imap (λ k x, Some (if bool_decide (k.1.1 = user) && sql_like k.2 ("%" +:+ kw +:+ "%")
                         then decayed factor x else x)) m.

Lemma abs_lookup t k : abs_of t !! k = mi_weight <$> fetchone (λ m, memory_key m = k) t.
Proof.
  unfold abs_of. induction t as [|m t IH]; [done|].
  rewrite fmap_cons. cbv beta. rewrite list_to_map_cons. unfold fetchone. rewrite filter_cons.
  case_decide as Hk.
  - subst k. apply lookup_insert_eq.
  - rewrite lookup_insert_ne by done. apply IH.
Qed.

Lemma fetchone_update_other {A} (P Q : A → Prop) `{!∀ x, Decision (P x)} `{!∀ x, Decision (Q x)} f t :
  (∀ x, Q (f x) ↔ Q x) →
  fetchone Q (update_where P f t) = (λ x, if decide (P x) then f x else x) <$> fetchone Q t.
Proof.
  intros HQ. unfold fetchone, update_where. induction t as [|x t IH]; [done|].
  rewrite fmap_cons, !filter_cons. specialize (HQ x). destruct (decide (P x)).
  - destruct (decide (Q (f x))), (decide (Q x)); try tauto; simpl; by rewrite ?decide_True.
  - case_decide; [simpl; by rewrite decide_False|done].
Qed.

Lemma abs_upsert now i t : abs_of (upsert_memory (memory_row now i) t) = abs_learn (abs_of t) i.
Proof.
  apply map_eq. intros k. unfold abs_learn. set (m := memory_row now i).
  change (mi_user_id i, mi_memory_type i, py_strip (mi_content i)) with (memory_key m).
  assert (Hsame : fetchone (λ r, same_memory r m) t = fetchone (λ r, memory_key r = memory_key m) t)
    by (apply fetchone_ext; intros; apply same_memory_key).
  destruct (decide (memory_key m = k)) as [<-|Hk].
  - rewrite lookup_partial_alter_eq, !abs_lookup. unfold upsert_memory. rewrite Hsame.
    destruct (fetchone (λ r, memory_key r = memory_key m) t) as [r|] eqn:E.
    + rewrite fetchone_update_other by done. rewrite E. simpl.
      apply fetchone_Some in E as [_ Er]. by rewrite decide_True by by apply same_memory_key.
    + rewrite fetchone_app_None by done. unfold fetchone. rewrite filter_cons, decide_True by done. done.
  - rewrite lookup_partial_alter_ne, !abs_lookup by done. unfold upsert_memory. rewrite Hsame.
    destruct (fetchone (λ r, memory_key r = memory_key m) t) as [r|] eqn:E.
    + rewrite fetchone_update_other by done.
      destruct (fetchone (λ m, memory_key m = k) t) as [r'|] eqn:E'; [|done]. simpl.
      rewrite decide_False; [done|]. intros Hs%same_memory_key.
      apply fetchone_Some in E' as [_ E']. congruence.
    + destruct (fetchone (λ r, memory_key r = k) t) as [r'|] eqn:E'.
      * by erewrite fetchone_app_Some.
      * rewrite fetchone_app_None by done. unfold fetchone. rewrite filter_cons, decide_False by done. done.
Qed.

Lemma abs_decay user kw factor now t :
  abs_of (update_where (is_stale user kw) (λ m, set_weight (decayed factor (mi_weight m)) now m) t) =
  abs_weaken user factor (abs_of t) kw.
Proof.
  apply map_eq. intros k. unfold abs_weaken. rewrite map_lookup_imap, !abs_lookup.
  rewrite fetchone_update_other by done.
  destruct (fetchone _ t) as [r|] eqn:E; [|done]. simpl.
  apply fetchone_Some in E as [_ <-]. unfold memory_key. simpl. f_equal.
  destruct (decide (is_stale user kw r)) as [[-> Hl]|Hn].
  - by rewrite bool_decide_eq_true_2, Hl.
  - destruct (bool_decide_reflect (mi_user_id r = user)) as [Hu|Hu]; [|done]. simpl.
    destruct (sql_like _ _) eqn:El; [|done]. by destruct Hn.
Qed.
End spec.

Section refine.
Context {C : Type} `{MemEnv}.
Implicit Types w : Mach MemDb C.

Lemma upserts_abs now items : ∀ w,
  let o := each (λ item, modify (on_memory (upsert_memory (memory_row now item)))) items w in
  o.1 = Ok () ∧ abs_of (typed_memory (m_state o.2)) = foldl abs_learn (abs_of (typed_memory (m_state w))) items.
Proof.
  induction items as [|i items IH]; intros w; [done|].
  cbn [each]. erewrite act_ok by reflexivity. cbv zeta. destruct (IH (set_state (on_memory (upsert_memory (memory_row now i)) (m_state w)) w)) as [H1 H2].
  split; [done|]. etrans; [exact H2|]. simpl. by rewrite abs_upsert.
Qed.

Lemma decays_abs user factor kws : ∀ acc w,
  let o := folding (λ affected kw,
        t ← mem_now;
        n ← gets (λ d, rowcount (is_stale user kw) (typed_memory d));
        modify (on_memory (update_where (is_stale user kw)
                  (λ m, set_weight (decayed factor (mi_weight m)) t m))) ;;
        mret (affected + n)%nat) acc kws w in
  (∃ n, o.1 = Ok n) ∧
  abs_of (typed_memory (m_state o.2)) = foldl (abs_weaken user factor) (abs_of (typed_memory (m_state w))) kws.
Proof.
  induction kws as [|kw kws IH]; intros acc w; [split; [by eexists|done]|].
  cbn [folding]. erewrite act_ok by reflexivity. cbv zeta.
  match goal with |- context [folding _ ?a kws ?w1] => destruct (IH a w1) as [H1 H2] end.
  split; [exact H1|]. etrans; [exact H2|]. simpl. by rewrite abs_decay.
Qed.

End refine.

(** ** The users apart *)

Section apart.
Context (v : string).

(** What the store holds of the user [v] *)
Definition user_rows (d : MemDb) :=
  (filter (λ m, mi_user_id m = v) (typed_memory d), filter (λ r, lo_user_id r = v) (conversation_log d),
   filter (λ p, pr_user_id p = v) (user_profile d), filter (λ f, fb_user_id f = v) (feedback_log d)).

(** What the service holds of the user [v] *)
Definition user_view (s : Qms) := (user_rows (q_memory s), dict_get v (q_session_map s)).

Definition same_rows (d d' : MemDb) : Prop := user_rows d' = user_rows d.
Definition same_view (s s' : Qms) : Prop := user_view s' = user_view s.
#[local] Instance same_rows_preorder : PreOrder same_rows.
Proof. split; [done|]. unfold same_rows. congruence. Qed.
#[local] Instance same_view_preorder : PreOrder same_view.
Proof. split; [done|]. unfold same_view. congruence. Qed.

Lemma filter_update {A} (P Q : A → Prop) `{!∀ x, Decision (P x)} `{!∀ x, Decision (Q x)} f t :
  (∀ x, P x → ¬ Q x ∧ ¬ Q (f x)) → filter Q (update_where P f t) = filter Q t.
Proof.
  intros Hf. unfold update_where. induction t as [|x t IH]; [done|]. rewrite fmap_cons, !filter_cons.
  destruct (decide (P x)) as [HP|]; [|by rewrite IH].
  destruct (Hf x HP). by rewrite !decide_False by done.
Qed.

Lemma filter_snoc_other {A} (Q : A → Prop) `{!∀ x, Decision (Q x)} t x :
  ¬ Q x → filter Q (t ++ [x]) = filter Q t.
Proof. intros Hx. by rewrite filter_app, filter_cons, decide_False, filter_nil, app_nil_r. Qed.

Context `{QmsEnv} {C : Type} (u : string) (Huv : u ≠ v).
Abbreviation mquiet m := (runs (on_state C same_rows) m).

Lemma upsert_apart m d : mi_user_id m ≠ v → same_rows d (on_memory (upsert_memory m) d).
Proof.
  intros Hm. unfold same_rows, user_rows, upsert_memory, on_memory. simpl.
  case_match; [rewrite filter_update; [reflexivity|]|by rewrite filter_snoc_other].
  intros x (Hx & _ & _). simpl. rewrite Hx. by split.
Qed.

Ltac rows := unfold same_rows, user_rows; simpl; by rewrite filter_snoc_other.

Ltac quiet_tac :=
  repeat first [done | progress cbv zeta
    | lazymatch goal with
      | |- runs _ (mem_connect _) => apply runs_transaction; [by intros|]
      | |- runs _ mem_now => apply runs_observe
      end
    | runs1 | solve [eauto with runs nocore]].

Lemma upsert_memories_apart items :
  Forall (λ i, mi_user_id i = u) items → mquiet (upsert_memories items).
Proof.
  intros Hall. unfold upsert_memories. apply runs_bind; [apply runs_observe|]. intros now.
  apply runs_transaction; [by intros|].
  induction Hall as [|i items Hi _ IH]; simpl; [apply runs_ret|]. apply runs_bind; [|done].
  apply runs_modify. intros d. apply upsert_apart. simpl. by rewrite Hi.
Qed.

Lemma log_interaction_apart s q a r : mquiet (log_interaction u s q a r).
Proof. unfold log_interaction. quiet_tac. apply runs_modify. intros d. rows. Qed.

Lemma refresh_apart : mquiet (refresh_user_profile u).
Proof.
  unfold refresh_user_profile. quiet_tac. apply runs_modify. intros d.
  unfold same_rows, user_rows, upsert_profile, on_profile. simpl.
  case_match; [rewrite filter_update; [reflexivity|]|by rewrite filter_snoc_other]. intros x ->. by split.
Qed.

Lemma get_profile_apart b : mquiet (get_user_profile u b).
Proof. unfold get_user_profile. quiet_tac. apply refresh_apart. Qed.

Lemma get_top_apart n : mquiet (get_top_memories u n).
Proof. unfold get_top_memories. quiet_tac. Qed.

Lemma recent_apart n : mquiet (recent_history_all_sessions u n).
Proof. unfold recent_history_all_sessions, history. quiet_tac. Qed.

Lemma decay_apart kws x : mquiet (decay_memories_by_keywords u kws x).
Proof.
  unfold decay_memories_by_keywords. cbv zeta. destruct (filter _ _); [apply runs_ret|]. quiet_tac.
  apply runs_modify. intros d. unfold same_rows, user_rows, on_memory. simpl.
  rewrite filter_update; [reflexivity|]. intros m [Hm _]. simpl. rewrite Hm. by split.
Qed.

Lemma log_feedback_apart s q o c e x : mquiet (log_feedback u s q o c e x).
Proof. unfold log_feedback. quiet_tac. apply runs_modify. intros d. rows. Qed.
End apart.

Section apart.
Context `{QmsEnv} (u v : string) (Huv : u ≠ v).
#[local] Existing Instance same_rows_preorder.
#[local] Existing Instance same_view_preorder.
Abbreviation quiet m := (runs (on_state QCall (same_view v)) m).

Lemma mem_apart {A} (m : Act MemDb QCall A) :
  runs (on_state QCall (same_rows v)) m → quiet (mem m).
Proof.
  intros Hm w. unfold mem, zoom, on_state, same_view, user_view.
  specialize (Hm {| m_state := q_memory (m_state w); m_tick := m_tick w; m_calls := m_calls w |}).
  destruct (m _) as [r w']. simpl. unfold on_state, same_rows in Hm. simpl in Hm. by rewrite Hm.
Qed.

Lemma session_apart : quiet (_get_or_create_session u).
Proof.
  unfold _get_or_create_session. runs_tac. apply runs_modify. intros s. unfold same_view, user_view. simpl.
  by rewrite dict_get_set, decide_False.
Qed.

Lemma ask_session_apart sid p : quiet (ask_session sid p).
Proof. unfold ask_session. runs_tac. Qed.

Lemma extracted_user q a : Forall (λ i, mi_user_id i = u) (_extract_typed_memories u q a).
Proof.
  unfold _extract_typed_memories, glossary_item. cbv zeta. rewrite !Forall_app.
  assert (∀ ty w (l : list string), Forall (λ i, mi_user_id i = u) ((λ p, item u ty (py_strip p) w) <$> l)).
  { intros. by apply Forall_fmap, Forall_forall. }
  split_and!; try done; try (case_match; by repeat constructor); try by repeat constructor.
  apply Forall_bind, Forall_forall. auto.
Qed.

Lemma amplified_user q c e s : Forall (λ i, mi_user_id i = u) (amplified_items u q c e s).
Proof.
  unfold amplified_items. apply Forall_app. split; [|by repeat constructor].
  apply Forall_fmap. eapply Forall_impl; [apply extracted_user|]. done.
Qed.

Ltac apart :=
  repeat first [ done
    | lazymatch goal with
      | |- runs _ (mem _) => apply mem_apart
      | |- runs _ (_get_or_create_session _) => apply session_apart
      | |- runs _ (ask_session _ _) => apply ask_session_apart
      | |- runs _ (upsert_memories _) => apply (upsert_memories_apart v u Huv)
      | |- runs _ (log_interaction _ _ _ _ _) => by apply log_interaction_apart
      | |- runs _ (log_feedback _ _ _ _ _ _ _) => by apply log_feedback_apart
      | |- runs _ (refresh_user_profile _) => by apply refresh_apart
      | |- runs _ (get_user_profile _ _) => by apply get_profile_apart
      | |- runs _ (get_top_memories _ _) => by apply get_top_apart
      | |- runs _ (recent_history_all_sessions _ _) => by apply recent_apart
      | |- runs _ (decay_memories_by_keywords _ _ _) => by apply decay_apart
      | |- Forall _ (_extract_typed_memories _ _ _) => apply extracted_user
      | |- Forall _ (amplified_items _ _ _ _ _) => apply amplified_user
      end
    | progress cbv zeta | runs1 ].

Lemma service_apart q m o c s n sid :
  quiet (ask_process_qa u q) ∧ quiet (ask_learning_qa u m q) ∧ quiet (get_user_long_term_memory u) ∧
  quiet (submit_user_feedback u q o c s n sid).
Proof.
  unfold ask_process_qa, ask_learning_qa, get_user_long_term_memory, submit_user_feedback, learn,
    _build_memory_context, require_text. split_and!; apart.
Qed.
End apart.

(** C26. The users are kept apart: a question, a lesson, a look at the memory and a
    correction of one user, also when they fail half way, leave the memories, the
    conversations, the profile, the feedback and the session of every other user as
    they were. *)
Theorem users_apart `{QmsEnv} u v q m o c s n sid w :
  u ≠ v →
  let before := user_view v (m_state w) in
  user_view v (m_state (ask_process_qa u q w).2) = before ∧
  user_view v (m_state (ask_learning_qa u m q w).2) = before ∧
  user_view v (m_state (get_user_long_term_memory u w).2) = before ∧
  user_view v (m_state (submit_user_feedback u q o c s n sid w).2) = before.
Proof.
  intros Huv. destruct (service_apart u v Huv q m o c s n sid) as (H1 & H2 & H3 & H4).
  split_and!; [apply H1|apply H2|apply H3|apply H4].
Qed.

(** ** What an operation comes to *)

Section equations.
Context `{QmsEnv}.
Abbreviation now w := (mv_now (m_tick w)).

Lemma log_interaction_eq {C} u sid q a refs (w : Mach MemDb C) :
  log_interaction u sid q (Some a) refs w =
  (Ok (), set_state (on_log (λ l, l ++ [{| lo_user_id := u; lo_session_id := sid; lo_question := q;
     lo_answer := a; lo_references_json := json_dumps (JArr refs); lo_created_at := now w |}])
     (m_state w)) (tick w)).
Proof. done. Qed.

Lemma upsert_memories_eq {C} items (w : Mach MemDb C) :
  upsert_memories items w =
  (Ok (), set_state (on_memory (λ t, foldl (λ t i, upsert_memory (memory_row (now w) i) t) t items)
     (m_state w)) (tick w)).
Proof.
  unfold upsert_memories. erewrite act_ok by reflexivity. generalize (now w). intros t0.
  unfold mem_connect, transaction.
  assert (∀ w1 : Mach MemDb C, each (λ item, modify (on_memory (upsert_memory (memory_row t0 item)))) items w1 =
    (Ok (), set_state (on_memory (λ t, foldl (λ t i, upsert_memory (memory_row t0 i) t) t items)
       (m_state w1)) w1)) as Heach; [|by rewrite Heach].
  induction items as [|i items IH]; intros w1; [by destruct w1 as [[] ? ?]|].
  cbn [each]. erewrite act_ok by reflexivity. by rewrite IH.
Qed.

(** The profile that a refresh builds from a store *)
Definition fresh_profile (u t : string) (d : MemDb) : json :=
  profile_of u t (memories_of u d) (last_rows 200 (filter (λ r, lo_user_id r = u) (conversation_log d))).

Lemma refresh_eq {C} u (w : Mach MemDb C) :
  let p := fresh_profile u (now w) (m_state w) in
  refresh_user_profile u w =
  (Ok p, set_state (on_profile (upsert_profile {| pr_user_id := u; pr_profile_json := json_dumps p;
     pr_updated_at := now w |}) (m_state w)) (tick w)).
Proof. done. Qed.

Lemma upsert_profile_lookup r t :
  fetchone (λ p, pr_user_id p = pr_user_id r) (upsert_profile r t) = Some r.
Proof.
  unfold upsert_profile. destruct (fetchone _ t) as [x|] eqn:E.
  - clear -E. revert E. unfold fetchone, update_where. induction t as [|y t IH]; [done|].
    rewrite fmap_cons, !filter_cons. destruct (decide (pr_user_id y = pr_user_id r)) as [Hy|Hy].
    + intros _. by rewrite decide_True.
    + rewrite decide_False by done. done.
  - rewrite fetchone_app_None by done. unfold fetchone. by rewrite filter_cons, decide_True.
Qed.

Lemma mem_eq {A} (m : Act MemDb QCall A) (w : Mach Qms QCall) r w1 :
  m {| m_state := q_memory (m_state w); m_tick := m_tick w; m_calls := m_calls w |} = (r, w1) →
  mem m w = (r, {| m_state := on_memories (m_state w1) (m_state w); m_tick := m_tick w1; m_calls := m_calls w1 |}).
Proof. intros Hm. unfold mem, zoom. by rewrite Hm. Qed.

(** The profile that is read is the one that was built last. *)
Lemma get_profile_built u t d b (w : Mach Qms QCall) :
  let p := fresh_profile u t d in
  fetchone (λ p, pr_user_id p = u) (user_profile (q_memory (m_state w))) =
    Some {| pr_user_id := u; pr_profile_json := json_dumps p; pr_updated_at := t |} →
  mem (get_user_profile u b) w = (Ok p, w).
Proof.
  intros p Hp. rewrite (mem_eq _ w (Ok p) {| m_state := q_memory (m_state w); m_tick := m_tick w;
    m_calls := m_calls w |}); [by destruct w as [[] ? ?]|].
  unfold get_user_profile. erewrite act_ok by reflexivity. simpl. rewrite Hp. unfold ofres. simpl.
  unfold p, fresh_profile. by rewrite profile_readable.
Qed.

(** The memory that a finished operation leaves: one more row of the conversation,
    the items learnt, and a profile of just that memory *)
Definition learnt (u sid logged a : string) (refs : list json) (items : list MemoryItem)
    (d : MemDb) (w' : Mach Qms QCall) : Prop :=
  let d' := q_memory (m_state w') in
  (∃ t, conversation_log d' = conversation_log d ++
     [{| lo_user_id := u; lo_session_id := sid; lo_question := logged; lo_answer := a;
         lo_references_json := json_dumps (JArr refs); lo_created_at := t |}]) ∧
  abs_of (typed_memory d') = foldl abs_learn (abs_of (typed_memory d)) items ∧
  ∃ t, ∀ b, mem (get_user_profile u b) w' = (Ok (fresh_profile u t d'), w').

Lemma abs_upserts t0 items : ∀ t,
  abs_of (foldl (λ t i, upsert_memory (memory_row t0 i) t) t items) = foldl abs_learn (abs_of t) items.
Proof. induction items as [|i items IH]; intros t; simpl; [done|]. by rewrite IH, abs_upsert. Qed.

Lemma learn_eq u sid logged q a refs (w : Mach Qms QCall) :
  ∃ w', learn u sid logged q (Some a) refs w = (Ok (), w') ∧
    q_session_map (m_state w') = q_session_map (m_state w) ∧
    learnt u sid logged a refs (_extract_typed_memories u q a) (q_memory (m_state w)) w'.
Proof.
  unfold learn. simpl default. eexists. split; [|split].
  - erewrite act_ok by (eapply mem_eq; apply log_interaction_eq).
    erewrite act_ok by (eapply mem_eq; apply upsert_memories_eq).
    erewrite act_ok by (eapply mem_eq; apply refresh_eq). reflexivity.
  - done.
  - split; [|split]; simpl.
    + by eexists.
    + apply abs_upserts.
    + eexists. intros b. eapply get_profile_built. simpl. apply (upsert_profile_lookup {| pr_user_id := u |}).
Qed.
End equations.

Section spec.
Context `{QmsEnv}.

(** The memories and the conversations are what they were. *)
Definition same_tables (d d' : MemDb) : Prop :=
  typed_memory d' = typed_memory d ∧ conversation_log d' = conversation_log d.
Definition same_store (s s' : Qms) : Prop :=
  same_tables (q_memory s) (q_memory s') ∧ q_session_map s' = q_session_map s.
#[local] Instance same_tables_preorder : PreOrder same_tables.
Proof. split; [done|]. unfold same_tables. intros ??? [-> ->] [-> ->]. done. Qed.
#[local] Instance same_store_preorder : PreOrder same_store.
Proof. split; [done|]. unfold same_store. intros ??? [H1 ->] [H2 ->]. split; [by etrans|done]. Qed.

Lemma mem_same_store {A} (m : Act MemDb QCall A) :
  runs (on_state QCall same_tables) m → runs (on_state QCall same_store) (mem m).
Proof.
  intros Hm w. unfold mem, zoom, on_state, same_store.
  specialize (Hm {| m_state := q_memory (m_state w); m_tick := m_tick w; m_calls := m_calls w |}).
  destruct (m _) as [r w']. done.
Qed.

Lemma context_same_store u : runs (on_state QCall same_store) (_build_memory_context u).
Proof.
  unfold _build_memory_context, get_top_memories, recent_history_all_sessions, history,
    get_user_profile, refresh_user_profile.
  repeat first [done | progress cbv zeta
    | lazymatch goal with
      | |- runs _ (mem _) => apply mem_same_store
      | |- runs _ (mem_connect _) => apply runs_transaction; [by intros|]
      | |- runs _ (modify _) => by apply runs_modify
      | |- runs _ mem_now => apply runs_observe
      end | runs1].
Qed.

Lemma session_run u w sid w' :
  _get_or_create_session u w = (Ok sid, w') →
  q_memory (m_state w') = q_memory (m_state w) ∧ dict_get u (q_session_map (m_state w')) = Some sid.
Proof.
  unfold _get_or_create_session. intros Hrun. act_in Hrun.
  destruct (dict_get u _) as [s|] eqn:E; [by injection Hrun as <- <-|]. act_in Hrun.
  act_inv Hrun sid' w1 Hcall. act_in Hrun. injection Hrun as <- <-. injection Hcall as _ <-. simpl.
  by rewrite dict_get_set, decide_True.
Qed.

Lemma ask_run sid p w msg w' : ask_session sid p w = (Ok msg, w') → m_state w' = m_state w.
Proof.
  unfold ask_session. intros Hrun. act_inv Hrun l w1 Hcall. injection Hcall as _ <-.
  by destruct l; [|injection Hrun as _ <-].
Qed.

Lemma learn_run u sid logged q answer refs w w' :
  learn u sid logged q answer refs w = (Ok (), w') →
  q_session_map (m_state w') = q_session_map (m_state w) ∧
  learnt u sid logged (default "" answer) refs (_extract_typed_memories u q (default "" answer))
    (q_memory (m_state w)) w'.
Proof.
  destruct answer as [a|].
  - destruct (learn_eq u sid logged q a refs w) as (w1 & -> & Hs & Hl). by intros [= <-].
  - intros Hrun. unfold learn in Hrun. act_inv Hrun x w1 Hlog.
    unfold mem, zoom, log_interaction, mem_connect, transaction in Hlog. done.
Qed.

(** An answered question is learnt: the session of the user is the one of the
    reply, the conversation has one more row, with the question, the answer and the
    references of the reply, the memory has learnt what question and answer tell,
    item by item, and the profile that is read next, from any session, is the one
    built from just that memory and those conversations. *)
Theorem ask_process_spec u q w r w' :
  ask_process_qa u q w = (Ok r, w') →
  dict_get u (q_session_map (m_state w')) = Some (ar_session_id r) ∧
  learnt u (ar_session_id r) q (ar_answer r) (ar_references r)
    (_extract_typed_memories u q (ar_answer r)) (q_memory (m_state w)) w'.
Proof.
  unfold ask_process_qa. intros Hrun. act_inv Hrun sid w1 Hsession. apply session_run in Hsession as [Hm Hsid].
  act_inv Hrun ctx w2 Hctx. pose proof (context_same_store u w1) as [[Hty Hlo] Hmap]. rewrite Hctx in *.
  act_inv Hrun msg w3 Hask. apply ask_run in Hask. simpl in Hty, Hlo, Hmap.
  act_inv Hrun refs w4 Hrefs. injection Hrefs as _ <-. act_inv Hrun hints w5 Hhints. injection Hhints as _ <-.
  act_inv Hrun x w6 Hlearn. destruct x. injection Hrun as <- <-.
  apply learn_run in Hlearn as [Hs (Hlog & Habs & Hprofile)]. rewrite Hask in *. simpl.
  split; [congruence|]. split; [|split; [|done]].
  - destruct Hlog as [t Hlog]. exists t. rewrite Hlog, Hlo, Hm. done.
  - rewrite Habs, Hty, Hm. done.
Qed.

(** Weakening leaves the other tables. *)
Lemma decay_run {C} u kws x (w : Mach MemDb C) :
  ∃ n w', decay_memories_by_keywords u kws x w = (Ok n, w') ∧
    abs_of (typed_memory (m_state w')) =
      foldl (abs_weaken u (py_min d099 (py_max d01 x))) (abs_of (typed_memory (m_state w)))
        (filter (λ k, k ≠ "") (py_strip <$> kws)) ∧
    conversation_log (m_state w') = conversation_log (m_state w) ∧
    feedback_log (m_state w') = feedback_log (m_state w).
Proof.
  unfold decay_memories_by_keywords. cbv zeta. destruct (filter _ _) as [|k l]; [by eexists _, _|].
  unfold mem_connect, transaction. generalize 0%nat. revert w. generalize (k :: l). clear k l.
  intros l. induction l as [|k l IH]; intros w n; [by eexists _, _|].
  cbn [folding]. rewrite (act_ok _ _ w (n + rowcount (is_stale u k) (typed_memory (m_state w)))%nat
    (set_state (on_memory (update_where (is_stale u k)
       (λ m, set_weight (decayed (py_min d099 (py_max d01 x)) (mi_weight m)) (mv_now (m_tick w)) m)) (m_state w)) (tick w))) by done.
  match goal with |- context [folding _ ?a l ?w1] => destruct (IH w1 a) as (n' & w' & Hf & Habs & Hc & Hfb) end.
  destruct (folding _ _ l _) as [[m|e] w2]; [|done]. injection Hf as -> ->.
  exists n', w'. split; [done|]. split; [|done]. rewrite Habs. simpl. by rewrite abs_decay.
Qed.

Lemma log_feedback_eq {C} u sid q o c e x (w : Mach MemDb C) :
  log_feedback u sid q o c e x w =
  (Ok (), set_state (on_feedback (λ l, l ++ [{| fb_user_id := u; fb_session_id := sid; fb_question := q;
     fb_original_answer := o; fb_corrected_answer := c; fb_eval_signal := e; fb_score := x;
     fb_created_at := mv_now (m_tick w) |}]) (m_state w)) (tick w)).
Proof. done. Qed.

(** A statement on the store that cannot fail, and the store after it *)
Lemma mem_run {A} (m : Act MemDb QCall A) (F : string → MemDb → MemDb) (R : string → MemDb → A) :
  (∀ w, m w = (Ok (R (mv_now (m_tick w)) (m_state w)), set_state (F (mv_now (m_tick w)) (m_state w)) (tick w))) →
  ∀ w, ∃ t w', mem m w = (Ok (R t (q_memory (m_state w))), w') ∧
    q_memory (m_state w') = F t (q_memory (m_state w)) ∧
    q_session_map (m_state w') = q_session_map (m_state w).
Proof. intros Hm w. eexists _, _. split; [apply mem_eq, Hm|done]. Qed.

(** The statements a correction ends with, and the store after them *)
Lemma record_eq {A} u sid q o c e sc a items (k : json → Act Qms QCall A) (w : Mach Qms QCall) :
  ∃ p w', (mem (upsert_memories items) ;; mem (log_feedback u sid q o c e sc) ;;
           mem (log_interaction u sid ("[USER_FEEDBACK] " +:+ q) (Some a) []) ;;
           p ← mem (refresh_user_profile u); k p) w = k p w' ∧
    q_session_map (m_state w') = q_session_map (m_state w) ∧
    (∃ t, feedback_log (q_memory (m_state w')) = feedback_log (q_memory (m_state w)) ++
       [{| fb_user_id := u; fb_session_id := sid; fb_question := q; fb_original_answer := o;
           fb_corrected_answer := c; fb_eval_signal := e; fb_score := sc; fb_created_at := t |}]) ∧
    (∃ t, conversation_log (q_memory (m_state w')) = conversation_log (q_memory (m_state w)) ++
       [{| lo_user_id := u; lo_session_id := sid; lo_question := "[USER_FEEDBACK] " +:+ q; lo_answer := a;
           lo_references_json := "[]"; lo_created_at := t |}]) ∧
    abs_of (typed_memory (q_memory (m_state w'))) =
      foldl abs_learn (abs_of (typed_memory (q_memory (m_state w)))) items ∧
    ∃ t, ∀ b, mem (get_user_profile u b) w' = (Ok (fresh_profile u t (q_memory (m_state w'))), w').
Proof.
  destruct (mem_run _ (λ t, on_memory (λ l, foldl (λ l i, upsert_memory (memory_row t i) l) l items))
    (λ _ _, ()) (upsert_memories_eq items) w) as (t4 & w4 & H4 & Hm4 & Hs4).
  destruct (mem_run _ (λ t, on_feedback (λ l, l ++ [{| fb_user_id := u; fb_session_id := sid;
     fb_question := q; fb_original_answer := o; fb_corrected_answer := c; fb_eval_signal := e;
     fb_score := sc; fb_created_at := t |}])) (λ _ _, ()) (log_feedback_eq u sid q o c e sc) w4)
    as (t5 & w5 & H5 & Hm5 & Hs5).
  destruct (mem_run _ (λ t, on_log (λ l, l ++ [{| lo_user_id := u; lo_session_id := sid;
     lo_question := "[USER_FEEDBACK] " +:+ q; lo_answer := a; lo_references_json := json_dumps (JArr []);
     lo_created_at := t |}])) (λ _ _, ()) (log_interaction_eq u sid _ a []) w5) as (t6 & w6 & H6 & Hm6 & Hs6).
  destruct (mem_run _ (λ t d, on_profile (upsert_profile {| pr_user_id := u;
     pr_profile_json := json_dumps (fresh_profile u t d); pr_updated_at := t |}) d)
    (fresh_profile u) (refresh_eq u) w6) as (t7 & w7 & H7 & Hm7 & Hs7).
  exists (fresh_profile u t7 (q_memory (m_state w6))), w7.
  rewrite (act_ok _ _ _ _ _ H4), (act_ok _ _ _ _ _ H5), (act_ok _ _ _ _ _ H6), (act_ok _ _ _ _ _ H7).
  split; [done|]. split; [congruence|]. rewrite Hm7, Hm6, Hm5, Hm4.
  split; [by eexists|]. split; [by eexists|]. split; [apply abs_upserts|]. exists t7. intros b.
  rewrite <-Hm4, <-Hm5, <-Hm6, <-Hm7.
  assert (fresh_profile u t7 (q_memory (m_state w7)) = fresh_profile u t7 (q_memory (m_state w6))) as -> by by rewrite Hm7.
  apply get_profile_built. rewrite Hm7. apply (upsert_profile_lookup {| pr_user_id := u |}).
Qed.

Lemma require_run name s w w' x : require_text name s w = (Ok x, w') → w' = w ∧ py_strip s ≠ "".
Proof.
  unfold require_text, truthy. destruct (bool_decide_reflect (py_strip s ≠ "")); [|done]. by intros [= _ <-].
Qed.

Lemma returned {S C A} (a b : A) (w w' : Mach S C) : (mret a : Act S C A) w = (Ok b, w') → a = b ∧ w = w'.
Proof. by intros [= -> ->]. Qed.

(** What a correction of the score [x] leaves *)
Definition corrected (u q o c n sid : string) (x : double) (r : FeedbackReply) (d : MemDb)
    (w' : Mach Qms QCall) : Prop :=
  let d' := q_memory (m_state w') in
  fr_session_id r = sid ∧
  (∃ t, feedback_log d' = feedback_log d ++
     [{| fb_user_id := u; fb_session_id := sid; fb_question := q; fb_original_answer := o;
         fb_corrected_answer := c; fb_eval_signal := _build_feedback_eval_signal q o c n;
         fb_score := x; fb_created_at := t |}]) ∧
  (∃ t, conversation_log d' = conversation_log d ++
     [{| lo_user_id := u; lo_session_id := sid; lo_question := "[USER_FEEDBACK] " +:+ q;
         lo_answer := py_strip (c +:+ nl +:+ nl +:+ n); lo_references_json := "[]"; lo_created_at := t |}]) ∧
  abs_of (typed_memory d') =
    foldl abs_learn
      (foldl (abs_weaken u (decimal_float false 82 (-2))) (abs_of (typed_memory d))
         (filter (λ k, k ≠ "") (py_strip <$> _extract_negative_keywords_from_feedback (c +:+ nl +:+ n))))
      (amplified_items u q c (_build_feedback_eval_signal q o c n) x) ∧
  ∃ t, ∀ b, mem (get_user_profile u b) w' = (Ok (fresh_profile u t d'), w').

(** An accepted correction has a question, an answer and a correction that are
    not blank and a score that is a number; the score is brought between 0.1 and 2.
    One row of feedback and one of conversation are added under the session of the
    reply, which is the one that is given or else the user's; the memories that contain a term
    marked as wrong are weakened to 0.82 of their weight before the correction is
    learnt with the weights its score amplifies; and the profile is built anew. *)
Theorem submit_feedback_spec u q o c s n sid w r w' :
  submit_user_feedback u q o c s n sid w = (Ok r, w') →
  py_strip q ≠ "" ∧ py_strip o ≠ "" ∧ py_strip c ≠ "" ∧
  ∃ x session, float_of_json s = Ok x ∧ dict_get u (q_session_map (m_state w')) = Some session ∧
    corrected u q o c n (opt_or sid session) (clamp_score x) r (q_memory (m_state w)) w'.
Proof.
  unfold submit_user_feedback. intros Hrun.
  act_inv Hrun x1 w1 H1. apply require_run in H1 as [-> Hq]. act_inv Hrun x2 w1 H1. apply require_run in H1 as [-> Ho].
  act_inv Hrun x3 w1 H1. apply require_run in H1 as [-> Hc]. do 3 (split; [done|]). clear x1 x2 x3.
  act_inv Hrun session w1 Hses. apply session_run in Hses as [Hm Hsid]. cbv zeta in Hrun.
  act_inv Hrun x w2 Hx. injection Hx as Hx <-.
  exists x, session. split; [done|]. unfold corrected. set (sc := clamp_score x) in *.
  set (sid' := opt_or sid session) in *. set (e := _build_feedback_eval_signal q o c n) in *.
  set (kws := _extract_negative_keywords_from_feedback (c +:+ nl +:+ n)) in *.
  set (items := amplified_items u q c e sc) in *. clearbody items kws e sc sid'.
  destruct (decay_run u kws (decimal_float false 82 (-2))
    {| m_state := q_memory (m_state w1); m_tick := m_tick w1; m_calls := m_calls w1 |})
    as (k & w2 & Hdecay & Habs & Hlog & Hfb).
  cbn [m_state] in Habs, Hlog, Hfb. rewrite Hm in Habs, Hlog, Hfb.
  change (py_min d099 (py_max d01 (decimal_float false 82 (-2)))) with (decimal_float false 82 (-2)) in Habs.
  rewrite (act_ok _ _ _ _ _ (mem_eq _ _ _ _ Hdecay)) in Hrun. cbv beta in Hrun. clear Hdecay.
  match type of Hrun with _ ?v = _ => set (w3 := v) in Hrun end.
  assert (q_memory (m_state w3) = m_state w2 ∧ q_session_map (m_state w3) = q_session_map (m_state w1))
    as [Hm3 Hs3] by done. clearbody w3.
  match type of Hrun with (mem (upsert_memories items) ≫= λ _, _ ≫= λ _, _ ≫= λ _, _ ≫= ?k) _ = _ =>
    destruct (record_eq u sid' q o c e sc (py_strip (c +:+ nl +:+ nl +:+ n)) items k w3) as (p & w7 & H7 & Hs7 & Hf7 & Hc7 & Ha7 & Hp7)
  end.
  rewrite H7 in Hrun. apply returned in Hrun as [<- <-].
  rewrite Hm3, Hfb in Hf7. rewrite Hm3, Hlog in Hc7. rewrite Hm3, Habs in Ha7. split; [congruence|].
  by repeat split.
Qed.
End spec.

(** ** A small assistant, on which the theorems are applied *)

Definition demo_bad_id : string := "0123456789abcdef0123456789abcdef".

(** The chat exists under no name yet; the first data set has no parsed file. *)
#[local] Instance demo_qms : QmsEnv := {|
  qv_memory := {| mv_now n := "t" +:+ str_of_Z (Z.of_nat n) |};
  qv_stamp _ := "20250101000000";
  qv_get_chat _ i := Ok {| ch_id := i; ch_dataset_ids := None |};
  qv_update_chat _ _ _ := Ok ();
  qv_list_chats _ _ := Ok (JObj [("code", JInt 0); ("data", JObj [("chats", JArr [])])]);
  qv_create_chat _ _ ds :=
    if decide (demo_bad_id ∈ ds)
    then Err (OtherError ("The dataset " +:+ demo_bad_id +:+ " doesn't own parsed file"))
    else Ok {| ch_id := "chat1"; ch_dataset_ids := Some ds |};
  qv_create_session _ _ name := Ok ("s-" +:+ name);
  qv_ask _ _ _ := Ok [{| an_content := Some "NCM means nonconforming material";
                         an_reference := Some (PList [PDict [("document_id", PStr "d1");
                           ("document_name", PStr "NCM form.docx")]]) |}] |}.

Definition demo_cfg : QMSAgentConfig := {|
  qc_api_key := "key"; qc_base_url := "http://ragflow"; qc_chat_id := ""; qc_chat_name := "QMS";
  qc_dataset_ids := Some [demo_bad_id; "ds2"]; qc_db_path := "qms.db" |}.

Definition demo_w0 : Mach MemDb QCall := {| m_state := mem_empty; m_tick := 0; m_calls := [] |}.

(** The assistant once it is started: the data set without files is dropped. *)
Definition demo_w : Mach Qms QCall :=
  {| m_state := with_chat mem_empty {| ch_id := "chat1"; ch_dataset_ids := Some ["ds2"] |};
     m_tick := 6; m_calls := [] |}.

Example demo_start :
  (_ensure_chat demo_cfg demo_w0).1 = Ok {| ch_id := "chat1"; ch_dataset_ids := None |} ∧
  m_calls (_ensure_chat demo_cfg demo_w0).2 =
    [QListChats "QMS"; QCreateChat "QMS" [demo_bad_id; "ds2"]; QCreateChat "QMS" ["ds2"];
     QUpdateChat "chat1" [demo_bad_id; "ds2"]; QGetChat "chat1"].
Proof. by vm_compute. Qed.

Example extract_ex :
  (λ i, (mi_memory_type i, mi_content i)) <$>
    _extract_typed_memories "u" "我是质量工程师，请给出简短回答" "好" =
  [("profile", "质量工程师"); ("preference", "请给出简短"); ("history", "我是质量工程师，请给出简短回答")].
Proof. vm_compute. reflexivity. Qed.

Example negative_ex :
  _extract_negative_keywords_from_feedback "旧流程 改为 新流程, 不是 ABC" = ["旧流程"; "ABC"].
Proof. vm_compute. reflexivity. Qed.

Lemma qms_safe_witness :
  ∃ w rq, qms_reaches demo_cfg demo_w0 w ∧ length (typed_memory (q_memory (m_state w))) = 2%nat ∧
    mem_wf (q_memory (m_state w)) ∧ w = (handle rq {| m_state := with_chat mem_empty {| ch_id := "chat1"; ch_dataset_ids := None |};
     m_tick := 5; m_calls := m_calls (_ensure_chat demo_cfg demo_w0).2 |}).2.
Proof.
  set (rq := {| qq_method := "POST"; qq_path := "/v1/qms/ask-procedure"; qq_query := ""; qq_user_id := None;
    qq_body := json_dumps (JObj [("user_id", JStr "u1"); ("question", JStr "What is NCM?")]) |}).
  assert (qms_reaches demo_cfg demo_w0 (handle rq {| m_state := with_chat mem_empty {| ch_id := "chat1";
    ch_dataset_ids := None |}; m_tick := 5; m_calls := m_calls (_ensure_chat demo_cfg demo_w0).2 |}).2) as Hr.
  { apply qms_served. refine (qms_started demo_cfg demo_w0 {| ch_id := "chat1"; ch_dataset_ids := None |}
      {| m_state := mem_empty; m_tick := 5; m_calls := m_calls (_ensure_chat demo_cfg demo_w0).2 |} _).
    vm_compute. reflexivity. }
  eexists _, rq. split; [exact Hr|]. split; [vm_compute; reflexivity|].
  split; [exact (qms_safe demo_cfg demo_w0 _ mem_wf_empty Hr)|reflexivity].
Defined.

Lemma ensure_chat_ends_witness :
  (_ensure_chat demo_cfg demo_w0).1 ≠ Err OutOfFuel ∧
  (length (m_calls (_ensure_chat demo_cfg demo_w0).2) ≤ 22)%nat.
Proof.
  apply (ensure_chat_ends demo_cfg demo_w0); intros; simpl; try done. by case_decide.
Defined.

Lemma users_apart_witness :
  user_view "b" (m_state (ask_process_qa "a" "What is NCM?" demo_w).2) = ([], [], [], [], None).
Proof.
  refine (proj1 (users_apart "a" "b" "What is NCM?" "" "" "" JNull "" None demo_w _)). done.
Defined.

Definition asked : res AskReply * Mach Qms QCall := ask_process_qa "a" "What is NCM?" demo_w.
Definition asked_reply : AskReply := {|
  ar_session_id := "s-qms-a"; ar_module := None; ar_answer := "NCM means nonconforming material";
  ar_references := [JObj [("document_id", JStr "d1"); ("document_name", JStr "NCM form.docx")]];
  ar_template_hints := [JObj [("document_id", JStr "d1"); ("document_name", JStr "NCM form.docx")]] |}.

Lemma ask_process_spec_witness :
  dict_get "a" (q_session_map (m_state asked.2)) = Some "s-qms-a" ∧
  learnt "a" "s-qms-a" "What is NCM?" (ar_answer asked_reply) (ar_references asked_reply)
    (_extract_typed_memories "a" "What is NCM?" (ar_answer asked_reply)) mem_empty asked.2.
Proof.
  apply (ask_process_spec "a" "What is NCM?" demo_w asked_reply asked.2). vm_compute. reflexivity.
Defined.

Definition is_ok {A} (r : res A) : bool := match r with Ok _ => true | Err _ => false end.

Lemma ok_run {A S C} (m : Act S C A) w : is_ok (m w).1 = true → ∃ a w', m w = (Ok a, w').
Proof. destruct (m w) as [[a|e] w']; [by eexists _, _|done]. Qed.

Abbreviation demo_feedback :=
  (submit_user_feedback "a" "What is NCM?" "A tool" "不是 tool" (JStr "inf") "" None).

Lemma demo_feedback_ok : is_ok (demo_feedback demo_w).1 = true.
Proof. vm_compute. reflexivity. Qed.

Lemma submit_feedback_spec_witness :
  ∃ r w' x session, demo_feedback demo_w = (Ok r, w') ∧ float_of_json (JStr "inf") = Ok x ∧
    dict_get "a" (q_session_map (m_state w')) = Some session ∧
    corrected "a" "What is NCM?" "A tool" "不是 tool" "" (opt_or None session) (clamp_score x) r
      (q_memory (m_state demo_w)) w'.
Proof.
  destruct (ok_run demo_feedback demo_w demo_feedback_ok) as (r & w' & E).
  destruct (submit_feedback_spec "a" "What is NCM?" "A tool" "不是 tool" (JStr "inf") "" None demo_w r w' E)
    as (_ & _ & _ & x & session & Hx & Hs & Hc).
  exists r, w', x, session. exact (conj E (conj Hx (conj Hs Hc))).
Defined.
