(* ===== verification/EvalStore.v ===== *)
(** [EvalStore] (agent_eval_harness/models.py): the SQLite store of evaluation
    suites, cases, runs, results and judge scores, and the environment of the
    harness. A column the code writes with [json.dumps] is kept as the value it
    dumped, and reading it with [json.loads] gives that value back. Foreign keys
    are declared but not enforced: the connections never switch them on. *)
From S2P Require Import Prelude Float PyText Json Dsl Schema Effects Comp PyNum.

Local Open Scope Z_scope.

(** ** Rows *)

(** The text [json.dumps] of a value, kept as the value *)
Abbreviation dumped := json.

(** A metric of a case: [None] when the judge gave no score *)
Abbreviation metrics := (list (string * option double)).

Inductive num := NInt (z : Z) | NFloat (x : double).
(** [metrics_summary] *)
Abbreviation summary := (list (string * num)).

Record SuiteRow := {
  su_suite_id : string; su_name : string; su_description : option string;
  su_version : option string; su_tags : dumped; su_created_at : string;
  su_updated_at : string; su_source_path : option string }.

Record CaseRow := {
  ca_case_id : string; ca_suite_id : string; ca_question : string;
  ca_reference_answer : option string; ca_expected_output_contains : dumped;
  ca_expected_output_regex : dumped; ca_expected_tool_calls : dumped;
  ca_reference_chunk_ids : dumped; ca_tags : dumped; ca_metadata : dumped;
  ca_created_at : string }.

Record RunRow := {
  ru_run_id : string; ru_suite_id : string; ru_agent_id : option string;
  ru_agent_title : option string; ru_dialog_id : option string; ru_dsl_snapshot : option dumped;
  ru_name : string; ru_status : string; ru_metrics_summary : option summary; ru_config : dumped;
  ru_created_at : string; ru_completed_at : option string; ru_error_message : option string }.

Record ResultRow := {
  re_result_id : string; re_run_id : string; re_case_id : string;
  re_generated_answer : string; re_retrieved_chunks : dumped; re_execution_time_sec : double;
  re_error : option string; re_metrics : metrics; re_raw_response : option string;
  re_created_at : string }.

Record ComparisonRow := {
  co_comparison_id : string; co_name : string; co_run_ids : dumped; co_results : dumped;
  co_created_at : string }.

Record CacheRow := {
  ch_cache_key : string; ch_metric_name : string; ch_score : double;
  ch_reasoning : option string; ch_model : option string; ch_created_at : string }.

Record EvalDb := {
  e_suites : list SuiteRow; e_cases : list CaseRow; e_runs : list RunRow;
  e_results : list ResultRow; e_comparisons : list ComparisonRow; e_cache : list CacheRow }.

Definition eval_empty : EvalDb :=
  {| e_suites := []; e_cases := []; e_runs := []; e_results := []; e_comparisons := [];
     e_cache := [] |}.

Definition on_suites f (d : EvalDb) : EvalDb :=
  {| e_suites := f (e_suites d); e_cases := e_cases d; e_runs := e_runs d;
     e_results := e_results d; e_comparisons := e_comparisons d; e_cache := e_cache d |}.
Definition on_cases f (d : EvalDb) : EvalDb :=
  {| e_suites := e_suites d; e_cases := f (e_cases d); e_runs := e_runs d;
     e_results := e_results d; e_comparisons := e_comparisons d; e_cache := e_cache d |}.
Definition on_runs f (d : EvalDb) : EvalDb :=
  {| e_suites := e_suites d; e_cases := e_cases d; e_runs := f (e_runs d);
     e_results := e_results d; e_comparisons := e_comparisons d; e_cache := e_cache d |}.
Definition on_results f (d : EvalDb) : EvalDb :=
  {| e_suites := e_suites d; e_cases := e_cases d; e_runs := e_runs d;
     e_results := f (e_results d); e_comparisons := e_comparisons d; e_cache := e_cache d |}.
Definition on_comparisons f (d : EvalDb) : EvalDb :=
  {| e_suites := e_suites d; e_cases := e_cases d; e_runs := e_runs d;
     e_results := e_results d; e_comparisons := f (e_comparisons d); e_cache := e_cache d |}.
Definition on_cache f (d : EvalDb) : EvalDb :=
  {| e_suites := e_suites d; e_cases := e_cases d; e_runs := e_runs d;
     e_results := e_results d; e_comparisons := e_comparisons d; e_cache := f (e_cache d) |}.

(** ** The environment of the harness *)

Inductive ECall :=
  | ECallAgents (title id : option string) (page_size : Z)
  | ECallCreateSession (agent_id name : string)
  | ECallAsk (s : RagSession) (question : string)
  | ECallJudge (url : string) (body : json).

Class EvalEnv := {
  ev_now : nat → string;                   (* datetime.now(timezone.utc).isoformat() *)
  ev_uuid : nat → string;                  (* uuid.uuid4().hex *)
  ev_timer : nat → double;                 (* timeit.default_timer() *)
  ev_yaml : nat → string → res json;       (* yaml.safe_load of a file *)
  ev_agents : nat → option string → option string → Z → res (list Agent);
  ev_create_session : nat → string → string → res RagSession;
  ev_ask : nat → RagSession → string → res (list Answer);
  ev_judge : nat → string → json → res json;  (* requests.post(...).json(), the status checked *)
  ev_real_text : string → string;          (* SQLite's text of a REAL literal *)
  ev_re_search : string → string → res bool   (* re.search(p, s, re.IGNORECASE) of a suite's pattern *)
}.

Abbreviation E := (Act EvalDb ECall).

(** ** Binding of values of a request or a YAML file *)

Section ops.
Context `{EvalEnv}.

(** A value bound to a TEXT column: a number is stored as its text. *)
Definition bind_text (j : json) : res (option string) :=
  match j with
  | JNull => Ok None
  | JStr s => Ok (Some s)
  | JBool b => Ok (Some (if b then "1" else "0"))
  | JInt z => if (- 2 ^ 63 <=? z) && (z <? 2 ^ 63) then Ok (Some (str_of_Z z))
              else Err (OtherError "Python int too large to convert to SQLite INTEGER")
  | JFloat l => Ok (Some (ev_real_text l))
  | JArr _ => Err (OtherError "Error binding parameter: type 'list' is not supported")
  | JObj _ => Err (OtherError "Error binding parameter: type 'dict' is not supported")
  end.

(** A value bound to a NOT NULL column *)
Definition bind_not_null (column : string) (j : json) : res string :=
  match bind_text j with
  | Ok (Some s) => Ok s
  | Ok None => Err (IntegrityError ("NOT NULL constraint failed: " +:+ column))
  | Err e => Err e
  end.

Definition truthy_json (j : json) : bool := py_bool (of_json j).

(** [v or d] *)
Definition json_or (j d : json) : json := if truthy_json j then j else d.

Definition now : E string := observe ev_now.
(** [_uuid] *)
Definition _uuid : E string := observe ev_uuid.

Definition rollback (old new : EvalDb) : EvalDb := old.
(** [with self._connect() as conn:] *)
Definition connect {A} (m : E A) : E A := transaction rollback m.

(** ** Suites *)

Definition insert_suite (s : SuiteRow) (d : EvalDb) : res EvalDb :=
  match fetchone (λ r, su_suite_id r = su_suite_id s) (e_suites d) with
  | Some _ => Err (IntegrityError "UNIQUE constraint failed: eval_suites.suite_id")
  | None =>
      match fetchone (λ r, su_name r = su_name s) (e_suites d) with
      | Some _ => Err (IntegrityError "UNIQUE constraint failed: eval_suites.name")
      | None => Ok (on_suites (λ t, t ++ [s]) d)
      end
  end.

Definition create_suite (name description version tags source_path : json) : E string :=
  suite_id ← _uuid;
  t ← now;
  connect (
    name ← ofres (bind_not_null "eval_suites.name" name);
    description ← ofres (bind_text description);
    version ← ofres (bind_text version);
    source_path ← ofres (bind_text source_path);
    modify_try (insert_suite {|
      su_suite_id := suite_id; su_name := name; su_description := description;
      su_version := version; su_tags := json_or tags (JArr []); su_created_at := t;
      su_updated_at := t; su_source_path := source_path |})) ;;
  mret suite_id.

Definition suite_of (suite_id : string) (d : EvalDb) : option SuiteRow :=
  fetchone (λ r, su_suite_id r = suite_id) (e_suites d).
Definition get_suite (suite_id : string) : E (option SuiteRow) := connect (gets (suite_of suite_id)).

Definition list_suites : E (list SuiteRow) :=
  connect (gets (λ d, isort (λ a b, str_leb (su_created_at b) (su_created_at a)) (e_suites d))).

(** Deletes the row of the suite alone: [ON DELETE CASCADE] needs
    [PRAGMA foreign_keys]. *)
Definition delete_suite (suite_id : string) : E bool :=
  connect (
    n ← gets (λ d, rowcount (λ r, su_suite_id r = suite_id) (e_suites d));
    modify (on_suites (delete_where (λ r, su_suite_id r = suite_id))) ;;
    mret (0 <? n)%nat).

(** ** Cases *)

Definition insert_case (c : CaseRow) (d : EvalDb) : res EvalDb :=
  match fetchone (λ r, ca_case_id r = ca_case_id c) (e_cases d) with
  | Some _ => Err (IntegrityError "UNIQUE constraint failed: eval_cases.case_id")
  | None => Ok (on_cases (λ t, t ++ [c]) d)
  end.

(** The arguments of [add_case] *)
Record CaseArgs := {
  cg_question : json; cg_reference_answer : json; cg_expected_output_contains : json;
  cg_expected_output_regex : json; cg_expected_tool_calls : json;
  cg_reference_chunk_ids : json; cg_tags : json; cg_metadata : json; cg_case_id : json }.

Definition add_case (suite_id : string) (a : CaseArgs) : E string :=
  case_id ← (if truthy_json (cg_case_id a) then mret (cg_case_id a) else JStr <$> _uuid);
  t ← now;
  connect (
    case_id ← ofres (bind_not_null "eval_cases.case_id" case_id);
    question ← ofres (bind_not_null "eval_cases.question" (cg_question a));
    reference_answer ← ofres (bind_text (cg_reference_answer a));
    modify_try (insert_case {|
      ca_case_id := case_id; ca_suite_id := suite_id; ca_question := question;
      ca_reference_answer := reference_answer;
      ca_expected_output_contains := cg_expected_output_contains a;
      ca_expected_output_regex := cg_expected_output_regex a;
      ca_expected_tool_calls := cg_expected_tool_calls a;
      ca_reference_chunk_ids := cg_reference_chunk_ids a;
      ca_tags := json_or (cg_tags a) (JArr []); ca_metadata := json_or (cg_metadata a) (JObj []);
      ca_created_at := t |}) ;;
    mret case_id).

Definition cases_of (suite_id : string) (d : EvalDb) : list CaseRow :=
  isort (λ a b, str_leb (ca_created_at a) (ca_created_at b))
    (filter (λ c, ca_suite_id c = suite_id) (e_cases d)).
Definition get_cases (suite_id : string) : E (list CaseRow) := connect (gets (cases_of suite_id)).

Definition get_case (case_id : string) : E (option CaseRow) :=
  connect (gets (λ d, fetchone (λ c, ca_case_id c = case_id) (e_cases d))).

Definition delete_case (case_id : string) : E bool :=
  connect (
    n ← gets (λ d, rowcount (λ c, ca_case_id c = case_id) (e_cases d));
    modify (on_cases (delete_where (λ c, ca_case_id c = case_id))) ;;
    mret (0 <? n)%nat).

(** ** Runs *)

Definition insert_run (r : RunRow) (d : EvalDb) : res EvalDb :=
  match fetchone (λ x, ru_run_id x = ru_run_id r) (e_runs d) with
  | Some _ => Err (IntegrityError "UNIQUE constraint failed: eval_runs.run_id")
  | None => Ok (on_runs (λ t, t ++ [r]) d)
  end.

Definition create_run (suite_id name : string) (agent_id agent_title dialog_id : option string)
    (dsl_snapshot : option dumped) (config : json) : E string :=
  run_id ← _uuid;
  t ← now;
  connect (modify_try (insert_run {|
    ru_run_id := run_id; ru_suite_id := suite_id; ru_agent_id := agent_id;
    ru_agent_title := agent_title; ru_dialog_id := dialog_id; ru_dsl_snapshot := dsl_snapshot;
    ru_name := py_or name ("Run " +:+ py_take 19 t); ru_status := "RUNNING";
    ru_metrics_summary := None; ru_config := json_or config (JObj []); ru_created_at := t;
    ru_completed_at := None; ru_error_message := None |})) ;;
  mret run_id.

(** The keyword arguments of [update_run] that are columns it may set *)
Record RunUpdate := {
  uu_status : option string; uu_metrics_summary : option summary;
  uu_completed_at : option (option string); uu_error_message : option (option string);
  uu_dsl_snapshot : option (option dumped) }.

Definition no_fields (u : RunUpdate) : bool :=
  match u with
  | {| uu_status := None; uu_metrics_summary := None; uu_completed_at := None;
       uu_error_message := None; uu_dsl_snapshot := None |} => true
  | _ => false
  end.

Definition set_fields (u : RunUpdate) (r : RunRow) : RunRow := {|
  ru_run_id := ru_run_id r; ru_suite_id := ru_suite_id r; ru_agent_id := ru_agent_id r;
  ru_agent_title := ru_agent_title r; ru_dialog_id := ru_dialog_id r;
  ru_dsl_snapshot := default (ru_dsl_snapshot r) (uu_dsl_snapshot u);
  ru_name := ru_name r; ru_status := default (ru_status r) (uu_status u);
  ru_metrics_summary := match uu_metrics_summary u with
                        | Some m => Some m | None => ru_metrics_summary r end;
  ru_config := ru_config r; ru_created_at := ru_created_at r;
  ru_completed_at := default (ru_completed_at r) (uu_completed_at u);
  ru_error_message := default (ru_error_message r) (uu_error_message u) |}.

Definition update_run (run_id : string) (u : RunUpdate) : E bool :=
  if no_fields u then mret false
  else
    connect (
      n ← gets (λ d, rowcount (λ r, ru_run_id r = run_id) (e_runs d));
      modify (on_runs (update_where (λ r, ru_run_id r = run_id) (set_fields u))) ;;
      mret (0 <? n)%nat).

Definition run_of (run_id : string) (d : EvalDb) : option RunRow :=
  fetchone (λ r, ru_run_id r = run_id) (e_runs d).
Definition get_run (run_id : string) : E (option RunRow) := connect (gets (run_of run_id)).

Definition by_created_desc (a b : RunRow) : bool := str_leb (ru_created_at b) (ru_created_at a).

Definition list_runs (suite_id : option string) : E (list RunRow) :=
  connect (gets (λ d,
    if opt_truthy suite_id
    then isort by_created_desc (filter (λ r, Some (ru_suite_id r) = suite_id) (e_runs d))
    else isort by_created_desc (e_runs d))).

Definition delete_run (run_id : string) : E bool :=
  connect (
    n ← gets (λ d, rowcount (λ r, ru_run_id r = run_id) (e_runs d));
    modify (on_runs (delete_where (λ r, ru_run_id r = run_id))) ;;
    mret (0 <? n)%nat).

(** ** Results *)

Definition insert_result (r : ResultRow) (d : EvalDb) : res EvalDb :=
  match fetchone (λ x, re_result_id x = re_result_id r) (e_results d) with
  | Some _ => Err (IntegrityError "UNIQUE constraint failed: eval_results.result_id")
  | None => Ok (on_results (λ t, t ++ [r]) d)
  end.

(** [retrieved_chunks] are values of the SDK, which [json.dumps] may refuse. *)
Definition add_result (run_id case_id generated_answer : string) (retrieved_chunks : list pyv)
    (execution_time_sec : double) (error : option string) (m : metrics) : E string :=
  result_id ← _uuid;
  t ← now;
  connect (
    chunks ← ofres (match to_json (PList retrieved_chunks) with
                    | Some j => Ok j
                    | None => Err (OtherError "Object is not JSON serializable")
                    end);
    modify_try (insert_result {|
      re_result_id := result_id; re_run_id := run_id; re_case_id := case_id;
      re_generated_answer := generated_answer; re_retrieved_chunks := chunks;
      re_execution_time_sec := execution_time_sec; re_error := error; re_metrics := m;
      re_raw_response := None; re_created_at := t |})) ;;
  mret result_id.

Definition results_of (run_id : string) (d : EvalDb) : list ResultRow :=
  isort (λ a b, str_leb (re_created_at a) (re_created_at b))
    (filter (λ r, re_run_id r = run_id) (e_results d)).
Definition get_results (run_id : string) : E (list ResultRow) := connect (gets (results_of run_id)).

(** ** Judge cache *)

Definition cache_of (key : string) (d : EvalDb) : option CacheRow :=
  fetchone (λ c, ch_cache_key c = key) (e_cache d).
Definition get_judge_cache (key : string) : E (option CacheRow) := connect (gets (cache_of key)).

(** [INSERT OR REPLACE]: the row with the key is deleted first. *)
Definition replace_cache (c : CacheRow) (d : EvalDb) : EvalDb :=
  on_cache (λ t, delete_where (λ r, ch_cache_key r = ch_cache_key c) t ++ [c]) d.

Definition set_judge_cache (key metric_name : string) (score : double) (reasoning : json)
    (model : string) : E unit :=
  t ← now;
  connect (
    reasoning ← ofres (bind_text reasoning);
    modify (replace_cache {|
      ch_cache_key := key; ch_metric_name := metric_name; ch_score := score;
      ch_reasoning := reasoning; ch_model := Some model; ch_created_at := t |})).

(** ** Comparisons *)

Definition insert_comparison (c : ComparisonRow) (d : EvalDb) : res EvalDb :=
  match fetchone (λ r, co_comparison_id r = co_comparison_id c) (e_comparisons d) with
  | Some _ => Err (IntegrityError "UNIQUE constraint failed: eval_comparisons.comparison_id")
  | None => Ok (on_comparisons (λ t, t ++ [c]) d)
  end.

Definition save_comparison (name : string) (run_ids : list string) (results : json) : E string :=
  comp_id ← _uuid;
  t ← now;
  connect (modify_try (insert_comparison {|
    co_comparison_id := comp_id; co_name := name; co_run_ids := json_strs run_ids;
    co_results := results; co_created_at := t |})) ;;
  mret comp_id.
End ops.
