(* ===== verification/EvalMetrics.v ===== *)
(** The metrics of the evaluation harness (agent_eval_harness/metrics): string and
    pattern checks, retrieval quality, the score of a judging language model with
    its cache, the weighted composite and the summary of a run. *)
From S2P Require Import Prelude Float PyText Json Dsl Digest Schema Effects Comp Regex PyNum.
From S2P Require Import EvalStore.

Local Open Scope Z_scope.

(** ** Values *)

Definition exn_attribute : exn := OtherError "AttributeError".
Definition exn_key (k : string) : exn := OtherError k.
Definition exn_index : exn := OtherError "list index out of range".

(** The elements of a value in a [for] loop, and [len]; a text is iterated by its
    characters, a dict by its keys. *)
Definition json_iter (j : json) : res (list json) :=
  match j with
  | JArr l => Ok l
  | JStr s => Ok ((λ c, JStr (of_codes [c])) <$> codes s)
  | JObj kvs => Ok ((λ kv, JStr kv.1) <$> kvs)
  | _ => Err exn_type
  end.

(** [c.get(k, d)] on an element of a list *)
Definition pv_get (k : string) (d v : pyv) : res pyv :=
  match v with
  | PDict kvs => Ok (default d (dict_get k kvs))
  | _ => Err exn_attribute
  end.

(** ** Deterministic metrics *)

(** The metrics of one case, before the judge: all are floats. *)
Abbreviation scores := (list (string * double)).

Definition py_ratio (n d : nat) : double := Z_ratio (Z.of_nat n) (Z.of_nat d).

(** How many elements satisfy a test that may raise *)
Fixpoint count_res {A} (f : A → res bool) (l : list A) : res nat :=
  match l with
  | [] => Ok 0%nat
  | x :: l' =>
      match f x with
      | Ok b => match count_res f l' with
                | Ok n => Ok (if b then S n else n)
                | Err e => Err e
                end
      | Err e => Err e
      end
  end.

(** The fraction of the elements of [expected] that satisfy [f], when there are
    any *)
Definition fraction (name : string) (f : json → res bool) (expected : json) : res scores :=
  if truthy_json expected then
    match json_iter expected with
    | Ok l => match count_res f l with
              | Ok n => Ok [(name, py_ratio n (length l))]
              | Err e => Err e
              end
    | Err e => Err e
    end
  else Ok [].

Section env.
Context `{EvalEnv}.

Definition contains_test (answer : string) (s : json) : res bool :=
  match s with
  | JStr s => Ok (py_in (py_lower s) (py_lower answer))
  | _ => Err exn_attribute
  end.

Definition regex_test (answer : string) (p : json) : res bool :=
  match p with
  | JStr p => ev_re_search p answer
  | _ => Err exn_type
  end.

Definition compute_deterministic (answer : string) (case : CaseRow) : res scores :=
  let has_answer := if truthy answer && truthy (py_strip answer) then f1 else f0 in
  let answer_length := if truthy answer then double_of_Z (Z.of_nat (py_len answer)) else f0 in
  match fraction "contains_score" (contains_test answer) (ca_expected_output_contains case) with
  | Ok c =>
      match fraction "regex_score" (regex_test answer) (ca_expected_output_regex case) with
      | Ok r => Ok ([("has_answer", has_answer); ("answer_length", answer_length)] ++ c ++ r)
      | Err e => Err e
      end
  | Err e => Err e
  end.
End env.

(** ** Retrieval metrics *)

(** The first position, counted from 1, of an element of [relevant] *)
Fixpoint first_relevant (i : Z) (retrieved relevant : list hkey) : option Z :=
  match retrieved with
  | [] => None
  | x :: l => if decide (x ∈ relevant) then Some i else first_relevant (i + 1) l relevant
  end.

Definition two : double := double_of_Z 2.

Definition f1_of (precision recall : double) : double :=
  if flt f0 (fadd precision recall)
  then fdiv (fmul two (fmul precision recall)) (fadd precision recall) else f0.

(** From the hashed identifiers *)
Definition retrieval_scores (retrieved relevant : list hkey) : scores :=
  let retrieved_set := dict_fromkeys retrieved in
  let relevant_set := dict_fromkeys relevant in
  let common := length (filter (λ x, x ∈ relevant_set) retrieved_set) in
  let precision := match retrieved_set with [] => f0 | _ => py_ratio common (length retrieved_set) end in
  let recall := match relevant_set with [] => f0 | _ => py_ratio common (length relevant_set) end in
  [("precision", precision); ("recall", recall); ("f1_score", f1_of precision recall);
   ("hit_rate", if decide (common = 0%nat) then f0 else f1);
   ("mrr", match first_relevant 1 retrieved relevant_set with
           | Some i => Z_ratio 1 i
           | None => f0
           end)].

Definition compute_retrieval (retrieved_chunks : list pyv) (reference_chunk_ids : json)
    : res scores :=
  if negb (truthy_json reference_chunk_ids) then Ok []
  else
    match res_mapM (pv_get "chunk_id" (PStr "")) retrieved_chunks with
    | Err e => Err e
    | Ok ids =>
        match res_mapM hash_of ids, json_iter reference_chunk_ids with
        | Ok retrieved, Ok l =>
            match res_mapM (hash_of ∘ of_json) l with
            | Ok relevant => Ok (retrieval_scores retrieved relevant)
            | Err e => Err e
            end
        | Err e, _ | _, Err e => Err e
        end
    end.

(** ** Composite score *)

Definition dec (m e : Z) : double := decimal_float false m e.

Definition DEFAULT_WEIGHTS : list (string * double) :=
  [("contains_score", dec 20 (-2)); ("regex_score", dec 10 (-2)); ("faithfulness", dec 25 (-2));
   ("answer_relevance", dec 25 (-2)); ("context_relevance", dec 10 (-2));
   ("coherence", dec 10 (-2))].

Definition JUDGE_METRICS : list string :=
  ["faithfulness"; "answer_relevance"; "context_relevance"; "coherence"].

(** From 1-5 to 0-1 for the metrics of the judge *)
Definition normalized (name : string) (v : double) : double :=
  if decide (name ∈ JUDGE_METRICS) then fdiv (fsub v f1) (double_of_Z 4) else v.

Definition composite_step (all_metrics : metrics) (acc : double * double) (w : string * double)
    : double * double :=
  match dict_get w.1 all_metrics with
  | Some (Some v) => (fadd acc.1 (fmul (normalized w.1 v) w.2), fadd acc.2 w.2)
  | _ => acc
  end.

Definition compute_composite (all_metrics : metrics) : option double :=
  let '(weighted_sum, total_weight) := foldl (composite_step all_metrics) (f0, f0) DEFAULT_WEIGHTS in
  if flt f0 total_weight then Some (fdiv weighted_sum total_weight) else None.

(** ** Configuration (config.py) *)

Record EvalConfig := {
  ec_ragflow_api_key : string; ec_ragflow_base_url : string; ec_db_path : string;
  ec_judge_api_key : string; ec_judge_base_url : string; ec_judge_model : string;
  ec_judge_enabled : bool; ec_default_timeout_sec : Z; ec_default_pass_threshold : double;
  ec_server_host : string; ec_server_port : Z }.

Definition int_or_error (s : string) : res Z :=
  match py_int s with
  | Some z => Ok z
  | None => Err (ValueError ("invalid literal for int() with base 10: " +:+ s))
  end.

Definition float_or_error (s : string) : res double :=
  match py_float s with
  | Some x => Ok x
  | None => Err (ValueError ("could not convert string to float: " +:+ s))
  end.

(** [load_config_from_env]; [_DEFAULT_DB_PATH] lies beside the package. *)
Definition load_config_from_env (getenv : string → option string) (default_db_path : string)
    : res EvalConfig :=
  let env k d := default d (getenv k) in
  match int_or_error (env "EVAL_TIMEOUT_SEC" "120") with
  | Err e => Err e
  | Ok timeout =>
      match float_or_error (env "EVAL_PASS_THRESHOLD" "0.6") with
      | Err e => Err e
      | Ok threshold =>
          match int_or_error (env "EVAL_SERVER_PORT" "9391") with
          | Err e => Err e
          | Ok port =>
              Ok {| ec_ragflow_api_key := env "RAGFLOW_API_KEY" "";
                    ec_ragflow_base_url := env "RAGFLOW_BASE_URL" "http://127.0.0.1:9380";
                    ec_db_path := opt_or (getenv "EVAL_DB_PATH") default_db_path;
                    ec_judge_api_key := env "JUDGE_LLM_API_KEY" "";
                    ec_judge_base_url := env "JUDGE_LLM_BASE_URL" "https://api.openai.com/v1";
                    ec_judge_model := env "JUDGE_LLM_MODEL" "gpt-4o-mini";
                    ec_judge_enabled :=
                      bool_decide (py_lower (env "JUDGE_ENABLED" "true") = "true");
                    ec_default_timeout_sec := timeout;
                    ec_default_pass_threshold := threshold;
                    ec_server_host := env "EVAL_SERVER_HOST" "0.0.0.0";
                    ec_server_port := port |}
          end
      end
  end.

(** ** The judge: prompts *)

Definition nl : string := String (ascii_of_N 10) "".
Definition dq : string := String (ascii_of_N 34) "".

Definition prompt_faithfulness (question answer context : string) : string :=
  py_join "" [
    "You are an expert evaluator assessing the faithfulness of an AI-generated answer."; nl; nl;
    "TASK: Determine whether every claim in the answer is supported by the provided context.";
    nl; nl; "CONTEXT (retrieved chunks):"; nl; context; nl; nl; "QUESTION: "; question; nl; nl;
    "ANSWER: "; answer; nl; nl; "SCORING RUBRIC:"; nl;
    "1 - Most claims are NOT supported by the context (major hallucination)"; nl;
    "2 - Several claims lack support; some are fabricated"; nl;
    "3 - About half the claims are supported; minor unsupported additions"; nl;
    "4 - Most claims are supported; only trivial unsupported details"; nl;
    "5 - Every claim is directly supported by the context"; nl; nl;
    "Respond in JSON format ONLY:"; nl; "{"; dq; "score"; dq; ": <1-5>, "; dq; "reasoning"; dq;
    ": "; dq; "<brief explanation citing specific claims>"; dq; "}"].

Definition prompt_answer_relevance (question answer context : string) : string :=
  py_join "" [
    "You are an expert evaluator assessing how well an answer addresses the question."; nl; nl;
    "TASK: Score how relevant and complete the answer is to the question asked."; nl; nl;
    "QUESTION: "; question; nl; nl; "ANSWER: "; answer; nl; nl; "SCORING RUBRIC:"; nl;
    "1 - Answer is completely off-topic or nonsensical"; nl;
    "2 - Answer is partially related but misses the main point"; nl;
    "3 - Answer addresses the question partially; key aspects missing"; nl;
    "4 - Answer is relevant and covers most aspects of the question"; nl;
    "5 - Answer directly and comprehensively addresses the question"; nl; nl;
    "Respond in JSON format ONLY:"; nl; "{"; dq; "score"; dq; ": <1-5>, "; dq; "reasoning"; dq;
    ": "; dq; "<brief explanation>"; dq; "}"].

Definition prompt_context_relevance (question answer context : string) : string :=
  py_join "" [
    "You are an expert evaluator assessing the relevance of retrieved context."; nl; nl;
    "TASK: Score how relevant the retrieved chunks are to answering the question."; nl; nl;
    "QUESTION: "; question; nl; nl; "RETRIEVED CHUNKS:"; nl; context; nl; nl; "SCORING RUBRIC:";
    nl; "1 - Chunks are completely irrelevant to the question"; nl;
    "2 - Chunks are tangentially related at best"; nl;
    "3 - Some chunks are relevant but mixed with irrelevant ones"; nl;
    "4 - Most chunks are relevant and useful for answering"; nl;
    "5 - All chunks are highly relevant and directly support answering"; nl; nl;
    "Respond in JSON format ONLY:"; nl; "{"; dq; "score"; dq; ": <1-5>, "; dq; "reasoning"; dq;
    ": "; dq; "<brief explanation>"; dq; "}"].

Definition prompt_coherence (question answer context : string) : string :=
  py_join "" [
    "You are an expert evaluator assessing the coherence and quality of an answer."; nl; nl;
    "TASK: Score the answer's coherence, clarity, and logical organization."; nl; nl;
    "QUESTION: "; question; nl; nl; "ANSWER: "; answer; nl; nl; "SCORING RUBRIC:"; nl;
    "1 - Incoherent, contradictory, or unreadable"; nl; "2 - Poorly organized; hard to follow";
    nl; "3 - Somewhat organized but could be clearer"; nl;
    "4 - Well-structured and easy to follow"; nl;
    "5 - Excellent organization, clear, professional quality"; nl; nl;
    "Respond in JSON format ONLY:"; nl; "{"; dq; "score"; dq; ": <1-5>, "; dq; "reasoning"; dq;
    ": "; dq; "<brief explanation>"; dq; "}"].


(** [PROMPTS[metric_name].format(...)] *)
Definition judge_prompt (metric_name question answer context : string) : string :=
  if decide (metric_name = "faithfulness") then prompt_faithfulness question answer context
  else if decide (metric_name = "answer_relevance") then
    prompt_answer_relevance question answer context
  else if decide (metric_name = "context_relevance") then
    prompt_context_relevance question answer context
  else prompt_coherence question answer context.

(** The loop of [_build_context] *)
Fixpoint context_go (max_chars total : Z) (parts : list string) (chunks : list pyv)
    : res (list string) :=
  match chunks with
  | [] => Ok parts
  | c :: l =>
      match pv_get "content" (PStr "") c with
      | Err e => Err e
      | Ok (PStr content) =>
          let n := Z.of_nat (py_len content) in
          if max_chars <? total + n then
            let remaining := max_chars - total in
            Ok (if 100 <? remaining
                then parts ++ [py_take (Z.to_nat remaining) content +:+ "..."] else parts)
          else context_go max_chars (total + n) (parts ++ [content]) l
      | Ok _ => Err exn_type
      end
  end.

Definition _build_context (chunks : list pyv) (max_chars : Z) : res string :=
  match context_go max_chars 0 [] chunks with
  | Ok [] => Ok "(no context available)"
  | Ok parts => Ok (py_join (nl +:+ "---" +:+ nl) parts)
  | Err e => Err e
  end.

Definition _cache_key (question answer context metric_name : string) : string :=
  hex (Sha256.digest (to_bytes (question +:+ "|||" +:+ answer +:+ "|||" +:+ context +:+ "|||" +:+ metric_name))).

(** ** The judge: its answer *)

Definition in_range (score : double) : bool := fle f1 score && fle score (double_of_Z 5).

(** What a [try] of [_parse_judge_response] comes to: a score, nothing, or an
    exception its clauses do not name *)
Inductive parsed :=
  | Scored (score : double) (reasoning : json)
  | NoScore
  | Raised (e : exn).

Definition parse_verdict (text : string) : parsed :=
  match json_loads text with
  | None => NoScore
  | Some (JObj kvs) =>
      match float_of_json (default (JInt 0) (dict_get "score" kvs)) with
      | Ok score => if in_range score then Scored score (default (JStr "") (dict_get "reasoning" kvs))
                    else NoScore
      | Err e =>
          match default (JInt 0) (dict_get "score" kvs) with
          | JInt _ => Raised e                         (* OverflowError *)
          | _ => NoScore
          end
      end
  | Some _ => Raised exn_attribute
  end.

(** [```(?:json)?\s*(\{.*?\})\s*```] with [DOTALL] *)
Definition fence_re : re :=
  let ws := Rep true 0 None (Cls is_space_code) in
  Seq (lit "```") (Seq (Alt (lit "json") Eps) (Seq ws
    (Seq (Grp (Seq (lit "{") (Seq (Rep false 0 None any) (lit "}"))))
      (Seq ws (lit "```"))))).

(** ["score"\s*:\s*(\d)] *)
Definition score_re : re :=
  let ws := Rep true 0 None (Cls is_space_code) in
  Seq (lit (dq +:+ "score" +:+ dq)) (Seq ws (Seq (lit ":") (Seq ws (Grp (Cls is_digit_code))))).

Definition _parse_judge_response (text : string) : res (option double * json) :=
  let by_pattern :=
    match search_group score_re text with
    | Some d =>
        match py_float d with
        | Some score => if in_range score then Ok (Some score, JStr "") else Ok (None, JStr "")
        | None => Err (ValueError d)
        end
    | None => Ok (None, JStr "")
    end in
  match parse_verdict (py_strip text) with
  | Scored score reasoning => Ok (Some score, reasoning)
  | Raised e => Err e
  | NoScore =>
      match search_group fence_re text with
      | Some inner =>
          match parse_verdict inner with
          | Scored score reasoning => Ok (Some score, reasoning)
          | Raised e => Err e
          | NoScore => by_pattern
          end
      | None => by_pattern
      end
  end.

(** [data["choices"][0]["message"]["content"]] *)
Definition item (k : string) (j : json) : res json :=
  match j with
  | JObj kvs => match dict_get k kvs with Some v => Ok v | None => Err (exn_key k) end
  | _ => Err exn_type
  end.

Definition first_item (j : json) : res json :=
  match j with
  | JArr (x :: _) => Ok x
  | JArr [] => Err exn_index
  | JStr s => match codes s with c :: _ => Ok (JStr (of_codes [c])) | [] => Err exn_index end
  | JObj _ => Err (exn_key "0")
  | _ => Err exn_type
  end.

Definition completion_content (data : json) : res json :=
  match item "choices" data with
  | Ok choices =>
      match first_item choices with
      | Ok choice =>
          match item "message" choice with
          | Ok message => item "content" message
          | Err e => Err e
          end
      | Err e => Err e
      end
  | Err e => Err e
  end.

Section judge.
Context `{EvalEnv}.
Context (config : EvalConfig).

Definition judge_body (prompt : string) : json :=
  JObj [("model", JStr (ec_judge_model config));
        ("messages", JArr [JObj [("role", JStr "user"); ("content", JStr prompt)]]);
        ("temperature", JInt 0); ("max_tokens", JInt 300)].

Definition _call_judge (prompt : string) : E (option double * json) :=
  let url := py_rstrip "/"%char (ec_judge_base_url config) +:+ "/chat/completions" in
  data ← call (ECallJudge url (judge_body prompt)) (λ n, ev_judge n url (judge_body prompt));
  content ← ofres (completion_content data);
  match content with
  | JStr text => ofres (_parse_judge_response text)
  | _ => fails exn_attribute
  end.

(** One metric of [compute_llm_judge] *)
Definition judge_metric (question answer context metric_name : string) : E (option double) :=
  let key := _cache_key question answer context metric_name in
  cached ← get_judge_cache key;
  match cached with
  | Some row => mret (Some (ch_score row))
  | None =>
      catch
        (r ← _call_judge (judge_prompt metric_name question answer context);
         match r.1 with
         | Some score => set_judge_cache key metric_name score r.2 (ec_judge_model config)
         | None => mret ()
         end ;;
         mret r.1)
        (λ _, mret None)
  end.

Definition compute_llm_judge (question answer : string) (chunks : list pyv) : E metrics :=
  if negb (ec_judge_enabled config) || negb (truthy (ec_judge_api_key config))
  then mret ((λ m, (m, None)) <$> JUDGE_METRICS)
  else
    context ← ofres (_build_context chunks 4000);
    folding (λ acc m, s ← judge_metric question answer context m; mret (acc ++ [(m, s)]))
      [] JUDGE_METRICS.
End judge.

(** ** Summary of a run (composite.py) *)

(** The result of one case *)
Record CaseResult := {
  cr_case_id : string; cr_question : string; cr_generated_answer : string;
  cr_retrieved_chunks : list pyv; cr_execution_time_sec : double; cr_error : option string;
  cr_metrics : metrics }.

(** [metric_values.setdefault(k, []).append(v)] *)
Definition add_value (k : string) (v : double) (m : list (string * list double)) :=
  dict_set k (default [] (dict_get k m) ++ [v]) m.

(** What the loop of [compute_summary] collects *)
Record SummaryAcc := {
  sa_metric_values : list (string * list double); sa_composite_scores : list double;
  sa_execution_times : list double; sa_error_count : nat }.

Definition summary_step (acc : SummaryAcc) (r : CaseResult) : SummaryAcc :=
  if opt_truthy (cr_error r) then
    {| sa_metric_values := sa_metric_values acc; sa_composite_scores := sa_composite_scores acc;
       sa_execution_times := sa_execution_times acc; sa_error_count := S (sa_error_count acc) |}
  else
    {| sa_metric_values :=
         foldl (λ m kv, match kv.2 with Some v => add_value kv.1 v m | None => m end)
           (sa_metric_values acc) (cr_metrics r);
       sa_composite_scores := sa_composite_scores acc ++
         match dict_get "composite_score" (cr_metrics r) with Some (Some v) => [v] | _ => [] end;
       sa_execution_times := sa_execution_times acc ++ [cr_execution_time_sec r];
       sa_error_count := sa_error_count acc |}.

Definition summary_acc (results : list CaseResult) : SummaryAcc :=
  foldl summary_step
    {| sa_metric_values := []; sa_composite_scores := []; sa_execution_times := [];
       sa_error_count := 0 |} results.

(** [int(n * 0.9)] *)
Definition p90_index (n : nat) : res nat :=
  match float_int (fmul (double_of_Z (Z.of_nat n)) (dec 9 (-1))) with
  | Some i => Ok (Z.to_nat i)
  | None => Err (OtherError "cannot convert float to integer")
  end.

(** [l[i]] *)
Definition index_res {A} (l : list A) (i : nat) : res A :=
  match l !! i with Some x => Ok x | None => Err exn_index end.

(** The entries on the composite scores *)
Definition composite_stats (scores : list double) : res summary :=
  match scores with
  | [] => Ok []
  | _ =>
      let sorted := isort float_leb scores in
      let n := length sorted in
      match index_res sorted (n / 2) with
      | Err e => Err e
      | Ok p50 =>
          let p90 := if (1 <? n)%nat
                     then match p90_index n with Ok i => index_res sorted i | Err e => Err e end
                     else index_res sorted 0 in
          match p90 with
          | Err e => Err e
          | Ok p90 => Ok [("avg_composite_score", NFloat (mean scores));
                          ("p50_composite_score", NFloat p50); ("p90_composite_score", NFloat p90)]
          end
      end
  end.

Definition set_all (l : summary) (s : summary) : summary :=
  foldl (λ s kv, dict_set kv.1 kv.2 s) s l.

Definition passed_count (pass_threshold : double) (scores : list double) : nat :=
  length (filter (λ cs, fle pass_threshold cs = true) scores).

Definition compute_summary (results : list CaseResult) (pass_threshold : double) : res summary :=
  match results with
  | [] => Ok []
  | _ =>
      let acc := summary_acc results in
      let averages := (λ kv, ("avg_" +:+ kv.1, NFloat (mean kv.2))) <$> sa_metric_values acc in
      match composite_stats (sa_composite_scores acc) with
      | Err e => Err e
      | Ok stats =>
          let total := length results in
          let passed := passed_count pass_threshold (sa_composite_scores acc) in
          let counts := [("pass_rate", NFloat (py_ratio passed total));
                         ("total_cases", NInt (Z.of_nat total)); ("passed", NInt (Z.of_nat passed));
                         ("errors", NInt (Z.of_nat (sa_error_count acc)))] in
          let times := match sa_execution_times acc with
                       | [] => []
                       | l => [("avg_execution_time_sec", NFloat (mean l))]
                       end in
          Ok (set_all (averages ++ stats ++ counts ++ times) [])
      end
  end.
