(* ===== verification/EvalRunner.v ===== *)
(** The runner of the evaluation harness (agent_eval_harness/runner.py): suites
    from YAML, and one evaluation run over the cases of a suite. *)
From S2P Require Import Prelude Float PyText Json Dsl Schema Effects Comp Regex PyNum.
From S2P Require Import EvalStore EvalMetrics.

Local Open Scope Z_scope.

Section runner.
Context `{EvalEnv}.

(** ** Suites from YAML *)

Definition opt_json (k : string) (kvs : list (string * json)) : json :=
  default JNull (dict_get k kvs).

(** The validation loop of [load_suite_from_yaml] *)
Fixpoint validate_cases (path : string) (i : Z) (cases : list json) : res unit :=
  match cases with
  | [] => Ok ()
  | JObj case :: l =>
      if truthy_json (opt_json "question" case) then validate_cases path (i + 1) l
      else Err (ValueError ("Case " +:+ str_of_Z i +:+ " must have a 'question' field: " +:+ path))
  | _ :: _ => Err exn_attribute
  end.

Definition load_suite_from_yaml (path : string) : E (list (string * json)) :=
  d ← observe (λ n, ev_yaml n path);
  data ← ofres d;
  match data with
  | JObj kvs =>
      match dict_get "cases" kvs with
      | Some (JArr cases) => ofres (validate_cases path 0 cases) ;; mret kvs
      | _ => fails (ValueError ("Suite must have a 'cases' list: " +:+ path))
      end
  | _ => fails (ValueError ("Invalid YAML structure in " +:+ path))
  end.

Definition case_args_of_yaml (default_tags : json) (case : list (string * json)) : CaseArgs := {|
  cg_question := opt_json "question" case; cg_reference_answer := opt_json "reference_answer" case;
  cg_expected_output_contains := opt_json "expected_output_contains" case;
  cg_expected_output_regex := opt_json "expected_output_regex" case;
  cg_expected_tool_calls := opt_json "expected_tool_calls" case;
  cg_reference_chunk_ids := opt_json "reference_chunk_ids" case;
  cg_tags := json_or (opt_json "tags" case) default_tags;
  cg_metadata := opt_json "metadata" case; cg_case_id := opt_json "id" case |}.

Definition import_suite_from_yaml (path : string) : E string :=
  data ← load_suite_from_yaml path;
  name ← ofres (item "name" (JObj data));
  suite_id ← create_suite name (default (JStr "") (dict_get "description" data))
               (default (JStr "1.0") (dict_get "version" data)) (opt_json "tags" data) (JStr path);
  default_tags ← ofres (match json_or (opt_json "defaults" data) (JObj []) with
                        | JObj kvs => Ok (default (JArr []) (dict_get "tags" kvs))
                        | _ => Err exn_attribute
                        end);
  match opt_json "cases" data with
  | JArr cases =>
      each (λ case, match case with
                    | JObj kvs => add_case suite_id (case_args_of_yaml default_tags kvs) ;; mret ()
                    | _ => fails exn_type
                    end) cases
  | _ => fails (exn_key "cases")
  end ;;
  mret suite_id.

(** ** One case *)

(** The target of a run *)
Record Target := {
  tg_agent : option Agent; tg_agent_id : option string; tg_dialog_id : option string }.

(** [agent = agents[0]] of [rag.list_agents(...)] *)
Definition find_agent (title id : option string) : E (option Agent) :=
  agents ← call (ECallAgents title id 1) (λ n, ev_agents n title id 1);
  mret (head agents).

(** What the [try] of [_evaluate_case] leaves in [result] *)
Inductive Asked :=
  | Answered (answer : string) (chunks : list pyv)
  | Stopped (error : string)         (* the early returns *)
  | Failed (error : string).         (* the exception handler *)

(** [msg = next(session.ask(question, stream=False))] and its fields *)
Definition ask_agent_case (run_id case_id question : string) (agent : Agent) : E Asked :=
  let name := "eval-" +:+ py_take 8 run_id +:+ "-" +:+ py_take 8 case_id in
  session ← call (ECallCreateSession (ag_id agent) name) (λ n, ev_create_session n (ag_id agent) name);
  answers ← call (ECallAsk session question) (λ n, ev_ask n session question);
  match answers with
  | [] => fails (OtherError "")                        (* StopIteration *)
  | msg :: _ =>
      mret (Answered (opt_or (an_content msg) "")
              (match an_reference msg with Some (PList l) => l | _ => [] end))
  end.

Definition target_case (target : Target) (run_id case_id question : string) : E Asked :=
  catch
    (agent ← match tg_agent target with
             | Some a => mret (inl (Some a))
             | None =>
                 if opt_truthy (tg_agent_id target) then
                   a ← find_agent None (tg_agent_id target);
                   match a with
                   | Some a => mret (inl (Some a))
                   | None => mret (inr ("Agent not found: " +:+ default "" (tg_agent_id target)))
                   end
                 else mret (inl None)
             end;
     match agent with
     | inr msg => mret (Stopped msg)
     | inl (Some a) => ask_agent_case run_id case_id question a
     | inl None =>
         if opt_truthy (tg_dialog_id target)
         then mret (Stopped "Dialog evaluation not yet implemented")
         else mret (Stopped "No agent or dialog target specified")
     end)
    (λ e, mret (Failed (exn_str e))).

Definition float_metrics (s : scores) : metrics := (λ kv, (kv.1, Some kv.2)) <$> s.

(** [d.update(new)] *)
Definition update_metrics (new : metrics) (m : metrics) : metrics :=
  foldl (λ m kv, dict_set kv.1 kv.2 m) m new.

Definition _evaluate_case (config : EvalConfig) (target : Target) (run_id : string) (case : CaseRow)
    (skip_judge : bool) : E CaseResult :=
  start_time ← observe ev_timer;
  asked ← target_case target run_id (ca_case_id case) (ca_question case);
  end_time ← observe ev_timer;
  let result answer chunks error m := {|
    cr_case_id := ca_case_id case; cr_question := ca_question case; cr_generated_answer := answer;
    cr_retrieved_chunks := chunks; cr_execution_time_sec := fsub end_time start_time;
    cr_error := error; cr_metrics := m |} in
  let measured answer chunks error :=
    det ← ofres (compute_deterministic answer case);
    ret ← ofres (if truthy_json (ca_reference_chunk_ids case)
                 then compute_retrieval chunks (ca_reference_chunk_ids case) else Ok []);
    let m := update_metrics (float_metrics ret) (update_metrics (float_metrics det) []) in
    m ← (if negb skip_judge && negb (opt_truthy error)
         then catch (j ← compute_llm_judge config (ca_question case) answer chunks;
                     mret (update_metrics j m)) (λ _, mret m)
         else mret m);
    mret (result answer chunks error
            (match compute_composite m with
             | Some comp => dict_set "composite_score" (Some comp) m
             | None => m
             end)) in
  match asked with
  | Stopped error => mret (result "" [] (Some error) [])
  | Failed error => measured "" [] (Some error)
  | Answered answer chunks => measured answer chunks None
  end.

(** ** A run *)

Record RunArgs := {
  ra_suite_id : string; ra_agent_title : option string; ra_agent_id : option string;
  ra_dialog_id : option string; ra_name : string; ra_tag_filter : option (list string);
  ra_timeout_sec : option Z; ra_skip_judge : bool }.

Record RunResult := {
  rr_run_id : string; rr_suite_id : string; rr_status : string;
  rr_results : list CaseResult; rr_metrics_summary : summary }.

(** [tag_set & set(c.get("tags") or [])] *)
Definition has_tag (tags : list string) (c : CaseRow) : res bool :=
  match json_iter (json_or (ca_tags c) (JArr [])) with
  | Ok l => match res_mapM (hash_of ∘ of_json) l with
            | Ok hs => Ok (bool_decide (Exists (λ t, HStr t ∈ hs) tags))
            | Err e => Err e
            end
  | Err e => Err e
  end.

Fixpoint filter_res {A} (f : A → res bool) (l : list A) : res (list A) :=
  match l with
  | [] => Ok []
  | x :: l' =>
      match f x, filter_res f l' with
      | Ok b, Ok l'' => Ok (if b then x :: l'' else l'')
      | Err e, _ | Ok _, Err e => Err e
      end
  end.

Definition select_cases (tag_filter : option (list string)) (cases : list CaseRow)
    : res (list CaseRow) :=
  match tag_filter with
  | Some ((_ :: _) as tags) => filter_res (has_tag tags) cases
  | _ => Ok cases
  end.

Definition opt_str_json (o : option string) : json :=
  match o with Some s => JStr s | None => JNull end.

(** An iteration of the loop over the cases *)
Definition run_case (config : EvalConfig) (target : Target) (run_id : string) (skip_judge : bool)
    (all_results : list CaseResult) (case : CaseRow) : E (list CaseResult * option exn) :=
  r ← catch (inl <$> _evaluate_case config target run_id case skip_judge) (λ e, mret (inr e));
  match r with
  | inr e => mret (all_results, Some e)
  | inl result =>
      catch
        (add_result run_id (ca_case_id case) (cr_generated_answer result)
           (cr_retrieved_chunks result) (cr_execution_time_sec result) (cr_error result)
           (cr_metrics result) ;;
         mret (all_results ++ [result], None))
        (λ e, mret (all_results ++ [result], Some e))
  end.

(** The loop over the cases, and the end of the run *)
Definition run_cases (config : EvalConfig) (a : RunArgs) (target : Target) (run_id : string)
    (cases : list CaseRow) : E RunResult :=
  r ← folding_until (run_case config target run_id (ra_skip_judge a)) [] cases;
  let all_results := r.1 in
  let error_msg := exn_str <$> r.2 in
  summary ← ofres (compute_summary all_results (ec_default_pass_threshold config));
  let status := if opt_truthy error_msg then "FAILED" else "COMPLETED" in
  t ← now;
  update_run run_id {|
    uu_status := Some status; uu_metrics_summary := Some summary;
    uu_completed_at := Some (Some t); uu_error_message := Some error_msg;
    uu_dsl_snapshot := None |} ;;
  mret {| rr_run_id := run_id; rr_suite_id := ra_suite_id a; rr_status := status;
          rr_results := all_results; rr_metrics_summary := summary |}.

Definition run (config : EvalConfig) (a : RunArgs) : E RunResult :=
  let timeout := match ra_timeout_sec a with
                 | Some t => if t =? 0 then ec_default_timeout_sec config else t
                 | None => ec_default_timeout_sec config
                 end in
  suite ← get_suite (ra_suite_id a);
  match suite with
  | None => fails (ValueError ("Suite not found: " +:+ ra_suite_id a))
  | Some _ =>
      cases ← get_cases (ra_suite_id a);
      if negb (opt_truthy (ra_agent_id a)) && negb (opt_truthy (ra_dialog_id a)) &&
         bool_decide (cases = [])
      then fails (ValueError ("No cases in suite: " +:+ ra_suite_id a))
      else
        target_agent ← (if opt_truthy (ra_agent_title a) && negb (opt_truthy (ra_agent_id a)) then
                          agent ← find_agent (ra_agent_title a) None;
                          match agent with
                          | None => fails (ValueError ("Agent not found by title: " +:+
                                                       default "" (ra_agent_title a)))
                          | Some agent => mret (Some agent)
                          end
                        else mret None);
        let target_agent_id := match target_agent with
                               | Some ag => Some (ag_id ag) | None => ra_agent_id a end in
        let target_agent_title := match target_agent with
                                  | Some ag => Some (ag_title ag) | None => ra_agent_title a end in
        cases ← ofres (select_cases (ra_tag_filter a) cases);
        match cases with
        | [] => fails (ValueError "No cases to evaluate after filtering")
        | _ =>
            dsl_snapshot ← ofres (match target_agent with
              | Some ag =>
                  match to_json (default PNone (ag_dsl ag)) with
                  | Some j => Ok (Some j)
                  | None => Err (OtherError "Object of type Base is not JSON serializable")
                  end
              | None => Ok None
              end);
            run_id ← create_run (ra_suite_id a) (ra_name a) target_agent_id target_agent_title
              (ra_dialog_id a) dsl_snapshot
              (JObj [("timeout_sec", JInt timeout); ("skip_judge", JBool (ra_skip_judge a));
                     ("tag_filter", match ra_tag_filter a with
                                    | Some l => json_strs l | None => JNull end)]);
            let target := {| tg_agent := target_agent; tg_agent_id := target_agent_id;
                             tg_dialog_id := ra_dialog_id a |} in
            run_cases config a target run_id cases
        end
  end.
End runner.
