(* ===== verification/EvalReport.v ===== *)
(** The reports of the evaluation harness (agent_eval_harness/reporter.py): one
    run, the comparison of several, and the table of the results of a run. *)
From S2P Require Import Prelude Float PyText Json Dsl Schema Effects Comp PyNum.
From S2P Require Import EvalStore EvalMetrics EvalRunner.

Local Open Scope Z_scope.

Section report.
Context `{EvalEnv}.

(** ** One run *)

Record SingleReport := {
  sr_generated_at : string; sr_suite_name : string; sr_run : RunRow; sr_results : list ResultRow }.

Definition generate_single_run_report (run_id : string) : E SingleReport :=
  run ← get_run run_id;
  match run with
  | None => fails (ValueError ("Run not found: " +:+ run_id))
  | Some run =>
      results ← get_results run_id;
      suite ← get_suite (ru_suite_id run);
      t ← now;
      mret {| sr_generated_at := t;
              sr_suite_name := match suite with Some s => su_name s | None => "" end;
              sr_run := run; sr_results := results |}
  end.

(** ** Comparison *)

Record RunData := { rd_run : RunRow; rd_results : list ResultRow }.

Definition metric_names (runs : list RunData) : list string :=
  sorted_set (runs ≫= λ rd, rd_results rd ≫= λ r, fst <$> re_metrics r).

(** The values of a metric in the results of a run *)
Definition metric_vals (metric : string) (rd : RunData) : list double :=
  omap (λ r, mjoin (dict_get metric (re_metrics r))) (rd_results rd).

(** [sum(vals) / len(vals) if vals else None] *)
Definition average (vals : list double) : option double :=
  s ← py_sum vals; Some (fdiv s (double_of_Z (Z.of_nat (length vals)))).

Record MetricEntry := {
  me_metric : string; me_values : list double; me_delta : double; me_improved : bool }.

Definition metric_entry (runs : list RunData) (metric : string) : option MetricEntry :=
  values ← mapM (λ rd, average (metric_vals metric rd)) runs;
  first ← head values;
  final ← last values;
  let delta := round_to 4 (fsub final first) in
  Some {| me_metric := metric; me_values := round_to 4 <$> values; me_delta := delta;
          me_improved := flt f0 delta |}.

(** The result of a case in a run: the last one recorded *)
Definition case_result (cid : string) (rd : RunData) : option ResultRow :=
  last (filter (λ r, re_case_id r = cid) (rd_results rd)).

Record CaseEntry := {
  ce_case_id : string; ce_results : list (option (option double * double));
  ce_regression : option bool }.

Definition composite_of (r : ResultRow) : option double :=
  mjoin (dict_get "composite_score" (re_metrics r)).

Definition case_entry (runs : list RunData) (cid : string) : CaseEntry :=
  let case_results := case_result cid <$> runs in
  let scores := omap (λ cr, r ← cr; composite_of r) case_results in
  {| ce_case_id := cid;
     ce_results := fmap (λ r, (composite_of r, re_execution_time_sec r)) <$> case_results;
     ce_regression :=
       if (2 <=? length scores)%nat
       then match head scores, last scores with
            | Some first, Some final => Some (flt final (fmul first (dec 9 (-1))))
            | _, _ => None
            end
       else None |}.

Definition case_ids (runs : list RunData) : list string :=
  sorted_set (runs ≫= λ rd, re_case_id <$> rd_results rd).

Definition regressed (e : CaseEntry) : bool := default false (ce_regression e).

Record ComparisonReport := {
  cm_generated_at : string; cm_runs : list RunRow; cm_metric_comparison : list MetricEntry;
  cm_case_comparison : list CaseEntry; cm_regressions : list string;
  cm_improvements : list string }.

Definition load_run_data (rid : string) : E RunData :=
  run ← get_run rid;
  match run with
  | None => fails (ValueError ("Run not found: " +:+ rid))
  | Some run => results ← get_results rid; mret {| rd_run := run; rd_results := results |}
  end.

Definition comparison (runs : list RunData) (t : string) : ComparisonReport :=
  let entries := case_entry runs <$> case_ids runs in
  {| cm_generated_at := t; cm_runs := rd_run <$> runs;
     cm_metric_comparison := omap (metric_entry runs) (metric_names runs);
     cm_case_comparison := entries;
     cm_regressions := ce_case_id <$> filter (λ e, regressed e = true) entries;
     cm_improvements :=
       ce_case_id <$> filter (λ e, regressed e = false ∧ (2 ≤ length (ce_results e))%nat) entries |}.

Definition generate_comparison_report (run_ids : list string) : E ComparisonReport :=
  if (length run_ids <? 2)%nat then fails (ValueError "Need at least 2 runs to compare")
  else
    runs ← folding (λ acc rid, rd ← load_run_data rid; mret (acc ++ [rd])) [] run_ids;
    t ← now;
    mret (comparison runs t).

(** ** The table of the results *)

Inductive cell := CText (s : option string) | CFloat (x : double).

(** The rows [csv.writer] gets: a result has no column [question], so the cell is
    empty. *)
Definition export_rows (results : list ResultRow) : list (list cell) :=
  let metric_cols := sorted_set (results ≫= λ r, fst <$> re_metrics r) in
  (CText ∘ Some <$> ["case_id"; "question"; "generated_answer"; "execution_time_sec"; "error"]
     ++ metric_cols)
  :: ((λ r, [CText (Some (re_case_id r)); CText (Some ""); CText (Some (re_generated_answer r));
             CFloat (re_execution_time_sec r); CText (re_error r)]
            ++ ((λ m, match dict_get m (re_metrics r) with
                      | Some (Some x) => CFloat x
                      | Some None => CText None
                      | None => CText (Some "")
                      end) <$> metric_cols)) <$> results).

Definition export_results_csv (csv_writer : list (list cell) → string) (run_id : string) : E string :=
  results ← get_results run_id;
  match results with
  | [] => mret ""
  | _ => mret (csv_writer (export_rows results))
  end.
End report.
