(* ===== verification/EvalServer.v ===== *)
(** The HTTP API of the evaluation harness (agent_eval_harness/server.py), and the
    harness as a transition system: requests are served one by one, and a started
    run is a job that a thread carries out later. Each connection to the store is
    one transaction, and the invariants proved hold after every statement, so the
    interleaving of the threads does not matter for them. *)
From S2P Require Import Prelude Float PyText Json Dsl Schema Effects Comp PyNum.
From S2P Require Import EvalStore EvalMetrics EvalRunner EvalReport.

Local Open Scope Z_scope.

(** ** Replies *)

Inductive EvalData :=
  | DHealthy
  | DSuites (l : list SuiteRow)
  | DSuite (s : SuiteRow) (cases : list CaseRow)
  | DRuns (l : list RunRow)
  | DRun (r : RunRow) (results : list ResultRow)
  | DResults (l : list ResultRow)
  | DReport (r : SingleReport)
  | DComparison (r : ComparisonReport)
  | DCsv (text : string)
  | DId (key id : string)
  | DAgents (l : list Agent)
  | DMessage (message : string).

Inductive EvalReply := ROk (d : EvalData) | RErr (message : string) (status : Z).

Record EvalRequest := {
  eq_method : string;               (* GET, POST, DELETE *)
  eq_parts : list string;           (* the non-empty parts of the path *)
  eq_params : list (string * string);
  eq_body : option string }.        (* None: Content-Length is 0 *)

Section server.
Context `{EvalEnv}.
Context (config : EvalConfig) (csv_writer : list (list cell) → string).

(** The outcome of a handler: a reply and perhaps a started run *)
Abbreviation Handled := (EvalReply * option RunArgs)%type.

Definition reply (r : EvalReply) : E Handled := mret (r, None).
Definition _ok (d : EvalData) : E Handled := reply (ROk d).
Definition _err (message : string) (status : Z) : E Handled := reply (RErr message status).

(** [_read_json]: [None] after the reply on invalid JSON *)
Definition _read_json (rq : EvalRequest) : option json :=
  match eq_body rq with
  | None => Some (JObj [])
  | Some text => json_loads text
  end.

(** A body that is a dict; [body.get] raises on anything else. *)
Definition with_body (rq : EvalRequest) (k : list (string * json) → E Handled) : E Handled :=
  match _read_json rq with
  | None => _err "Invalid JSON body" 400
  | Some (JObj body) => k body
  | Some _ => fails exn_attribute
  end.

(** [except Exception as e: self._err(str(e))] *)
Definition guarded (m : E Handled) : E Handled := catch m (λ e, _err (exn_str e) 400).

(** ** Handlers *)

Definition _list_suites : E Handled := l ← list_suites; _ok (DSuites l).

Definition _get_suite (suite_id : string) : E Handled :=
  suite ← get_suite suite_id;
  match suite with
  | None => _err "Suite not found" 404
  | Some s => cases ← get_cases suite_id; _ok (DSuite s cases)
  end.

Definition _create_suite (rq : EvalRequest) : E Handled :=
  with_body rq (λ body,
    let yaml_path := opt_json "yaml_path" body in
    if truthy_json yaml_path then
      guarded (path ← ofres (match yaml_path with JStr p => Ok p | _ => Err exn_type end);
               suite_id ← import_suite_from_yaml path;
               _ok (DId "suite_id" suite_id))
    else
      let name := opt_json "name" body in
      if negb (truthy_json name) then _err "'name' or 'yaml_path' is required" 400
      else
        guarded (suite_id ← create_suite name (default (JStr "") (dict_get "description" body))
                              (default (JStr "1.0") (dict_get "version" body))
                              (opt_json "tags" body) (JStr "");
                 _ok (DId "suite_id" suite_id))).

Definition _delete_suite (suite_id : string) : E Handled :=
  b ← delete_suite suite_id;
  if b : bool then _ok (DId "suite_id" suite_id) else _err "Suite not found" 404.

Definition case_args_of_body (body : list (string * json)) : CaseArgs := {|
  cg_question := opt_json "question" body; cg_reference_answer := opt_json "reference_answer" body;
  cg_expected_output_contains := opt_json "expected_output_contains" body;
  cg_expected_output_regex := opt_json "expected_output_regex" body;
  cg_expected_tool_calls := opt_json "expected_tool_calls" body;
  cg_reference_chunk_ids := opt_json "reference_chunk_ids" body;
  cg_tags := opt_json "tags" body; cg_metadata := opt_json "metadata" body; cg_case_id := JNull |}.

Definition _add_case (rq : EvalRequest) (suite_id : string) : E Handled :=
  with_body rq (λ body,
    if negb (truthy_json (opt_json "question" body)) then _err "'question' is required" 400
    else guarded (case_id ← add_case suite_id (case_args_of_body body); _ok (DId "case_id" case_id))).

Definition _list_runs (rq : EvalRequest) : E Handled :=
  l ← list_runs (dict_get "suite_id" (eq_params rq)); _ok (DRuns l).

Definition _get_run (run_id : string) : E Handled :=
  run ← get_run run_id;
  match run with
  | None => _err "Run not found" 404
  | Some r => results ← get_results run_id; _ok (DRun r results)
  end.

Definition _get_run_results (run_id : string) : E Handled :=
  l ← get_results run_id; _ok (DResults l).

Definition _export_run (rq : EvalRequest) (run_id : string) : E Handled :=
  guarded
    (if decide (default "json" (dict_get "format" (eq_params rq)) = "csv")
     then content ← export_results_csv csv_writer run_id; _ok (DCsv content)
     else report ← generate_single_run_report run_id; _ok (DReport report)).

(** The arguments of the run a request starts; a field of a type the runner does
    not expect counts as absent. *)
Definition str_field (k : string) (body : list (string * json)) : option string :=
  match dict_get k body with Some (JStr s) => Some s | _ => None end.

Definition run_args_of_body (suite_id : string) (body : list (string * json)) : RunArgs := {|
  ra_suite_id := suite_id; ra_agent_title := str_field "agent_title" body;
  ra_agent_id := str_field "agent_id" body; ra_dialog_id := str_field "dialog_id" body;
  ra_name := default "" (str_field "name" body);
  ra_tag_filter := dict_get "tag_filter" body ≫= json_str_items;
  ra_timeout_sec := match dict_get "timeout_sec" body with Some (JInt z) => Some z | _ => None end;
  ra_skip_judge := truthy_json (default (JBool false) (dict_get "skip_judge" body)) |}.

Definition started : string := "Evaluation started. Poll GET /v1/eval/runs to check status.".

Definition _start_run (rq : EvalRequest) : E Handled :=
  with_body rq (λ body,
    match opt_json "suite_id" body with
    | JStr s => if truthy s then mret (ROk (DMessage started), Some (run_args_of_body s body))
                else _err "'suite_id' is required" 400
    | j => if truthy_json j then reply (ROk (DMessage started))
           else _err "'suite_id' is required" 400
    end).

Definition _delete_run (run_id : string) : E Handled :=
  b ← delete_run run_id;
  if b : bool then _ok (DId "run_id" run_id) else _err "Run not found" 404.

Definition _compare_runs (rq : EvalRequest) : E Handled :=
  with_body rq (λ body,
    let run_ids := opt_json "run_ids" body in
    if negb (truthy_json run_ids) then _err "'run_ids' needs at least 2 IDs" 400
    else
      l ← ofres (json_iter run_ids);
      if (length l <? 2)%nat then _err "'run_ids' needs at least 2 IDs" 400
      else guarded (ids ← ofres (match mapM (λ j, match j with JStr s => Some s | _ => None end) l with
                                 | Some ids => Ok ids
                                 | None => Err exn_type
                                 end);
                    report ← generate_comparison_report ids; _ok (DComparison report))).

Definition _list_agents : E Handled :=
  catch
    (agents ← call (ECallAgents None None 200) (λ n, ev_agents n None None 200);
     _ok (DAgents agents))
    (λ e, _err (exn_str e) 500).

(** ** Routing *)

(** [parts[:3] == base], and the parts after them *)
Definition below (base parts : list string) : option (list string) :=
  if decide (take 3 parts = base) then Some (drop 3 parts) else None.

Definition at_suites : list string := ["v1"; "eval"; "suites"].
Definition at_runs : list string := ["v1"; "eval"; "runs"].

Definition do_GET (rq : EvalRequest) : E Handled :=
  let parts := eq_parts rq in
  if decide (parts = ["healthz"]) then _ok DHealthy
  else if decide (parts = at_suites) then _list_suites
  else
    match below at_suites parts with
    | Some [suite_id] => _get_suite suite_id
    | _ =>
        if decide (parts = at_runs) then _list_runs rq
        else
          match below at_runs parts with
          | Some [run_id] => _get_run run_id
          | Some [run_id; last] =>
              if decide (last = "results") then _get_run_results run_id
              else if decide (last = "export") then _export_run rq run_id
              else _err "Not found" 404
          | _ =>
              if decide (parts = ["v1"; "eval"; "agents"]) then _list_agents
              else _err "Not found" 404
          end
    end.

Definition do_POST (rq : EvalRequest) : E Handled :=
  let parts := eq_parts rq in
  if decide (parts = at_suites) then _create_suite rq
  else
    match below at_suites parts with
    | Some [suite_id; last] =>
        if decide (last = "cases") then _add_case rq suite_id else _err "Not found" 404
    | _ =>
        if decide (parts = at_runs) then _start_run rq
        else if decide (parts = ["v1"; "eval"; "compare"]) then _compare_runs rq
        else _err "Not found" 404
    end.

Definition do_DELETE (rq : EvalRequest) : E Handled :=
  match below at_suites (eq_parts rq) with
  | Some [suite_id] => _delete_suite suite_id
  | _ =>
      match below at_runs (eq_parts rq) with
      | Some [run_id] => _delete_run run_id
      | _ => _err "Not found" 404
      end
  end.

Definition handle (rq : EvalRequest) : E Handled :=
  if decide (eq_method rq = "GET") then do_GET rq
  else if decide (eq_method rq = "POST") then do_POST rq
  else if decide (eq_method rq = "DELETE") then do_DELETE rq
  else _err "Unsupported method" 501.

(** ** The harness as a transition system *)

Record Harness := { h_mach : Mach EvalDb ECall; h_jobs : list RunArgs }.

(** A request is served, and may start a job; or a job is carried out, which
    swallows what it raises. *)
Inductive harness_step : relation Harness :=
  | step_request rq w jobs :
      let r := handle rq w in
      harness_step {| h_mach := w; h_jobs := jobs |}
        {| h_mach := r.2;
           h_jobs := match r.1 with Ok (_, Some a) => jobs ++ [a] | _ => jobs end |}
  | step_job a w jobs1 jobs2 :
      harness_step {| h_mach := w; h_jobs := jobs1 ++ a :: jobs2 |}
        {| h_mach := (run config a w).2; h_jobs := jobs1 ++ jobs2 |}.

Definition harness_start : Harness :=
  {| h_mach := {| m_state := eval_empty; m_tick := 0; m_calls := [] |}; h_jobs := [] |}.

Definition harness_reaches (h : Harness) : Prop := rtc harness_step harness_start h.
End server.
