(* ===== verification/EvalMetricProps.v ===== *)
(** Theorems on the metrics of the evaluation harness: every score lies in its
    scale, the retrieval scores are the ratios of sets they are named after, and
    the summary of a run is computed without an error. *)
From S2P Require Import Prelude Float PyText Json Dsl Digest Schema Effects Comp Regex PyNum.
From S2P Require Import EvalStore EvalMetrics.
From Stdlib Require Import QArith Lqa.

Local Open Scope Z_scope.

(** ** Scales *)

Definition unit_metrics : list string :=
  ["has_answer"; "contains_score"; "regex_score"; "precision"; "recall"; "f1_score"; "hit_rate";
   "mrr"; "composite_score"].

Definition f5 : double := S754_finite false 5629499534213120 (-50).

Lemma f5_eq : double_of_Z 5 = f5.
Proof. reflexivity. Qed.

(** Proportions lie between 0 and 1, the scores of the judge between 1 and 5. *)
Definition scale_ok (k : string) (o : option double) : Prop :=
  match o with
  | None => True
  | Some v => (k ∈ unit_metrics → fin_between f0 f1 v) ∧ (k ∈ JUDGE_METRICS → fin_between f1 f5 v)
  end.

(** How [scale_ok] is shown for a metric known by its name *)
Lemma scale_unit k v :
  bool_decide (k ∈ JUDGE_METRICS) = false → fin_between f0 f1 v → scale_ok k (Some v).
Proof. intros Hk%bool_decide_eq_false Hv. by split. Qed.

Lemma scale_judge k v :
  bool_decide (k ∈ unit_metrics) = false → fin_between f1 f5 v → scale_ok k (Some v).
Proof. intros Hk%bool_decide_eq_false Hv. by split. Qed.

Lemma scale_other k v :
  bool_decide (k ∈ unit_metrics) = false → bool_decide (k ∈ JUDGE_METRICS) = false →
  scale_ok k (Some v).
Proof. intros H1%bool_decide_eq_false H2%bool_decide_eq_false. by split. Qed.

Definition in_scale (m : metrics) : Prop := Forall (λ kv, scale_ok kv.1 kv.2) m.

Lemma in_scale_get m k v : in_scale m → dict_get k m = Some (Some v) → scale_ok k (Some v).
Proof. intros Hm Hk%elem_dict_get. by apply (proj1 (Forall_forall _ _) Hm) in Hk. Qed.

Lemma in_scale_set m k o : in_scale m → scale_ok k o → in_scale (dict_set k o m).
Proof.
  intros Hm Ho. unfold in_scale in *. induction Hm as [|[k' o'] m Hk Hm IH]; simpl.
  - by constructor.
  - case_decide as Hkk; [|by constructor]. simpl in *. subst k'. by constructor.
Qed.

Lemma fin_between_0 : fin_between f0 f1 f0.
Proof. done. Qed.
Lemma fin_between_1 : fin_between f0 f1 f1.
Proof. done. Qed.

Lemma py_ratio_unit n d : (n ≤ d)%nat → (0 < d)%nat → fin_between f0 f1 (py_ratio n d).
Proof. intros. apply Z_ratio_unit; lia. Qed.

(** ** Deterministic metrics *)

Lemma count_res_le {A} (f : A → res bool) l n : count_res f l = Ok n → (n ≤ length l)%nat.
Proof.
  revert n. induction l as [|x l IH]; intros n; simpl; [intros [= <-]; done|].
  destruct (f x) as [b|]; [|done]. destruct (count_res f l) as [m|]; [|done].
  intros [= <-]. specialize (IH m eq_refl). destruct b; lia.
Qed.

Lemma json_iter_nil j : truthy_json j = true → json_iter j ≠ Ok [].
Proof.
  destruct j as [|b|z|lit|s|l|kvs]; try done; simpl; intros Ht [= Hl].
  - apply fmap_nil_inv in Hl. unfold codes in Hl. destruct s as [|c s]; [done|].
    unfold to_bytes in Hl. cbn [String.list_ascii_of_string decode] in Hl. repeat case_match; done.
  - by destruct l.
  - by destruct kvs.
Qed.

Lemma fraction_unit name f e s :
  fraction name f e = Ok s → Forall (λ kv, kv.1 = name ∧ fin_between f0 f1 kv.2) s.
Proof.
  unfold fraction. destruct (truthy_json e) eqn:Ht; [|by intros [= <-]].
  pose proof (json_iter_nil e Ht) as Hne. destruct (json_iter e) as [l|]; [|done].
  destruct (count_res f l) as [n|] eqn:Hn; [|done]. intros [= <-].
  constructor; [|done]. split; [done|]. apply py_ratio_unit; [by eapply count_res_le|].
  destruct l; [done|simpl; lia].
Qed.

Section env.
Context `{EvalEnv}.

Lemma deterministic_scale answer case s :
  compute_deterministic answer case = Ok s → in_scale ((λ kv, (kv.1, Some kv.2)) <$> s).
Proof.
  unfold compute_deterministic.
  destruct (fraction "contains_score" _ _) as [c|] eqn:Hc; [|done].
  destruct (fraction "regex_score" _ _) as [r|] eqn:Hr; [|done]. intros [= <-].
  apply fraction_unit in Hc, Hr. unfold in_scale. rewrite Forall_fmap.
  apply Forall_cons. split; [|apply Forall_cons; split; [|apply Forall_app; split]].
  - apply scale_unit; [reflexivity|]. by destruct (truthy answer && truthy (py_strip answer)).
  - apply scale_other; reflexivity.
  - eapply Forall_impl; [exact Hc|]. intros [k v]; simpl; intros [-> Hv]. by apply scale_unit.
  - eapply Forall_impl; [exact Hr|]. intros [k v]; simpl; intros [-> Hv]. by apply scale_unit.
Qed.
End env.

(** ** Retrieval *)

(** Twice a double of the unit interval is a double. *)
Lemma double_exists q :
  fin q = true → (0 <= fval q)%Q → (fval q <= 1)%Q → ∃ v, fin v = true ∧ (fval v == 2 * fval q)%Q.
Proof.
  destruct q as [s| | |[] m e]; try done; intros Hq H0 H1.
  - by exists f0.
  - exfalso. rewrite fval_finite in H0. pose proof (Zpos_pos m). pose proof (b2_pos e). nra.
  - apply bounded_spec in Hq as (Hm & He & Hc).
    assert (He1 : (e <= 970)%Z).
    { destruct (Z.le_gt_cases e 970) as [|Hgt]; [done|]. exfalso.
      assert (e = 971)%Z as -> by lia. rewrite fval_finite in H1.
      assert (2 <= b2 971)%Q by (by apply (b2_le 971 1)).
      assert (1 <= inject_Z (Z.pos m))%Q by (apply (inject_Z_le 1); lia). nra. }
    destruct (Z.le_gt_cases (2 ^ 52) (Z.pos m)).
    + exists (S754_finite false m (e + 1)). split; [apply bounded_intro; unfold emin53 in *; lia|].
      rewrite !fval_finite, b2_plus. change (b2 1) with 2%Q. ring.
    + exists (S754_finite false (2 * m) e). split; [apply bounded_intro; unfold emin53 in *; lia|].
      rewrite !fval_finite, Pos2Z.inj_mul, inject_Z_mult. change (inject_Z 2) with 2%Q. ring.
Qed.

Lemma between_0_1 v : fin_between f0 f1 v ↔ fin v = true ∧ (0 <= fval v)%Q ∧ (fval v <= 1)%Q.
Proof. rewrite fin_between_fval by done. by rewrite fval_f1. Qed.

Lemma fval_two : (fval two == 2)%Q.
Proof. reflexivity. Qed.

Lemma f1_of_unit p r : fin_between f0 f1 p → fin_between f0 f1 r → fin_between f0 f1 (f1_of p r).
Proof.
  rewrite !between_0_1. intros (Hp & Hp0 & Hp1) (Hr & Hr0 & Hr1).
  unfold f1_of. destruct (flt f0 (fadd p r)) eqn:Hpos; [|by rewrite <-between_0_1].
  assert (fin_between f0 two (fadd p r)) as Hs.
  { apply (rounds_between (fval p + fval r)); [by apply fadd_rounds|done|done| |].
    - change (fval f0) with 0%Q. lra.
    - rewrite fval_two. lra. }
  rewrite fin_between_fval in Hs by done. destruct Hs as (Hs & Hs0 & Hs2).
  rewrite flt_fval in Hpos by done. change (fval f0) with 0%Q in *.
  destruct (fmul_shrink p r) as (Hq & Hq0 & Hqr); [done..|].
  rewrite !fle_fval in Hq0, Hqr by done. change (fval f0) with 0%Q in Hq0.
  assert (fval (fmul p r) <= fval p)%Q as Hqp.
  { apply fle_fval; [done|done|]. apply (rounds_le (fval p * fval r)); [by apply fmul_rounds|done|nra]. }
  destruct (double_exists (fmul p r)) as (v & Hv & Hv2); [done|done|lra|].
  assert (fin_between f0 v (fmul two (fmul p r))) as Hd.
  { apply (rounds_between (fval two * fval (fmul p r))); [by apply fmul_rounds|done|done| |];
      rewrite ?fval_two; change (fval f0) with 0%Q; lra. }
  rewrite fin_between_fval in Hd by done. destruct Hd as (Hd & Hd0 & Hdv).
  change (fval f0) with 0%Q in Hd0.
  assert (fval v <= fval (fadd p r))%Q as Hvs.
  { apply fle_fval; [done|done|]. apply (rounds_ge (fval p + fval r)); [by apply fadd_rounds|done|lra]. }
  apply between_0_1. apply fdiv_unit; try done; lra.
Qed.

(** Doubles and keys are countable, so that the finite sets of stdpp hold them. *)
#[export] Instance double_countable : Countable double.
Proof.
  refine (inj_countable'
    (λ x, match x with
          | S754_zero s => inl (inl s) | S754_infinity s => inl (inr s)
          | S754_nan => inr (inl ()) | S754_finite s m e => inr (inr (s, m, e))
          end)
    (λ y, match y with
          | inl (inl s) => S754_zero s | inl (inr s) => S754_infinity s
          | inr (inl _) => S754_nan | inr (inr (s, m, e)) => S754_finite s m e
          end) _).
  by intros [].
Defined.

#[export] Instance hkey_countable : Countable hkey.
Proof.
  refine (inj_countable'
    (λ x, match x with
          | HNone => inl (inl ()) | HInt z => inl (inr z)
          | HFloat x => inr (inl x) | HStr s => inr (inr s)
          end)
    (λ y, match y with
          | inl (inl _) => HNone | inl (inr z) => HInt z
          | inr (inl x) => HFloat x | inr (inr s) => HStr s
          end) _).
  by intros [].
Defined.

Lemma gset_size_0 (X : gset hkey) : size X = 0%nat ↔ X = ∅.
Proof. by rewrite size_empty_iff, leibniz_equiv_iff. Qed.

Lemma size_fromkeys (l : list hkey) :
  size (list_to_set l : gset hkey) = length (dict_fromkeys l).
Proof.
  rewrite <-(size_list_to_set (C := gset hkey) (dict_fromkeys l)) by apply NoDup_dict_fromkeys.
  apply set_size_proper. intros x. by rewrite !elem_of_list_to_set, elem_of_dict_fromkeys.
Qed.

(** The measures of a retrieved list against a set of relevant items *)
Definition set_precision (found relevant : gset hkey) : double :=
  if decide (found = ∅) then f0 else py_ratio (size (found ∩ relevant)) (size found).
Definition set_recall (found relevant : gset hkey) : double :=
  if decide (relevant = ∅) then f0 else py_ratio (size (found ∩ relevant)) (size relevant).
Definition set_hit (found relevant : gset hkey) : double :=
  if decide (found ## relevant) then f0 else f1.
(** The reciprocal of the rank of the first relevant item *)
Definition reciprocal_rank (retrieved : list hkey) (relevant : gset hkey) : double :=
  match list_find (.∈ relevant) retrieved with
  | Some (i, _) => Z_ratio 1 (Z.of_nat i + 1)
  | None => f0
  end.

Lemma first_relevant_find i l (rel : list hkey) :
  first_relevant i l rel = (λ p, i + Z.of_nat p.1) <$> list_find (.∈ (list_to_set rel : gset hkey)) l.
Proof.
  revert i. induction l as [|x l IH]; intros i; simpl; [done|].
  rewrite (decide_ext (x ∈ rel) (x ∈ (list_to_set rel : gset hkey)))
    by (by rewrite elem_of_list_to_set).
  case_decide; simpl; [f_equal; lia|]. rewrite IH.
  destruct (list_find _ l) as [[j y]|]; simpl; [f_equal; lia|done].
Qed.

Section sets.
Context (retrieved relevant : list hkey).
Let found : gset hkey := list_to_set retrieved.
Let wanted : gset hkey := list_to_set relevant.

Lemma length_common :
  length (filter (λ x, x ∈ dict_fromkeys relevant) (dict_fromkeys retrieved)) = size (found ∩ wanted).
Proof.
  rewrite <-(size_list_to_set (C := gset hkey) (filter _ _)) by (apply NoDup_filter, NoDup_dict_fromkeys).
  apply set_size_proper. intros x. unfold found, wanted.
  rewrite elem_of_intersection, !elem_of_list_to_set, list_elem_of_filter, !elem_of_dict_fromkeys.
  tauto.
Qed.

Lemma fromkeys_nil (l : list hkey) : dict_fromkeys l = [] ↔ (list_to_set l : gset hkey) = ∅.
Proof.
  rewrite <-gset_size_0, size_fromkeys. by destruct (dict_fromkeys l).
Qed.

Lemma retrieval_as_sets :
  retrieval_scores retrieved relevant =
  let p := set_precision found wanted in
  let r := set_recall found wanted in
  [("precision", p); ("recall", r); ("f1_score", f1_of p r);
   ("hit_rate", set_hit found wanted); ("mrr", reciprocal_rank retrieved wanted)].
Proof.
  assert (∀ (l : list hkey) n, match dict_fromkeys l with [] => f0 | _ => py_ratio n (length (dict_fromkeys l)) end =
    if decide ((list_to_set l : gset hkey) = ∅) then f0
    else py_ratio n (size (list_to_set l : gset hkey))) as Hr.
  { intros l n. rewrite size_fromkeys. pose proof (fromkeys_nil l) as Hl.
    destruct (dict_fromkeys l); case_decide; try done; naive_solver. }
  unfold retrieval_scores. cbv zeta. rewrite !Hr, length_common.
  fold found wanted. unfold set_precision, set_recall, set_hit, reciprocal_rank.
  repeat f_equal.
  - apply decide_ext. rewrite gset_size_0. set_solver.
  - rewrite first_relevant_find.
    assert ((list_to_set (dict_fromkeys relevant) : gset hkey) = wanted) as ->.
    { apply set_eq. intros x. unfold wanted. by rewrite !elem_of_list_to_set, elem_of_dict_fromkeys. }
    destruct (list_find _ retrieved) as [[j y]|]; [|done].
    change (Z_ratio 1 (1 + Z.of_nat j) = Z_ratio 1 (Z.of_nat j + 1)). by rewrite Z.add_comm.
Qed.

Lemma retrieval_unit : Forall (λ kv, kv.1 ∉ JUDGE_METRICS ∧ fin_between f0 f1 kv.2)
  (retrieval_scores retrieved relevant).
Proof.
  rewrite retrieval_as_sets. cbv zeta.
  assert (∀ S : gset hkey, S ≠ ∅ → (0 < size S)%nat) as Hsize.
  { intros S HS%(not_iff_compat (gset_size_0 S)). by apply Nat.neq_0_lt_0. }
  assert (fin_between f0 f1 (set_precision found wanted)).
  { unfold set_precision. case_decide; [done|]. apply py_ratio_unit; [|by apply Hsize].
    apply subseteq_size. set_solver. }
  assert (fin_between f0 f1 (set_recall found wanted)).
  { unfold set_recall. case_decide; [done|]. apply py_ratio_unit; [|by apply Hsize].
    apply subseteq_size. set_solver. }
  repeat (apply Forall_cons; split; [split; [by apply (bool_decide_eq_false_1 _)|]|]); simpl; try done.
  - by apply f1_of_unit.
  - unfold set_hit. by case_decide.
  - unfold reciprocal_rank. destruct (list_find _ retrieved) as [[j y]|]; [|done].
    apply Z_ratio_unit; lia.
Qed.
End sets.

Lemma compute_retrieval_scale chunks ids s :
  compute_retrieval chunks ids = Ok s → in_scale ((λ kv, (kv.1, Some kv.2)) <$> s).
Proof.
  unfold compute_retrieval. intros Hs. repeat case_match; simplify_eq; [by apply Forall_nil|].
  unfold in_scale. rewrite Forall_fmap. eapply Forall_impl; [apply retrieval_unit|].
  intros [k v] [Hk Hv]. by split.
Qed.

(** ** The score of the judge *)

Lemma in_range_between x : is_double x → in_range x = true → fin_between f1 f5 x.
Proof.
  intros Hx [H1 H2]%andb_true_iff. rewrite f5_eq in H2. by apply double_between.
Qed.

Lemma parse_verdict_range text v r : parse_verdict text = Scored v r → fin_between f1 f5 v.
Proof.
  unfold parse_verdict. intros Hp. destruct (json_loads text) as [[]|]; try done.
  destruct (float_of_json _) as [x|] eqn:Hx; [|by repeat case_match].
  destruct (in_range x) eqn:Hin; [|done]. injection Hp as <- _.
  apply in_range_between; [by eapply float_of_json_double|done].
Qed.

Lemma parse_response_range text v r :
  _parse_judge_response text = Ok (Some v, r) → fin_between f1 f5 v.
Proof.
  unfold _parse_judge_response.
  assert (∀ res : res (option double * json),
    res = match search_group score_re text with
    | Some d => match py_float d with
                | Some score => if in_range score then Ok (Some score, JStr "") else Ok (None, JStr "")
                | None => Err (ValueError d)
                end
    | None => Ok (None, JStr "")
    end → res = Ok (Some v, r) → fin_between f1 f5 v) as Hpat.
  { intros ? ->. destruct (search_group _ _) as [d|]; [|done]. destruct (py_float d) as [x|] eqn:Hd; [|done].
    destruct (in_range x) eqn:Hin; [|done]. intros [= <- _].
    apply in_range_between; [by eapply py_float_double|done]. }
  destruct (parse_verdict (py_strip text)) eqn:Hp; [| |done].
  { intros [= <- _]. by eapply parse_verdict_range. }
  destruct (search_group fence_re text) as [t|]; [|by eauto].
  destruct (parse_verdict t) eqn:Ht; [|by eauto|done]. intros [= <- _]. by eapply parse_verdict_range.
Qed.

(** ** The composite score *)

Lemma normalized_unit k v :
  scale_ok k (Some v) → k ∈ JUDGE_METRICS ∨ k ∈ unit_metrics → fin_between f0 f1 (normalized k v).
Proof.
  intros [Hunit Hjudge] Hk. unfold normalized. case_decide as Hj; [|by apply Hunit; destruct Hk].
  specialize (Hjudge Hj). rewrite fin_between_fval in Hjudge by done. destruct Hjudge as (Hv & H1 & H5).
  assert (fval f5 == 5)%Q as E5 by reflexivity.
  assert (fval (double_of_Z 4) == 4)%Q as E4 by reflexivity.
  rewrite fval_f1 in H1. rewrite E5 in H5.
  assert (fin_between f0 (double_of_Z 4) (fsub v f1)) as Hs.
  { apply (rounds_between (fval v - fval f1)); [by apply fsub_rounds|done|done| |];
      rewrite ?fval_f1, ?E4; change (fval f0) with 0%Q; lra. }
  rewrite fin_between_fval in Hs by done. destruct Hs as (Hs & H0 & H4).
  change (fval f0) with 0%Q in H0. by apply fdiv_unit.
Qed.

(** After [n] weights at most *)
Definition composite_inv (n : Z) (acc : double * double) : Prop :=
  fin acc.1 = true ∧ fin acc.2 = true ∧ (0 <= fval acc.1)%Q ∧ (fval acc.1 <= fval acc.2)%Q ∧
  (fval acc.2 <= inject_Z n)%Q.

Lemma composite_step_inv n m w acc :
  0 ≤ n < 1000 → in_scale m → w.1 ∈ JUDGE_METRICS ∨ w.1 ∈ unit_metrics → fin_between f0 f1 w.2 →
  composite_inv n acc → composite_inv (n + 1) (composite_step m acc w).
Proof.
  intros Hn Hm Hk Hw (Hs & Ht & H0 & Hst & Htn).
  assert (inject_Z (n + 1) == inject_Z n + 1)%Q as En by (by rewrite inject_Z_plus).
  unfold composite_step. destruct (dict_get w.1 m) as [[v|]|] eqn:Hv; try (repeat split; try done; lra).
  apply in_scale_get, normalized_unit in Hv; [|done|done].
  apply between_0_1 in Hv as (Hf & Hv0 & Hv1). apply between_0_1 in Hw as (Hwf & Hw0 & Hw1).
  pose proof (fmul_shrink _ _ Hf Hwf Hv0 Hv1 Hw0) as Hp.
  rewrite fin_between_fval in Hp by done. destruct Hp as (Hpf & Hp0 & Hpw). change (fval f0) with 0%Q in Hp0.
  destruct (double_of_Z_exact (n + 1)) as [Hb Hbv]; [lia|].
  assert (∀ a b, fin a = true → fin b = true → (0 <= fval a)%Q → (fval a <= fval acc.2)%Q →
    (0 <= fval b)%Q → (fval b <= fval w.2)%Q → fin_between f0 (double_of_Z (n + 1)) (fadd a b)) as Hadd.
  { intros a b Ha Hb' Ha0 Hat Hb0 Hbw.
    apply (rounds_between (fval a + fval b)); [by apply fadd_rounds|done|done| |];
      rewrite ?Hbv; change (fval f0) with 0%Q; lra. }
  pose proof (Hadd acc.1 _ Hs Hpf H0 Hst Hp0 Hpw) as H1.
  pose proof (Hadd acc.2 _ Ht Hwf ltac:(lra) ltac:(lra) Hw0 ltac:(lra)) as H2.
  rewrite fin_between_fval in H1, H2 by done. change (fval f0) with 0%Q in *.
  destruct H1 as (F1 & A1 & B1), H2 as (F2 & A2 & B2). rewrite Hbv in B2.
  repeat split; try done. simpl. apply fle_fval; [done|done|].
  apply fadd_mono; try done; by apply fle_fval.
Qed.

Lemma composite_fold_inv m l n acc :
  0 ≤ n → n + Z.of_nat (length l) < 1000 → in_scale m →
  Forall (λ w, (w.1 ∈ JUDGE_METRICS ∨ w.1 ∈ unit_metrics) ∧ fin_between f0 f1 w.2) l →
  composite_inv n acc → composite_inv (n + Z.of_nat (length l)) (foldl (composite_step m) acc l).
Proof.
  intros Hn Hl Hm Hall. revert n acc Hn Hl. induction Hall as [|w l [Hk Hw] _ IH]; intros n acc Hn Hl Hacc.
  - by rewrite Z.add_0_r.
  - simpl length in Hl |- *. simpl foldl.
    replace (n + Z.of_nat (S (length l)))%Z with (n + 1 + Z.of_nat (length l))%Z by lia.
    apply IH; [lia|lia|]. apply composite_step_inv; try done; lia.
Qed.

Lemma default_weights_ok :
  Forall (λ w, (w.1 ∈ JUDGE_METRICS ∨ w.1 ∈ unit_metrics) ∧ fin_between f0 f1 w.2) DEFAULT_WEIGHTS.
Proof.
  repeat (apply Forall_cons; split; [split; [|vm_compute; done]|]); try by apply Forall_nil.
  all: simpl; by apply (bool_decide_eq_true_1 (_ ∨ _)).
Qed.

Lemma composite_unit m v : in_scale m → compute_composite m = Some v → fin_between f0 f1 v.
Proof.
  intros Hm. unfold compute_composite.
  assert (composite_inv 0 (f0, f0)) as H0 by (by repeat split).
  pose proof (composite_fold_inv m DEFAULT_WEIGHTS 0 (f0, f0) ltac:(lia) ltac:(reflexivity) Hm
                default_weights_ok H0) as H.
  destruct (foldl _ _ _) as [ws tw]. destruct H as (Hs & Ht & Hs0 & Hst & _).
  simpl in *. destruct (flt f0 tw) eqn:Hpos; [|done]. intros [= <-].
  rewrite flt_fval in Hpos by done. change (fval f0) with 0%Q in Hpos. by apply fdiv_unit.
Qed.

Lemma in_scale_composite m :
  in_scale m →
  in_scale (match compute_composite m with
            | Some comp => dict_set "composite_score" (Some comp) m
            | None => m
            end).
Proof.
  intros Hm. destruct (compute_composite m) as [v|] eqn:Hv; [|done].
  apply in_scale_set; [done|]. apply scale_unit; [reflexivity|]. by eapply composite_unit.
Qed.

(** ** The summary of a run *)

Lemma dict_get_set_all k l s :
  dict_get k (set_all l s) =
  match dict_get k (reverse l) with Some v => Some v | None => dict_get k s end.
Proof.
  unfold set_all. rewrite <-(reverse_involutive l) at 1.
  induction (reverse l) as [|[k1 v1] l' IH]; [done|].
  rewrite reverse_cons, foldl_app. simpl foldl. rewrite dict_get_set, dict_get_cons, IH.
  by case_decide.
Qed.

(** What the values collected for a metric satisfy *)
Definition values_ok (kl : string * list double) : Prop :=
  kl.2 ≠ [] ∧ Forall (λ v, scale_ok kl.1 (Some v)) kl.2.

Lemma add_value_ok k v m :
  Forall values_ok m → scale_ok k (Some v) → Forall values_ok (add_value k v m).
Proof.
  intros Hm Hv. apply Forall_dict_set; [done|]. split; [by destruct (default [] _)|].
  apply Forall_app. split; [|by constructor]. destruct (dict_get k m) as [l|] eqn:Hk; [|constructor].
  by apply (Forall_dict_get _ _ _ _ Hm) in Hk as [_ Hl].
Qed.

Lemma add_values_ok (new : metrics) m :
  Forall values_ok m → in_scale new →
  Forall values_ok (foldl (λ m kv, match kv.2 with Some v => add_value kv.1 v m | None => m end) m new).
Proof.
  intros Hm Hnew. revert m Hm. induction Hnew as [|[k [v|]] new Hv _ IH]; intros m Hm; simpl; [done| |by apply IH].
  by apply IH, add_value_ok.
Qed.

(** After [n] results *)
Definition summary_inv (n : nat) (acc : SummaryAcc) : Prop :=
  Forall values_ok (sa_metric_values acc) ∧
  Forall (fin_between f0 f1) (sa_composite_scores acc) ∧
  (length (sa_composite_scores acc) + sa_error_count acc ≤ n)%nat.

Lemma summary_step_inv n acc r :
  in_scale (cr_metrics r) → summary_inv n acc → summary_inv (S n) (summary_step acc r).
Proof.
  intros Hr (H1 & H2 & H3). unfold summary_step.
  destruct (opt_truthy (cr_error r)); [split_and!; try done; simpl; lia|].
  split; [by apply add_values_ok|]. simpl.
  destruct (dict_get "composite_score" (cr_metrics r)) as [[v|]|] eqn:Hv;
    [|rewrite app_nil_r; split; [done|lia]..].
  apply in_scale_get in Hv as [Hu _]; [|done]. rewrite Forall_app, length_app. simpl. split; [|lia].
  split; [done|]. constructor; [|done]. apply Hu. by apply (bool_decide_eq_true_1 _).
Qed.

Lemma summary_acc_inv results :
  Forall (λ r, in_scale (cr_metrics r)) results → summary_inv (length results) (summary_acc results).
Proof.
  intros Hall. unfold summary_acc.
  set (acc := {| sa_metric_values := []; sa_composite_scores := []; sa_execution_times := [];
                 sa_error_count := 0 |}).
  assert (H0 : summary_inv 0 acc) by (split_and!; simpl; try constructor; lia).
  change (length results) with (0 + length results)%nat. revert H0. generalize 0%nat acc. clear acc.
  induction Hall as [|r l Hr _ IH]; intros n acc Hacc; simpl; [by rewrite Nat.add_0_r|].
  rewrite Nat.add_succ_r. by apply (IH (S n)), summary_step_inv.
Qed.

(** *** Percentiles *)

Lemma p90_index_spec n :
  (2 ≤ n)%nat → Z.of_nat n < 2 ^ 50 → ∃ i, p90_index n = Ok i ∧ (n / 2 ≤ i < n)%nat.
Proof.
  intros Hn Hmax. unfold p90_index. set (c := dec 9 (-1)). set (z := Z.of_nat n).
  assert (Hc : fin c = true) by (by vm_compute).
  assert (Hc1 : (1 # 2 <= fval c)%Q) by (by vm_compute).
  assert (Hc2 : (fval c <= 15 # 16)%Q) by (by vm_compute).
  clearbody c. destruct (double_of_Z_exact z) as [Hz Ez]; [lia|].
  set (h := Z.of_nat (n / 2)). assert (Hh : 0 ≤ h ∧ 2 * h ≤ z).
  { unfold h, z. pose proof (Nat.mul_div_le n 2). lia. }
  destruct (double_of_Z_exact h) as [Hhf Eh]; [lia|].
  destruct (exact_double (8 * z - 1) (-3)) as (v & Hv & Ev); [lia|lia|].
  assert (2 <= inject_Z z)%Q by (apply (inject_Z_le 2); lia).
  assert (2 * inject_Z h <= inject_Z z)%Q.
  { change 2%Q with (inject_Z 2). rewrite <-inject_Z_mult. apply inject_Z_le. lia. }
  assert (Hv8 : (fval v == inject_Z z - (1 # 8))%Q).
  { rewrite Ev. replace (8 * z - 1) with (8 * z + -1) by lia.
    rewrite inject_Z_plus, inject_Z_mult. change (b2 (-3)) with (1 # 8)%Q.
    change (inject_Z 8) with 8%Q. change (inject_Z (-1)) with (-1)%Q. lra. }
  assert (fin_between (double_of_Z h) v (fmul (double_of_Z z) c)) as Hb.
  { apply (rounds_between (fval (double_of_Z z) * fval c)); [by apply fmul_rounds|done|done| |];
      rewrite ?Ez, ?Eh, ?Hv8; nra. }
  rewrite fin_between_fval in Hb by done. destruct Hb as (Hf & H1 & H2). rewrite Eh in H1.
  assert (0 <= inject_Z h)%Q by (apply (inject_Z_le 0); lia).
  destruct (float_int_floor _ Hf) as (a & -> & Ha0 & Ha & Ha'); [lra|].
  exists (Z.to_nat a). split; [done|].
  assert (h < a + 1) by (rewrite Zlt_Qlt; lra).
  assert (a < z) by (rewrite Zlt_Qlt; lra). unfold h, z in *. lia.
Qed.

Lemma SFcompare_antisym_Lt x y : SFcompare x y = Some Lt → SFcompare y x = Some Lt → False.
Proof.
  destruct x as [|[]| |[] m e], y as [|[]| |[] m' e']; try done; simpl;
    rewrite (Z.compare_antisym e e'); destruct (e ?= e')%Z; simpl; try done;
    change (Pos.compare_cont Eq ?a ?b) with (a ?= b)%positive;
    rewrite (Pos.compare_antisym m m'); by destruct (m ?= m')%positive.
Qed.

Lemma float_leb_total x y : float_leb x y = true ∨ float_leb y x = true.
Proof.
  unfold float_leb, flt, SFltb. pose proof (SFcompare_antisym_Lt x y).
  destruct (SFcompare y x) as [[]|]; try (by left);
    destruct (SFcompare x y) as [[]|]; try (by right); by exfalso; eauto.
Qed.

(** The places of a sorted list of numbers are in order. *)
Lemma sorted_lookup a b l i j x y :
  Forall (fin_between a b) l → Sorted (λ x y, float_leb x y = true) l →
  l !! i = Some x → l !! j = Some y → (i ≤ j)%nat → (fval x <= fval y)%Q.
Proof.
  intros Hall Hs. assert (StronglySorted (λ x y, (fval x <= fval y)%Q) l) as Hss.
  { apply Sorted_StronglySorted; [intros ? y' ? ? ?; by apply (Qle_trans _ (fval y'))|].
    induction Hs as [|x' l Hs IH Hhd]; [constructor|]. inversion_clear Hall as [|?? [Hx _] Hl].
    constructor; [by apply IH|]. destruct Hhd as [|z l' Hz]; [constructor|]. constructor.
    inversion_clear Hl as [|?? [Hzf _] _]. unfold float_leb in Hz.
    apply Qnot_lt_le. intros Hlt. by rewrite (proj2 (flt_fval z x' Hzf Hx) Hlt) in Hz. }
  clear Hs Hall. revert i j. induction Hss as [|z l Hl IH Hz]; intros i j; [done|].
  destruct i as [|i], j as [|j]; simpl; try lia.
  - intros [= ->] [= ->] _. apply Qle_refl.
  - intros [= ->] Hj _. rewrite Forall_lookup in Hz. by eapply Hz.
  - intros Hi Hj Hij. apply (IH i j); [done|done|lia].
Qed.

Lemma composite_stats_eq l :
  l ≠ [] →
  composite_stats l =
  let sorted := isort float_leb l in
  let n := length sorted in
  match index_res sorted (n / 2) with
  | Err e => Err e
  | Ok p50 =>
      match (if (1 <? n)%nat
             then match p90_index n with Ok i => index_res sorted i | Err e => Err e end
             else index_res sorted 0) with
      | Err e => Err e
      | Ok p90 => Ok [("avg_composite_score", NFloat (mean l));
                      ("p50_composite_score", NFloat p50); ("p90_composite_score", NFloat p90)]
      end
  end.
Proof. by destruct l. Qed.

Lemma composite_stats_spec l :
  l ≠ [] → Forall (fin_between f0 f1) l → Z.of_nat (length l) < 2 ^ 50 →
  ∃ p50 p90,
    composite_stats l = Ok [("avg_composite_score", NFloat (mean l));
      ("p50_composite_score", NFloat p50); ("p90_composite_score", NFloat p90)] ∧
    fin_between f0 f1 (mean l) ∧ fin_between f0 f1 p50 ∧ fin_between f0 f1 p90 ∧ fle p50 p90 = true.
Proof.
  intros Hne Hall Hlen. pose proof (mean_between f0 f1 l eq_refl eq_refl Hne Hall) as Hm.
  set (s := isort float_leb l). assert (Hp : s ≡ₚ l) by apply isort_Permutation.
  assert (Hsall : Forall (fin_between f0 f1) s) by (by rewrite Hp).
  assert (Hsort : Sorted (λ x y, float_leb x y = true) s) by apply isort_sorted, float_leb_total.
  assert (0 < length l)%nat by (by destruct l; simpl; [|lia]).
  rewrite <-(Permutation_length Hp) in *.
  assert (∃ i, (if (1 <? length s)%nat
                then match p90_index (length s) with Ok i => index_res s i | Err e => Err e end
                else index_res s 0) = index_res s i ∧ (length s / 2 ≤ i < length s)%nat) as (i & Hi & Hin).
  { destruct (Nat.ltb_spec 1 (length s)).
    - destruct (p90_index_spec (length s)) as (i & -> & Hi); [lia|lia|]. by exists i.
    - exists 0%nat. assert (length s = 1%nat) as -> by lia. split; [done|]. vm_compute. lia. }
  destruct (lookup_lt_is_Some_2 s (length s / 2)) as [p50 H50]; [lia|].
  destruct (lookup_lt_is_Some_2 s i) as [p90 H90]; [lia|].
  assert (∀ k x, s !! k = Some x → fin_between f0 f1 x) as Hel.
  { intros k x Hk%list_elem_of_lookup_2. by eapply Forall_forall in Hsall. }
  exists p50, p90. split_and!; try done; try (by eapply Hel).
  - rewrite composite_stats_eq by done. cbv zeta. fold s. rewrite Hi. unfold index_res. by rewrite H50, H90.
  - apply fle_fval; [by eapply Hel|by eapply Hel|].
    eapply sorted_lookup; [exact Hsall|exact Hsort|exact H50|exact H90|lia].
Qed.

(** *** The entries *)

(** What the entry [k] of a summary may be *)
Definition entry_ok (k : string) (v : EvalStore.num) : Prop :=
  match v with
  | NInt z => 0 ≤ z
  | NFloat x =>
      (k ∈ ["pass_rate"; "p50_composite_score"; "p90_composite_score"] → fin_between f0 f1 x) ∧
      ∀ m, k = "avg_" +:+ m → scale_ok m (Some x)
  end.
Definition summary_ok (s : summary) : Prop := Forall (λ kv, entry_ok kv.1 kv.2) s.

Lemma set_all_ok l s : summary_ok l → summary_ok s → summary_ok (set_all l s).
Proof.
  intros Hl. revert s. induction Hl as [|[k v] l Hk _ IH]; intros s Hs; simpl; [done|].
  by apply IH, Forall_dict_set.
Qed.

Lemma mean_scale k l : l ≠ [] → Forall (λ v, scale_ok k (Some v)) l → scale_ok k (Some (mean l)).
Proof.
  intros Hne Hl. split; intros Hk; apply mean_between; try done; (eapply Forall_impl; [exact Hl|]);
    intros x [Hu Hj]; auto.
Qed.

Lemma average_entry k l : values_ok (k, l) → entry_ok ("avg_" +:+ k) (NFloat (mean l)).
Proof.
  intros [Hne Hl]. split; [intros Hin; exfalso|].
  - rewrite !elem_of_cons, elem_of_nil in Hin. by destruct Hin as [|[|[|]]].
  - intros m Hm. apply (inj (String.append "avg_")) in Hm. subst m. by apply mean_scale.
Qed.

Lemma unit_entry k x :
  bool_decide (k = "avg_composite_score" ∨ k ∈ ["pass_rate"; "p50_composite_score"; "p90_composite_score"])
    = true →
  fin_between f0 f1 x → entry_ok k (NFloat x).
Proof.
  intros Hk%bool_decide_eq_true Hx. split; [done|]. intros m ->. split; [done|]. intros Hj. exfalso.
  rewrite !elem_of_cons, elem_of_nil in Hk. unfold JUDGE_METRICS in Hj.
  rewrite !elem_of_cons, elem_of_nil in Hj. by destruct Hj as [->|[->|[->|[->|[]]]]]; destruct Hk as [|[|[|[|]]]].
Qed.

Lemma passed_count_le th l : (passed_count th l ≤ length l)%nat.
Proof. apply length_filter. Qed.

Definition averages_of (m : list (string * list double)) : summary :=
  (λ kv, ("avg_" +:+ kv.1, NFloat (mean kv.2))) <$> m.

Lemma averages_ok m : Forall values_ok m → summary_ok (averages_of m).
Proof.
  intros Hm. unfold summary_ok, averages_of. rewrite Forall_fmap.
  eapply Forall_impl; [exact Hm|]. intros [k l]. apply average_entry.
Qed.

Lemma averages_other k m : String.prefix "avg_" k = false → dict_get k (reverse (averages_of m)) = None.
Proof.
  intros Hk. destruct (dict_get _ _) as [v|] eqn:E; [|done]. exfalso.
  apply elem_dict_get in E. rewrite elem_of_reverse in E.
  apply list_elem_of_fmap in E as ([k' l] & [= -> _] & _). revert Hk. simpl. by destruct k'.
Qed.

(** The entries after the averages, read by their keys *)
Lemma summary_lookup avs stats counts times k :
  dict_get k (set_all (avs ++ stats ++ counts ++ times) []) =
  match dict_get k (reverse times) with Some v => Some v | None =>
  match dict_get k (reverse counts) with Some v => Some v | None =>
  match dict_get k (reverse stats) with Some v => Some v | None => dict_get k (reverse avs) end end end.
Proof.
  rewrite dict_get_set_all, dict_get_nil, !reverse_app, !dict_get_app.
  do 3 (destruct (dict_get k (reverse _)); [done|]). by destruct (dict_get k (reverse avs)).
Qed.

Definition percentiles (stats : summary) : Prop :=
  stats = [] ∨ ∃ a p50 p90,
    stats = [("avg_composite_score", NFloat a); ("p50_composite_score", NFloat p50);
             ("p90_composite_score", NFloat p90)] ∧ fle p50 p90 = true.

Lemma composite_stats_ok l :
  Forall (fin_between f0 f1) l → Z.of_nat (length l) < 2 ^ 50 →
  ∃ stats, composite_stats l = Ok stats ∧ summary_ok stats ∧ percentiles stats.
Proof.
  intros Hl Hlen. destruct (decide (l = [])) as [->|Hne].
  - exists []. split; [done|]. split; [constructor|by left].
  - destruct (composite_stats_spec l Hne Hl Hlen) as (p50 & p90 & -> & Ha & H50 & H90 & Hle).
    eexists. split; [done|]. split; [|right; by eexists _, _, _].
    repeat (apply Forall_cons; split; [by apply unit_entry|]). constructor.
Qed.

Definition times_of (l : list double) : summary :=
  match l with [] => [] | l => [("avg_execution_time_sec", NFloat (mean l))] end.

Lemma times_ok l : summary_ok (times_of l).
Proof.
  destruct l as [|x l]; [constructor|]. apply Forall_cons; split; [|constructor]. split.
  - intros Hk. exfalso. rewrite !elem_of_cons, elem_of_nil in Hk. by destruct Hk as [|[|[|]]].
  - intros m Hm. apply (inj (String.append "avg_") "execution_time_sec") in Hm. subst m.
    by apply scale_other.
Qed.

Lemma times_other k l :
  bool_decide (k = "avg_execution_time_sec") = false → dict_get k (reverse (times_of l)) = None.
Proof.
  intros Hk%bool_decide_eq_false. destruct l as [|x l]; [done|].
  change (reverse (times_of (x :: l))) with (times_of (x :: l)).
  unfold times_of. rewrite dict_get_cons. by case_decide.
Qed.

(** What [compute_summary] puts together *)
Lemma compute_summary_eq results th :
  results ≠ [] →
  let acc := summary_acc results in
  let total := length results in
  let passed := passed_count th (sa_composite_scores acc) in
  compute_summary results th =
  match composite_stats (sa_composite_scores acc) with
  | Err e => Err e
  | Ok stats =>
      Ok (set_all (averages_of (sa_metric_values acc) ++ stats ++
        [("pass_rate", NFloat (py_ratio passed total)); ("total_cases", NInt (Z.of_nat total));
         ("passed", NInt (Z.of_nat passed)); ("errors", NInt (Z.of_nat (sa_error_count acc)))] ++
        times_of (sa_execution_times acc)) [])
  end.
Proof.
  destruct results; [done|]. intros _. unfold compute_summary. cbv zeta.
  destruct (composite_stats _) as [stats|]; [|reflexivity]. f_equal. f_equal.
  do 3 (apply (f_equal2 app); [reflexivity|]). by destruct (sa_execution_times _).
Qed.

(** Percentiles are elements of the list, whatever its length. *)
Lemma composite_stats_range l stats :
  Forall (fin_between f0 f1) l → composite_stats l = Ok stats → summary_ok stats.
Proof.
  intros Hl. destruct (decide (l = [])) as [->|Hne]; [intros [= <-]; constructor|].
  rewrite composite_stats_eq by done. cbv zeta.
  assert (∀ i x, index_res (isort float_leb l) i = Ok x → fin_between f0 f1 x) as Hidx.
  { unfold index_res. intros i x. destruct (_ !! i) as [y|] eqn:Hy; [|done]. intros [= <-].
    apply list_elem_of_lookup_2 in Hy. rewrite elem_of_isort in Hy.
    by apply (proj1 (Forall_forall _ _) Hl). }
  intros Hst. destruct (index_res _ (length _ / 2)) as [p50|] eqn:H50; [|done].
  assert (∃ i p90, index_res (isort float_leb l) i = Ok p90 ∧
    stats = [("avg_composite_score", NFloat (mean l)); ("p50_composite_score", NFloat p50);
             ("p90_composite_score", NFloat p90)]) as (i & p90 & H90 & ->).
  { repeat case_match; simplify_eq; eauto. }
  repeat (apply Forall_cons; split; [apply unit_entry; [done|]; first [by eapply Hidx|by apply mean_between]|]).
  constructor.
Qed.

Lemma summary_entries_ok acc n p stats :
  summary_inv n acc → (p ≤ length (sa_composite_scores acc))%nat → (0 < n)%nat → summary_ok stats →
  summary_ok (set_all (averages_of (sa_metric_values acc) ++ stats ++
    [("pass_rate", NFloat (py_ratio p n)); ("total_cases", NInt (Z.of_nat n));
     ("passed", NInt (Z.of_nat p)); ("errors", NInt (Z.of_nat (sa_error_count acc)))] ++
    times_of (sa_execution_times acc)) []).
Proof.
  intros (Hmv & Hcs & Hn) Hp Hpos Hst.
  apply set_all_ok; [|constructor]. apply Forall_app. split; [by apply averages_ok|].
  apply Forall_app. split; [done|]. apply Forall_app. split; [|apply times_ok].
  apply Forall_cons; split; [apply unit_entry, py_ratio_unit; [done|lia|lia]|].
  repeat (apply Forall_cons; split; [simpl; lia|]). constructor.
Qed.

Lemma compute_summary_scale results th s :
  Forall (λ r, in_scale (cr_metrics r)) results → compute_summary results th = Ok s → summary_ok s.
Proof.
  intros Hall. destruct (decide (results = [])) as [->|Hne]; [intros [= <-]; constructor|].
  pose proof (summary_acc_inv results Hall) as Hinv.
  rewrite compute_summary_eq by done. cbv zeta.
  destruct (composite_stats _) as [stats|] eqn:Hst; [|done]. intros [= <-].
  apply summary_entries_ok; [done|apply passed_count_le|by destruct results; [|simpl; lia]|].
  destruct Hinv as (_ & Hcs & _). by eapply composite_stats_range.
Qed.

(** The summary of the results of at least one case is computed without an error,
    its scores stay in their scales, and its counts add up. *)
Lemma compute_summary_ok results th :
  Forall (λ r, in_scale (cr_metrics r)) results → Z.of_nat (length results) < 2 ^ 50 →
  ∃ s, compute_summary results th = Ok s ∧ summary_ok s ∧
    (results ≠ [] →
     ∃ passed errors : nat, (passed + errors ≤ length results)%nat ∧
       dict_get "passed" s = Some (NInt (Z.of_nat passed)) ∧
       dict_get "errors" s = Some (NInt (Z.of_nat errors)) ∧
       dict_get "total_cases" s = Some (NInt (Z.of_nat (length results))) ∧
       dict_get "pass_rate" s = Some (NFloat (py_ratio passed (length results))) ∧
       ∀ p50 p90, dict_get "p50_composite_score" s = Some (NFloat p50) →
         dict_get "p90_composite_score" s = Some (NFloat p90) → fle p50 p90 = true).
Proof.
  intros Hall Hlen. destruct (decide (results = [])) as [->|Hne].
  { exists []. split; [done|]. split; [constructor|done]. }
  assert (0 < length results)%nat by (destruct results; [done|simpl; lia]).
  pose proof (summary_acc_inv results Hall) as Hinv. pose proof Hinv as (Hmv & Hcs & Hn).
  rewrite compute_summary_eq by done. cbv zeta. set (acc := summary_acc results) in *.
  destruct (composite_stats_ok _ Hcs ltac:(lia)) as (stats & -> & Hsok & Hshape).
  pose proof (passed_count_le th (sa_composite_scores acc)) as Hp.
  eexists. split; [reflexivity|]. split.
  - by apply summary_entries_ok.
  - intros _. exists (passed_count th (sa_composite_scores acc)), (sa_error_count acc).
    split; [lia|]. rewrite !summary_lookup, !times_other, !averages_other by reflexivity.
    do 4 (split; [reflexivity|]). intros p50 p90. destruct Hshape as [->|(a & q50 & q90 & -> & Hle)]; [done|].
    by intros [= <-] [= <-].
Qed.

(** ** The properties *)

Lemma res_mapM_Forall2 {A B} (f : A → res B) l k : Forall2 (λ x y, f x = Ok y) l k → res_mapM f l = Ok k.
Proof. induction 1 as [|x y l k Hx _ IH]; simpl; [done|]. by rewrite Hx, IH. Qed.

Lemma res_mapM_compose {A B C} (f : A → res B) (g : B → res C) l k :
  Forall2 (λ x z, ∃ y, f x = Ok y ∧ g y = Ok z) l k →
  ∃ m, res_mapM f l = Ok m ∧ res_mapM g m = Ok k.
Proof.
  induction 1 as [|x z l k (y & Hf & Hg) _ (m & Hm & Hk)]; simpl; [by exists []|].
  exists (y :: m). simpl. by rewrite Hf, Hm, Hg, Hk.
Qed.



(** C30. The summary of any results with scores in their scales is computed without
    an exception, the index of the 90th percentile included: every average of a
    metric stays in the scale of the metric, the pass rate and the percentiles are
    between 0 and 1, the median is at most the 90th percentile, and the cases that
    passed and the cases in error are together at most all the cases. *)
Theorem summary_spec results th :
  Forall (λ r, in_scale (cr_metrics r)) results → results ≠ [] → Z.of_nat (length results) < 2 ^ 50 →
  ∃ (s : summary) (passed errors : nat),
    compute_summary results th = Ok s ∧ summary_ok s ∧ (passed + errors ≤ length results)%nat ∧
    dict_get "passed" s = Some (NInt (Z.of_nat passed)) ∧
    dict_get "errors" s = Some (NInt (Z.of_nat errors)) ∧
    dict_get "total_cases" s = Some (NInt (Z.of_nat (length results))) ∧
    dict_get "pass_rate" s = Some (NFloat (py_ratio passed (length results))) ∧
    ∀ p50 p90, dict_get "p50_composite_score" s = Some (NFloat p50) →
      dict_get "p90_composite_score" s = Some (NFloat p90) → fle p50 p90 = true.
Proof.
  intros Hall Hne Hlen. destruct (compute_summary_ok results th Hall Hlen) as (s & Hs & Hok & Hrest).
  destruct (Hrest Hne) as (passed & errors & H). by exists s, passed, errors.
Qed.

Definition demo_result (score : double) : CaseResult := {|
  cr_case_id := "c"; cr_question := "q"; cr_generated_answer := "a"; cr_retrieved_chunks := [];
  cr_execution_time_sec := f1; cr_error := None; cr_metrics := [("composite_score", Some score)] |}.

Lemma summary_spec_witness :
  ∃ (s : summary) (passed errors : nat),
    compute_summary [demo_result f1; demo_result (Z_ratio 1 2)] (dec 6 (-1)) = Ok s ∧ summary_ok s ∧
    (passed + errors ≤ 2)%nat ∧
    dict_get "passed" s = Some (NInt (Z.of_nat passed)) ∧
    dict_get "errors" s = Some (NInt (Z.of_nat errors)) ∧
    dict_get "total_cases" s = Some (NInt 2) ∧
    dict_get "pass_rate" s = Some (NFloat (py_ratio passed 2)) ∧
    ∀ p50 p90, dict_get "p50_composite_score" s = Some (NFloat p50) →
      dict_get "p90_composite_score" s = Some (NFloat p90) → fle p50 p90 = true.
Proof.
  apply (summary_spec [demo_result f1; demo_result (Z_ratio 1 2)] (dec 6 (-1))); [|done|by vm_compute].
  repeat (apply Forall_cons; split;
    [apply Forall_cons; split; [apply scale_unit; [reflexivity|by vm_compute]|constructor]|]); constructor.
Defined.
