(* ===== verification/EvalProps.v ===== *)
(** Theorems on the evaluation harness: the invariant of its store along every
    sequence of requests and runs, the ending of a run, the cache of the judge,
    and what its deletions and imports leave behind. *)
From S2P Require Import Prelude Float PyText Json Dsl Digest Schema Effects Comp Regex PyNum.
From S2P Require Import EvalStore EvalMetrics EvalRunner EvalReport EvalServer EvalMetricProps.

(** ** A small harness *)

Local Open Scope Z_scope.

Definition demo_case (q : string) : json :=
  JObj [("question", JStr q); ("expected_output_contains", JArr [JStr "yes"; JStr "no"]);
        ("reference_chunk_ids", JArr [JStr "c1"; JStr "c2"])].

(** "bad.yaml" has a case whose identifier is a list. *)
Definition demo_yaml (path : string) : json :=
  JObj [("name", JStr path);
        ("cases", JArr (demo_case "Is it on?" ::
           if decide (path = "bad.yaml") then [JObj [("question", JStr "q"); ("id", JArr [JNull])]]
           else [demo_case "Is it off?"]))].

Definition demo_verdict (score : Z) : json :=
  JObj [("score", JInt score); ("reasoning", JStr "fine")].

#[export] Instance demo_eval : EvalEnv := {|
  ev_now n := "t" +:+ str_of_Z (Z.of_nat n);
  ev_uuid n := "id" +:+ str_of_Z (Z.of_nat n);
  ev_timer n := double_of_Z (Z.of_nat n);
  ev_yaml _ path := Ok (demo_yaml path);
  ev_agents _ _ id _ := Ok [{| ag_id := default "a1" id; ag_title := "Helper"; ag_description := None;
                               ag_dsl := Some (PBase [("kb_ids", PList [])]) |}];
  ev_create_session _ _ _ := Ok {| rs_key := "key"; rs_agent_id := "a1"; rs_id := "s1" |};
  ev_ask _ _ _ := Ok [{| an_content := Some "Yes it is";
                         an_reference := Some (PList [PDict [("chunk_id", PStr "c1");
                                                             ("content", PStr "text")]]) |}];
  ev_judge _ _ _ := Ok (JObj [("choices", JArr [JObj [("message",
    JObj [("content", JStr (json_dumps (demo_verdict 4)))])]])]);
  ev_real_text s := s;
  ev_re_search _ _ := Ok false |}.

Definition demo_config : EvalConfig := {|
  ec_ragflow_api_key := "key"; ec_ragflow_base_url := "http://ragflow"; ec_db_path := "eval.db";
  ec_judge_api_key := "judge"; ec_judge_base_url := "http://judge/v1/"; ec_judge_model := "m";
  ec_judge_enabled := true; ec_default_timeout_sec := 120; ec_default_pass_threshold := dec 6 (-1);
  ec_server_host := "0.0.0.0"; ec_server_port := 9391 |}.

Definition demo_start : Mach EvalDb ECall := {| m_state := eval_empty; m_tick := 0; m_calls := [] |}.

(** The harness with the suite imported, and the arguments of a run of it *)
Definition demo_loaded : Mach EvalDb ECall := (import_suite_from_yaml "suite.yaml" demo_start).2.

Definition demo_run (title id : option string) : RunArgs := {|
  ra_suite_id := "id1"; ra_agent_title := title; ra_agent_id := id; ra_dialog_id := None;
  ra_name := ""; ra_tag_filter := None; ra_timeout_sec := None; ra_skip_judge := false |}.

Example demo_run_result :
  match (run demo_config (demo_run None (Some "a1")) demo_loaded).1 with
  | Ok r => (rr_status r, dict_get "total_cases" (rr_metrics_summary r),
             dict_get "pass_rate" (rr_metrics_summary r), dict_get "avg_recall" (rr_metrics_summary r))
            = ("COMPLETED", Some (NInt 2), Some (NFloat f1), Some (NFloat (Z_ratio 1 2)))
  | Err _ => False
  end.
Proof. vm_compute. reflexivity. Qed.

Local Open Scope Z_scope.

(** ** The invariant of the store *)

(** A run is in progress, or it has ended with a summary: as failed exactly when it
    carries an error message. *)
Definition run_ended (r : RunRow) : Prop :=
  ru_status r = (if opt_truthy (ru_error_message r) then "FAILED" else "COMPLETED") ∧
  is_Some (ru_completed_at r) ∧ ∃ s, ru_metrics_summary r = Some s ∧ summary_ok s.

Definition run_ok (r : RunRow) : Prop :=
  ru_status r = "RUNNING" ∧ ru_completed_at r = None ∧ ru_metrics_summary r = None ∨ run_ended r.

Record eval_wf (d : EvalDb) : Prop := {
  wf_suites : NoDup (su_suite_id <$> e_suites d);
  wf_names : NoDup (su_name <$> e_suites d);
  wf_cases : NoDup (ca_case_id <$> e_cases d);
  wf_run_ids : NoDup (ru_run_id <$> e_runs d);
  wf_runs : Forall run_ok (e_runs d);
  wf_result_ids : NoDup (re_result_id <$> e_results d);
  wf_results : Forall (λ r, in_scale (re_metrics r)) (e_results d);
  wf_comparisons : NoDup (co_comparison_id <$> e_comparisons d);
  wf_keys : NoDup (ch_cache_key <$> e_cache d);
  wf_cache : Forall (λ c, fin_between f1 f5 (ch_score c)) (e_cache d) }.

Lemma eval_wf_empty : eval_wf eval_empty.
Proof. split; constructor. Qed.

(** A statement on one table leaves the other tables. *)
Ltac wf_table H := destruct H as [? ? ? ? ? ? ? ? ? ?]; split; simpl; try done;
  try first [by apply insert_key | by apply Forall_snoc | by apply delete_where_key_NoDup
            | by apply Forall_delete_where].

Abbreviation scaled_results := (Forall (λ r, in_scale (cr_metrics r))).

Section env.
Context `{EvalEnv}.
Abbreviation keeps m := (sat eval_wf m (λ _, True)).

Lemma keeps_connect {A} (m : E A) Q : sat eval_wf m Q → sat eval_wf (connect m) Q.
Proof. by apply sat_transaction. Qed.

Lemma sat_now Q : (∀ t, Q t) → sat eval_wf now Q.
Proof. intros HQ. by apply sat_observe. Qed.

Lemma sat_uuid Q : (∀ t, Q t) → sat eval_wf _uuid Q.
Proof. intros HQ. by apply sat_observe. Qed.

Lemma keeps_gets {A} (f : EvalDb → A) : keeps (gets f : E A).
Proof. by apply sat_gets. Qed.

Hint Resolve keeps_gets : sat.

(** The steps of an operation that are no statements on the store *)
Ltac keeps_tac :=
  repeat first [exact I | done | progress cbv zeta
    | lazymatch goal with
      | |- sat _ (connect _) _ => apply keeps_connect
      | |- sat _ now _ => apply sat_now; intros ?
      | |- sat _ _uuid _ => apply sat_uuid; intros ?
      end
    | sat1 | solve [eauto with sat nocore]].

(** *** Statements *)

Lemma insert_suite_wf s d d' : eval_wf d → insert_suite s d = Ok d' → eval_wf d'.
Proof. unfold insert_suite. intros Hwf ?. split_matches. wf_table Hwf. Qed.

Lemma insert_case_wf c d d' : eval_wf d → insert_case c d = Ok d' → eval_wf d'.
Proof. unfold insert_case. intros Hwf ?. split_matches. wf_table Hwf. Qed.

Lemma insert_run_wf r d d' : run_ok r → eval_wf d → insert_run r d = Ok d' → eval_wf d'.
Proof. unfold insert_run. intros Hr Hwf ?. split_matches. wf_table Hwf. Qed.

Lemma insert_result_wf r d d' : in_scale (re_metrics r) → eval_wf d → insert_result r d = Ok d' → eval_wf d'.
Proof. unfold insert_result. intros Hr Hwf ?. split_matches. wf_table Hwf. Qed.

Lemma insert_comparison_wf c d d' : eval_wf d → insert_comparison c d = Ok d' → eval_wf d'.
Proof. unfold insert_comparison. intros Hwf ?. split_matches. wf_table Hwf. Qed.

Lemma delete_wf d : eval_wf d →
  ∀ (P : SuiteRow → Prop) `{!∀ x, Decision (P x)} (Q : CaseRow → Prop) `{!∀ x, Decision (Q x)}
    (R : RunRow → Prop) `{!∀ x, Decision (R x)},
  eval_wf (on_suites (delete_where P) d) ∧ eval_wf (on_cases (delete_where Q) d) ∧
  eval_wf (on_runs (delete_where R) d).
Proof. intros Hwf **. split_and!; wf_table Hwf. Qed.

Lemma replace_cache_wf c d : fin_between f1 f5 (ch_score c) → eval_wf d → eval_wf (replace_cache c d).
Proof.
  intros Hc Hwf. wf_table Hwf.
  - apply NoDup_key_snoc; [by apply delete_where_key_NoDup|].
    intros y Hy. by apply elem_of_delete_where in Hy as [_ Hy].
  - apply Forall_snoc; [by apply Forall_delete_where|done].
Qed.

Lemma update_runs_wf (P : RunRow → Prop) `{!∀ x, Decision (P x)} u d :
  (∀ r, run_ok (set_fields u r)) → eval_wf d → eval_wf (on_runs (update_where P (set_fields u)) d).
Proof.
  intros Hu Hwf. wf_table Hwf; [by rewrite update_where_key|]. apply Forall_update_where; [done|]. auto.
Qed.

(** *** Operations *)

Lemma create_suite_wf a b c t p : keeps (create_suite a b c t p).
Proof.
  unfold create_suite. keeps_tac. apply sat_modify_try; [|done]. intros ??. apply insert_suite_wf.
Qed.

Lemma get_suite_wf i : keeps (get_suite i).
Proof. unfold get_suite. keeps_tac. Qed.

Lemma list_suites_wf : keeps list_suites.
Proof. unfold list_suites. keeps_tac. Qed.

Lemma delete_suite_wf i : keeps (delete_suite i).
Proof.
  unfold delete_suite. keeps_tac. apply sat_modify; [|done]. intros d Hd.
  by apply (delete_wf d Hd _ (λ _, False) (λ _, False)).
Qed.

Lemma add_case_wf i a : keeps (add_case i a).
Proof.
  unfold add_case. keeps_tac. apply sat_modify_try; [|done]. intros ??. apply insert_case_wf.
Qed.

Lemma get_cases_wf i : keeps (get_cases i).
Proof. unfold get_cases. keeps_tac. Qed.

Lemma create_run_wf i n a t g s c : keeps (create_run i n a t g s c).
Proof.
  unfold create_run. keeps_tac. apply sat_modify_try; [|done]. intros ??. apply insert_run_wf. by left.
Qed.

Lemma update_run_wf i u : (∀ r, run_ok (set_fields u r)) → keeps (update_run i u).
Proof.
  intros Hu. unfold update_run. keeps_tac. apply sat_modify; [|done]. intros d. by apply update_runs_wf.
Qed.

Lemma get_run_wf i : keeps (get_run i).
Proof. unfold get_run. keeps_tac. Qed.

Lemma list_runs_wf i : keeps (list_runs i).
Proof. unfold list_runs. keeps_tac. Qed.

Lemma delete_run_wf i : keeps (delete_run i).
Proof.
  unfold delete_run. keeps_tac. apply sat_modify; [|done]. intros d Hd.
  by apply (delete_wf d Hd (λ _, False) (λ _, False)).
Qed.

Lemma add_result_wf r c a l t e m : in_scale m → keeps (add_result r c a l t e m).
Proof.
  intros Hm. unfold add_result. keeps_tac. apply sat_modify_try; [|done]. intros ??.
  by apply insert_result_wf.
Qed.

Lemma get_results_wf i : keeps (get_results i).
Proof. unfold get_results. keeps_tac. Qed.

Lemma set_judge_cache_wf k m x r o : fin_between f1 f5 x → keeps (set_judge_cache k m x r o).
Proof.
  intros Hx. unfold set_judge_cache. keeps_tac. apply sat_modify; [|done]. intros d.
  by apply replace_cache_wf.
Qed.

(** A cached score is one the judge may give. *)
Lemma get_judge_cache_range k :
  sat eval_wf (get_judge_cache k) (λ o, ∀ row, o = Some row → fin_between f1 f5 (ch_score row)).
Proof.
  apply keeps_connect, sat_gets. intros d Hd row Hrow.
  apply fetchone_Some in Hrow as [Hrow _]. by apply (proj1 (Forall_forall _ _) (wf_cache d Hd)).
Qed.

Lemma save_comparison_wf n l r : keeps (save_comparison n l r).
Proof.
  unfold save_comparison. keeps_tac. apply sat_modify_try; [|done]. intros ??.
  apply insert_comparison_wf.
Qed.

Hint Resolve create_suite_wf get_suite_wf list_suites_wf delete_suite_wf add_case_wf get_cases_wf
  create_run_wf get_run_wf list_runs_wf delete_run_wf get_results_wf save_comparison_wf : sat.

(** *** The judge and one case *)

Definition judged (o : option double) : Prop := ∀ v, o = Some v → fin_between f1 f5 v.

Lemma call_judge_range config prompt :
  sat eval_wf (_call_judge config prompt) (λ r, judged r.1).
Proof.
  unfold _call_judge. keeps_tac. intros v Hv.
  match goal with Hp : _parse_judge_response _ = Ok ?r |- _ => destruct r as [o j] end.
  simpl in *. subst o. by eapply parse_response_range.
Qed.

Lemma judge_metric_range config q a c m : sat eval_wf (judge_metric config q a c m) judged.
Proof.
  unfold judge_metric. cbv zeta.
  eapply sat_bind; [apply get_judge_cache_range|]. intros [row|] Hrow.
  - apply sat_ret. intros v [= <-]. by apply Hrow.
  - apply sat_catch; [|intros _; by apply sat_ret].
    eapply sat_bind; [apply call_judge_range|]. intros [[v|] r] Hr; simpl in *.
    + apply sat_bind with (λ _, True); [by apply set_judge_cache_wf, Hr|]. intros _ _. by apply sat_ret.
    + apply sat_bind with (λ _, True); [by apply sat_ret|]. intros _ _. by apply sat_ret.
Qed.

Lemma judge_scale m o : m ∈ JUDGE_METRICS → judged o → scale_ok m o.
Proof.
  intros Hm Ho. destruct o as [v|]; [|done]. apply scale_judge; [|by apply Ho].
  assert (Forall (λ m, bool_decide (m ∈ unit_metrics) = false) JUDGE_METRICS) as Hj by by repeat constructor.
  by apply (proj1 (Forall_forall _ _) Hj).
Qed.

Lemma compute_llm_judge_scale config q a l : sat eval_wf (compute_llm_judge config q a l) in_scale.
Proof.
  unfold compute_llm_judge. destruct (_ || _).
  - apply sat_ret. unfold in_scale. rewrite Forall_fmap. by apply Forall_true.
  - apply sat_bind with (λ _, True); [by apply sat_ofres|]. intros ctx _.
    apply sat_folding; [constructor|]. intros acc m Hm Hacc.
    eapply sat_bind; [apply judge_metric_range|]. intros s Hs. apply sat_ret.
    apply Forall_snoc; [done|]. by apply judge_scale.
Qed.

Lemma find_agent_wf t i : keeps (find_agent t i).
Proof. unfold find_agent. keeps_tac. Qed.

Lemma target_case_wf t r c q : keeps (target_case t r c q).
Proof. unfold target_case, ask_agent_case. keeps_tac; apply find_agent_wf. Qed.

Lemma update_metrics_scale new m : in_scale new → in_scale m → in_scale (update_metrics new m).
Proof.
  intros Hnew. revert m. induction Hnew as [|[k o] new Ho _ IH]; intros m Hm; simpl; [done|].
  by apply IH, in_scale_set.
Qed.

Lemma evaluate_case_scale config target run_id case skip :
  sat eval_wf (_evaluate_case config target run_id case skip) (λ r, in_scale (cr_metrics r)).
Proof.
  unfold _evaluate_case. apply sat_bind with (λ _, True); [by apply sat_observe|]. intros t0 _.
  apply sat_bind with (λ _, True); [apply target_case_wf|]. intros asked _.
  apply sat_bind with (λ _, True); [by apply sat_observe|]. intros t1 _. cbv zeta.
  assert (∀ answer chunks error, sat eval_wf
    (det ← ofres (compute_deterministic answer case);
     ret ← ofres (if truthy_json (ca_reference_chunk_ids case)
                  then compute_retrieval chunks (ca_reference_chunk_ids case) else Ok []);
     let m := update_metrics (float_metrics ret) (update_metrics (float_metrics det) []) in
     m ← (if negb skip && negb (opt_truthy error)
          then catch (j ← compute_llm_judge config (ca_question case) answer chunks;
                      mret (update_metrics j m)) (λ _, mret m)
          else mret m);
     mret {| cr_case_id := ca_case_id case; cr_question := ca_question case;
             cr_generated_answer := answer; cr_retrieved_chunks := chunks;
             cr_execution_time_sec := fsub t1 t0; cr_error := error;
             cr_metrics := match compute_composite m with
                           | Some comp => dict_set "composite_score" (Some comp) m
                           | None => m
                           end |}) (λ r, in_scale (cr_metrics r))) as Hmeasured.
  { intros answer chunks error.
    apply sat_bind with (λ det, in_scale (float_metrics det)).
    { apply sat_ofres. intros s. apply deterministic_scale. }
    intros det Hdet. apply sat_bind with (λ ret, in_scale (float_metrics ret)).
    { apply sat_ofres. intros s. destruct (truthy_json _); [|intros [= <-]; constructor].
      apply compute_retrieval_scale. }
    intros ret Hret. cbv zeta.
    assert (in_scale (update_metrics (float_metrics ret) (update_metrics (float_metrics det) [])))
      as Hm by (by apply update_metrics_scale, update_metrics_scale; [..|constructor]).
    apply sat_bind with in_scale; [|intros m Hm'; apply sat_ret; by apply in_scale_composite].
    destruct (_ && _); [|by apply sat_ret]. apply sat_catch; [|intros _; by apply sat_ret].
    eapply sat_bind; [apply compute_llm_judge_scale|]. intros j Hj. apply sat_ret.
    by apply update_metrics_scale. }
  destruct asked; [apply Hmeasured|apply sat_ret; constructor|apply Hmeasured].
Qed.

(** *** A run *)

Lemma run_case_scale config target run_id skip acc case :
  scaled_results acc →
  sat eval_wf (run_case config target run_id skip acc case) (λ r, scaled_results r.1).
Proof.
  intros Hacc. unfold run_case.
  apply sat_bind with (λ r, ∀ x, r = inl x → in_scale (cr_metrics x)).
  - apply sat_catch; [|intros e; by apply sat_ret]. apply sat_fmap.
    eapply sat_conseq; [|apply evaluate_case_scale]. by intros a Ha x [= <-].
  - intros [x|e] Hx; [|by apply sat_ret]. specialize (Hx x eq_refl).
    assert (scaled_results (acc ++ [x])) by (by apply Forall_snoc).
    apply sat_catch; [|intros e; by apply sat_ret].
    apply sat_bind with (λ _, True); [by apply add_result_wf|]. intros _ _. by apply sat_ret.
Qed.

(** What a run does once its row is in the store *)
Lemma finish_wf run_id status summary t msg :
  status = (if opt_truthy msg then "FAILED" else "COMPLETED") → summary_ok summary →
  keeps (update_run run_id {|
    uu_status := Some status; uu_metrics_summary := Some summary; uu_completed_at := Some (Some t);
    uu_error_message := Some msg; uu_dsl_snapshot := None |}).
Proof.
  intros Hs Hsum. apply update_run_wf. intros r. right. split; [done|]. split; [by eexists|]. eauto.
Qed.

Hint Resolve find_agent_wf : sat.

Lemma run_cases_wf config a target run_id cases : keeps (run_cases config a target run_id cases).
Proof.
  unfold run_cases. eapply sat_bind.
  { apply (sat_folding_until _ (λ l, scaled_results l)); [constructor|]. intros b x. apply run_case_scale. }
  intros r Hr. cbv zeta. apply sat_bind with summary_ok.
  { apply sat_ofres. intros s. by apply compute_summary_scale. }
  intros s Hs. keeps_tac. by apply finish_wf.
Qed.
Hint Resolve run_cases_wf : sat.

Lemma run_wf config a : keeps (run config a).
Proof. unfold run. keeps_tac. Qed.

(** *** Requests *)

Lemma load_suite_wf path : keeps (load_suite_from_yaml path).
Proof. unfold load_suite_from_yaml. keeps_tac. Qed.
Hint Resolve load_suite_wf : sat.

Lemma import_suite_wf path : keeps (import_suite_from_yaml path).
Proof. unfold import_suite_from_yaml. keeps_tac. Qed.

Lemma single_report_wf i : keeps (generate_single_run_report i).
Proof. unfold generate_single_run_report. keeps_tac. Qed.

Lemma load_run_data_wf i : keeps (load_run_data i).
Proof. unfold load_run_data. keeps_tac. Qed.
Hint Resolve load_run_data_wf : sat.

Lemma comparison_report_wf l : keeps (generate_comparison_report l).
Proof. unfold generate_comparison_report. keeps_tac. Qed.

Lemma export_csv_wf w i : keeps (export_results_csv w i).
Proof. unfold export_results_csv. keeps_tac. Qed.

Hint Resolve import_suite_wf single_report_wf comparison_report_wf export_csv_wf : sat.

(** The handlers, by the operations they call *)
Ltac handler := unfold with_body, guarded, _ok, _err, reply; keeps_tac.

Lemma get_handlers_wf csv rq :
  keeps _list_suites ∧ (∀ i, keeps (_get_suite i)) ∧ keeps (_list_runs rq) ∧ (∀ i, keeps (_get_run i)) ∧
  (∀ i, keeps (_get_run_results i)) ∧ (∀ i, keeps (_export_run csv rq i)) ∧ keeps _list_agents.
Proof.
  unfold _list_suites, _get_suite, _list_runs, _get_run, _get_run_results, _export_run, _list_agents.
  split_and!; intros; handler.
Qed.

Lemma post_handlers_wf rq :
  keeps (_create_suite rq) ∧ (∀ i, keeps (_add_case rq i)) ∧ keeps (_start_run rq) ∧ keeps (_compare_runs rq).
Proof. unfold _create_suite, _add_case, _start_run, _compare_runs. split_and!; intros; handler. Qed.

Lemma delete_handlers_wf : (∀ i, keeps (_delete_suite i)) ∧ (∀ i, keeps (_delete_run i)).
Proof. unfold _delete_suite, _delete_run. split; intros; handler. Qed.

Lemma eval_handle_wf csv rq : keeps (handle csv rq).
Proof.
  assert (∀ m s, keeps (_err m s)) as Herr by (intros; handler).
  destruct (get_handlers_wf csv rq) as (? & ? & ? & ? & ? & ? & ?).
  destruct (post_handlers_wf rq) as (? & ? & ? & ?). destruct delete_handlers_wf as [? ?].
  unfold handle, do_GET, do_POST, do_DELETE. cbv zeta.
  repeat case_match; first [done | by handler | auto].
Qed.
End env.

(** C4. Whatever requests are served and whatever runs are carried out, in any
    order, from an empty store: identifiers, suite names and cache keys stay
    unique; a run is in progress without a summary or has ended with one, failed
    exactly when it has an error message; every score stored is a number in its
    scale (0 to 1, or 1 to 5 for the judge), also when the judge, the agents and
    the suites answer anything at all. *)
Theorem harness_safe `{EvalEnv} config csv h :
  harness_reaches config csv h → eval_wf (m_state (h_mach h)).
Proof.
  intros Hr. assert (∀ h h', rtc (harness_step config csv) h h' →
    eval_wf (m_state (h_mach h)) → eval_wf (m_state (h_mach h'))) as Hstep.
  { clear. induction 1 as [|h1 h2 h3 Hs _ IH]; [done|]. intros Hwf. apply IH.
    destruct Hs as [rq w jobs|a w jobs1 jobs2]; simpl in *.
    - by apply (eval_handle_wf csv rq w).
    - by apply (run_wf config a w). }
  eapply Hstep; [exact Hr|]. apply eval_wf_empty.
Qed.

(** ** The end of a run *)

(** The tables of the runs and of the cases stay as they are. *)
Definition same_runs (d d' : EvalDb) : Prop := e_runs d' = e_runs d ∧ e_cases d' = e_cases d.
#[export] Instance same_runs_preorder : PreOrder same_runs.
Proof. split; [done|]. unfold same_runs. intros ??? [-> ->] [-> ->]. done. Qed.

Section finish.
Context `{EvalEnv}.

Abbreviation quiet m := (runs (on_state ECall same_runs) m).

Lemma quiet_connect {A} (m : E A) : quiet m → quiet (connect m).
Proof. by apply runs_transaction. Qed.
Lemma quiet_now : quiet now.
Proof. apply runs_observe. Qed.
Lemma quiet_uuid : quiet _uuid.
Proof. apply runs_observe. Qed.
Hint Resolve quiet_now quiet_uuid : runs.

Ltac quiet_tac :=
  repeat first [done | progress cbv zeta
    | lazymatch goal with |- runs _ (connect _) => apply quiet_connect end
    | runs1 | solve [eauto with runs nocore]].

Lemma quiet_find_agent t i : quiet (find_agent t i).
Proof. unfold find_agent. quiet_tac. Qed.
Hint Resolve quiet_find_agent : runs.

Lemma quiet_get_suite i : quiet (get_suite i).
Proof. unfold get_suite. quiet_tac. Qed.
Lemma quiet_get_cases i : quiet (get_cases i).
Proof. unfold get_cases. quiet_tac. Qed.
Hint Resolve quiet_get_suite quiet_get_cases : runs.

Lemma quiet_target_case t r c q : quiet (target_case t r c q).
Proof. unfold target_case, ask_agent_case. quiet_tac. Qed.

Lemma quiet_judge_metric config q a c m : quiet (judge_metric config q a c m).
Proof.
  unfold judge_metric, get_judge_cache, _call_judge, set_judge_cache. quiet_tac.
Qed.
Hint Resolve quiet_target_case quiet_judge_metric : runs.

Lemma quiet_evaluate_case config t i c s : quiet (_evaluate_case config t i c s).
Proof. unfold _evaluate_case, compute_llm_judge. quiet_tac. Qed.

Lemma quiet_add_result r c a l t e m : quiet (add_result r c a l t e m).
Proof.
  unfold add_result. quiet_tac. apply runs_modify_try. unfold insert_result. intros d d'.
  by repeat case_match; intros [= <-].
Qed.
Hint Resolve quiet_evaluate_case quiet_add_result : runs.

Lemma quiet_run_case config t i s acc c : quiet (run_case config t i s acc c).
Proof. unfold run_case. quiet_tac. Qed.

(** An iteration raises nothing. *)
Lemma run_case_total config t i s acc c w :
  ∃ r w', run_case config t i s acc c w = (Ok r, w') ∧ (length r.1 ≤ S (length acc))%nat.
Proof.
  unfold run_case, mbind, Act_bind, catch, fmap, Act_fmap. simpl.
  destruct (_evaluate_case config t i c s w) as [[x|e] w1]; simpl; [|by eexists _, _; split; [reflexivity|simpl; lia]].
  match goal with |- context [add_result ?a ?b ?c ?d ?e ?f ?g w1] =>
    destruct (add_result a b c d e f g w1) as [[y|e'] w2] end;
    eexists _, _; (split; [reflexivity|]); simpl; rewrite length_app; simpl; lia.
Qed.

Lemma run_loop config t i s cases : ∀ acc w,
  eval_wf (m_state w) → scaled_results acc →
  ∃ r w', folding_until (run_case config t i s) acc cases w = (Ok r, w') ∧
    eval_wf (m_state w') ∧ same_runs (m_state w) (m_state w') ∧ scaled_results r.1 ∧
    (length r.1 ≤ length acc + length cases)%nat.
Proof.
  induction cases as [|c cases IH]; intros acc w Hwf Hacc; cbn [folding_until].
  - exists (acc, None), w. split_and!; try done; simpl; lia.
  - destruct (run_case_total config t i s acc c w) as (r & w1 & Hr & Hlen).
    pose proof (quiet_run_case config t i s acc c w) as Hq.
    destruct (run_case_scale config t i s acc c Hacc w Hwf) as [Hwf1 Hs].
    unfold on_state in Hq. rewrite Hr in Hq, Hwf1, Hs. specialize (Hs r eq_refl). simpl in *.
    rewrite (act_ok _ _ _ _ _ Hr). destruct r as [acc1 [e|]]; simpl in *.
    + exists (acc1, Some e), w1. split_and!; try done. simpl. lia.
    + destruct (IH acc1 w1 Hwf1 Hs) as (r' & w' & Hr' & Hwf' & Hq' & Hs' & Hl').
      exists r', w'. split_and!; try done; [by etrans|lia].
Qed.

(** What a run comes to, from a store whose runs are [runs0] *)
Definition run_outcome (a : RunArgs) (runs0 : list RunRow)
    (o : res RunResult * Mach EvalDb ECall) : Prop :=
  (∃ e, o.1 = Err e) ∧ e_runs (m_state o.2) = runs0 ∨
  ∃ rr row, o.1 = Ok rr ∧ e_runs (m_state o.2) = runs0 ++ [row] ∧
    ru_run_id row = rr_run_id rr ∧ ru_suite_id row = ra_suite_id a ∧ run_ended row ∧
    ru_status row = rr_status rr ∧ ru_metrics_summary row = Some (rr_metrics_summary rr).

Lemma update_last_run run_id u runs0 row :
  NoDup (ru_run_id <$> (runs0 ++ [row])) → ru_run_id row = run_id →
  update_where (λ r, ru_run_id r = run_id) (set_fields u) (runs0 ++ [row]) = runs0 ++ [set_fields u row].
Proof.
  intros Hnd Hid. unfold update_where. rewrite fmap_app. simpl. rewrite decide_True by done. f_equal.
  apply update_where_id. intros x Hx Hxid. rewrite fmap_app in Hnd.
  apply NoDup_app in Hnd as (_ & Hnd & _). eapply Hnd; [by apply list_elem_of_fmap_2|].
  rewrite Hxid, <-Hid. by left.
Qed.

Lemma run_cases_ends config a target run_id cases w runs0 row :
  eval_wf (m_state w) → Z.of_nat (length cases) < 2 ^ 50 → e_runs (m_state w) = runs0 ++ [row] →
  ru_run_id row = run_id → ru_suite_id row = ra_suite_id a →
  run_outcome a runs0 (run_cases config a target run_id cases w).
Proof.
  intros Hwf Hlen Hruns Hid Hsid. right. unfold run_cases.
  destruct (run_loop config target run_id (ra_skip_judge a) cases [] w Hwf ltac:(constructor))
    as (r & w1 & Hr & Hwf1 & [Hq _] & Hs & Hl). rewrite (act_ok _ _ _ _ _ Hr).
  destruct (compute_summary_ok r.1 (ec_default_pass_threshold config) Hs) as (s & Hsum & Hsok & _);
    [simpl in Hl; lia|]. cbv zeta. rewrite Hsum. act_goal.
  eexists _, _. split; [reflexivity|]. split_and!.
  - simpl. rewrite Hq, Hruns. apply update_last_run; [|done].
    rewrite <-Hruns, <-Hq. apply Hwf1.
  - done.
  - done.
  - split; [done|]. split; [by eexists|]. eauto.
  - done.
  - done.
Qed.

(** The steps before the row of the run is created *)
Definition before_run (d0 : EvalDb) (w : Mach EvalDb ECall) : Prop :=
  eval_wf (m_state w) ∧ same_runs d0 (m_state w).

Lemma outcome_fails a d0 e w : before_run d0 w → run_outcome a (e_runs d0) (fails e w).
Proof. intros [_ [Hr _]]. left. split; [by eexists|done]. Qed.

Lemma outcome_bind {A} a d0 (m : E A) f w :
  before_run d0 w → quiet m → sat eval_wf m (λ _, True) →
  (∀ x w', m w = (Ok x, w') → before_run d0 w' → run_outcome a (e_runs d0) (f x w')) →
  run_outcome a (e_runs d0) ((m ≫= f) w).
Proof.
  intros [Hwf Hs] Hq Hk Hf. specialize (Hq w). destruct (Hk w Hwf) as [Hwf' _].
  unfold mbind, Act_bind. destruct (m w) as [[x|e] w']; simpl in *.
  - apply Hf; [done|]. split; [done|]. by etrans.
  - left. split; [by eexists|]. simpl. unfold on_state, same_runs in *. naive_solver congruence.
Qed.

Lemma length_cases_of i d : (length (cases_of i d) ≤ length (e_cases d))%nat.
Proof. unfold cases_of. rewrite (Permutation_length (isort_Permutation _ _)). apply length_filter. Qed.

Lemma length_filter_res {A} (f : A → res bool) l l' :
  filter_res f l = Ok l' → (length l' ≤ length l)%nat.
Proof.
  revert l'. induction l as [|x l IH]; intros l'; simpl; [by intros [= <-]|].
  destruct (f x) as [b|]; [|done]. destruct (filter_res f l) as [l1|]; [|done].
  intros [= <-]. specialize (IH l1 eq_refl). destruct b; simpl; lia.
Qed.

Lemma length_select tags l l' : select_cases tags l = Ok l' → (length l' ≤ length l)%nat.
Proof.
  unfold select_cases. repeat case_match; try (by intros [= <-]). apply length_filter_res.
Qed.

(** Creating the row adds it and nothing else. *)
Lemma create_run_row i n ag t g s c w :
  (∃ e, (create_run i n ag t g s c w).1 = Err e) ∧
    e_runs (m_state (create_run i n ag t g s c w).2) = e_runs (m_state w) ∨
  ∃ id w' row, create_run i n ag t g s c w = (Ok id, w') ∧
    e_runs (m_state w') = e_runs (m_state w) ++ [row] ∧ ru_run_id row = id ∧ ru_suite_id row = i.
Proof.
  unfold create_run. act_goal.
  unfold connect, transaction, modify_try, mbind, Act_bind, mret, Act_ret, insert_run; simpl.
  destruct (fetchone _ (e_runs (m_state w))); simpl; [left; split; [by eexists|done]|].
  right. eexists _, _, _. by split_and!.
Qed.

Lemma keeps_mret {A} (x : A) : sat eval_wf (mret x : E A) (λ _, True).
Proof. by apply sat_ret. Qed.

(** C16. A run that nothing interrupts never stays in progress: either it raises
    before its row exists, and the runs are what they were, or it returns, and has
    added one row for the suite that has ended, as completed or as failed, with its
    completion time and with the summary and the status it returns. *)
Theorem run_finishes config a w :
  eval_wf (m_state w) → Z.of_nat (length (e_cases (m_state w))) < 2 ^ 50 →
  run_outcome a (e_runs (m_state w)) (run config a w).
Proof.
  intros Hwf Hlen. assert (before_run (m_state w) w) as H0 by done.
  revert H0 Hlen. generalize (m_state w) at 1 2 3 as d0. intros d0 H0 Hlen. clear Hwf.
  unfold run. cbv zeta. apply outcome_bind; [done|apply quiet_get_suite|apply get_suite_wf|].
  intros [suite|] w1 _ H1; [|by apply outcome_fails].
  apply outcome_bind; [done|apply quiet_get_cases|apply get_cases_wf|].
  intros cases w2 Hcases H2. assert (length cases ≤ length (e_cases d0))%nat as Hlc.
  { injection Hcases as <- _. destruct H1 as [_ [_ <-]]. apply length_cases_of. }
  clear Hcases. destruct (_ && _); [by apply outcome_fails|].
  apply outcome_bind; [done| | |].
  { quiet_tac. }
  { destruct (_ && _); [|apply keeps_mret].
    apply sat_bind with (λ _, True); [apply find_agent_wf|].
    intros [ag|] _; [apply keeps_mret|apply sat_fails]. }
  intros agent w3 _ H3. apply outcome_bind; [done|apply runs_ofres|by apply sat_ofres|].
  intros chosen w4 Hchosen H4. injection Hchosen as Hchosen _. apply length_select in Hchosen.
  destruct chosen as [|c l]; [by apply outcome_fails|].
  apply outcome_bind; [done|apply runs_ofres|by apply sat_ofres|]. intros dsl w5 _ [Hwf5 [Hr5 _]].
  match goal with |- context [create_run ?i ?n ?ag ?t ?g ?s ?c] =>
    pose proof (create_run_row i n ag t g s c w5) as Hrow;
    pose proof (create_run_wf i n ag t g s c w5 Hwf5) as [Hwf6 _];
    destruct Hrow as [[[e He] Hsame]|(id & w6 & row & Hrow & Hruns & Hid & Hsid)] end.
  - unfold mbind at 1, Act_bind. destruct (create_run _ _ _ _ _ _ _ w5) as [o w6]. simpl in *. subst o.
    left. split; [by eexists|]. simpl. congruence.
  - rewrite (act_ok _ _ _ _ _ Hrow). rewrite Hrow in Hwf6. rewrite Hr5 in Hruns.
    eapply run_cases_ends; [done|lia|done..].
Qed.
End finish.

Lemma run_finishes_witness :
  run_outcome (demo_run None (Some "a1")) [] (run demo_config (demo_run None (Some "a1")) demo_loaded) ∧
  is_Some (match (run demo_config (demo_run None (Some "a1")) demo_loaded).1 with
           | Ok r => Some r | Err _ => None end).
Proof.
  split; [|by vm_compute; eexists].
  apply (run_finishes demo_config (demo_run None (Some "a1")) demo_loaded); [|by vm_compute].
  apply (import_suite_wf "suite.yaml" demo_start), eval_wf_empty.
Defined.

Lemma harness_safe_witness :
  ∃ h, harness_reaches demo_config (λ _, "") h ∧ length (e_suites (m_state (h_mach h))) = 1%nat ∧
    eval_wf (m_state (h_mach h)).
Proof.
  set (rq := {| eq_method := "POST"; eq_parts := at_suites; eq_params := [];
                eq_body := Some (json_dumps (JObj [("yaml_path", JStr "suite.yaml")])) |}).
  eexists. split; [|split].
  - eapply rtc_once. exact (step_request demo_config (λ _, "") rq demo_start []).
  - vm_compute. reflexivity.
  - apply (harness_safe demo_config (λ _, "")). eapply rtc_once.
    exact (step_request demo_config (λ _, "") rq demo_start []).
Defined.

(** ** The cache of the judge *)

Section judge.
Context `{EvalEnv}.

Lemma replace_cache_lookup c d : cache_of (ch_cache_key c) (replace_cache c d) = Some c.
Proof.
  unfold cache_of, replace_cache, on_cache. simpl. rewrite fetchone_app_None.
  - unfold fetchone. rewrite filter_cons. simpl. by rewrite decide_True.
  - apply fetchone_None. intros x Hx. by apply elem_of_delete_where in Hx as [_ Hx].
Qed.

Lemma get_judge_cache_run k w : get_judge_cache k w = (Ok (cache_of k (m_state w)), w).
Proof. done. Qed.

(** Storing a score puts a row with it under its key. *)
Lemma set_judge_cache_run k m x r o w w' :
  set_judge_cache k m x r o w = (Ok (), w') →
  ∃ row, cache_of k (m_state w') = Some row ∧ ch_score row = x.
Proof.
  unfold set_judge_cache. act_goal. unfold connect, transaction.
  unfold mbind, Act_bind, ofres. destruct (bind_text r) as [o'|e]; [|done]. simpl. intros [= <-].
  eexists. split; [apply (replace_cache_lookup {| ch_cache_key := k; ch_metric_name := m; ch_score := x;
    ch_reasoning := o'; ch_model := Some o; ch_created_at := _ |})|done].
Qed.

Lemma judge_metric_caches config q a c m w s w1 :
  judge_metric config q a c m w = (Ok (Some s), w1) →
  ∃ row, cache_of (_cache_key q a c m) (m_state w1) = Some row ∧ ch_score row = s.
Proof.
  unfold judge_metric. cbv zeta. rewrite (act_ok _ _ _ _ _ (get_judge_cache_run _ w)). cbv beta.
  destruct (cache_of _ _) as [row|] eqn:Hrow; [intros [= <- <-]; eauto|].
  unfold catch, mbind at 1, Act_bind.
  destruct (_call_judge _ _ w) as [[[o r]|e] w2]; [|done]. destruct o as [x|]; [|done]. simpl.
  unfold mbind, Act_bind. destruct (set_judge_cache _ _ _ _ _ w2) as [[[]|e] w3] eqn:Hset; [|done].
  intros [= <- <-]. by eapply set_judge_cache_run.
Qed.

(** A score of the judge is asked for once: after a call that scored an answer,
    any later call for the same question, answer, context and metric, under any
    configuration, gives the same score, calls nothing and leaves the store as it
    is, as long as the cache has kept its rows. *)
Theorem judge_cached config config' q a c m w s w1 w2 :
  judge_metric config q a c m w = (Ok (Some s), w1) → e_cache (m_state w2) = e_cache (m_state w1) →
  judge_metric config' q a c m w2 = (Ok (Some s), w2).
Proof.
  intros (row & Hrow & <-)%judge_metric_caches Hc. unfold judge_metric. cbv zeta.
  rewrite (act_ok _ _ _ _ _ (get_judge_cache_run _ w2)). cbv beta. unfold cache_of in *.
  by rewrite Hc, Hrow.
Qed.

(** *** A verdict *)

Lemma strip_braces b : py_strip (of_bytes ("{"%char :: b ++ ["}"%char])) = of_bytes ("{"%char :: b ++ ["}"%char]).
Proof.
  unfold py_strip. rewrite to_of_bytes. unfold bytes_lstrip, bytes_rstrip.
  cbn [length lstrip_encs]. change (strip_one_of ws_encodings ("{"%char :: ?t)) with (@None bytes).
  cbv iota. set (l := "{"%char :: b). change ("{"%char :: b ++ ["}"%char]) with (l ++ ["}"%char]).
  rewrite length_app, Nat.add_comm, rev_app_distr. cbn [length Nat.add rev app lstrip_encs].
  change (strip_one_of (map (@rev ascii) ws_encodings) ("}"%char :: ?t)) with (@None bytes).
  cbv iota. f_equal. change ("}"%char :: rev l) with (["}"%char] ++ rev l).
  by rewrite rev_app_distr, rev_involutive.
Qed.

Lemma parse_dumped n reasoning :
  1 ≤ n ≤ 5 →
  _parse_judge_response (json_dumps (JObj [("score", JInt n); ("reasoning", JStr reasoning)])) =
  Ok (Some (double_of_Z n), JStr reasoning).
Proof.
  intros Hn. unfold _parse_judge_response. set (j := JObj _).
  assert (py_strip (json_dumps j) = json_dumps j) as ->.
  { unfold json_dumps, j. cbn [dumps_bytes map]. apply strip_braces. }
  unfold parse_verdict. rewrite json_loads_dumps; unfold j.
  2: { simpl. split; [|done]. repeat constructor; set_solver. }
  assert (n = 1 ∨ n = 2 ∨ n = 3 ∨ n = 4 ∨ n = 5) as Hc by lia.
  by destruct Hc as [->|[->|[->|[->| ->]]]].
Qed.
End judge.

(** A verdict the judge writes as JSON is read back: with no cached score, an
    answer of the model that is the JSON of a score between 1 and 5 and a reason
    makes the metric that score, with one call, of the prompt of the metric, and
    one row in the cache with the score and the reason. *)
Theorem judge_roundtrip `{EvalEnv} config q a c m n reasoning data w :
  let url := py_rstrip "/"%char (ec_judge_base_url config) +:+ "/chat/completions" in
  let body := judge_body config (judge_prompt m q a c) in
  1 ≤ n ≤ 5 → cache_of (_cache_key q a c m) (m_state w) = None →
  ev_judge (m_tick w) url body = Ok data →
  completion_content data =
    Ok (JStr (json_dumps (JObj [("score", JInt n); ("reasoning", JStr reasoning)]))) →
  ∃ w' row, judge_metric config q a c m w = (Ok (Some (double_of_Z n)), w') ∧
    m_calls w' = m_calls w ++ [ECallJudge url body] ∧
    cache_of (_cache_key q a c m) (m_state w') = Some row ∧ ch_metric_name row = m ∧
    ch_score row = double_of_Z n ∧ ch_reasoning row = Some reasoning.
Proof.
  intros url body Hn Hnone Hjudge Hdata.
  assert (_call_judge config (judge_prompt m q a c) w =
    (Ok (Some (double_of_Z n), JStr reasoning), record_call (ECallJudge url body) w)) as Hcall.
  { unfold _call_judge, call, mbind, Act_bind. fold url body. rewrite Hjudge.
    unfold ofres. rewrite Hdata. by rewrite parse_dumped. }
  unfold judge_metric. cbv zeta. rewrite (act_ok _ _ _ _ _ (get_judge_cache_run _ w)). cbv beta.
  rewrite Hnone. unfold catch. rewrite (act_ok _ _ _ _ _ Hcall). cbv beta. simpl.
  eexists _, _. split; [reflexivity|]. split; [reflexivity|].
  split; [eapply (replace_cache_lookup {| ch_cache_key := _; ch_metric_name := _; ch_score := _;
    ch_reasoning := _; ch_model := _; ch_created_at := _ |})|by split_and!].
Qed.

Definition demo_judged : Mach EvalDb ECall :=
  (judge_metric demo_config "q" "a" "c" "coherence" demo_loaded).2.

Lemma judge_cached_witness :
  judge_metric demo_config "q" "a" "c" "coherence" demo_judged =
  (Ok (Some (double_of_Z 4)), demo_judged).
Proof.
  refine (judge_cached demo_config demo_config "q" "a" "c" "coherence" demo_loaded (double_of_Z 4)
            demo_judged demo_judged _ eq_refl).
  vm_compute. reflexivity.
Defined.

Lemma judge_roundtrip_witness :
  ∃ w' row, judge_metric demo_config "q" "a" "c" "coherence" demo_loaded = (Ok (Some (double_of_Z 4)), w') ∧
    m_calls w' = m_calls demo_loaded ++
      [ECallJudge "http://judge/v1/chat/completions" (judge_body demo_config (judge_prompt "coherence" "q" "a" "c"))] ∧
    cache_of (_cache_key "q" "a" "c" "coherence") (m_state w') = Some row ∧ ch_metric_name row = "coherence" ∧
    ch_score row = double_of_Z 4 ∧ ch_reasoning row = Some "fine".
Proof.
  refine (judge_roundtrip demo_config "q" "a" "c" "coherence" 4 "fine"
    (JObj [("choices", JArr [JObj [("message",
       JObj [("content", JStr (json_dumps (demo_verdict 4)))])]])]) demo_loaded _ _ eq_refl eq_refl).
  - lia.
  - vm_compute. reflexivity.
Defined.

(** ** What deletions and imports leave *)

(** A computation that raises and leaves the runs *)
Definition no_run (d0 : EvalDb) {A} (o : res A * Mach EvalDb ECall) : Prop :=
  (∃ e, o.1 = Err e) ∧ e_runs (m_state o.2) = e_runs d0.

Section leftovers.
Context `{EvalEnv}.

(** Deleting a suite deletes its row alone: its cases, its runs and their
    results stay in the store, reachable by their identifiers, although the schema
    declares them to go with it; and no run of the suite can start again. *)
Theorem delete_suite_orphans config a w :
  let sid := ra_suite_id a in
  let w1 := (delete_suite sid w).2 in
  suite_of sid (m_state w1) = None ∧
  e_cases (m_state w1) = e_cases (m_state w) ∧ e_runs (m_state w1) = e_runs (m_state w) ∧
  e_results (m_state w1) = e_results (m_state w) ∧
  (get_cases sid w1).1 = Ok (cases_of sid (m_state w)) ∧
  run config a w1 = (Err (ValueError ("Suite not found: " +:+ sid)), w1).
Proof.
  cbv zeta. set (w1 := (delete_suite (ra_suite_id a) w).2).
  assert (suite_of (ra_suite_id a) (m_state w1) = None) as Hnone.
  { apply fetchone_None. intros x Hx. by apply elem_of_delete_where in Hx as [_ Hx]. }
  split_and!; try done. unfold run. cbv zeta.
  assert (get_suite (ra_suite_id a) w1 = (Ok None, w1)) as Hget.
  { unfold get_suite, connect, transaction, gets. by rewrite Hnone. }
  by rewrite (act_ok _ _ _ _ _ Hget).
Qed.

Lemma no_run_bind {A B} d0 (m : E A) (f : A → E B) w :
  same_runs d0 (m_state w) → runs (on_state ECall same_runs) m →
  (∀ x w', m w = (Ok x, w') → same_runs d0 (m_state w') → no_run d0 (f x w')) →
  no_run d0 ((m ≫= f) w).
Proof.
  intros Hs Hq Hf. specialize (Hq w). unfold mbind, Act_bind. unfold on_state, same_runs in *.
  destruct (m w) as [[x|e] w']; simpl in *.
  - apply Hf; [done|]. naive_solver congruence.
  - split; [by eexists|]. simpl. naive_solver congruence.
Qed.

Lemma no_run_fails {A} d0 e w : same_runs d0 (m_state w) → no_run d0 ((fails e : E A) w).
Proof. intros [Hr _]. by split; [eexists|]. Qed.

(** A run that names its agent by title creates no run when the agent's [dsl] is
    an object of the SDK: the snapshot of the [dsl] is taken with [json.dumps],
    which refuses it, and the run raises, whatever the suite. *)
Theorem titled_run_raises config a w :
  opt_truthy (ra_agent_title a) = true → opt_truthy (ra_agent_id a) = false →
  (∀ n l ag, ev_agents n (ra_agent_title a) None 1 = Ok l → ag ∈ l → to_json (default PNone (ag_dsl ag)) = None) →
  no_run (m_state w) (run config a w).
Proof.
  intros Ht Hid Hag. assert (same_runs (m_state w) (m_state w)) as H0 by done. revert H0.
  generalize (m_state w) at 1 3 as d0. intros d0 H0. unfold run. cbv zeta.
  apply no_run_bind; [done|apply quiet_get_suite|]. intros [suite|] w1 _ H1; [|by apply no_run_fails].
  apply no_run_bind; [done|apply quiet_get_cases|]. intros cases w2 _ H2.
  destruct (_ && bool_decide _); [by apply no_run_fails|]. rewrite Ht, Hid. simpl negb. cbv iota.
  unfold andb. cbv iota. apply no_run_bind; [done| |].
  { apply runs_bind; [apply quiet_find_agent|]. intros [ag|]; [apply runs_ret|apply runs_fails]. }
  intros agent w3 Hagent H3. act_inv Hagent found w4 Hfound.
  unfold find_agent in Hfound. act_inv Hfound l w5 Hl. injection Hl as Hl <-. injection Hfound as <- <-.
  destruct l as [|ag l]; [done|]. injection Hagent as <- <-.
  apply no_run_bind; [done|apply runs_ofres|]. intros chosen w6 _ H6.
  destruct chosen as [|c chosen]; [by apply no_run_fails|].
  rewrite (Hag _ _ _ Hl) by left. by apply no_run_fails.
Qed.

(** The row [row] holds the case [case] of a file. *)
Definition imported (sid : string) (default_tags case : json) (row : CaseRow) : Prop :=
  ∃ kvs, case = JObj kvs ∧ ca_suite_id row = sid ∧
    bind_not_null "eval_cases.question" (opt_json "question" kvs) = Ok (ca_question row) ∧
    bind_text (opt_json "reference_answer" kvs) = Ok (ca_reference_answer row) ∧
    ca_expected_output_contains row = opt_json "expected_output_contains" kvs ∧
    ca_expected_output_regex row = opt_json "expected_output_regex" kvs ∧
    ca_reference_chunk_ids row = opt_json "reference_chunk_ids" kvs ∧
    ca_tags row = json_or (json_or (opt_json "tags" kvs) default_tags) (JArr []).

(** What the import of cases adds to a store *)
Definition adds_cases (d d' : EvalDb) (rows : list CaseRow) : Prop :=
  e_suites d' = e_suites d ∧ e_cases d' = e_cases d ++ rows.

Lemma add_case_row sid dt kvs w :
  let o := add_case sid (case_args_of_yaml dt kvs) w in
  (∃ e, o.1 = Err e) ∧ m_state o.2 = m_state w ∨
  (∃ id, o.1 = Ok id) ∧ ∃ row, adds_cases (m_state w) (m_state o.2) [row] ∧ imported sid dt (JObj kvs) row.
Proof.
  cbv zeta. unfold add_case, adds_cases. set (a := case_args_of_yaml dt kvs).
  assert (∃ j w1, (if truthy_json (cg_case_id a) then mret (cg_case_id a) else JStr <$> _uuid) w =
    (Ok j, w1) ∧ m_state w1 = m_state w) as (j & w1 & Hj & Hw1).
  { destruct (truthy_json _); by eexists _, _. }
  rewrite (act_ok _ _ _ _ _ Hj). act_goal. rewrite <-Hw1.
  unfold connect, transaction, mbind, Act_bind, ofres, modify_try, mret, Act_ret, insert_case.
  destruct (bind_not_null "eval_cases.case_id" j) as [cid|e]; [|left; split; [by eexists|done]].
  destruct (bind_not_null "eval_cases.question" _) as [q|e] eqn:Hq; [|left; split; [by eexists|done]].
  destruct (bind_text _) as [ref|e] eqn:Href; [|left; split; [by eexists|done]].
  simpl. destruct (fetchone _ _); [left; split; [by eexists|done]|].
  right. split; [by eexists|]. eexists. split; [by split|]. eexists. by split_and!.
Qed.

Lemma import_cases sid dt cases : ∀ w,
  let o := each (λ case, match case with
    | JObj kvs => add_case sid (case_args_of_yaml dt kvs) ;; mret ()
    | _ => fails exn_type
    end) cases w in
  ∃ rows, adds_cases (m_state w) (m_state o.2) rows ∧
    Forall2 (imported sid dt) (take (length rows) cases) rows ∧
    (o.1 = Ok () ∧ length rows = length cases ∨ ∃ e, o.1 = Err e).
Proof.
  induction cases as [|case cases IH]; intros w o.
  - exists []. split; [split; [done|by rewrite app_nil_r]|]. split; [constructor|by left].
  - assert (∀ e w', o = (Err e, w') → m_state w' = m_state w →
      ∃ rows, adds_cases (m_state w) (m_state o.2) rows ∧
      Forall2 (imported sid dt) (take (length rows) (case :: cases)) rows ∧
      (o.1 = Ok () ∧ length rows = length (case :: cases) ∨ ∃ e, o.1 = Err e)) as Hstop.
    { intros e w' -> Hw'. exists []. split; [split; simpl; rewrite Hw'; [done|by rewrite app_nil_r]|].
      split; [constructor|right; by eexists]. }
    subst o. cbv zeta in *. simpl each in *.
    destruct case as [| | | | | |kvs]; try (by eapply Hstop).
    pose proof (add_case_row sid dt kvs w) as Hrow. cbv zeta in Hrow.
    destruct (add_case sid (case_args_of_yaml dt kvs) w) as [[id|e] w1] eqn:Hadd; simpl in Hrow.
    + destruct Hrow as [[[e [=]] _]|[_ (row & [Hsu Hca] & Himp)]].
      clear Hstop. assert ((add_case sid (case_args_of_yaml dt kvs) ;; mret ()) w = (Ok (), w1)) as Hone
        by (by rewrite (act_ok _ _ _ _ _ Hadd)).
      rewrite !(act_ok _ _ _ _ _ Hone). cbv beta.
      destruct (IH w1) as (rows & [Hsu' Hca'] & Hall & Hend). exists (row :: rows).
      split; [split; [congruence|by rewrite Hca', Hca, <-app_assoc]|].
      split; [by constructor|]. destruct Hend as [[-> Hl]|[e' ->]]; [left; simpl; by rewrite Hl|right; by eexists].
    + destruct Hrow as [[_ Hw1]|[[? [=]] _]]. eapply Hstop; [|exact Hw1].
      apply act_err. by apply act_err.
Qed.

Lemma create_suite_row name description version tags path w :
  let o := create_suite name description version tags (JStr path) w in
  (∃ e, o.1 = Err e) ∧ m_state o.2 = m_state w ∨
  ∃ row, o.1 = Ok (su_suite_id row) ∧ e_suites (m_state o.2) = e_suites (m_state w) ++ [row] ∧
    e_cases (m_state o.2) = e_cases (m_state w) ∧ su_source_path row = Some path ∧
    bind_not_null "eval_suites.name" name = Ok (su_name row).
Proof.
  cbv zeta. unfold create_suite. act_goal.
  unfold connect, transaction, mbind, Act_bind, ofres, modify_try, mret, Act_ret, insert_suite.
  destruct (bind_not_null _ name) as [nm|e] eqn:Hname; [|left; split; [by eexists|done]].
  destruct (bind_text description) as [de|e]; [|left; split; [by eexists|done]].
  destruct (bind_text version) as [ve|e]; [|left; split; [by eexists|done]].
  simpl. destruct (fetchone _ _); [left; split; [by eexists|done]|].
  destruct (fetchone _ _); [left; split; [by eexists|done]|].
  right. eexists. split; [|split; [reflexivity|by split_and!]]. done.
Qed.

Lemma load_suite_run path w :
  ∃ r, load_suite_from_yaml path w = (r, tick w) ∧
    ∀ kvs, r = Ok kvs → ∃ cases, ev_yaml (m_tick w) path = Ok (JObj kvs) ∧
      dict_get "cases" kvs = Some (JArr cases).
Proof.
  unfold load_suite_from_yaml, observe, ofres, mbind, Act_bind.
  destruct (ev_yaml (m_tick w) path) as [j|e]; [|by eexists].
  destruct j as [| | | | | |kvs]; try by eexists.
  destruct (dict_get "cases" kvs) as [[| | | | |cases|]|] eqn:Hc; try by eexists.
  destruct (validate_cases path 0 cases); [|by eexists].
  eexists. split; [reflexivity|]. intros ? [= <-]. eauto.
Qed.

(** Importing a file either raises and leaves the suites and the cases as they
    were, or adds one suite, with the file as its source, and the rows of a prefix
    of the cases of the file, in their order and with their fields; of all of them
    when it returns. It raises after that prefix when a case cannot be stored: the
    suite and the cases before it stay. *)
Theorem import_suite_rows path w :
  let o := import_suite_from_yaml path w in
  (∃ e, o.1 = Err e) ∧ e_suites (m_state o.2) = e_suites (m_state w) ∧
    e_cases (m_state o.2) = e_cases (m_state w) ∨
  ∃ kvs cases dt suite rows,
    ev_yaml (m_tick w) path = Ok (JObj kvs) ∧ dict_get "cases" kvs = Some (JArr cases) ∧
    e_suites (m_state o.2) = e_suites (m_state w) ++ [suite] ∧ su_source_path suite = Some path ∧
    e_cases (m_state o.2) = e_cases (m_state w) ++ rows ∧
    Forall2 (imported (su_suite_id suite) dt) (take (length rows) cases) rows ∧
    (o.1 = Ok (su_suite_id suite) ∧ length rows = length cases ∨ ∃ e, o.1 = Err e).
Proof.
  intros o. subst o. unfold import_suite_from_yaml.
  destruct (load_suite_run path w) as ([kvs|e] & Hload & Hkvs).
  2: { rewrite (act_err _ _ _ _ _ Hload). left. by split_and!; [eexists|..]. }
  rewrite (act_ok _ _ _ _ _ Hload). cbv beta.
  destruct (Hkvs kvs eq_refl) as (cases & Hyaml & Hcases). clear Hkvs Hload.
  destruct (item "name" (JObj kvs)) as [name|e] eqn:Hname.
  2: { rewrite (act_err _ _ (tick w) e (tick w)) by done. left. by split_and!; [eexists|..]. }
  rewrite (act_ok _ _ (tick w) name (tick w)) by done. cbv beta.
  match goal with |- context [create_suite ?a ?b ?c ?d (JStr path)] =>
    pose proof (create_suite_row a b c d path (tick w)) as Hcreate; cbv zeta in Hcreate;
    destruct (create_suite a b c d (JStr path) (tick w)) as [[id|e] w1] eqn:Hcr end; simpl in Hcreate.
  2: { rewrite (act_err _ _ _ _ _ Hcr). left. destruct Hcreate as [[_ Hw1]|(row & [=] & _)].
       simpl. rewrite Hw1. by split_and!; [eexists|..]. }
  destruct Hcreate as [[[e [=]] _]|(suite & [= ->] & Hsu & Hca & Hpath & _)].
  rewrite (act_ok _ _ _ _ _ Hcr). cbv beta. right. exists kvs, cases.
  destruct (json_or (opt_json "defaults" kvs) (JObj [])) as [| | | | | |defaults] eqn:Hdef.
  all: try (exists JNull, suite, []; rewrite (act_err _ _ w1 exn_attribute w1) by done;
            split_and!; [done|done|done|done|by rewrite app_nil_r|constructor|by right; eexists]).
  set (dt := default (JArr []) (dict_get "tags" defaults)).
  rewrite (act_ok _ _ w1 dt w1) by done. cbv beta.
  destruct (import_cases (su_suite_id suite) dt cases w1) as (rows & [Hsu' Hca'] & Hall & Hend).
  assert (opt_json "cases" kvs = JArr cases) as Hopt by (unfold opt_json; by rewrite Hcases).
  exists dt, suite, rows. rewrite !Hopt.
  destruct (each _ cases w1) as [[[]|e] w2] eqn:Heach; simpl in Hsu', Hca', Hend.
  - rewrite !(act_ok _ _ _ _ _ Heach). simpl. split_and!; [done|done|congruence|done|congruence|done|].
    destruct Hend as [[_ Hl]|[e [=]]]. by left.
  - rewrite !(act_err _ _ _ _ _ Heach). simpl. split_and!; [done|done|congruence|done|congruence|done|].
    right. by eexists.
Qed.
End leftovers.

Example import_partial_ex :
  (import_suite_from_yaml "bad.yaml" demo_start).1 =
    Err (OtherError "Error binding parameter: type 'list' is not supported") ∧
  length (e_suites (m_state (import_suite_from_yaml "bad.yaml" demo_start).2)) = 1%nat ∧
  length (e_cases (m_state (import_suite_from_yaml "bad.yaml" demo_start).2)) = 1%nat.
Proof. by vm_compute. Qed.

Lemma titled_run_raises_witness :
  no_run (m_state demo_loaded) (run demo_config (demo_run (Some "Helper") None) demo_loaded).
Proof.
  apply (titled_run_raises demo_config (demo_run (Some "Helper") None) demo_loaded); [done|done|].
  intros n l ag [= <-] Hag. apply list_elem_of_singleton in Hag as ->. reflexivity.
Defined.

(** ** Comparison *)

Definition case_scores (runs : list RunData) (cid : string) : list double :=
  omap (λ cr, r ← cr; composite_of r) (case_result cid <$> runs).

(** The last score is below nine tenths of the first. *)
Definition fell (scores : list double) : Prop :=
  ∃ first final, (2 ≤ length scores)%nat ∧ head scores = Some first ∧ last scores = Some final ∧
    flt final (fmul first (dec 9 (-1))) = true.

Lemma regressed_fell runs cid : regressed (case_entry runs cid) = true ↔ fell (case_scores runs cid).
Proof.
  unfold regressed, case_entry, fell. cbn [ce_regression]. fold (case_scores runs cid).
  generalize (case_scores runs cid) (dec 9 (-1)). intros l c.
  destruct (Nat.leb_spec 2 (length l)) as [Hl|Hl]; [|by split; [|intros (? & ? & ? & _); lia]].
  destruct (head l) as [x|] eqn:Hx; [|apply head_None in Hx as ->; simpl in Hl; lia].
  destruct (last l) as [y|] eqn:Hy; [|apply last_None in Hy as ->; simpl in Hl; lia].
  cbn [default]. split; [intros H; by exists x, y|]. by intros (? & ? & _ & [= <-] & [= <-] & ?).
Qed.

(** A comparison of at least two runs puts every case of the runs into exactly
    one list: the regressions, where the composite score of the last run that has
    one is below nine tenths of that of the first, and the improvements, which are
    all the others: a case whose score is the same, is missing, or fell by less
    than a tenth counts as improved. *)
Theorem comparison_partition runs t :
  (2 ≤ length runs)%nat →
  let r := comparison runs t in
  (∀ cid, cid ∈ cm_regressions r ↔ cid ∈ case_ids runs ∧ fell (case_scores runs cid)) ∧
  (∀ cid, cid ∈ cm_improvements r ↔ cid ∈ case_ids runs ∧ ¬ fell (case_scores runs cid)).
Proof.
  intros Hl r. subst r. unfold comparison. simpl.
  assert (∀ (P : CaseEntry → Prop) `{!∀ e, Decision (P e)} cid,
    cid ∈ ce_case_id <$> filter P (case_entry runs <$> case_ids runs) ↔
    cid ∈ case_ids runs ∧ P (case_entry runs cid)) as Hin.
  { intros P ? cid. rewrite list_elem_of_fmap. setoid_rewrite list_elem_of_filter.
    setoid_rewrite list_elem_of_fmap. split.
    - intros (e & -> & HP & (c & -> & Hc)). done.
    - intros [Hc HP]. exists (case_entry runs cid). split; [done|]. split; [done|]. by exists cid. }
  split; intros cid; rewrite Hin; [by rewrite regressed_fell|].
  rewrite <-regressed_fell. unfold case_entry at 2. simpl. rewrite !length_fmap.
  destruct (regressed _); naive_solver.
Qed.

Definition demo_run_data (score : double) : RunData := {|
  rd_run := {| ru_run_id := "r"; ru_suite_id := "s"; ru_agent_id := None; ru_agent_title := None;
    ru_dialog_id := None; ru_dsl_snapshot := None; ru_name := ""; ru_status := "COMPLETED";
    ru_metrics_summary := None; ru_config := JNull; ru_created_at := ""; ru_completed_at := None;
    ru_error_message := None |};
  rd_results := [{| re_result_id := "x"; re_run_id := "r"; re_case_id := "c";
    re_generated_answer := ""; re_retrieved_chunks := JArr []; re_execution_time_sec := f1;
    re_error := None; re_metrics := [("composite_score", Some score)]; re_raw_response := None;
    re_created_at := "" |}] |}.

(** The same score twice counts as an improvement. *)
Lemma comparison_partition_witness :
  "c" ∈ cm_improvements (comparison [demo_run_data f1; demo_run_data f1] "t") ∧
  "c" ∈ cm_regressions (comparison [demo_run_data f1; demo_run_data (Z_ratio 1 2)] "t").
Proof.
  split.
  - apply (proj2 (comparison_partition [demo_run_data f1; demo_run_data f1] "t" ltac:(simpl; lia))).
    split; [by apply (bool_decide_unpack _); vm_compute|]. rewrite <-regressed_fell. by vm_compute.
  - apply (proj1 (comparison_partition [demo_run_data f1; demo_run_data (Z_ratio 1 2)] "t" ltac:(simpl; lia))).
    split; [by apply (bool_decide_unpack _); vm_compute|]. apply regressed_fell. by vm_compute.
Defined.
