(* ===== verification/StoreUsers.v ===== *)
(** [PortalStore], users and departments (portal_store.py): department
    normalization, passwords, the seed data, authentication, registration and the
    queries on users and departments. *)
From S2P Require Import Prelude PyText Json Digest Schema Effects.

(** ** Department identifiers *)

Definition dept_alias_map : list (string * string) :=
  [ ("dept_q", "dept_mp_q"); ("dept_plm", "dept_mp_plm"); ("dept_ap", "dept_mp_ap");
    ("dept_mc", "dept_mp_mc"); ("dept_ai", "dept_mp_ap"); ("dept_md", "dept_mp_mc");
    ("dept_at", "dept_mp_at"); ("dept_usdx", "dept_mp_usdx") ].

Definition normalize_dept_id (dept_id : string) : string :=
  let raw := py_strip dept_id in
  match dict_get raw dept_alias_map with Some n => n | None => raw end.

Definition dept_code_map : list (string * string) :=
  [ ("dept_mp", "MP"); ("dept_mp_q", "MP-Q"); ("dept_mp_plm", "MP-PLM");
    ("dept_mp_ap", "MP-AP"); ("dept_mp_mc", "MP-MC"); ("dept_mp_usdx", "MP-US&DX");
    ("dept_mp_at", "MP-AT") ].

Definition dept_code (dept_id : string) : string :=
  let n := normalize_dept_id dept_id in
  match dict_get n dept_code_map with
  | Some c => c
  | None => py_upper (py_replace n "dept_" "")
  end.

(** ** Passwords *)

Section passwords.
Context `{Crypto}.

Definition pbkdf2_hex (password salt : string) : string :=
  hex (crypto_pbkdf2 (to_bytes password) (to_bytes salt) 120000).

(** [make_password_hash(password, salt)] with the random salt already drawn. *)
Definition make_password_hash (password salt : string) : string :=
  "pbkdf2_sha256$" +:+ salt +:+ "$" +:+ pbkdf2_hex password salt.

Definition verify_password (password password_hash : string) : bool :=
  match py_split1 "$" password_hash with
  | None => false
  | Some (algo, rest) =>
      match py_split1 "$" rest with
      | None => false
      | Some (salt, digest) =>
          if decide (algo = "pbkdf2_sha256") then
            bool_decide (pbkdf2_hex password salt = digest)
          else false
      end
  end.
End passwords.

(** The object [authenticate_user] returns *)
Record PortalUser := {
  pu_user_id : string; pu_login_id : string; pu_display_name : string; pu_is_active : bool }.

(** ** Statements *)

(** [INSERT INTO users]: the primary key and [login_id] are unique. *)
Definition insert_user (u : UserRow) (d : Db) : res Db :=
  match fetchone (λ r, u_user_id r = u_user_id u) (t_users d),
        fetchone (λ r, u_login_id r = u_login_id u) (t_users d) with
  | None, None => Ok (on_users (λ t, t ++ [u]) d)
  | Some _, _ => Err (IntegrityError "UNIQUE constraint failed: users.user_id")
  | _, Some _ => Err (IntegrityError "UNIQUE constraint failed: users.login_id")
  end.

(** [INSERT INTO departments ... ON CONFLICT(dept_id) DO NOTHING]; the code and
    the name are unique too. *)
Definition insert_department (r : DeptRow) (d : Db) : res Db :=
  match fetchone (λ x, d_dept_id x = d_dept_id r) (t_departments d) with
  | Some _ => Ok d
  | None =>
      match fetchone (λ x, d_dept_code x = d_dept_code r ∨ d_dept_name x = d_dept_name r)
              (t_departments d) with
      | Some _ => Err (IntegrityError "UNIQUE constraint failed: departments")
      | None => Ok (on_departments (λ t, t ++ [r]) d)
      end
  end.

(** [INSERT INTO user_departments ... ON CONFLICT(user_id, dept_id) DO NOTHING] *)
Definition insert_user_dept (r : UserDeptRow) (d : Db) : Db :=
  match fetchone (λ x, ud_user_id x = ud_user_id r ∧ ud_dept_id x = ud_dept_id r)
          (t_user_departments d) with
  | Some _ => d
  | None => on_user_departments (λ t, t ++ [r]) d
  end.

Definition user_dept (user_id dept_id role : string) (is_default : bool) (now : string)
    : UserDeptRow := {|
  ud_user_id := user_id; ud_dept_id := dept_id; ud_role := role;
  ud_is_default := is_default; ud_is_active := true;
  ud_created_at := now; ud_updated_at := now |}.

(** [UPDATE users SET display_name = ?, updated_at = ?] *)
Definition u_set_display (name now : string) (u : UserRow) : UserRow := {|
  u_user_id := u_user_id u; u_login_id := u_login_id u; u_password_hash := u_password_hash u;
  u_display_name := name; u_email := u_email u; u_is_active := u_is_active u;
  u_created_at := u_created_at u; u_updated_at := now;
  u_ragflow_user_id := u_ragflow_user_id u; u_ragflow_token := u_ragflow_token u |}.

(** [UPDATE users SET ragflow_user_id = ?, ragflow_token = ?, updated_at = ?] *)
Definition u_set_ragflow (rid rtoken now : string) (u : UserRow) : UserRow := {|
  u_user_id := u_user_id u; u_login_id := u_login_id u; u_password_hash := u_password_hash u;
  u_display_name := u_display_name u; u_email := u_email u; u_is_active := u_is_active u;
  u_created_at := u_created_at u; u_updated_at := now;
  u_ragflow_user_id := Some rid; u_ragflow_token := Some rtoken |}.

Section ops.
Context `{Env} `{Crypto}.

Definition make_password_hash_m (password : string) : M string :=
  salt ← urandom_hex; mret (make_password_hash password salt).

(** ** Seed data: [_seed_defaults] *)

Definition seed_departments : list (string * string * string * option string * bool) :=
  [ ("dept_mp", "MP", "MP总部", None, true);
    ("dept_mp_q", "MP-Q", "MP质量部门", Some "dept_mp", false);
    ("dept_mp_plm", "MP-PLM", "MP产品生命周期部门", Some "dept_mp", false);
    ("dept_mp_ap", "MP-AP", "MP AP部门", Some "dept_mp", false);
    ("dept_mp_mc", "MP-MC", "MP MC部门", Some "dept_mp", false);
    ("dept_mp_usdx", "MP-US&DX", "MP US&DX部门", Some "dept_mp", false) ].

Definition dept_demo_users : list (string * string * string * string) :=
  [ ("u_mp_q_staff", "mp-q-staff@example.com", "MP-Q-staff01", "dept_mp_q");
    ("u_mp_plm_staff", "mp-plm-staff@example.com", "MP-PLM-staff01", "dept_mp_plm");
    ("u_mp_ap_staff", "mp-ap-staff@example.com", "MP-AP-staff01", "dept_mp_ap");
    ("u_mp_mc_staff", "mp-mc-staff@example.com", "MP-MC-staff01", "dept_mp_mc");
    ("u_mp_usdx_staff", "mp-usdx-staff@example.com", "MP-USDX-staff01", "dept_mp_usdx") ].

Definition dept_admin_users : list (string * string * string * string) :=
  [ ("u_mp_q_admin", "mp-q-admin@example.com", "MP-Q-admin", "dept_mp_q");
    ("u_mp_plm_admin", "mp-plm-admin@example.com", "MP-PLM-admin", "dept_mp_plm");
    ("u_mp_ap_admin", "mp-ap-admin@example.com", "MP-AP-admin", "dept_mp_ap");
    ("u_mp_mc_admin", "mp-mc-admin@example.com", "MP-MC-admin", "dept_mp_mc");
    ("u_mp_usdx_admin", "mp-usdx-admin@example.com", "MP-USDX-admin", "dept_mp_usdx") ].

Definition user_by_exact_login (login_id : string) (d : Db) : option UserRow :=
  fetchone (λ u, u_login_id u = login_id) (t_users d).

Definition seed_user_row (uid login_id hash display email now : string) : UserRow := {|
  u_user_id := uid; u_login_id := login_id; u_password_hash := hash;
  u_display_name := display; u_email := Some email; u_is_active := true;
  u_created_at := now; u_updated_at := now;
  u_ragflow_user_id := None; u_ragflow_token := None |}.

Definition seed_email (login_id : string) : string :=
  let e := py_replace (py_lower login_id) "&" "" in
  if py_in "@" login_id then e else e +:+ "@example.com".

(** One demo user: created, or its display name refreshed; then linked to its
    department. *)
Definition seed_dept_user (role now : string) (x : string * string * string * string) : M unit :=
  let '(uid, login_id, display_name, dept_id) := x in
  row ← sql_query (user_by_exact_login login_id);
  (match row with
   | None =>
       hash ← make_password_hash_m "12345678";
       sql_try (insert_user
         (seed_user_row uid login_id hash display_name (seed_email login_id) now))
   | Some _ =>
       sql_exec (on_users (update_where (λ u, u_login_id u = login_id)
                             (u_set_display display_name now)))
   end) ;;
  sql_exec (insert_user_dept (user_dept uid dept_id role true now)).

Definition seed_defaults : M unit :=
  now ← utc_now;
  with_conn (
    for_each (λ '(dept_id, code, name, parent, is_public),
      sql_try (insert_department {|
        d_dept_id := dept_id; d_dept_code := code; d_dept_name := name;
        d_parent_dept_id := parent; d_is_public := is_public; d_is_active := true;
        d_created_at := now; d_updated_at := now |})) seed_departments ;;
    default_user ← sql_query (user_by_exact_login "mp@example.com");
    (match default_user with
     | Some _ => mret ()
     | None =>
         hash ← make_password_hash_m "12345678";
         sql_try (insert_user (seed_user_row "u_mp_default" "mp@example.com" hash
                                 "MP管理员" "mp@example.com" now)) ;;
         sql_exec (insert_user_dept (user_dept "u_mp_default" "dept_mp" "admin" true now))
     end) ;;
    mp_row ← sql_query (user_by_exact_login "mp@example.com");
    let mp_user_id := match mp_row with Some u => u_user_id u | None => "u_mp_default" end in
    for_each (λ dept_id,
      sql_exec (insert_user_dept (user_dept mp_user_id dept_id "admin" false now)))
      ["dept_mp_q"; "dept_mp_plm"; "dept_mp_ap"; "dept_mp_mc"; "dept_mp_usdx"] ;;
    for_each (seed_dept_user "member" now) dept_demo_users ;;
    for_each (seed_dept_user "admin" now) dept_admin_users).

(** ** Authentication and registration *)

(** The row [authenticate_user] checks: by login, then by e-mail. *)
Definition login_row (login_id : string) (d : Db) : option UserRow :=
  match fetchone (λ u, sql_upper (u_login_id u) = sql_upper login_id) (t_users d) with
  | Some u => Some u
  | None => fetchone (λ u, sql_upper <$> u_email u = Some (sql_upper login_id)) (t_users d)
  end.

Definition authenticate_user (login_id password : string) : M (option PortalUser) :=
  row ← with_conn (sql_query (login_row login_id));
  match row with
  | None => mret None
  | Some u =>
      if negb (u_is_active u) then mret None
      else if negb (verify_password password (u_password_hash u)) then mret None
      else mret (Some {| pu_user_id := u_user_id u; pu_login_id := u_login_id u;
                         pu_display_name := u_display_name u; pu_is_active := true |})
  end.

Record Registered := {
  rg_user_id : string; rg_login_id : string; rg_display_name : string;
  rg_dept_id : string; rg_role : string; rg_ragflow_user_id : string }.

Definition register_user (login_id password display_name dept_id role
    ragflow_user_id ragflow_token : string) : M Registered :=
  now ← utc_now;
  user_id ← with_conn (
    existing ← sql_query (λ d,
      fetchone (λ u, sql_upper (u_login_id u) = sql_upper login_id) (t_users d));
    match existing with
    | Some _ => raise (ValueError ("用户名 " +:+ login_id +:+ " 已存在"))
    | None =>
        user_id ← new_id "u_";
        hash ← make_password_hash_m password;
        sql_try (insert_user {|
          u_user_id := user_id; u_login_id := login_id; u_password_hash := hash;
          u_display_name := display_name;
          u_email := Some (py_lower login_id +:+ "@portal.local"); u_is_active := true;
          u_created_at := now; u_updated_at := now;
          u_ragflow_user_id := Some ragflow_user_id;
          u_ragflow_token := Some ragflow_token |}) ;;
        dept_row ← sql_query (λ d,
          fetchone (λ r, d_dept_id r = dept_id) (t_departments d));
        match dept_row with
        | None => raise (ValueError ("部门 " +:+ dept_id +:+ " 不存在"))
        | Some _ =>
            sql_exec (insert_user_dept (user_dept user_id dept_id role true now)) ;;
            mret user_id
        end
    end);
  mret {| rg_user_id := user_id; rg_login_id := login_id; rg_display_name := display_name;
          rg_dept_id := dept_id; rg_role := role; rg_ragflow_user_id := ragflow_user_id |}.

(** ** RAGFlow linkage *)

Definition user_by_id (user_id : string) (d : Db) : option UserRow :=
  fetchone (λ u, u_user_id u = user_id) (t_users d).

Definition get_user_ragflow_token (user_id : string) : M string :=
  row ← with_conn (sql_query (user_by_id user_id));
  mret (match row with Some u => opt_or (u_ragflow_token u) "" | None => "" end).

Definition default_dept_of (d : Db) (user_id : string) : string :=
  match fetchone (λ r, ud_user_id r = user_id ∧ ud_is_default r = true)
          (t_user_departments d) with
  | Some r => ud_dept_id r
  | None => "dept_mp"
  end.

(** [CASE WHEN UPPER(login_id) LIKE '%ADMIN%' OR UPPER(login_id) = 'MP'] *)
Definition admin_first (u : UserRow) : nat :=
  if sql_like (sql_upper (u_login_id u)) "%ADMIN%"
     || bool_decide (sql_upper (u_login_id u) = "MP") then 0 else 1.

Definition get_all_users_with_ragflow_token : M (list (string * string * string)) :=
  with_conn (sql_query (λ d,
    (λ u, (u_user_id u, opt_or (u_ragflow_token u) "", default_dept_of d (u_user_id u))) <$>
    isort (λ a b, (admin_first a <? admin_first b) ||
                  ((admin_first a =? admin_first b) && str_leb (u_created_at a) (u_created_at b)))
      (filter (λ u, opt_truthy (u_ragflow_token u) = true ∧ u_is_active u = true) (t_users d)))).

Definition get_all_users_without_ragflow : M (list (string * string)) :=
  with_conn (sql_query (λ d,
    (λ u, (u_user_id u, u_login_id u)) <$>
    filter (λ u, u_is_active u = true ∧ opt_truthy (u_ragflow_user_id u) = false) (t_users d))).

Definition update_user_ragflow (user_id ragflow_user_id ragflow_token : string) : M unit :=
  now ← utc_now;
  with_conn (sql_exec (on_users (update_where (λ u, u_user_id u = user_id)
                                   (u_set_ragflow ragflow_user_id ragflow_token now)))).

Definition get_user_ragflow_user_id (user_id : string) : M string :=
  row ← with_conn (sql_query (user_by_id user_id));
  mret (match row with Some u => opt_or (u_ragflow_user_id u) "" | None => "" end).

Definition delete_user (user_id : string) : M bool :=
  with_conn (
    row ← sql_query (user_by_id user_id);
    match row with
    | None => mret false
    | Some _ =>
        sql_exec (on_user_departments (delete_where (λ r, ud_user_id r = user_id))) ;;
        sql_exec (on_policies (delete_where (λ p, p_owner_user_id p = Some user_id))) ;;
        sql_exec (on_sessions (delete_where (λ s, s_user_id s = user_id))) ;;
        sql_exec (on_users (delete_where (λ u, u_user_id u = user_id))) ;;
        mret true
    end).

(** ** Queries on users and departments *)

Definition user_by_login (login_id : string) (d : Db) : option UserRow :=
  fetchone (λ u, sql_upper (u_login_id u) = sql_upper login_id) (t_users d).

Definition get_user_by_login (login_id : string) : M (option UserRow) :=
  if decide (login_id = "") then mret None
  else with_conn (sql_query (user_by_login login_id)).

(** The correlated subquery of [search_users]: the code of a default department. *)
Definition default_dept_code (d : Db) (user_id : string) : string :=
  match head (omap (λ r,
      if decide (ud_user_id r = user_id ∧ ud_is_default r = true) then
        d_dept_code <$> fetchone (λ x, d_dept_id x = ud_dept_id r) (t_departments d)
      else None) (t_user_departments d)) with
  | Some c => c
  | None => ""
  end.

(** [LIMIT n]: a negative limit is no limit. *)
Definition sql_limit {A} (n : Z) (l : list A) : list A :=
  if (n <? 0)%Z then l else take (Z.to_nat n) l.

Definition search_users (query : string) (limit : Z)
    : M (list (string * string * string * string)) :=
  let q := "%" +:+ query +:+ "%" in
  with_conn (sql_query (λ d,
    (λ u, (u_user_id u, u_login_id u, u_display_name u, default_dept_code d (u_user_id u))) <$>
    sql_limit limit
      (isort (λ a b, str_leb (u_login_id a) (u_login_id b))
        (filter (λ u, u_is_active u = true ∧
           (sql_like (sql_upper (u_login_id u)) (sql_upper q) = true ∨
            sql_like (sql_upper (u_display_name u)) (sql_upper q) = true)) (t_users d))))).

(** The join of a user with its membership in [dept_id]. *)
Definition dept_members (d : Db) (dept_id : string) : list UserRow :=
  filter (λ u, u_is_active u = true ∧
    Exists (λ r, ud_user_id r = u_user_id u ∧ ud_dept_id r = dept_id ∧ ud_is_active r = true)
      (t_user_departments d)) (t_users d).

Definition get_users_in_dept (dept_id : string) : M (list (string * string * string)) :=
  let dept_id := normalize_dept_id dept_id in
  with_conn (sql_query (λ d,
    (λ u, (u_user_id u, u_login_id u, u_display_name u)) <$>
    isort (λ a b, str_leb (u_login_id a) (u_login_id b)) (dept_members d dept_id))).

Record UserDept := {
  xd_dept_id : string; xd_dept_code : string; xd_dept_name : string;
  xd_role : string; xd_is_default : bool; xd_is_public : bool }.

(** [ORDER BY is_default DESC, dept_code ASC] *)
Definition user_dept_leb (a b : UserDept) : bool :=
  match xd_is_default a, xd_is_default b with
  | true, false => true
  | false, true => false
  | _, _ => str_leb (xd_dept_code a) (xd_dept_code b)
  end.

Definition user_departments_of (d : Db) (user_id : string) : list UserDept :=
  isort user_dept_leb (omap (λ r,
    if decide (ud_user_id r = user_id ∧ ud_is_active r = true) then
      x ← fetchone (λ x, d_dept_id x = ud_dept_id r ∧ d_is_active x = true) (t_departments d);
      Some {| xd_dept_id := d_dept_id x; xd_dept_code := d_dept_code x;
              xd_dept_name := d_dept_name x; xd_role := ud_role r;
              xd_is_default := ud_is_default r; xd_is_public := d_is_public x |}
    else None) (t_user_departments d)).

Definition get_user_departments (user_id : string) : M (list UserDept) :=
  with_conn (sql_query (λ d, user_departments_of d user_id)).

Definition get_all_departments : M (list DeptRow) :=
  with_conn (sql_query (λ d,
    isort (λ a b, str_leb (d_dept_code a) (d_dept_code b))
      (filter (λ r, d_is_active r = true) (t_departments d)))).

(** ** Roles *)

Definition admin_of_any (d : Db) (user_id : string) : bool :=
  bool_decide (is_Some (fetchone (λ r, ud_user_id r = user_id ∧ ud_is_active r = true ∧
    (ud_role r = "admin" ∨ ud_role r = "owner")) (t_user_departments d))).

Definition is_admin (user_id : string) : M bool :=
  with_conn (sql_query (λ d, admin_of_any d user_id)).

Definition admin_of (d : Db) (user_id dept_id : string) : bool :=
  bool_decide (is_Some (fetchone (λ r, ud_user_id r = user_id ∧
    ud_dept_id r = normalize_dept_id dept_id ∧ ud_is_active r = true ∧
    (ud_role r = "admin" ∨ ud_role r = "dept_admin" ∨ ud_role r = "owner"))
    (t_user_departments d))).

Definition is_dept_admin (user_id dept_id : string) : M bool :=
  with_conn (sql_query (λ d, admin_of d user_id dept_id)).
End ops.
