(* ===== verification/StorePolicy.v ===== *)
(** [PortalStore], resource policies and knowledge-base shares
    (portal_store.py): the permission bit masks, the [kb_shares] records, the
    [resource_policies] records and the effective permission of a user. *)
From S2P Require Import Prelude PyText Json Schema Effects StoreUsers.

Local Open Scope Z_scope.

(** ** Permission masks *)

Definition PERM_READ : Z := 4.
Definition PERM_WRITE : Z := 2.
Definition PERM_SHARE : Z := 1.
Definition PERM_FULL : Z := 7.

Definition has_read (mask : Z) : bool := negb (Z.land mask PERM_READ =? 0).
Definition has_write (mask : Z) : bool := negb (Z.land mask PERM_WRITE =? 0).
Definition has_share (mask : Z) : bool := negb (Z.land mask PERM_SHARE =? 0).

Definition perm_label (mask : Z) : string :=
  let parts := (if has_read mask then ["可读"] else []) ++
               (if has_write mask then ["可改写"] else []) ++
               (if has_share mask then ["可分享"] else []) in
  match parts with [] => "无权限" | _ => py_join "、" parts end.

(** ** Statements on [kb_shares] *)

(** The columns the [ON CONFLICT DO UPDATE] branch sets *)
Definition k_overwrite (mask : Z) (shared_by : string) (approved_by : option string)
    (parent : option Z) (status now : string) (k : ShareRow) : ShareRow := {|
  k_id := k_id k; k_kb_id := k_kb_id k; k_target_user_id := k_target_user_id k;
  k_permission_mask := mask; k_shared_by := shared_by; k_approved_by := approved_by;
  k_parent_share_id := parent; k_status := status;
  k_created_at := k_created_at k; k_updated_at := now |}.

Definition k_revoke (now : string) (k : ShareRow) : ShareRow := {|
  k_id := k_id k; k_kb_id := k_kb_id k; k_target_user_id := k_target_user_id k;
  k_permission_mask := k_permission_mask k; k_shared_by := k_shared_by k;
  k_approved_by := k_approved_by k; k_parent_share_id := k_parent_share_id k;
  k_status := "revoked"; k_created_at := k_created_at k; k_updated_at := now |}.

(** The upsert; AUTOINCREMENT draws an id before the conflict is seen, so the
    counter advances on both branches. *)
Definition upsert_share (kb_id target : string) (mask : Z) (shared_by : string)
    (approved_by : option string) (parent : option Z) (status now : string) (d : Db) : Db :=
  match fetchone (λ k, k_kb_id k = kb_id ∧ k_target_user_id k = target) (t_shares d) with
  | Some _ =>
      bump_share_seq (on_shares (update_where
        (λ k, k_kb_id k = kb_id ∧ k_target_user_id k = target)
        (k_overwrite mask shared_by approved_by parent status now)) d)
  | None =>
      bump_share_seq (on_shares (λ t, t ++ [{|
        k_id := t_share_seq d + 1; k_kb_id := kb_id; k_target_user_id := target;
        k_permission_mask := mask; k_shared_by := shared_by; k_approved_by := approved_by;
        k_parent_share_id := parent; k_status := status;
        k_created_at := now; k_updated_at := now |}]) d)
  end.

(** ** Statements on [resource_policies] *)

Definition p_overwrite (owner_dept : string) (owner_user : option string)
    (visibility roles allow deny category now : string) (p : PolicyRow) : PolicyRow := {|
  p_policy_id := p_policy_id p; p_resource_type := p_resource_type p;
  p_resource_id := p_resource_id p; p_owner_dept_id := owner_dept;
  p_owner_user_id := owner_user; p_visibility := visibility;
  p_allow_roles_json := roles; p_allow_dept_ids_json := allow;
  p_deny_dept_ids_json := deny; p_is_active := true; p_created_by := p_created_by p;
  p_created_at := p_created_at p; p_updated_at := now; p_category := category |}.

Definition p_deactivate (now : string) (p : PolicyRow) : PolicyRow := {|
  p_policy_id := p_policy_id p; p_resource_type := p_resource_type p;
  p_resource_id := p_resource_id p; p_owner_dept_id := p_owner_dept_id p;
  p_owner_user_id := p_owner_user_id p; p_visibility := p_visibility p;
  p_allow_roles_json := p_allow_roles_json p;
  p_allow_dept_ids_json := p_allow_dept_ids_json p;
  p_deny_dept_ids_json := p_deny_dept_ids_json p; p_is_active := false;
  p_created_by := p_created_by p; p_created_at := p_created_at p; p_updated_at := now;
  p_category := p_category p |}.

Definition p_set_allow (allow now : string) (p : PolicyRow) : PolicyRow := {|
  p_policy_id := p_policy_id p; p_resource_type := p_resource_type p;
  p_resource_id := p_resource_id p; p_owner_dept_id := p_owner_dept_id p;
  p_owner_user_id := p_owner_user_id p; p_visibility := p_visibility p;
  p_allow_roles_json := p_allow_roles_json p; p_allow_dept_ids_json := allow;
  p_deny_dept_ids_json := p_deny_dept_ids_json p; p_is_active := p_is_active p;
  p_created_by := p_created_by p; p_created_at := p_created_at p; p_updated_at := now;
  p_category := p_category p |}.

(** [INSERT INTO resource_policies]: the primary key and the pair of the type
    and the id of the resource are unique. *)
Definition insert_policy (p : PolicyRow) (d : Db) : res Db :=
  match fetchone (λ r, p_policy_id r = p_policy_id p ∨
                       (p_resource_type r = p_resource_type p ∧
                        p_resource_id r = p_resource_id p)) (t_policies d) with
  | Some _ => Err (IntegrityError "UNIQUE constraint failed: resource_policies")
  | None => Ok (on_policies (λ t, t ++ [p]) d)
  end.

(** A list column read with [json.loads(col or "[]")]; what it raises on text
    that is not a JSON list of strings. *)
Definition loads_col (col : string) : res (list string) :=
  match json_loads_strs (py_or col "[]") with
  | Some l => Ok l
  | None => Err (ValueError "JSONDecodeError")
  end.

(** The same under [try: ... except Exception: pass]. *)
Definition loads_col_or_nil (col : string) : list string :=
  match loads_col col with Ok l => l | Err _ => [] end.

Definition lift_res {A} (r : res A) : M A := λ w, (r, w).

Section ops.
Context `{Env}.

(** ** Shares *)

Definition add_kb_share (kb_id target_user_id : string) (permission_mask : Z)
    (shared_by : string) (parent_share_id : option Z) (approved_by status : string) : M unit :=
  now ← utc_now;
  with_conn (sql_exec (upsert_share kb_id target_user_id permission_mask shared_by
                         (Some approved_by) parent_share_id status now)).

Definition remove_kb_share (kb_id target_user_id : string) : M bool :=
  now ← utc_now;
  with_conn (
    n ← sql_query (λ d, rowcount (λ k, k_kb_id k = kb_id ∧ k_target_user_id k = target_user_id)
                          (t_shares d));
    sql_exec (on_shares (update_where (λ k, k_kb_id k = kb_id ∧ k_target_user_id k = target_user_id)
                           (k_revoke now))) ;;
    mret (0 <? n)%nat).

(** The approved share of a user on a KB *)
Definition approved_share (d : Db) (kb_id user_id : string) : option ShareRow :=
  fetchone (λ k, k_kb_id k = kb_id ∧ k_target_user_id k = user_id ∧ k_status k = "approved")
    (t_shares d).

Definition kb_permission_of (d : Db) (kb_id user_id : string) : Z :=
  match approved_share d kb_id user_id with Some k => k_permission_mask k | None => 0 end.

Definition get_kb_permission (kb_id user_id : string) : M Z :=
  with_conn (sql_query (λ d, kb_permission_of d kb_id user_id)).

(** The policy of a KB, active or not, as [has_kb_access] looks it up *)
Definition kb_policy_any (d : Db) (kb_id : string) : option PolicyRow :=
  fetchone (λ p, p_resource_id p = kb_id ∧ p_resource_type p = "kb") (t_policies d).

Definition has_kb_access (kb_id user_id : string) : M Z :=
  owner ← with_conn (sql_query (λ d, kb_policy_any d kb_id ≫= p_owner_user_id));
  if decide (owner = Some user_id) then mret PERM_FULL
  else get_kb_permission kb_id user_id.

(** The joined row of [list_kb_shares] *)
Record ShareInfo := {
  si_share : ShareRow; si_target_login : string; si_target_name : string;
  si_sharer_login : option string }.

Definition kb_shares_of (d : Db) (kb_id : string) : list ShareInfo :=
  isort (λ a b, str_leb (k_created_at (si_share a)) (k_created_at (si_share b)))
    (omap (λ k,
      if decide (k_kb_id k = kb_id ∧ k_status k = "approved") then
        u ← fetchone (λ u, u_user_id u = k_target_user_id k) (t_users d);
        Some {| si_share := k; si_target_login := u_login_id u;
                si_target_name := u_display_name u;
                si_sharer_login := u_login_id <$>
                  fetchone (λ u2, u_user_id u2 = k_shared_by k) (t_users d) |}
      else None) (t_shares d)).

Definition list_kb_shares (kb_id : string) : M (list ShareInfo) :=
  with_conn (sql_query (λ d, kb_shares_of d kb_id)).

(** The [while parent_id] loop of [get_share_chain]; 0 and NULL end it. It
    runs out of fuel ([None]) when the loop does not end within it. *)
Fixpoint share_chain_go (fuel : nat) (d : Db) (parent : option Z) : option (list ShareRow) :=
  match parent with
  | None => Some []
  | Some pid =>
      if pid =? 0 then Some []
      else match fuel with
      | O => None
      | S fuel' =>
          match fetchone (λ k, k_id k = pid) (t_shares d) with
          | None => Some []
          | Some k => cons k <$> share_chain_go fuel' d (k_parent_share_id k)
          end
      end
  end.

Definition get_share_chain (fuel : nat) (d : Db) (kb_id target_user_id : string)
    : option (list ShareRow) :=
  match approved_share d kb_id target_user_id with
  | None => Some []
  | Some k => cons k <$> share_chain_go fuel d (k_parent_share_id k)
  end.

(** ** Policies *)

Definition policy_by_key (rt rid : string) (d : Db) : option PolicyRow :=
  fetchone (λ p, p_resource_type p = rt ∧ p_resource_id p = rid) (t_policies d).

Definition upsert_policy (resource_type resource_id owner_dept_id visibility created_by : string)
    (owner_user_id : option string) (allow_dept_ids deny_dept_ids allow_roles : list string)
    (category : string) : M unit :=
  now ← utc_now;
  let allow := json_dumps_strs allow_dept_ids in
  let deny := json_dumps_strs deny_dept_ids in
  let roles := json_dumps_strs allow_roles in
  with_conn (
    row ← sql_query (policy_by_key resource_type resource_id);
    match row with
    | Some r =>
        sql_exec (on_policies (update_where (λ p, p_policy_id p = p_policy_id r)
          (p_overwrite owner_dept_id owner_user_id visibility roles allow deny category now)))
    | None =>
        pid ← new_id "pol_";
        sql_try (insert_policy {|
          p_policy_id := pid; p_resource_type := resource_type; p_resource_id := resource_id;
          p_owner_dept_id := owner_dept_id; p_owner_user_id := owner_user_id;
          p_visibility := visibility; p_allow_roles_json := roles;
          p_allow_dept_ids_json := allow; p_deny_dept_ids_json := deny; p_is_active := true;
          p_created_by := Some created_by; p_created_at := now; p_updated_at := now;
          p_category := category |})
    end).

(** A filter the caller may leave out ([None] or [""]). *)
Definition opt_filter (o : option string) (col : string) : Prop :=
  match o with Some v => v = "" ∨ col = v | None => True end.

#[export] Instance opt_filter_dec o col : Decision (opt_filter o col).
Proof. destruct o; simpl; apply _. Defined.

(** [LIMIT size OFFSET max(0, (page - 1) * size)] *)
Definition sql_page {A} (page page_size : Z) (l : list A) : list A :=
  sql_limit page_size (drop (Z.to_nat (Z.max 0 ((page - 1) * page_size))) l).

Definition list_policies (resource_type owner_dept_id visibility category : option string)
    (page page_size : Z) : M (list PolicyRow) :=
  with_conn (sql_query (λ d, sql_page page page_size
    (isort (λ a b, str_leb (p_updated_at b) (p_updated_at a))
      (filter (λ p, p_is_active p = true ∧ opt_filter resource_type (p_resource_type p) ∧
         opt_filter owner_dept_id (p_owner_dept_id p) ∧
         opt_filter visibility (p_visibility p) ∧ opt_filter category (p_category p))
         (t_policies d))))).

Definition deactivate_policy (resource_type resource_id : string) : M unit :=
  now ← utc_now;
  with_conn (sql_exec (on_policies (update_where
    (λ p, p_resource_type p = resource_type ∧ p_resource_id p = resource_id)
    (p_deactivate now)))).

(** The active KB policies whose dataset is gone *)
Definition stale_kbs (valid_ids : list string) (d : Db) : list string :=
  p_resource_id <$> filter (λ p, p_resource_type p = "kb" ∧ p_is_active p = true ∧
                                 p_resource_id p ∉ valid_ids) (t_policies d).

Definition cleanup_stale_kb_policies (valid_ids : list string) : M nat :=
  now ← utc_now;
  with_conn (
    stale ← sql_query (stale_kbs valid_ids);
    for_each (λ sid, sql_exec (on_policies (update_where
      (λ p, p_resource_type p = "kb" ∧ p_resource_id p = sid) (p_deactivate now)))) stale ;;
    for_each (λ sid, sql_exec (on_shares (delete_where (λ k, k_kb_id k = sid)))) stale ;;
    mret (length stale)).

Definition policy_of (resource_type resource_id : string) (d : Db) : option PolicyRow :=
  fetchone (λ p, p_resource_type p = resource_type ∧ p_resource_id p = resource_id ∧
                 p_is_active p = true) (t_policies d).

Definition get_policy (resource_type resource_id : string) : M (option PolicyRow) :=
  with_conn (sql_query (policy_of resource_type resource_id)).

(** ** Access *)

Definition norm_set (l : list string) : gset string := list_to_set (normalize_dept_id <$> l).

Definition can_access_resource (user_dept_ids : gset string) (selected_dept_id : string)
    (policy : option PolicyRow) (user_id : option string) : res bool :=
  match policy with
  | None => Ok false
  | Some p =>
      let normalized_user_depts := norm_set (elements user_dept_ids) in
      let selected := normalize_dept_id selected_dept_id in
      if decide (selected ∉ normalized_user_depts) then Ok false
      else
        let visibility := py_lower (py_or (p_visibility p) "dept") in
        let owner_dept := normalize_dept_id (p_owner_dept_id p) in
        match loads_col (p_allow_dept_ids_json p) with
        | Err e => Err e
        | Ok allow =>
        match loads_col (p_deny_dept_ids_json p) with
        | Err e => Err e
        | Ok deny =>
            let allow_depts := norm_set allow in
            let deny_depts := norm_set deny in
            if decide (visibility = "private") then
              Ok (opt_truthy user_id && bool_decide (p_owner_user_id p = user_id))
            else if decide (selected ∈ deny_depts) then Ok false
            else if decide (selected ∈ allow_depts) then Ok true
            else if decide (visibility = "public") then Ok true
            else Ok (bool_decide (owner_dept = selected))
        end end
  end.

Definition effective_kb_permission (user_dept_ids : gset string) (selected_dept_id kb_id user_id : string)
    (policy : option PolicyRow) : M Z :=
  let kb_id := py_strip kb_id in
  let user_id := py_strip user_id in
  if decide (kb_id = "" ∨ user_id = "") then mret 0
  else
    p ← match policy with Some p => mret (Some p) | None => get_policy "kb" kb_id end;
    let owner_user_id := opt_or (p ≫= p_owner_user_id) "" in
    if decide (owner_user_id ≠ "" ∧ owner_user_id = user_id) then mret PERM_FULL
    else
      visible ← lift_res (can_access_resource user_dept_ids selected_dept_id p (Some user_id));
      let mask := if (visible : bool) then PERM_READ else 0 in
      share ← get_kb_permission kb_id user_id;
      let mask := Z.lor mask share in
      let mask := if negb (mask =? 0) && (Z.land mask PERM_READ =? 0)
                  then Z.lor mask PERM_READ else mask in
      mret mask.

Definition can_read_kb (user_dept_ids : gset string) (selected_dept_id kb_id user_id : string) : M bool :=
  mask ← effective_kb_permission user_dept_ids selected_dept_id kb_id user_id None;
  mret (has_read mask).
Definition can_write_kb (user_dept_ids : gset string) (selected_dept_id kb_id user_id : string) : M bool :=
  mask ← effective_kb_permission user_dept_ids selected_dept_id kb_id user_id None;
  mret (has_write mask).
Definition can_share_kb (user_dept_ids : gset string) (selected_dept_id kb_id user_id : string) : M bool :=
  mask ← effective_kb_permission user_dept_ids selected_dept_id kb_id user_id None;
  mret (has_share mask).
End ops.
