(* ===== verification/StoreSessions.v ===== *)
(** [PortalStore], audit log, sessions and messages (portal_store.py), and the
    cleanup of everything that refers to a deleted knowledge base. *)
From S2P Require Import Prelude PyText Json Schema Effects StoreUsers StorePolicy.

(** ** Row updates *)

Definition s_touch (now : string) (s : SessionRow) : SessionRow := {|
  s_session_id := s_session_id s; s_user_id := s_user_id s; s_dept_id := s_dept_id s;
  s_agent_id := s_agent_id s; s_kb_ids_json := s_kb_ids_json s; s_is_private := s_is_private s;
  s_kb_overridden := s_kb_overridden s; s_created_at := s_created_at s; s_updated_at := now;
  s_is_active := s_is_active s |}.

Definition s_deactivate (now : string) (s : SessionRow) : SessionRow := {|
  s_session_id := s_session_id s; s_user_id := s_user_id s; s_dept_id := s_dept_id s;
  s_agent_id := s_agent_id s; s_kb_ids_json := s_kb_ids_json s; s_is_private := s_is_private s;
  s_kb_overridden := s_kb_overridden s; s_created_at := s_created_at s; s_updated_at := now;
  s_is_active := false |}.

Definition s_set_private (b : bool) (now : string) (s : SessionRow) : SessionRow := {|
  s_session_id := s_session_id s; s_user_id := s_user_id s; s_dept_id := s_dept_id s;
  s_agent_id := s_agent_id s; s_kb_ids_json := s_kb_ids_json s; s_is_private := b;
  s_kb_overridden := s_kb_overridden s; s_created_at := s_created_at s; s_updated_at := now;
  s_is_active := s_is_active s |}.

(** The upsert of [create_portal_session]: on a conflict every column but
    [created_at] takes the excluded value. *)
Definition upsert_session (s : SessionRow) (d : Db) : Db :=
  match fetchone (λ r, s_session_id r = s_session_id s) (t_sessions d) with
  | Some _ =>
      on_sessions (update_where (λ r, s_session_id r = s_session_id s) (λ r, {|
        s_session_id := s_session_id r; s_user_id := s_user_id s; s_dept_id := s_dept_id s;
        s_agent_id := s_agent_id s; s_kb_ids_json := s_kb_ids_json s;
        s_is_private := s_is_private s; s_kb_overridden := s_kb_overridden s;
        s_created_at := s_created_at r; s_updated_at := s_updated_at s;
        s_is_active := true |})) d
  | None => on_sessions (λ t, t ++ [s]) d
  end.

(** [INSERT INTO audit_logs] *)
Definition insert_audit (a : AuditRow) (d : Db) : res Db :=
  match fetchone (λ r, a_audit_id r = a_audit_id a) (t_audit d) with
  | Some _ => Err (IntegrityError "UNIQUE constraint failed: audit_logs.audit_id")
  | None => Ok (on_audit (λ t, t ++ [a]) d)
  end.

(** ** Views returned to the callers *)

Record SessionView := { sv_row : SessionRow; sv_kb_ids : list string }.

Definition session_view (s : SessionRow) : SessionView :=
  {| sv_row := s; sv_kb_ids := loads_col_or_nil (s_kb_ids_json s) |}.

Record MessageView := {
  mv_role : string; mv_content : string; mv_references : json; mv_created_at : string }.

Section ops.
Context `{Env}.

(** ** Audit *)

Definition write_audit (request_id action status : string)
    (user_id dept_id resource_type resource_id session_id error_code error_message : option string)
    : M unit :=
  with_conn (
    aid ← new_id "aud_";
    now ← utc_now;
    sql_try (insert_audit {|
      a_audit_id := aid; a_request_id := request_id; a_event_time := now;
      a_user_id := user_id; a_dept_id := dept_id; a_action := action;
      a_resource_type := resource_type; a_resource_id := resource_id;
      a_session_id := session_id; a_status := status; a_error_code := error_code;
      a_error_message := error_message; a_payload_digest := None |})).

(** A filter on a nullable column *)
Definition opt_filter_null (o col : option string) : Prop :=
  match o with Some v => v = "" ∨ col = Some v | None => True end.

#[export] Instance opt_filter_null_dec o col : Decision (opt_filter_null o col).
Proof. destruct o; simpl; apply _. Defined.

Definition list_audit_logs (dept_id user_id action status : option string)
    (page page_size : Z) : M (list AuditRow) :=
  with_conn (sql_query (λ d, sql_page page page_size
    (isort (λ a b, str_leb (a_event_time b) (a_event_time a))
      (filter (λ a, opt_filter_null dept_id (a_dept_id a) ∧
         opt_filter_null user_id (a_user_id a) ∧ opt_filter action (a_action a) ∧
         opt_filter status (a_status a)) (t_audit d))))).

(** ** Sessions *)

Definition create_portal_session (session_id : string) (user_id : option string)
    (dept_id agent_id : string) (kb_ids : list string) (is_private kb_overridden : bool)
    : M unit :=
  now ← utc_now;
  with_conn (
    match user_id with
    | None => raise (IntegrityError "NOT NULL constraint failed: portal_sessions.user_id")
    | Some uid =>
        sql_exec (upsert_session {|
          s_session_id := session_id; s_user_id := uid; s_dept_id := dept_id;
          s_agent_id := agent_id; s_kb_ids_json := json_dumps_strs kb_ids;
          s_is_private := is_private; s_kb_overridden := kb_overridden;
          s_created_at := now; s_updated_at := now; s_is_active := true |})
    end).

Definition active_session (session_id : string) (d : Db) : option SessionRow :=
  fetchone (λ s, s_session_id s = session_id ∧ s_is_active s = true) (t_sessions d).

Definition get_portal_session (session_id : string) : M (option SessionView) :=
  row ← with_conn (sql_query (active_session session_id));
  mret (session_view <$> row).

Definition append_portal_message (session_id role content : string) (references : list json)
    : M unit :=
  now ← utc_now;
  with_conn (
    sql_exec (on_messages (λ t, t ++ [{|
      m_session_id := session_id; m_role := role; m_content := content;
      m_references_json := json_dumps (JArr references); m_created_at := now |}])) ;;
    sql_exec (on_sessions (update_where (λ s, s_session_id s = session_id) (s_touch now)))).

(** [json.loads(r["references_json"] or "[]")] *)
Definition message_view (m : MessageRow) : res MessageView :=
  match json_loads (py_or (m_references_json m) "[]") with
  | Some j => Ok {| mv_role := m_role m; mv_content := m_content m;
                    mv_references := j; mv_created_at := m_created_at m |}
  | None => Err (ValueError "JSONDecodeError")
  end.

Definition session_messages (d : Db) (session_id : string) : list MessageRow :=
  filter (λ m, m_session_id m = session_id) (t_messages d).

Definition list_portal_messages (session_id : string) (limit : Z) : M (list MessageView) :=
  rows ← with_conn (sql_query (λ d, sql_limit limit (session_messages d session_id)));
  for_fold (λ acc m, v ← lift_res (message_view m); mret (acc ++ [v])) [] rows.

Definition by_updated_desc (a b : SessionRow) : bool := str_leb (s_updated_at b) (s_updated_at a).

Definition list_user_sessions (user_id : string) (dept_id : option string) (limit : Z)
    : M (list SessionView) :=
  with_conn (sql_query (λ d, session_view <$> sql_limit (Z.max 1 limit)
    (isort by_updated_desc
      (filter (λ s, s_user_id s = user_id ∧ s_is_active s = true ∧
                    opt_filter dept_id (s_dept_id s)) (t_sessions d))))).

Definition list_dept_sessions (dept_id : string) (exclude_user_id : option string)
    (include_private : bool) (limit : Z) : M (list SessionView) :=
  with_conn (sql_query (λ d, session_view <$> sql_limit limit
    (isort by_updated_desc
      (filter (λ s, s_dept_id s = normalize_dept_id dept_id ∧ s_is_active s = true ∧
         (opt_truthy exclude_user_id = false ∨ Some (s_user_id s) ≠ exclude_user_id) ∧
         (include_private = true ∨ s_is_private s = false)) (t_sessions d))))).

(** The active session [session_id], if [user_id] owns it *)
Definition owned_session (session_id user_id : string) (d : Db) : option SessionRow :=
  fetchone (λ s, s_session_id s = session_id ∧ s_user_id s = user_id ∧ s_is_active s = true)
    (t_sessions d).

Definition deactivate_portal_session (session_id user_id : string) : M bool :=
  now ← utc_now;
  with_conn (
    row ← sql_query (owned_session session_id user_id);
    match row with
    | None => mret false
    | Some _ =>
        sql_exec (on_sessions (update_where (λ s, s_session_id s = session_id)
                                 (s_deactivate now))) ;;
        mret true
    end).

Definition update_portal_session_privacy (session_id user_id : string) (is_private : bool)
    : M bool :=
  now ← utc_now;
  with_conn (
    row ← sql_query (owned_session session_id user_id);
    match row with
    | None => mret false
    | Some _ =>
        sql_exec (on_sessions (update_where (λ s, s_session_id s = session_id)
                                 (s_set_private is_private now))) ;;
        mret true
    end).

(** ** [cascade_cleanup_kb] *)

Record Cleanup := {
  cl_kb_id : string; cl_deleted_kb_shares : nat; cl_deleted_share_requests : nat;
  cl_deactivated_sessions : nat; cl_deleted_messages : nat; cl_session_ids : list string }.

Definition sessions_using (kb_id : string) (d : Db) : list string :=
  s_session_id <$> filter (λ s, s_is_active s = true ∧ s_kb_ids_json s ≠ "[]" ∧
                                kb_id ∈ loads_col_or_nil (s_kb_ids_json s)) (t_sessions d).

Definition cascade_cleanup_kb (kb_id : string) : M Cleanup :=
  let kb_id := py_strip kb_id in
  if decide (kb_id = "") then
    mret {| cl_kb_id := kb_id; cl_deleted_kb_shares := 0; cl_deleted_share_requests := 0;
            cl_deactivated_sessions := 0; cl_deleted_messages := 0; cl_session_ids := [] |}
  else
    now ← utc_now;
    with_conn (
      n1 ← sql_query (λ d, rowcount (λ k, k_kb_id k = kb_id) (t_shares d));
      sql_exec (on_shares (delete_where (λ k, k_kb_id k = kb_id))) ;;
      n2 ← sql_query (λ d, rowcount (λ r, r_kb_id r = kb_id) (t_requests d));
      sql_exec (on_requests (delete_where (λ r, r_kb_id r = kb_id))) ;;
      affected ← sql_query (sessions_using kb_id);
      deleted ← for_fold (λ acc sid,
        n ← sql_query (λ d, rowcount (λ m, m_session_id m = sid) (t_messages d));
        sql_exec (on_messages (delete_where (λ m, m_session_id m = sid))) ;;
        sql_exec (on_sessions (update_where (λ s, s_session_id s = sid) (s_deactivate now))) ;;
        mret (acc + n)) 0 affected;
      mret {| cl_kb_id := kb_id; cl_deleted_kb_shares := n1; cl_deleted_share_requests := n2;
              cl_deactivated_sessions := length affected; cl_deleted_messages := deleted;
              cl_session_ids := affected |}).
End ops.
