(* ===== verification/StoreRequests.v ===== *)
(** [PortalStore], share requests and the recall dashboard (portal_store.py). *)
From S2P Require Import Prelude PyText Json Schema Effects StoreUsers StorePolicy StoreSessions.

Local Open Scope Z_scope.

(** [UPDATE kb_share_requests SET status, reviewer, comment] *)
Definition r_review (status reviewer comment now : string) (r : RequestRow) : RequestRow := {|
  r_request_id := r_request_id r; r_kb_id := r_kb_id r; r_owner_dept_id := r_owner_dept_id r;
  r_requester_user_id := r_requester_user_id r; r_target_scope := r_target_scope r;
  r_target_dept_ids_json := r_target_dept_ids_json r; r_target_user_id := r_target_user_id r;
  r_reason := r_reason r; r_status := status; r_reviewer_user_id := Some reviewer;
  r_review_comment := Some comment; r_created_at := r_created_at r; r_updated_at := now;
  r_requested_permission := r_requested_permission r;
  r_parent_share_id := r_parent_share_id r |}.

(** [INSERT INTO kb_share_requests] *)
Definition insert_request (r : RequestRow) (d : Db) : res Db :=
  match fetchone (λ x, r_request_id x = r_request_id r) (t_requests d) with
  | Some _ => Err (IntegrityError "UNIQUE constraint failed: kb_share_requests.request_id")
  | None => Ok (on_requests (λ t, t ++ [r]) d)
  end.

(** The dictionary of a request: the row, with [target_dept_ids] and
    [owner_dept_id] normalized. *)
Record RequestView := {
  rv_row : RequestRow; rv_target_dept_ids : list string; rv_owner_dept_id : string }.

Definition request_view (r : RequestRow) : RequestView := {|
  rv_row := r;
  rv_target_dept_ids := normalize_dept_id <$> loads_col_or_nil (r_target_dept_ids_json r);
  rv_owner_dept_id := normalize_dept_id (r_owner_dept_id r) |}.

Section ops.
Context `{Env}.

Definition request_by_id (request_id : string) (d : Db) : option RequestRow :=
  fetchone (λ r, r_request_id r = request_id) (t_requests d).

Definition get_kb_share_request (request_id : string) : M (option RequestView) :=
  row ← with_conn (sql_query (request_by_id request_id));
  mret (request_view <$> row).

Definition create_kb_share_request (kb_id owner_dept_id requester_user_id target_scope : string)
    (target_dept_ids : list string) (target_user_id : option string) (reason : string)
    (requested_permission : option Z) (parent_share_id : option Z) : M (option RequestView) :=
  now ← utc_now;
  req_id ← new_id "shr_";
  let target_ids := normalize_dept_id <$> filter (λ x, py_strip x ≠ "") target_dept_ids in
  let perm := match requested_permission with Some p => p | None => PERM_READ end in
  let perm := if Z.land perm PERM_READ =? 0 then Z.lor perm PERM_READ else perm in
  with_conn (sql_try (insert_request {|
    r_request_id := req_id; r_kb_id := kb_id;
    r_owner_dept_id := normalize_dept_id owner_dept_id;
    r_requester_user_id := requester_user_id; r_target_scope := target_scope;
    r_target_dept_ids_json := json_dumps_strs target_ids;
    r_target_user_id := target_user_id; r_reason := reason; r_status := "pending";
    r_reviewer_user_id := None; r_review_comment := None;
    r_created_at := now; r_updated_at := now;
    r_requested_permission := perm; r_parent_share_id := parent_share_id |})) ;;
  get_kb_share_request req_id.

(** The join with [users] for the login of the target *)
Record RequestItem := { ri_view : RequestView; ri_target_user_login : option string }.

Definition owner_filter (owner : option string) (col : string) : Prop :=
  match owner with Some o => col = o | None => True end.

#[export] Instance owner_filter_dec o col : Decision (owner_filter o col).
Proof. destruct o; simpl; apply _. Defined.

Definition list_kb_share_requests (status owner_dept_id requester_user_id : option string)
    (page page_size : Z) : M (list RequestItem) :=
  let owner := match owner_dept_id with
               | Some o => if decide (o = "") then None else Some (normalize_dept_id o)
               | None => None
               end in
  with_conn (sql_query (λ d,
    (λ r, {| ri_view := request_view r;
             ri_target_user_login := u ← r_target_user_id r;
               u_login_id <$> fetchone (λ x, u_user_id x = u) (t_users d) |}) <$>
    sql_limit (Z.max 1 page_size) (drop (Z.to_nat (Z.max 0 ((page - 1) * page_size)))
      (isort (λ a b, str_leb (r_updated_at b) (r_updated_at a))
        (filter (λ r, opt_filter status (r_status r) ∧
           owner_filter owner (r_owner_dept_id r) ∧
           opt_filter requester_user_id (r_requester_user_id r)) (t_requests d)))))).

Definition review_kb_share_request (request_id reviewer_user_id : string) (approved : bool)
    (review_comment : string) : M (option RequestView) :=
  now ← utc_now;
  let status := if approved then "approved" else "rejected" in
  with_conn (sql_exec (on_requests (update_where
    (λ r, r_request_id r = request_id ∧ r_status r = "pending")
    (r_review status reviewer_user_id review_comment now)))) ;;
  get_kb_share_request request_id.

Definition delete_kb_share_request (request_id : string) : M bool :=
  with_conn (
    n ← sql_query (λ d, rowcount (λ r, r_request_id r = request_id) (t_requests d));
    sql_exec (on_requests (delete_where (λ r, r_request_id r = request_id))) ;;
    mret (0 <? n)%nat).

(** ** Recall dashboard *)

Record DeptShare := {
  ds_kb_id : string; ds_dept_id : string; ds_dept_code : string; ds_dept_name : string;
  ds_permission_mask : Z }.

(** The mask of any approved share on [kb_id] of an active member of the
    department. *)
Definition dept_share_mask (d : Db) (kb_id dept_id : string) : option Z :=
  k_permission_mask <$> fetchone (λ k, k_kb_id k = kb_id ∧ k_status k = "approved" ∧
    Exists (λ r, ud_user_id r = k_target_user_id k ∧ ud_dept_id r = dept_id ∧
                 ud_is_active r = true) (t_user_departments d)) (t_shares d).

Definition dept_share_entry (d : Db) (kb_id dept_id : string) : DeptShare :=
  let row := fetchone (λ x, d_dept_id x = dept_id) (t_departments d) in {|
  ds_kb_id := kb_id; ds_dept_id := dept_id;
  ds_dept_code := match row with Some x => d_dept_code x | None => dept_id end;
  ds_dept_name := match row with Some x => d_dept_name x | None => dept_id end;
  ds_permission_mask := match dept_share_mask d kb_id dept_id with
                        | Some m => m | None => PERM_READ end |}.

Definition list_dept_shares_for_owner (owner_user_id : string) : M (list DeptShare) :=
  policies ← with_conn (sql_query (λ d,
    filter (λ p, p_resource_type p = "kb" ∧ p_owner_user_id p = Some owner_user_id ∧
                 p_is_active p = true) (t_policies d)));
  for_fold (λ acc p,
    let allow_depts := loads_col_or_nil (p_allow_dept_ids_json p) in
    entries ← with_conn (sql_query (λ d,
      dept_share_entry d (p_resource_id p) <$> allow_depts));
    mret (acc ++ entries)) [] policies.

Record UserShare := {
  us_share : ShareRow; us_target_login : string; us_target_name : string }.

Definition list_user_shares_for_owner (owner_user_id : string) : M (list UserShare) :=
  with_conn (sql_query (λ d,
    isort (λ a b, str_leb (k_created_at (us_share b)) (k_created_at (us_share a)))
      (omap (λ k,
        u ← fetchone (λ u, u_user_id u = k_target_user_id k) (t_users d);
        p ← fetchone (λ p, p_resource_id p = k_kb_id k ∧ p_resource_type p = "kb" ∧
                           p_is_active p = true) (t_policies d);
        if decide (p_owner_user_id p = Some owner_user_id ∧ k_status k = "approved") then
          Some {| us_share := k; us_target_login := u_login_id u;
                  us_target_name := u_display_name u |}
        else None) (t_shares d)))).

(** [list.remove]: the first occurrence *)
Fixpoint remove_first (x : string) (l : list string) : list string :=
  match l with
  | [] => []
  | y :: l' => if decide (y = x) then l' else y :: remove_first x l'
  end.

Definition revoke_dept_share (kb_id dept_id : string) : M bool :=
  let dept_id := normalize_dept_id dept_id in
  now ← utc_now;
  with_conn (
    row ← sql_query (λ d, fetchone (λ p, p_resource_id p = kb_id ∧ p_resource_type p = "kb" ∧
                                         p_is_active p = true) (t_policies d));
    match row with
    | None => mret false
    | Some p =>
        let allow_depts := loads_col_or_nil (p_allow_dept_ids_json p) in
        let allow_depts := remove_first dept_id allow_depts in
        sql_exec (on_policies (update_where (λ q, p_policy_id q = p_policy_id p)
          (p_set_allow (json_dumps_strs allow_depts) now))) ;;
        dept_users ← sql_query (λ d, ud_user_id <$>
          filter (λ r, ud_dept_id r = dept_id ∧ ud_is_active r = true) (t_user_departments d));
        for_each (λ u, sql_exec (on_shares (delete_where
          (λ k, k_kb_id k = kb_id ∧ k_target_user_id k = u)))) dept_users ;;
        mret true
    end).

Definition revoke_user_share (share_id : Z) : M bool :=
  now ← utc_now;
  with_conn (
    n ← sql_query (λ d, rowcount (λ k, k_id k = share_id ∧ k_status k = "approved") (t_shares d));
    sql_exec (on_shares (update_where (λ k, k_id k = share_id ∧ k_status k = "approved")
                           (k_revoke now))) ;;
    mret (0 <? n)%nat).
End ops.
