(* ===== verification/StoreStep.v ===== *)
(** The store as a transition system: [stmt] is the effect of one SQL statement of
    [PortalStore] on the database, and every operation of the store moves the
    database by a sequence of them. *)
From S2P Require Import Prelude PyText Json Digest Schema Effects Steps StoreUsers StorePolicy.
From S2P Require Import StoreSessions StoreRequests.

(** ** Statements *)

(** A list column as the store writes it *)
Definition list_col (col : string) : Prop := ∃ l, col = json_dumps_strs l.

Inductive stmt : Db → Db → Prop :=
  (* users and departments *)
  | st_insert_user u d d' :
      insert_user u d = Ok d' →
      (∀ v, v ∈ t_users d → sql_upper (u_login_id v) ≠ sql_upper (u_login_id u)) →
      stmt d d'
  | st_set_ragflow uid rid tok now d :
      stmt d (on_users (update_where (λ u, u_user_id u = uid) (u_set_ragflow rid tok now)) d)
  | st_delete_users uid d :
      stmt d (on_users (delete_where (λ u, u_user_id u = uid)) d)
  | st_insert_user_dept r d : stmt d (insert_user_dept r d)
  | st_delete_user_depts uid d :
      stmt d (on_user_departments (delete_where (λ r, ud_user_id r = uid)) d)
  (* policies *)
  | st_insert_policy p d d' :
      insert_policy p d = Ok d' → list_col (p_allow_dept_ids_json p) →
      list_col (p_deny_dept_ids_json p) → list_col (p_allow_roles_json p) → stmt d d'
  | st_overwrite_policy pid od ou vis roles allow deny cat now d :
      stmt d (on_policies (update_where (λ p, p_policy_id p = pid)
                (p_overwrite od ou vis (json_dumps_strs roles) (json_dumps_strs allow)
                   (json_dumps_strs deny) cat now)) d)
  | st_deactivate_policy rt rid now d :
      stmt d (on_policies (update_where
                (λ p, p_resource_type p = rt ∧ p_resource_id p = rid) (p_deactivate now)) d)
  | st_set_allow pid allow now d :
      stmt d (on_policies (update_where (λ p, p_policy_id p = pid)
                (p_set_allow (json_dumps_strs allow) now)) d)
  | st_delete_policies o d :
      stmt d (on_policies (delete_where (λ p, p_owner_user_id p = Some o)) d)
  (* shares *)
  | st_upsert_share kb t mask by_ ap parent st now d :
      stmt d (upsert_share kb t mask by_ ap parent st now d)
  | st_revoke_shares (P : ShareRow → Prop) `{!∀ k, Decision (P k)} now d :
      stmt d (on_shares (update_where P (k_revoke now)) d)
  | st_delete_shares (P : ShareRow → Prop) `{!∀ k, Decision (P k)} d :
      stmt d (on_shares (delete_where P) d)
  (* audit *)
  | st_insert_audit a d d' : insert_audit a d = Ok d' → stmt d d'
  (* sessions and messages *)
  | st_upsert_session s d : list_col (s_kb_ids_json s) → stmt d (upsert_session s d)
  | st_touch_sessions sid now d :
      stmt d (on_sessions (update_where (λ s, s_session_id s = sid) (s_touch now)) d)
  | st_deactivate_sessions sid now d :
      stmt d (on_sessions (update_where (λ s, s_session_id s = sid) (s_deactivate now)) d)
  | st_set_private sid b now d :
      stmt d (on_sessions (update_where (λ s, s_session_id s = sid) (s_set_private b now)) d)
  | st_delete_sessions uid d :
      stmt d (on_sessions (delete_where (λ s, s_user_id s = uid)) d)
  | st_insert_message m d : stmt d (on_messages (λ t, t ++ [m]) d)
  | st_delete_messages sid d :
      stmt d (on_messages (delete_where (λ m, m_session_id m = sid)) d)
  (* share requests *)
  | st_insert_request r d d' :
      insert_request r d = Ok d' → r_status r = "pending" →
      list_col (r_target_dept_ids_json r) → stmt d d'
  | st_review_request rid ok reviewer comment now d :
      stmt d (on_requests (update_where (λ r, r_request_id r = rid ∧ r_status r = "pending")
                (r_review (if (ok : bool) then "approved" else "rejected") reviewer comment now)) d)
  | st_delete_requests (P : RequestRow → Prop) `{!∀ r, Decision (P r)} d :
      stmt d (on_requests (delete_where P) d).

(** The database after some statements *)
Definition evolves : relation Db := rtc stmt.

#[export] Instance evolves_preorder : PreOrder evolves.
Proof. unfold evolves. apply _. Qed.

Lemma evolves_stmt d d' : stmt d d' → evolves d d'.
Proof. apply rtc_once. Qed.

Lemma list_col_dumps l : list_col (json_dumps_strs l).
Proof. by eexists. Qed.

#[export] Hint Resolve evolves_stmt : steps.
#[export] Hint Extern 1 (list_col _) => apply list_col_dumps : steps.
#[export] Hint Extern 1 (_ = _ :> string) => reflexivity : steps.
#[export] Hint Constructors stmt : steps.

Abbreviation moves := (steps (on_db evolves)).

Lemma moves_exec f : (∀ d, stmt d (f d)) → moves (sql_exec f).
Proof. intros Hf. apply steps_exec. intros d. apply evolves_stmt, Hf. Qed.

Lemma moves_try f : (∀ d d', f d = Ok d' → stmt d d') → moves (sql_try f).
Proof. intros Hf. apply steps_sql_try. intros d d' Hd. by eapply evolves_stmt, Hf. Qed.

Ltac move_stmt :=
  first [ apply moves_exec; intros ?; by eauto with steps
        | apply moves_try; intros ???; by eauto with steps ].
Ltac moves_tac :=
  repeat first [progress cbv zeta | step1 | solve [eauto with steps nocore] | move_stmt].

Ltac head_of t := lazymatch t with ?f _ => head_of f | _ => t end.

(** An operation moves by the statements of its definition. *)
Ltac moves_op :=
  intros; lazymatch goal with |- steps _ ?m => let h := head_of m in unfold h end; moves_tac.

Lemma moves_utc_now `{Env} : moves utc_now.
Proof. apply (steps_tick (λ n, Ok (env_now n))). Qed.
Lemma moves_time_now `{Env} : moves time_now.
Proof. apply (steps_tick (λ n, Ok (env_time n))). Qed.
Lemma moves_new_uuid `{Env} : moves new_uuid.
Proof. apply (steps_tick (λ n, Ok (env_uuid n))). Qed.
Lemma moves_urandom_hex `{Env} : moves urandom_hex.
Proof. apply (steps_tick (λ n, Ok (env_salt n))). Qed.
Lemma moves_lift {A} (r : res A) : moves (lift_res r).
Proof. apply steps_lift. Qed.
#[export] Hint Resolve moves_utc_now moves_time_now moves_new_uuid moves_urandom_hex
  moves_lift : steps.

Lemma moves_new_id `{Env} p : moves (new_id p).
Proof. moves_op. Qed.
#[export] Hint Resolve moves_new_id : steps.

Lemma moves_make_password_hash_m `{Env} `{Crypto} p : moves (make_password_hash_m p).
Proof. moves_op. Qed.
#[export] Hint Resolve moves_make_password_hash_m : steps.

(** ** Users *)

Lemma moves_authenticate_user `{Env} `{Crypto} l p : moves (authenticate_user l p).
Proof. moves_op. Qed.
#[export] Hint Resolve moves_authenticate_user : steps.

Lemma moves_get_user_ragflow_token `{Env} u : moves (get_user_ragflow_token u).
Proof. moves_op. Qed.
#[export] Hint Resolve moves_get_user_ragflow_token : steps.

Lemma moves_get_all_users_with_ragflow_token `{Env} : moves (get_all_users_with_ragflow_token).
Proof. moves_op. Qed.
#[export] Hint Resolve moves_get_all_users_with_ragflow_token : steps.

Lemma moves_get_all_users_without_ragflow `{Env} : moves (get_all_users_without_ragflow).
Proof. moves_op. Qed.
#[export] Hint Resolve moves_get_all_users_without_ragflow : steps.

Lemma moves_update_user_ragflow `{Env} u a b : moves (update_user_ragflow u a b).
Proof. moves_op. Qed.
#[export] Hint Resolve moves_update_user_ragflow : steps.

Lemma moves_get_user_ragflow_user_id `{Env} u : moves (get_user_ragflow_user_id u).
Proof. moves_op. Qed.
#[export] Hint Resolve moves_get_user_ragflow_user_id : steps.

Lemma moves_delete_user `{Env} u : moves (delete_user u).
Proof. moves_op. Qed.
#[export] Hint Resolve moves_delete_user : steps.

Lemma moves_get_user_by_login `{Env} u : moves (get_user_by_login u).
Proof. moves_op. Qed.
#[export] Hint Resolve moves_get_user_by_login : steps.

Lemma moves_search_users `{Env} q l : moves (search_users q l).
Proof. moves_op. Qed.
#[export] Hint Resolve moves_search_users : steps.

Lemma moves_get_users_in_dept `{Env} d : moves (get_users_in_dept d).
Proof. moves_op. Qed.
#[export] Hint Resolve moves_get_users_in_dept : steps.

Lemma moves_get_user_departments `{Env} u : moves (get_user_departments u).
Proof. moves_op. Qed.
#[export] Hint Resolve moves_get_user_departments : steps.

Lemma moves_get_all_departments `{Env} : moves (get_all_departments).
Proof. moves_op. Qed.
#[export] Hint Resolve moves_get_all_departments : steps.

Lemma moves_is_admin `{Env} u : moves (is_admin u).
Proof. moves_op. Qed.
#[export] Hint Resolve moves_is_admin : steps.

Lemma moves_is_dept_admin `{Env} u d : moves (is_dept_admin u d).
Proof. moves_op. Qed.
#[export] Hint Resolve moves_is_dept_admin : steps.

(** ** Policies and shares *)

Lemma moves_add_kb_share `{Env} k t m s p a st : moves (add_kb_share k t m s p a st).
Proof. moves_op. Qed.
#[export] Hint Resolve moves_add_kb_share : steps.

Lemma moves_remove_kb_share `{Env} k t : moves (remove_kb_share k t).
Proof. moves_op. Qed.
#[export] Hint Resolve moves_remove_kb_share : steps.

Lemma moves_get_kb_permission `{Env} k u : moves (get_kb_permission k u).
Proof. moves_op. Qed.
#[export] Hint Resolve moves_get_kb_permission : steps.

Lemma moves_has_kb_access `{Env} k u : moves (has_kb_access k u).
Proof. moves_op. Qed.
#[export] Hint Resolve moves_has_kb_access : steps.

Lemma moves_list_kb_shares `{Env} k : moves (list_kb_shares k).
Proof. moves_op. Qed.
#[export] Hint Resolve moves_list_kb_shares : steps.

Lemma moves_upsert_policy `{Env} rt rid od v c ou al de ro ca : moves (upsert_policy rt rid od v c ou al de ro ca).
Proof. moves_op. Qed.
#[export] Hint Resolve moves_upsert_policy : steps.

Lemma moves_list_policies `{Env} a b c d p s : moves (list_policies a b c d p s).
Proof. moves_op. Qed.
#[export] Hint Resolve moves_list_policies : steps.

Lemma moves_deactivate_policy `{Env} a b : moves (deactivate_policy a b).
Proof. moves_op. Qed.
#[export] Hint Resolve moves_deactivate_policy : steps.

Lemma moves_cleanup_stale_kb_policies `{Env} a : moves (cleanup_stale_kb_policies a).
Proof. moves_op. Qed.
#[export] Hint Resolve moves_cleanup_stale_kb_policies : steps.

Lemma moves_get_policy `{Env} a b : moves (get_policy a b).
Proof. moves_op. Qed.
#[export] Hint Resolve moves_get_policy : steps.

Lemma moves_effective_kb_permission `{Env} a b c d e : moves (effective_kb_permission a b c d e).
Proof. moves_op. Qed.
#[export] Hint Resolve moves_effective_kb_permission : steps.

(** ** Audit, sessions and messages *)

Lemma moves_write_audit `{Env} a b c d e f g h i j : moves (write_audit a b c d e f g h i j).
Proof. moves_op. Qed.
#[export] Hint Resolve moves_write_audit : steps.

Lemma moves_list_audit_logs `{Env} a b c d e f : moves (list_audit_logs a b c d e f).
Proof. moves_op. Qed.
#[export] Hint Resolve moves_list_audit_logs : steps.

Lemma moves_create_portal_session `{Env} a b c d e f g : moves (create_portal_session a b c d e f g).
Proof. moves_op. Qed.
#[export] Hint Resolve moves_create_portal_session : steps.

Lemma moves_get_portal_session `{Env} a : moves (get_portal_session a).
Proof. moves_op. Qed.
#[export] Hint Resolve moves_get_portal_session : steps.

Lemma moves_append_portal_message `{Env} a b c d : moves (append_portal_message a b c d).
Proof. moves_op. Qed.
#[export] Hint Resolve moves_append_portal_message : steps.

Lemma moves_list_portal_messages `{Env} a b : moves (list_portal_messages a b).
Proof. moves_op. Qed.
#[export] Hint Resolve moves_list_portal_messages : steps.

Lemma moves_list_user_sessions `{Env} a b c : moves (list_user_sessions a b c).
Proof. moves_op. Qed.
#[export] Hint Resolve moves_list_user_sessions : steps.

Lemma moves_list_dept_sessions `{Env} a b c d : moves (list_dept_sessions a b c d).
Proof. moves_op. Qed.
#[export] Hint Resolve moves_list_dept_sessions : steps.

Lemma moves_deactivate_portal_session `{Env} a b : moves (deactivate_portal_session a b).
Proof. moves_op. Qed.
#[export] Hint Resolve moves_deactivate_portal_session : steps.

Lemma moves_update_portal_session_privacy `{Env} a b c : moves (update_portal_session_privacy a b c).
Proof. moves_op. Qed.
#[export] Hint Resolve moves_update_portal_session_privacy : steps.

Lemma moves_cascade_cleanup_kb `{Env} a : moves (cascade_cleanup_kb a).
Proof. moves_op. Qed.
#[export] Hint Resolve moves_cascade_cleanup_kb : steps.

(** ** Share requests *)

Lemma moves_get_kb_share_request `{Env} a : moves (get_kb_share_request a).
Proof. moves_op. Qed.
#[export] Hint Resolve moves_get_kb_share_request : steps.

Lemma moves_create_kb_share_request `{Env} a b c d e f g h i : moves (create_kb_share_request a b c d e f g h i).
Proof. moves_op. Qed.
#[export] Hint Resolve moves_create_kb_share_request : steps.

Lemma moves_list_kb_share_requests `{Env} a b c d e : moves (list_kb_share_requests a b c d e).
Proof. moves_op. Qed.
#[export] Hint Resolve moves_list_kb_share_requests : steps.

Lemma moves_review_kb_share_request `{Env} a b c d : moves (review_kb_share_request a b c d).
Proof. moves_op. Qed.
#[export] Hint Resolve moves_review_kb_share_request : steps.

Lemma moves_delete_kb_share_request `{Env} a : moves (delete_kb_share_request a).
Proof. moves_op. Qed.
#[export] Hint Resolve moves_delete_kb_share_request : steps.

Lemma moves_list_dept_shares_for_owner `{Env} a : moves (list_dept_shares_for_owner a).
Proof. moves_op. Qed.
#[export] Hint Resolve moves_list_dept_shares_for_owner : steps.

Lemma moves_list_user_shares_for_owner `{Env} a : moves (list_user_shares_for_owner a).
Proof. moves_op. Qed.
#[export] Hint Resolve moves_list_user_shares_for_owner : steps.

Lemma moves_revoke_dept_share `{Env} a b : moves (revoke_dept_share a b).
Proof. moves_op. Qed.
#[export] Hint Resolve moves_revoke_dept_share : steps.

Lemma moves_revoke_user_share `{Env} a : moves (revoke_user_share a).
Proof. moves_op. Qed.
#[export] Hint Resolve moves_revoke_user_share : steps.

(** ** Registration *)

(** The rule of [mbind] for one run *)
Lemma moves_from_bind {A B} (m : M A) (f : A → M B) w :
  moves m → (∀ a w', m w = (Ok a, w') → on_db evolves w' (f a w').2) →
  on_db evolves w ((m ≫= f) w).2.
Proof.
  intros Hm Hf. unfold mbind, M_bind. specialize (Hm w).
  destruct (m w) as [[a|e] w'] eqn:E; [|done]. etrans; [exact Hm|]. by apply Hf.
Qed.

Lemma moves_insert_user u w :
  (∀ v, v ∈ t_users (w_db w) → sql_upper (u_login_id v) ≠ sql_upper (u_login_id u)) →
  on_db evolves w (sql_try (insert_user u) w).2.
Proof.
  intros Hnew. unfold sql_try, on_db. destruct (insert_user u (w_db w)) as [d'|e] eqn:E; [|done].
  by eapply evolves_stmt, st_insert_user.
Qed.

(** The statement that inserts the user runs only when no login differs from the
    new one by case alone. *)
Lemma moves_register_user `{Env} `{Crypto} login_id password display dept role rid tok :
  moves (register_user login_id password display dept role rid tok).
Proof.
  unfold register_user. apply steps_bind; [eauto with steps|]. intros now.
  apply steps_bind; [|intros ?; apply steps_ret]. apply steps_conn. intros w.
  apply moves_from_bind; [moves_tac|]. intros existing w0 [= <- <-].
  destruct (fetchone _ _) as [u|] eqn:Hnew; [by apply steps_raise|].
  rewrite fetchone_None in Hnew.
  apply moves_from_bind; [moves_tac|]. intros uid w1 [= <- <-].
  apply moves_from_bind; [moves_tac|]. intros hash w2 [= <- <-].
  unfold mbind at 1, M_bind at 1.
  match goal with |- context [sql_try (insert_user ?u) ?w'] =>
    assert (on_db evolves w' (sql_try (insert_user u) w').2) as Hins
      by (apply moves_insert_user; intros v Hv; by apply Hnew);
    destruct (sql_try (insert_user u) w') as [[[]|e] w'']; [|exact Hins]
  end.
  etrans; [exact Hins|].
  match goal with |- on_db evolves _ (?m _).2 => enough (moves m) as Hm by apply Hm end.
  moves_tac.
Qed.
#[export] Hint Resolve moves_register_user : steps.
