(* ===== verification/StoreInv.v ===== *)
(** Invariants of the store: every statement keeps the database well formed,
    extends the audit log, and leaves a reviewed share request as it is. *)
From S2P Require Import Prelude PyText Json Digest Schema Effects Steps StoreUsers StorePolicy.
From S2P Require Import StoreSessions StoreRequests StoreStep.

Local Open Scope Z_scope.

(** ** Well-formed databases *)

Definition policy_cols (p : PolicyRow) : Prop :=
  list_col (p_allow_dept_ids_json p) ∧ list_col (p_deny_dept_ids_json p) ∧
  list_col (p_allow_roles_json p).

Definition request_row_ok (r : RequestRow) : Prop :=
  (r_status r = "pending" ∨ r_status r = "approved" ∨ r_status r = "rejected") ∧
  list_col (r_target_dept_ids_json r).

(** The constraints of the schema, the uniqueness of logins up to case, and list
    columns that hold JSON lists of strings *)
Record store_wf (d : Db) : Prop := {
  wf_user_ids : NoDup (u_user_id <$> t_users d);
  wf_logins : NoDup ((λ u, sql_upper (u_login_id u)) <$> t_users d);
  wf_memberships : NoDup ((λ r, (ud_user_id r, ud_dept_id r)) <$> t_user_departments d);
  wf_policy_ids : NoDup (p_policy_id <$> t_policies d);
  wf_policy_keys : NoDup ((λ p, (p_resource_type p, p_resource_id p)) <$> t_policies d);
  wf_policy_cols : Forall policy_cols (t_policies d);
  wf_audit_ids : NoDup (a_audit_id <$> t_audit d);
  wf_session_ids : NoDup (s_session_id <$> t_sessions d);
  wf_session_cols : Forall (λ s, list_col (s_kb_ids_json s)) (t_sessions d);
  wf_request_ids : NoDup (r_request_id <$> t_requests d);
  wf_request_rows : Forall request_row_ok (t_requests d);
  wf_share_keys : NoDup ((λ k, (k_kb_id k, k_target_user_id k)) <$> t_shares d);
  wf_share_ids : NoDup (k_id <$> t_shares d);
  wf_share_bound : Forall (λ k, 1 ≤ k_id k ≤ t_share_seq d) (t_shares d);
  wf_share_seq : 0 ≤ t_share_seq d }.

Create HintDb wf discriminated.

Lemma update_where_key_NoDup {A K} (P : A → Prop) `{!∀ x, Decision (P x)} (key : A → K) f t :
  NoDup (key <$> t) → (∀ x, key (f x) = key x) → NoDup (key <$> update_where P f t).
Proof. intros Hnd Hf. by rewrite update_where_key. Qed.

#[export] Hint Resolve update_where_key_NoDup delete_where_key_NoDup Forall_update_where
  Forall_delete_where Forall_snoc NoDup_key_snoc : wf.

(** A fresh key: no row has it. *)
Lemma fetchone_None_key {A K} (P : A → Prop) `{!∀ x, Decision (P x)} (key : A → K) t x :
  fetchone P t = None → (∀ y, key y = key x → P y) → ∀ y, y ∈ t → key y ≠ key x.
Proof. rewrite fetchone_None. intros Hn HP y Hy Hk. by apply (Hn y Hy), HP. Qed.

Lemma share_bound_bump (t : list ShareRow) n :
  Forall (λ k, 1 ≤ k_id k ≤ n) t → Forall (λ k, 1 ≤ k_id k ≤ n + 1) t.
Proof. intros Ht. apply (Forall_impl _ _ _ Ht). intros k ?. lia. Qed.

Lemma upsert_share_wf kb t mask by_ ap parent st now d :
  store_wf d → store_wf (upsert_share kb t mask by_ ap parent st now d).
Proof.
  intros []. unfold upsert_share. destruct (fetchone _ _) eqn:Hf; split; simpl; auto with wf;
    try lia.
  - apply Forall_update_where; [by apply share_bound_bump|done].
  - apply NoDup_key_snoc; [done|]. intros y Hy. simpl. rewrite fetchone_None in Hf.
    intros [= ??]. by apply (Hf y Hy).
  - apply NoDup_key_snoc; [done|]. intros y Hy. simpl.
    rewrite Forall_forall in wf_share_bound0. specialize (wf_share_bound0 y Hy). lia.
  - apply Forall_snoc; [by apply share_bound_bump|]. simpl. lia.
Qed.

Lemma upsert_session_wf s d :
  list_col (s_kb_ids_json s) → store_wf d → store_wf (upsert_session s d).
Proof.
  intros Hcol []. unfold upsert_session. destruct (fetchone _ _) eqn:Hf; split; simpl; auto with wf.
  apply NoDup_key_snoc; [done|]. intros y Hy. rewrite fetchone_None in Hf. by apply Hf.
Qed.

Lemma insert_user_wf u d d' :
  insert_user u d = Ok d' →
  (∀ v, v ∈ t_users d → sql_upper (u_login_id v) ≠ sql_upper (u_login_id u)) →
  store_wf d → store_wf d'.
Proof.
  unfold insert_user. intros Hins Hnew [].
  destruct (fetchone _ _) eqn:Hf; [done|]. destruct (fetchone (λ r, u_login_id r = _) _); [done|].
  injection Hins as <-. rewrite fetchone_None in Hf. split; simpl; auto with wf.
Qed.

Lemma insert_user_dept_wf r d : store_wf d → store_wf (insert_user_dept r d).
Proof.
  intros []. unfold insert_user_dept. destruct (fetchone _ _) eqn:Hf; [done|].
  rewrite fetchone_None in Hf. split; simpl; auto with wf.
  apply NoDup_key_snoc; [done|]. intros y Hy [= ??]. by apply (Hf y Hy).
Qed.

Lemma insert_policy_wf p d d' :
  insert_policy p d = Ok d' → policy_cols p → store_wf d → store_wf d'.
Proof.
  unfold insert_policy. intros Hins Hcols []. destruct (fetchone _ _) eqn:Hf; [done|].
  injection Hins as <-. rewrite fetchone_None in Hf. split; simpl; auto with wf.
  - apply NoDup_key_snoc; [done|]. intros y Hy ?. apply (Hf y Hy). auto.
  - apply NoDup_key_snoc; [done|]. intros y Hy [= ??]. apply (Hf y Hy). auto.
Qed.

Lemma insert_audit_wf a d d' : insert_audit a d = Ok d' → store_wf d → store_wf d'.
Proof.
  unfold insert_audit. intros Hins []. destruct (fetchone _ _) eqn:Hf; [done|].
  injection Hins as <-. rewrite fetchone_None in Hf. split; simpl; auto with wf.
Qed.

Lemma insert_request_wf r d d' :
  insert_request r d = Ok d' → request_row_ok r → store_wf d → store_wf d'.
Proof.
  unfold insert_request. intros Hins Hok []. destruct (fetchone _ _) eqn:Hf; [done|].
  injection Hins as <-. rewrite fetchone_None in Hf. split; simpl; auto with wf.
Qed.

Lemma stmt_wf d d' : stmt d d' → store_wf d → store_wf d'.
Proof.
  destruct 1; intros Hwf; eauto using insert_user_wf, insert_user_dept_wf, insert_policy_wf,
    insert_audit_wf, insert_request_wf, upsert_share_wf, upsert_session_wf.
  all: try (destruct Hwf; split; simpl; auto with wf; fail).
  - eapply insert_policy_wf; [done|by split_and!|done].
  - destruct Hwf; split; simpl; auto with wf.
    apply Forall_update_where; [done|]. intros p _. split_and!; apply list_col_dumps.
  - destruct Hwf; split; simpl; auto with wf.
    apply Forall_update_where; [done|]. intros p (? & ? & ?). split_and!; simpl; auto with steps.
  - eapply insert_request_wf; [done|split; auto|done].
  - destruct Hwf; split; simpl; auto with wf.
    apply Forall_update_where; [done|]. intros r [_ ?]. split; [|done]. destruct ok; simpl; auto.
Qed.

Lemma evolves_wf d d' : evolves d d' → store_wf d → store_wf d'.
Proof. induction 1; eauto using stmt_wf. Qed.

(** ** The audit log *)

Lemma stmt_audit d d' : stmt d d' → t_audit d `prefix_of` t_audit d'.
Proof.
  destruct 1; try done;
    repeat match goal with
    | H : insert_user _ _ = _ |- _ => unfold insert_user in H
    | H : insert_policy _ _ = _ |- _ => unfold insert_policy in H
    | H : insert_audit _ _ = _ |- _ => unfold insert_audit in H
    | H : insert_request _ _ = _ |- _ => unfold insert_request in H
    end; unfold insert_user_dept, upsert_share, upsert_session; split_matches.
  by eexists.
Qed.

Lemma evolves_audit d d' : evolves d d' → t_audit d `prefix_of` t_audit d'.
Proof. induction 1 as [|d1 d2 d3 H _ IH]; [done|]. etrans; [by apply stmt_audit|done]. Qed.

(** ** Reviewed requests *)

Definition no_request (rid : string) (d : Db) : Prop :=
  ∀ x, x ∈ t_requests d → r_request_id x ≠ rid.

(** A statement keeps a reviewed request, or deletes it. *)
Lemma stmt_reviewed d d' r :
  store_wf d → stmt d d' → r ∈ t_requests d → r_status r ≠ "pending" →
  r ∈ t_requests d' ∨ no_request (r_request_id r) d'.
Proof.
  intros Hwf Hs Hr Hst. destruct Hs; try (by left);
    repeat match goal with
    | H : insert_user _ _ = _ |- _ => unfold insert_user in H
    | H : insert_policy _ _ = _ |- _ => unfold insert_policy in H
    | H : insert_audit _ _ = _ |- _ => unfold insert_audit in H
    | H : insert_request _ _ = _ |- _ => unfold insert_request in H
    end; unfold insert_user_dept, upsert_share, upsert_session; try (split_matches; by left).
  - split_matches. left. apply elem_of_app. by left.
  - left. simpl. apply elem_of_update_where. exists r. split; [done|].
    rewrite decide_False; [done|]. tauto.
  - destruct (decide (P r)).
    + right. simpl. intros x Hx Hid. apply elem_of_delete_where in Hx as [Hx Hnx].
      apply Hnx. by rewrite (NoDup_key_eq r_request_id (t_requests d) x r (wf_request_ids d Hwf)).
    + left. simpl. by apply elem_of_delete_where.
Qed.

Lemma evolves_reviewed d d' r :
  store_wf d → evolves d d' → r ∈ t_requests d → r_status r ≠ "pending" →
  r ∈ t_requests d' ∨ ∃ d1, evolves d d1 ∧ evolves d1 d' ∧ no_request (r_request_id r) d1.
Proof.
  intros Hwf He Hr Hst. induction He as [|d1 d2 d3 Hs He IH]; [by left|].
  destruct (stmt_reviewed d1 d2 r Hwf Hs Hr Hst) as [Hin|Hno].
  - destruct (IH (stmt_wf _ _ Hs Hwf) Hin) as [?|(d' & ? & ? & ?)]; [by left|].
    right. exists d'. split_and!; [|done|done]. by eapply rtc_l.
  - right. exists d2. split_and!; [by apply rtc_once|done|done].
Qed.
