(* ===== verification/GatewayToken.v ===== *)
(** [PortalGateway], configuration, access tokens and login
    (portal_server.py): [PortalConfig], [load_portal_config_from_env],
    [create_token], [parse_token], [is_admin], [login]. *)
From S2P Require Import Prelude PyText Digest Base64 Json Schema Effects StoreUsers.

Local Open Scope Z_scope.

(** ** Configuration *)

Record PortalConfig := {
  api_key : string; base_url : string; db_path : string; auth_secret : string;
  direct_chat_url : string; direct_chat_api_key : string; direct_chat_model : string;
  token_ttl_seconds : Z }.

Section config.
Context `{Crypto}.

(** [os.getenv(name, d)] *)
Definition getenv (environ : gmap string string) (name d : string) : string :=
  default d (environ !! name).

(** [default_db_path] is the path derived from [__file__]. *)
Definition load_portal_config_from_env (environ : gmap string string) (default_db_path : string)
    : res PortalConfig :=
  let api_key := py_strip (getenv environ "RAGFLOW_API_KEY" "") in
  if decide (api_key = "") then Err (RuntimeError "RAGFLOW_API_KEY is required")
  else
    let secret := py_or (py_strip (getenv environ "PORTAL_AUTH_SECRET" ""))
                        (hex (crypto_sha256 (to_bytes (api_key +:+ "portal")))) in
    match py_int (getenv environ "PORTAL_TOKEN_TTL_SECONDS" "28800") with
    | None => Err (ValueError "invalid literal for int() with base 10")
    | Some ttl => Ok {|
        api_key := api_key;
        base_url := py_strip (getenv environ "RAGFLOW_BASE_URL" "http://127.0.0.1:9380");
        db_path := py_strip (getenv environ "PORTAL_DB_PATH" default_db_path);
        auth_secret := secret;
        direct_chat_url := py_strip (getenv environ "DIRECT_CHAT_URL"
                                       "https://apimgateway.siemens-healthineers.com");
        direct_chat_api_key := py_strip (getenv environ "DIRECT_CHAT_API_KEY"
                                           "YOUR_API_KEY_HERE");
        direct_chat_model := py_strip (getenv environ "DIRECT_CHAT_MODEL" "gpt-4o");
        token_ttl_seconds := ttl |}
    end.
End config.

(** ** UTF-8: [bytes.decode("utf-8")] is strict *)

Definition in_range (lo hi : N) (c : ascii) : bool :=
  let n := N_of_ascii c in (lo <=? n)%N && (n <=? hi)%N.

Fixpoint utf8_valid (b : bytes) : bool :=
  match b with
  | [] => true
  | c :: b1 =>
      if in_range 0 127 c then utf8_valid b1
      else match b1 with
      | [] => false
      | c1 :: b2 =>
          if in_range 194 223 c then in_range 128 191 c1 && utf8_valid b2
          else match b2 with
          | [] => false
          | c2 :: b3 =>
              if in_range 224 239 c then
                in_range (if (N_of_ascii c =? 224)%N then 160 else 128)
                         (if (N_of_ascii c =? 237)%N then 159 else 191) c1
                && in_range 128 191 c2 && utf8_valid b3
              else match b3 with
              | [] => false
              | c3 :: b4 =>
                  in_range 240 244 c &&
                  in_range (if (N_of_ascii c =? 240)%N then 144 else 128)
                           (if (N_of_ascii c =? 244)%N then 143 else 191) c1
                  && in_range 128 191 c2 && in_range 128 191 c3 && utf8_valid b4
              end
          end
      end
  end.

Definition utf8_decode (b : bytes) : option string :=
  if utf8_valid b then Some (of_bytes b) else None.

(** ** Integers of JSON values *)

(** [int(x)] of a JSON value; [None] is a [ValueError] or a [TypeError]. *)
Definition json_int (j : json) : option Z :=
  match j with
  | JInt z => Some z
  | JBool b => Some (if b then 1 else 0)
  | JFloat lit => float_int (lit_float lit)
  | JStr s => py_int s
  | _ => None
  end.

(** ** Claims of a token payload *)

(** [payload.get(k)] of a string claim *)
Definition tok_get (k : string) (p : json) : option string :=
  match json_get k p with Some (JStr s) => Some s | _ => None end.

(** [token_payload.get("dept_ids") or []] *)
Definition tok_dept_ids (p : json) : list string :=
  match json_get "dept_ids" p with
  | Some j => default [] (json_str_items j)
  | None => []
  end.

(** [{normalize(x) for x in (token_payload.get("dept_ids") or [])}] *)
Definition tok_depts (p : json) : gset string :=
  list_to_set (normalize_dept_id <$> tok_dept_ids p).

(** ** Tokens *)

(** [_b64url_encode], [_b64url_decode] *)
Definition b64url_encode (raw : bytes) : string := py_rstrip "="%char (urlsafe_b64encode raw).

Definition b64url_decode (raw : string) : option bytes :=
  let n := Z.to_nat ((- Z.of_nat (py_len raw)) mod 4) in
  urlsafe_b64decode (raw +:+ of_bytes (replicate n "="%char)).

Section gateway.
Context `{Env} `{Crypto} (cfg : PortalConfig).

Definition create_token (payload : json) : string :=
  let body := to_bytes (json_dumps_compact_sorted payload) in
  let sig := crypto_hmac (to_bytes (auth_secret cfg)) body in
  b64url_encode body +:+ "." +:+ b64url_encode sig.

(** The part of [parse_token] that does not need the clock: the payload of a
    token whose signature verifies, with its expiry. *)
Definition open_token (token : string) : option (json * Z) :=
  '(body_b64, sig_b64) ← py_split1 "."%char token;
  body ← b64url_decode body_b64;
  let expected_sig := crypto_hmac (to_bytes (auth_secret cfg)) body in
  sig ← b64url_decode sig_b64;
  if decide (expected_sig ≠ sig) then None
  else
    text ← utf8_decode body;
    payload ← json_loads text;
    match payload with
    | JObj kvs =>
        exp ← json_int (default (JInt 0) (dict_get "exp" kvs));
        Some (payload, exp)
    | _ => None
    end.

Definition parse_token (token : string) : M (option json) :=
  match open_token token with
  | None => mret None
  | Some (payload, exp) =>
      now ← time_now;
      mret (if exp <? now then None else Some payload)
  end.

(** [PortalGateway.is_admin] *)
Definition gateway_is_admin (token_payload : json) : M bool :=
  match tok_get "sub" token_payload with
  | None => mret false
  | Some user_id => if decide (user_id = "") then mret false else is_admin user_id
  end.

(** ** Login *)

Record LoginOut := {
  lo_access_token : string; lo_expires_in : Z; lo_user : PortalUser; lo_dept : string;
  lo_departments : list UserDept; lo_default_dept_id : string }.

Definition norm_user_dept (d : UserDept) : UserDept := {|
  xd_dept_id := normalize_dept_id (xd_dept_id d); xd_dept_code := xd_dept_code d;
  xd_dept_name := xd_dept_name d; xd_role := xd_role d;
  xd_is_default := xd_is_default d; xd_is_public := xd_is_public d |}.

Definition login_payload (user : PortalUser) (depts : list UserDept) (default_dept : UserDept)
    (now : Z) : json :=
  JObj [ ("sub", JStr (pu_user_id user)); ("login_id", JStr (pu_login_id user));
         ("display_name", JStr (pu_display_name user));
         ("dept_ids", json_strs (xd_dept_id <$> depts));
         ("default_dept_id", JStr (xd_dept_id default_dept));
         ("iat", JInt now); ("exp", JInt (now + token_ttl_seconds cfg)) ].

Definition login (login_id password : string) : M (option LoginOut) :=
  user ← authenticate_user login_id password;
  match user with
  | None => mret None
  | Some user =>
      raw_depts ← get_user_departments (pu_user_id user);
      let depts := norm_user_dept <$> raw_depts in
      match depts with
      | [] => mret None
      | d0 :: _ =>
          let default_dept := default d0 (fetchone (λ d, xd_is_default d = true) depts) in
          now ← time_now;
          mret (Some {|
            lo_access_token := create_token (login_payload user depts default_dept now);
            lo_expires_in := token_ttl_seconds cfg; lo_user := user;
            lo_dept := dept_code (xd_dept_id default_dept);
            lo_departments := depts; lo_default_dept_id := xd_dept_id default_dept |})
      end
  end.
End gateway.
