(* ===== verification/GatewayAccess.v ===== *)
(** [PortalGateway], discovery of resources and access (portal_server.py): the
    RAGFlow accounts and clients of the users, the policies of agents and
    knowledge bases, and [list_resources]. *)
From S2P Require Import Prelude PyText Base64 Json Dsl Digest Schema Effects.
From S2P Require Import StoreUsers StorePolicy GatewayToken.

Local Open Scope Z_scope.

(** ** Titles *)

(** The code points of a UTF-8 text *)
Fixpoint code_points (pend : N) (more : nat) (b : bytes) : list N :=
  match b with
  | [] => []
  | c :: b' =>
      let n := N_of_ascii c in
      match more with
      | S m =>
          let p := (pend * 64 + N.land n 63)%N in
          match m with O => p :: code_points 0 0 b' | _ => code_points p m b' end
      | O =>
          if (n <? 128)%N then n :: code_points 0 0 b'
          else if (n <? 224)%N then code_points (N.land n 31) 1 b'
          else if (n <? 240)%N then code_points (N.land n 15) 2 b'
          else code_points (N.land n 7) 3 b'
      end
  end.

(** [\w]: letters, digits and the underscore; outside ASCII, every character
    but the Latin-1, general and CJK/full-width punctuation and symbols. *)
Definition is_word (n : N) : bool :=
  (let between lo hi := (lo <=? n) && (n <=? hi) in
  if (n <? 128) then between 48 57 || between 65 90 || between 97 122 || (n =? 95)
  else negb (between 128 169 || between 171 177 || (n =? 180)%N || between 182 184
             || (n =? 187)%N || (n =? 191)%N || (n =? 215)%N || (n =? 247)%N
             || between 8192 8303 || between 12288 12292 || between 12296 12320
             || between 65280 65295 || between 65306 65312 || between 65339 65344
             || between 65371 65381))%N.

(** [re.search(r"\bw\b", t)] for an ASCII word [w]; [prev]: the character
    before [t] is a word character. *)
Fixpoint has_word (prev : bool) (w t : list N) : bool :=
  match t with
  | [] => false
  | c :: t' =>
      (negb prev && bool_decide (take (length w) t = w) &&
       match drop (length w) t with d :: _ => negb (is_word d) | [] => true end)
      || has_word (is_word c) w t'
  end.

Definition search_word (w t : string) : bool :=
  has_word false (code_points 0 0 (to_bytes w)) (code_points 0 0 (to_bytes t)).

(** [re.search(a + ".*" + b, t)] on one line: [b] after the first [a] *)
Fixpoint after_first (p b : bytes) : option bytes :=
  match bytes_strip_prefix p b with
  | Some r => Some r
  | None => match b with [] => None | _ :: b' => after_first p b' end
  end.

Definition search_seq (a b t : string) : bool :=
  existsb (λ line, match after_first (to_bytes a) (to_bytes line) with
                   | Some r => bytes_contains r (to_bytes b)
                   | None => false
                   end) (py_split "010"%char t).

Definition infer_dept_by_title (title : string) : string :=
  let t := py_upper title in
  if py_in "PLM" t then "dept_mp_plm"
  else if search_word "AP" t then "dept_mp_ap"
  else if search_word "MC" t then "dept_mp_mc"
  else if search_seq "US" "DX" t || search_seq "DX" "US" t then "dept_mp_usdx"
  else if search_word "Q" t then "dept_mp_q"
  else "dept_mp".

Definition infer_visibility (title : string) : string :=
  if py_in "公共" title || py_in "公用" title || py_startswith (py_upper title) "MP"
     || py_in "不选择" title
  then "public" else "dept".

(** The policy [list_resources] supposes where there is none *)
Definition missing_policy (category : string) : PolicyRow := {|
  p_policy_id := ""; p_resource_type := ""; p_resource_id := "";
  p_owner_dept_id := "dept_mp"; p_owner_user_id := None; p_visibility := "public";
  p_allow_roles_json := "[]"; p_allow_dept_ids_json := "[]"; p_deny_dept_ids_json := "[]";
  p_is_active := true; p_created_by := None; p_created_at := ""; p_updated_at := "";
  p_category := category |}.

Record ResourceItem := {
  it_type : string; it_id : string; it_title : string; it_description : string;
  it_owner_dept_id : string; it_owner_user_id : option string; it_visibility : string;
  it_category : string; it_allow_dept_ids : list string; it_my_permission : Z;
  it_shares : list ShareInfo }.

Section gateway.
Context `{Env} `{Crypto} (cfg : PortalConfig).

(** ** RAGFlow accounts *)

(** [base64.b64encode]: the standard alphabet *)
Definition b64encode (b : bytes) : string :=
  py_replace (py_replace (urlsafe_b64encode b) "-" "+") "_" "/".

Definition encrypt_password_for_ragflow (password_plain : string) : M string :=
  encrypted ← rsa_encrypt (to_bytes (b64encode (to_bytes password_plain)));
  mret (b64encode encrypted).

(** [resp.json()] *)
Definition resp_json (r : HttpResponse) : M json :=
  match hr_json r with Some j => mret j | None => raise (ValueError "JSONDecodeError") end.

(** [j.get(k, "")] of a text field; null counts as absent, a value of another
    type is an error of the server. *)
Definition text_field (k : string) (j : json) : M string :=
  match j with
  | JObj kvs =>
      match dict_get k kvs with
      | None | Some JNull => mret ""
      | Some (JStr s) => mret s
      | Some _ => raise (OtherError "TypeError")
      end
  | _ => raise (OtherError "AttributeError")
  end.

(** [j.get("code")] compared with [n] *)
Definition code_is (n : Z) (j : json) : M bool :=
  match j with
  | JObj kvs =>
      mret (match dict_get "code" kvs with
            | Some (JInt z) => z =? n
            | Some (JBool b) => (if b then 1 else 0) =? n
            | Some (JFloat lit) => SFeqb (lit_float lit) (binary_normalize 53 1024 n 0 false)
            | _ => false
            end)
  | _ => raise (OtherError "AttributeError")
  end.

(** [j.get("data", {})] *)
Definition data_of (j : json) : json := default (JObj []) (json_get "data" j).

Definition ragflow_base : string := py_rstrip "/"%char (base_url cfg).

Definition ragflow_email (login_id : string) : string :=
  if py_in "@" login_id then py_lower login_id else py_lower login_id +:+ "@example.com".

(** The [try] body of the loop of [_ensure_ragflow_accounts] *)
Definition ensure_ragflow_account (user_id login_id : string) : M unit :=
  let email := ragflow_email login_id in
  enc_pwd ← encrypt_password_for_ragflow "12345678";
  resp ← http_send "POST" (ragflow_base +:+ "/v1/user/register") None
    (JObj [("nickname", JStr login_id); ("email", JStr email); ("password", JStr enc_pwd)]);
  rdata ← resp_json resp;
  created ← code_is 0 rdata;
  registered ← (if created : bool then
                  Some <$> text_field "id" (data_of rdata)
                else
                  msg ← text_field "message" rdata;
                  mret (if py_in "already registered" (py_lower msg) then Some "" else None));
  match registered with
  | None => mret ()
  | Some rf_user_id =>
      login_resp ← http_send "POST" (ragflow_base +:+ "/v1/user/login") None
        (JObj [("email", JStr email); ("password", JStr enc_pwd)]);
      if decide (hr_auth login_resp = "") then mret ()
      else
        login_result ← resp_json login_resp;
        rf_user_id ← (if decide (rf_user_id = "") then text_field "id" (data_of login_result)
                      else mret rf_user_id);
        api_resp ← http_send "POST" (ragflow_base +:+ "/v1/api/new_token")
          (Some (hr_auth login_resp)) (JObj [("dialog_id", JStr "")]);
        api_data ← resp_json api_resp;
        ok ← code_is 0 api_data;
        rf_token ← match json_get "data" api_data with
                   | Some (JObj kvs) =>
                       if ok : bool then text_field "token" (JObj kvs) else mret ""
                   | _ => mret ""
                   end;
        when (truthy rf_user_id && truthy rf_token)
          (update_user_ragflow user_id rf_user_id rf_token)
  end.

Definition ensure_ragflow_accounts : M unit :=
  users ← get_all_users_without_ragflow;
  for_each (λ '(user_id, login_id),
    try_except (ensure_ragflow_account user_id login_id) (λ _, mret ())) users.

(** [PortalStore.__init__] on an empty file, then [PortalGateway.__init__] *)
Definition gateway_init : M unit := seed_defaults ;; ensure_ragflow_accounts.

(** [get_rag_client]: the API key of the client. *)
Definition get_rag_client (user_id : string) : M string :=
  if decide (user_id = "") then mret (api_key cfg)
  else
    token ← get_user_ragflow_token user_id;
    mret (py_or token (api_key cfg)).

(** [self.store.upsert_policy] with the defaults of its keyword arguments *)
Definition upsert_policy_dflt (rt rid owner_dept visibility created_by : string)
    (owner_user : option string) (category : string) : M unit :=
  upsert_policy rt rid owner_dept visibility created_by owner_user [] [] [] category.

(** ** Agents *)

(** The variables [all_agents] and [seen_ids] *)
Record Seen (A : Type) := { all_items : list A; seen_ids : list string }.
Arguments all_items {_} _.
Arguments seen_ids {_} _.

Definition see {A} (x : A) (id : string) (s : Seen A) : Seen A :=
  {| all_items := all_items s ++ [x]; seen_ids := seen_ids s ++ [id] |}.

Definition error_of {A} (r : A + exn) : option exn :=
  match r with inl _ => None | inr e => Some e end.

(** The policy of a discovered agent: created, or given its owner *)
Definition ensure_agent_policy (user_id dept_id : string) (a : Agent) : M unit :=
  policy ← get_policy "agent" (ag_id a);
  match policy with
  | None =>
      upsert_policy_dflt "agent" (ag_id a) (py_or dept_id "dept_mp") "public" "system"
        (Some user_id) ""
  | Some p =>
      if opt_truthy (p_owner_user_id p) then mret ()
      else upsert_policy_dflt "agent" (ag_id a) (p_owner_dept_id p) (p_visibility p) "system"
             (Some user_id) ""
  end.

Definition ensure_agent (user_id dept_id : string) (s : Seen Agent) (a : Agent)
    : M (Seen Agent * option exn) :=
  if decide (ag_id a ∈ seen_ids s) then mret (s, None)
  else
    r ← attempt (ensure_agent_policy user_id dept_id a);
    mret (see a (ag_id a) s, error_of r).

(** The [while True] loop over the pages of [list_agents]; a page with fewer
    than 200 agents is the last one. *)
Fixpoint agent_pages (fuel : nat) (key user_id dept_id : string) (page : Z) (s : Seen Agent)
    : M (Seen Agent * option exn) :=
  match fuel with
  | O => raise OutOfFuel
  | S fuel' =>
      r ← attempt (rag_list_agents key page 200 None);
      match r with
      | inr e => mret (s, Some e)
      | inl [] => mret (s, None)
      | inl batch =>
          r ← for_until (ensure_agent user_id dept_id) s batch;
          match r.2 with
          | Some e => mret (r.1, Some e)
          | None => if (length batch <? 200)%nat then mret (r.1, None)
                    else agent_pages fuel' key user_id dept_id (page + 1) r.1
          end
      end
  end.

Definition ensure_agent_policies (fuel : nat) : M (list Agent) :=
  users_with_tokens ← get_all_users_with_ragflow_token;
  s ← for_fold (λ s '(user_id, _, dept_id),
        key ← get_rag_client user_id;
        r ← agent_pages fuel key user_id dept_id 1 s;
        mret r.1) {| all_items := []; seen_ids := [] |} users_with_tokens;
  mret (all_items s).

Definition bootstrap_agents_to_dept_or_public (operator : string) : M (nat * nat) :=
  agents ← rag_list_agents (api_key cfg) 1 500 None;
  for_each (λ a,
    upsert_policy_dflt "agent" (ag_id a) (infer_dept_by_title (ag_title a))
      (infer_visibility (ag_title a)) operator None "") agents ;;
  mret (length agents, length agents).

(** ** Knowledge bases *)

Definition ensure_kb_policy (user_id dept_id : string) (ds : Dataset) : M unit :=
  policy ← get_policy "kb" (ds_id ds);
  match policy with
  | Some p =>
      if opt_truthy (p_owner_user_id p) then mret ()
      else upsert_policy_dflt "kb" (ds_id ds) (p_owner_dept_id p) (p_visibility p) "system"
             (Some user_id) (p_category p)
  | None =>
      upsert_policy_dflt "kb" (ds_id ds) (py_or dept_id "dept_mp") "dept" "system"
        (Some user_id) "D"
  end.

Definition ensure_kb (user_id dept_id : string) (s : Seen Dataset) (ds : Dataset)
    : M (Seen Dataset * option exn) :=
  if decide (ds_id ds ∈ seen_ids s) then mret (s, None)
  else
    r ← attempt (ensure_kb_policy user_id dept_id ds);
    mret (see ds (ds_id ds) s, error_of r).

Definition ensure_user_kbs (s : Seen Dataset) (u : string * string * string) : M (Seen Dataset) :=
  let '(user_id, _, dept_id) := u in
  key ← get_rag_client user_id;
  r ← attempt (rag_list_datasets key None);
  match r with
  | inr _ => mret s
  | inl datasets => r ← for_until (ensure_kb user_id dept_id) s datasets; mret r.1
  end.

Definition ensure_kb_policies : M (list Dataset) :=
  users_with_tokens ← get_all_users_with_ragflow_token;
  match users_with_tokens with
  | [] => rag_list_datasets (api_key cfg) None
  | _ =>
      s ← for_fold ensure_user_kbs {| all_items := []; seen_ids := [] |} users_with_tokens;
      (match seen_ids s with
       | [] => mret ()
       | ids => cleanup_stale_kb_policies ids ;; mret ()
       end) ;;
      mret (all_items s)
  end.

Definition bootstrap_kbs_to_mp_public_a (operator : string) : M (nat * nat) :=
  datasets ← rag_list_datasets (api_key cfg) None;
  for_each (λ ds,
    upsert_policy_dflt "kb" (ds_id ds) "dept_mp" "public" operator None "A") datasets ;;
  mret (length datasets, length datasets).

(** ** [list_resources] *)

(** [normalize(dept_id or token_payload.get("default_dept_id") or "")] *)
Definition tok_selected (token_payload : json) (dept_id : option string) : string :=
  normalize_dept_id (opt_or dept_id (opt_or (tok_get "default_dept_id" token_payload) "")).

Definition agent_item (depts : gset string) (selected : string) (user_id : option string)
    (items : list ResourceItem) (a : Agent) : M (list ResourceItem) :=
  policy ← get_policy "agent" (ag_id a);
  let p := default (missing_policy "") policy in
  ok ← lift_res (can_access_resource depts selected (Some p) user_id);
  mret (if (ok : bool) then items ++ [{|
      it_type := "agent"; it_id := ag_id a; it_title := ag_title a;
      it_description := opt_or (ag_description a) "";
      it_owner_dept_id := p_owner_dept_id p; it_owner_user_id := p_owner_user_id p;
      it_visibility := p_visibility p; it_category := p_category p;
      it_allow_dept_ids := []; it_my_permission := 0; it_shares := [] |}]
    else items).

Definition kb_item (depts : gset string) (selected : string) (user_id : option string)
    (items : list ResourceItem) (ds : Dataset) : M (list ResourceItem) :=
  policy ← get_policy "kb" (ds_id ds);
  let p := default (missing_policy "A") policy in
  my_perm ← effective_kb_permission depts selected (ds_id ds) (opt_or user_id "") (Some p);
  if negb (has_read my_perm) then mret items
  else
    allow_depts ← lift_res (loads_col (p_allow_dept_ids_json p));
    let owner_uid := opt_or (p_owner_user_id p) "" in
    kb_shares ← (if decide (Some owner_uid = user_id) then list_kb_shares (ds_id ds)
                 else mret []);
    mret (items ++ [{|
      it_type := "kb"; it_id := ds_id ds; it_title := ds_name ds;
      it_description := opt_or (ds_description ds) "";
      it_owner_dept_id := p_owner_dept_id p; it_owner_user_id := Some owner_uid;
      it_visibility := p_visibility p; it_category := p_category p;
      it_allow_dept_ids := allow_depts; it_my_permission := my_perm;
      it_shares := kb_shares |}]).

(** [key=lambda x: (x["visibility"], x["title"])] *)
Definition item_leb (a b : ResourceItem) : bool :=
  if decide (it_visibility a = it_visibility b) then str_leb (it_title a) (it_title b)
  else str_leb (it_visibility a) (it_visibility b).

Definition list_resources (fuel : nat) (token_payload : json) (dept_id : option string)
    (resource_type : string) : M (list ResourceItem) :=
  let depts := tok_depts token_payload in
  let selected := tok_selected token_payload dept_id in
  if decide (selected ≠ "" ∧ selected ∉ depts) then raise (PermissionError "dept not allowed")
  else
    let user_id := tok_get "sub" token_payload in
    items ← (if decide (resource_type = "agent" ∨ resource_type = "all") then
               agents ← ensure_agent_policies fuel;
               for_fold (agent_item depts selected user_id) [] agents
             else mret []);
    items ← (if decide (resource_type = "kb" ∨ resource_type = "all") then
               datasets ← ensure_kb_policies;
               for_fold (kb_item depts selected user_id) items datasets
             else mret items);
    mret (isort item_leb items).
End gateway.
