(* ===== verification/GatewayShare.v ===== *)
(** [PortalGateway], sharing, revoking and deleting knowledge bases
    (portal_server.py). *)
From S2P Require Import Prelude PyText Json Digest Schema Effects StoreUsers StorePolicy.
From S2P Require Import StoreSessions StoreRequests GatewayToken GatewayAccess.

Local Open Scope Z_scope.

(** [token_payload.get("sub") or ""] *)
Definition tok_user (p : json) : string := opt_or (tok_get "sub" p) "".

(** The mask a permission word stands for *)
Definition permission_mask_of (permission : string) : Z :=
  if decide (permission = "write") then Z.lor (Z.lor PERM_READ PERM_WRITE) PERM_SHARE
  else if decide (permission = "share") then Z.lor PERM_READ PERM_SHARE
  else PERM_READ.

(** [[normalize(x) for x in json.loads(col or "[]")]] *)
Definition loads_norm_col (col : string) : res (list string) :=
  match loads_col col with Ok l => Ok (normalize_dept_id <$> l) | Err e => Err e end.

(** [(policy.get("visibility") or d).lower()] *)
Definition visibility_of (d : string) (p : PolicyRow) : string := py_lower (py_or (p_visibility p) d).

Inductive ShareOutcome :=
  | SharePending (request_id : string)
  | ShareDone (permission_mask : Z) (target_user_id : string).

Section gateway.
Context `{Env} `{Crypto} (cfg : PortalConfig).

(** [policy = self.store.get_policy("kb", kb_id); if not policy: raise] *)
Definition require_kb (kb_id : string) : M PolicyRow :=
  policy ← get_policy "kb" kb_id;
  match policy with Some p => mret p | None => raise (ValueError "kb not found") end.

Definition require_user (token_payload : json) : M string :=
  let user_id := tok_user token_payload in
  if decide (user_id = "") then raise (PermissionError "unauthorized") else mret user_id.

(** ** Requests *)

(** The targets of a request: departments, user and mask *)
Definition request_targets (scope : string) (target_dept_ids : list string)
    (target_user_login : option string) (permission : string)
    : M (list string * option string * Z) :=
  if decide (scope = "user") then
    if negb (opt_truthy target_user_login) then
      raise (ValueError "target_user_login is required for user scope")
    else
      user_row ← get_user_by_login (default "" target_user_login);
      match user_row with
      | Some u =>
          if negb (u_is_active u) then raise (ValueError "target_user_login not found")
          else mret ([], Some (u_user_id u),
                     permission_mask_of (py_lower (py_strip (py_or permission "read"))))
      | None => raise (ValueError "target_user_login not found")
      end
  else if decide (scope = "dept") then
    let targets := normalize_dept_id <$> filter (λ x, py_strip x ≠ "") target_dept_ids in
    match targets with
    | [] => raise (ValueError "target_dept_ids is required for dept scope")
    | _ => mret (targets, None, PERM_READ)
    end
  else mret ([], None, PERM_READ).

Definition request_kb_share (token_payload : json) (kb_id target_scope : string)
    (target_dept_ids : list string) (target_user_login : option string)
    (reason permission : string) : M (option RequestView) :=
  user_id ← require_user token_payload;
  policy ← require_kb kb_id;
  let owner_dept := normalize_dept_id (p_owner_dept_id policy) in
  if decide (owner_dept ∉ tok_depts token_payload) then
    raise (PermissionError "only owner dept can request sharing")
  else
    admin ← is_dept_admin user_id owner_dept;
    if negb admin then raise (PermissionError "dept admin required")
    else if decide (visibility_of "" policy = "private" ∧
                    p_owner_user_id policy ≠ Some user_id) then
      raise (PermissionError "only owner can share private kb")
    else
      let scope := py_lower (py_strip target_scope) in
      if decide (scope ≠ "mp" ∧ scope ≠ "user" ∧ scope ≠ "dept") then
        raise (ValueError "target_scope must be mp, user, or dept")
      else
        '(targets, target_user_id, mask) ←
          request_targets scope target_dept_ids target_user_login permission;
        create_kb_share_request kb_id owner_dept user_id scope targets target_user_id reason
          (Some mask) None.

(** [upsert_policy] of a KB, keeping its deny list, its roles and its category:
    the call the sharing operations make *)
Definition reshare_policy (policy : PolicyRow) (kb_id owner_dept visibility created_by : string)
    (owner_user : option string) (allow : res (list string)) : M unit :=
  allow ← lift_res allow;
  deny ← lift_res (loads_norm_col (p_deny_dept_ids_json policy));
  roles ← lift_res (loads_col (p_allow_roles_json policy));
  upsert_policy "kb" kb_id owner_dept visibility created_by owner_user allow deny roles
    (py_or (p_category policy) "D").

Definition share_kb_internal (token_payload : json) (kb_id : string) : M (option PolicyRow) :=
  user_id ← require_user token_payload;
  policy ← require_kb kb_id;
  let owner_dept := normalize_dept_id (p_owner_dept_id policy) in
  if decide (owner_dept ∉ tok_depts token_payload) then
    raise (PermissionError "only owner dept can share internal")
  else if decide (visibility_of "" policy = "private" ∧
                  p_owner_user_id policy ≠ Some user_id) then
    raise (PermissionError "only owner can share private kb")
  else
    reshare_policy policy kb_id owner_dept "dept" user_id (p_owner_user_id policy) (Ok []) ;;
    get_policy "kb" kb_id.

(** ** Sharing to a user *)

(** The target of a share, neither unknown nor the sharer *)
Definition find_share_target (user_id target_user_login : string) : M string :=
  target ← get_user_by_login target_user_login;
  match target with
  | None => raise (ValueError ("user " +:+ target_user_login +:+ " not found"))
  | Some t =>
      if decide (u_user_id t = user_id) then raise (ValueError "cannot share to yourself")
      else mret (u_user_id t)
  end.

(** The id of the approved share of the sharer *)
Definition parent_share (kb_id user_id : string) : M (option Z) :=
  with_conn (sql_query (λ d, k_id <$> approved_share d kb_id user_id)).

Definition share_kb_to_user (token_payload : json) (kb_id target_user_login permission : string)
    : M ShareOutcome :=
  user_id ← require_user token_payload;
  if decide (permission ≠ "read" ∧ permission ≠ "write" ∧ permission ≠ "share") then
    raise (ValueError "permission must be 'read', 'write', or 'share'")
  else
    policy ← require_kb kb_id;
    let owner_user_id := opt_or (p_owner_user_id policy) "" in
    let visibility := visibility_of "dept" policy in
    let is_owner := bool_decide (owner_user_id = user_id) in
    if bool_decide (visibility = "private") && negb is_owner then
      raise (PermissionError "仅知识库所有者可分享私密知识库")
    else
      my_perm ← (if is_owner then mret PERM_FULL else get_kb_permission kb_id user_id);
      if negb is_owner && negb (has_share my_perm) then
        raise (PermissionError "需要可分享权限才能将知识库分享给他人")
      else
        target_user_id ← find_share_target user_id target_user_login;
        let perm_mask := permission_mask_of permission in
        if negb is_owner && bool_decide (visibility ≠ "private") then
          parent_share_id ← parent_share kb_id user_id;
          req ← create_kb_share_request kb_id (normalize_dept_id (p_owner_dept_id policy))
            user_id "user" [] (Some target_user_id)
            ("分享给 " +:+ target_user_login +:+ "（" +:+ permission +:+ "权限），需所有者审批")
            (Some perm_mask) parent_share_id;
          match req with
          | Some r => mret (SharePending (r_request_id (rv_row r)))
          | None => raise (OtherError "AttributeError")
          end
        else
          target_user_id ← find_share_target user_id target_user_login;
          parent_share_id ←
            (if decide (owner_user_id = user_id) then mret None
             else
               sharer_share ← get_kb_permission kb_id user_id;
               if 0 <? sharer_share then parent_share kb_id user_id else mret None);
          add_kb_share kb_id target_user_id perm_mask user_id parent_share_id "" "approved" ;;
          mret (ShareDone perm_mask target_user_id).

(** ** Listing and reviewing requests *)

Definition admin_depts (user_id : string) (dept_ids : list string) : M (list string) :=
  for_fold (λ acc x,
    b ← is_dept_admin user_id x;
    mret (if (b : bool) then acc ++ [normalize_dept_id x] else acc)) [] dept_ids.

(** [(status or "").strip() or None] *)
Definition strip_or_none (o : option string) : option string :=
  let s := py_strip (default "" o) in if decide (s = "") then None else Some s.

Definition list_share_requests (token_payload : json) (status owner_dept_id : option string)
    : M (list RequestItem) :=
  let user_id := tok_user token_payload in
  if decide (user_id = "") then mret []
  else
    depts ← admin_depts user_id (tok_dept_ids token_payload);
    match depts with
    | [] => list_kb_share_requests (strip_or_none status) None (Some user_id) 1 200
    | d0 :: rest =>
        let filter_dept := if opt_truthy owner_dept_id
                           then Some (normalize_dept_id (default "" owner_dept_id))
                           else match rest with [] => Some d0 | _ => None end in
        rows ← list_kb_share_requests (strip_or_none status) filter_dept None 1 200;
        match rest with
        | [] => mret rows
        | _ => mret (filter (λ r, normalize_dept_id (rv_owner_dept_id (ri_view r)) ∈ depts) rows)
        end
    end.

(** [add_kb_share] for every member of [dept_id] but the owner *)
Definition share_with_members (kb_id dept_id : string) (owner : option string) (mask : Z)
    (shared_by : string) : M unit :=
  dept_users ← get_users_in_dept dept_id;
  for_each (λ '(uid, _, _),
    when (bool_decide (Some uid ≠ owner))
      (add_kb_share kb_id uid mask shared_by None "" "approved")) dept_users.

(** The share an approved request for a user creates *)
Definition grant_requested_share (req : RequestRow) (policy : PolicyRow) (user_id : string)
    (target_user_id : string) : M unit :=
  sharer_cap ← has_kb_access (r_kb_id req) (r_requester_user_id req);
  let sharer_cap := if sharer_cap <=? 0 then PERM_READ else sharer_cap in
  let perm_mask := r_requested_permission req in
  let perm_mask := if Z.land perm_mask PERM_READ =? 0 then Z.lor perm_mask PERM_READ
                   else perm_mask in
  if negb (Z.lor perm_mask sharer_cap =? sharer_cap) then
    raise (PermissionError "申请的分享权限超过了发起人可分享的权限范围")
  else
    add_kb_share (r_kb_id req) target_user_id perm_mask
      (opt_or (p_owner_user_id policy) user_id) (r_parent_share_id req) user_id "approved".

(** What [review_share_request] does after the request is marked approved *)
Definition apply_approved_request (req : RequestRow) (user_id : string) : M unit :=
  policy ← get_policy "kb" (r_kb_id req);
  match policy with
  | None => raise (ValueError "kb policy not found")
  | Some policy =>
      let owner := normalize_dept_id (py_or (p_owner_dept_id policy)
                     (normalize_dept_id (r_owner_dept_id req))) in
      let owner_user := p_owner_user_id policy in
      existing_allow ← lift_res (loads_norm_col (p_allow_dept_ids_json policy));
      let scope := py_lower (r_target_scope req) in
      if decide (scope = "mp") then
        reshare_policy policy (r_kb_id req) owner "public" user_id owner_user (Ok [])
      else if decide (scope = "dept") then
        target_dept_ids ← lift_res (loads_norm_col (r_target_dept_ids_json req));
        reshare_policy policy (r_kb_id req) owner "dept" user_id owner_user
          (Ok (sorted_set (existing_allow ++ target_dept_ids))) ;;
        for_each (λ dept_id,
          share_with_members (r_kb_id req) dept_id owner_user PERM_READ
            (opt_or owner_user user_id)) target_dept_ids
      else if decide (scope = "user") then
        (match r_target_user_id req with
         | Some t => if decide (t = "") then mret ()
                     else grant_requested_share req policy user_id t
         | None => mret ()
         end) ;;
        reshare_policy policy (r_kb_id req) owner (p_visibility policy) user_id owner_user
          (loads_norm_col (p_allow_dept_ids_json policy))
      else
        reshare_policy policy (r_kb_id req) owner "dept" user_id owner_user
          (loads_norm_col (p_allow_dept_ids_json policy))
  end.

Definition review_share_request (token_payload : json) (request_id : string) (approved : bool)
    (review_comment : string) : M RequestView :=
  let user_id := tok_user token_payload in
  req ← get_kb_share_request request_id;
  match req with
  | None => raise (ValueError "share request not found")
  | Some req =>
      if decide (r_status (rv_row req) ≠ "pending") then
        raise (ValueError "share request is not pending")
      else
        let owner_dept := normalize_dept_id (rv_owner_dept_id req) in
        is_mp_superadmin ← is_dept_admin user_id "dept_mp";
        is_owner_dept_admin ← is_dept_admin user_id owner_dept;
        if negb is_mp_superadmin && negb is_owner_dept_admin then
          raise (PermissionError "只有归属部门的管理员才能审批此申请")
        else
          req ← review_kb_share_request request_id user_id approved review_comment;
          match req with
          | None => raise (ValueError "share request not found")
          | Some req =>
              when approved (apply_approved_request (rv_row req) user_id) ;;
              mret req
          end
  end.

(** ** Revoking *)

Definition unshare_kb (token_payload : json) (kb_id : string) : M (option PolicyRow) :=
  policy ← require_kb kb_id;
  let user_id := tok_user token_payload in
  let owner_user_id := opt_or (p_owner_user_id policy) "" in
  let owner_dept := normalize_dept_id (p_owner_dept_id policy) in
  is_mp ← is_dept_admin user_id "dept_mp";
  let is_owner := bool_decide (owner_user_id = user_id) in
  is_owner_dept_admin ← is_dept_admin user_id owner_dept;
  if negb is_mp && negb is_owner && negb is_owner_dept_admin then
    raise (PermissionError "只有所有者、归属部门管理员或超级管理员才能撤回分享")
  else
    upsert_policy "kb" kb_id owner_dept (if is_owner then "private" else "dept") user_id
      (Some owner_user_id) [] [] [] (py_or (p_category policy) "D") ;;
    shares ← list_kb_shares kb_id;
    for_each (λ s, remove_kb_share kb_id (k_target_user_id (si_share s)) ;; mret ()) shares ;;
    get_policy "kb" kb_id.

(** The departments of [dept_ids] that are new to [existing_allow] *)
Definition new_share_depts (existing_allow dept_ids : list string) : list string :=
  filter (λ nd, nd ≠ "" ∧ nd ∉ existing_allow) ((λ d, normalize_dept_id (py_strip d)) <$> dept_ids).

Definition share_kb_to_depts (token_payload : json) (kb_id : string) (dept_ids : list string)
    (permission_mask : Z) : M (option PolicyRow) :=
  user_id ← require_user token_payload;
  policy ← require_kb kb_id;
  let owner_user_id := opt_or (p_owner_user_id policy) "" in
  if decide (owner_user_id ≠ user_id) then
    raise (PermissionError "只有知识库所有者才能分享到部门")
  else if permission_mask <? PERM_READ then
    raise (ValueError "permission_mask must be an integer >= 4 (at least READ)")
  else
    let owner_dept := normalize_dept_id (p_owner_dept_id policy) in
    let existing_allow := loads_col_or_nil (p_allow_dept_ids_json policy) in
    let normalized_new := new_share_depts existing_allow dept_ids in
    let merged := sorted_set (existing_allow ++ normalized_new) in
    let new_visibility := py_or (p_visibility policy) "dept" in
    let new_visibility := if decide (new_visibility = "private" ∧ owner_dept ∈ merged)
                          then "dept" else new_visibility in
    reshare_policy policy kb_id owner_dept new_visibility user_id (Some owner_user_id)
      (Ok merged) ;;
    for_each (λ dept_id,
      share_with_members kb_id dept_id (Some owner_user_id) permission_mask owner_user_id)
      normalized_new ;;
    get_policy "kb" kb_id.

Definition list_all_shares (token_payload : json) : M (list DeptShare * list UserShare) :=
  user_id ← require_user token_payload;
  dept_shares ← list_dept_shares_for_owner user_id;
  user_shares ← list_user_shares_for_owner user_id;
  mret (dept_shares, user_shares).

Definition selective_revoke (token_payload : json) (kb_id revoke_type target_id : string)
    : M unit :=
  user_id ← require_user token_payload;
  policy ← require_kb kb_id;
  let owner_user_id := opt_or (p_owner_user_id policy) "" in
  if decide (owner_user_id ≠ user_id) then
    raise (PermissionError "只有知识库所有者才能撤回分享")
  else
    (if decide (revoke_type = "dept") then
       ok ← revoke_dept_share kb_id target_id;
       if negb ok then raise (ValueError "dept share not found") else mret ()
     else if decide (revoke_type = "user") then
       match py_int target_id with
       | None => raise (ValueError "target_id must be a valid share ID")
       | Some share_id =>
           ok ← revoke_user_share share_id;
           if negb ok then raise (ValueError "user share not found") else mret ()
       end
     else raise (ValueError "revoke_type must be 'dept' or 'user'")) ;;
    remaining_policy ← get_policy "kb" kb_id;
    let remaining_allow := match remaining_policy with
                           | Some p => loads_col_or_nil (p_allow_dept_ids_json p)
                           | None => []
                           end in
    remaining_shares ← list_kb_shares kb_id;
    when (bool_decide (remaining_allow = []) &&
          match remaining_shares with [] => true | _ => false end)
      (upsert_policy "kb" kb_id (normalize_dept_id (p_owner_dept_id policy)) "private" user_id
         (Some owner_user_id) [] [] [] (py_or (p_category policy) "D")).

(** ** Deleting *)

(** [requests.delete(f"{base_url}/api/v1/datasets", ...)] with a bearer token *)
Definition delete_dataset (token kb_id : string) : M unit :=
  http_send "DELETE" (base_url cfg +:+ "/api/v1/datasets") (Some ("Bearer " +:+ token))
    (JObj [("ids", json_strs [kb_id])]) ;;
  mret ().

(** The cleanup after the deletion of [kb_id] *)
Definition forget_kb (kb_id : string) : M Cleanup :=
  cleanup ← cascade_cleanup_kb kb_id;
  for_each registry_pop (cl_session_ids cleanup) ;;
  deactivate_policy "kb" kb_id ;;
  mret cleanup.

Definition delete_private_kb (token_payload : json) (kb_id : string) : M bool :=
  user_id ← require_user token_payload;
  policy ← require_kb kb_id;
  if decide (visibility_of "" policy ≠ "private") then
    raise (PermissionError "only private kb can be deleted")
  else
    let owner_user_id := opt_or (p_owner_user_id policy) "" in
    if decide (owner_user_id ≠ user_id) then
      raise (PermissionError "only owner can delete private kb")
    else
      owner_token ← get_user_ragflow_token owner_user_id;
      delete_dataset (py_or owner_token (api_key cfg)) kb_id ;;
      forget_kb kb_id ;;
      mret true.

(** One iteration of [delete_kbs] *)
Definition delete_one_kb (depts : gset string) (selected_dept user_id : string) (is_mp : bool)
    (acc : list string * list Cleanup) (kb_id : string) : M (list string * list Cleanup) :=
  policy ← require_kb kb_id;
  let owner_user_id := opt_or (p_owner_user_id policy) "" in
  let is_owner := bool_decide (owner_user_id = user_id) in
  (if negb is_mp && negb is_owner then
     perm ← effective_kb_permission depts selected_dept kb_id user_id (Some policy);
     if negb (has_write perm) then
       raise (PermissionError "只有所有者或可改写权限用户才能删除")
     else mret ()
   else mret ()) ;;
  owner_token ← (if decide (owner_user_id = "") then mret (api_key cfg)
                 else get_user_ragflow_token owner_user_id);
  delete_dataset owner_token kb_id ;;
  cleanup ← forget_kb kb_id;
  mret (acc.1 ++ [kb_id], acc.2 ++ [cleanup]).

Definition delete_kbs (token_payload : json) (kb_ids : list string)
    : M (list string * list Cleanup) :=
  user_id ← require_user token_payload;
  is_mp ← is_dept_admin user_id "dept_mp";
  for_fold (delete_one_kb (tok_depts token_payload) (tok_selected token_payload None)
              user_id is_mp) ([], []) kb_ids.
End gateway.
