(* ===== verification/GatewayChat.v ===== *)
(** [PortalGateway], retrieval and answers (portal_server.py): the direct chat
    with the language model, the retrieval over several RAGFlow accounts, the
    prompts and the references of an answer. *)
From S2P Require Import Prelude PyText Json Dsl Digest Schema Effects StoreUsers StorePolicy.
From S2P Require Import StoreSessions GatewayToken GatewayAccess.

Local Open Scope Z_scope.

Definition nl : string := String (ascii_of_N 10) "".

(** A message of a chat: role and content *)
Definition chat_msg (role content : string) : json :=
  JObj [("role", JStr role); ("content", JStr content)].

(** ** Chunks *)

(** The dictionary of a retrieved chunk *)
Record ChunkDict := {
  cd_content : string; cd_document_name : string; cd_similarity : option string;
  cd_chunk_id : string }.

Definition chunk_json (c : ChunkDict) : json :=
  JObj [("content", JStr (cd_content c)); ("document_name", JStr (cd_document_name c));
        ("similarity", match cd_similarity c with Some s => JFloat s | None => JNull end);
        ("chunk_id", JStr (cd_chunk_id c))].

(** [x.get("similarity") or 0] *)
Definition chunk_score (c : ChunkDict) : spec_float :=
  match cd_similarity c with Some s => lit_float s | None => S754_zero false end.

(** [b <= a] on the scores: the order of [sort(..., reverse=True)] *)
Definition chunk_leb (a b : ChunkDict) : bool :=
  match SFcompare (chunk_score b) (chunk_score a) with Some Gt => false | _ => true end.

(** The chunks of one answer that have a content *)
Definition chunk_dicts (l : list Chunk) : list ChunkDict :=
  filter (λ c, cd_content c ≠ "") ((λ c, {|
    cd_content := opt_or (ck_content c) ""; cd_document_name := opt_or (ck_document_name c) "";
    cd_similarity := ck_similarity c; cd_chunk_id := ck_id c |}) <$> l).

(** [token_groups.setdefault(token, []).append(kb_id)] *)
Fixpoint group_add (token kb_id : string) (g : list (string * list string))
    : list (string * list string) :=
  match g with
  | [] => [(token, [kb_id])]
  | (t, ids) :: g' => if decide (t = token) then (t, ids ++ [kb_id]) :: g'
                      else (t, ids) :: group_add token kb_id g'
  end.

(** ** Prompts *)

Definition no_context_answer : string := "当前知识库中未找到相关信息。".

(** The enumeration of the chunks in the prompt *)
Fixpoint context_parts (i : Z) (chunks : list ChunkDict) : list string :=
  match chunks with
  | [] => []
  | c :: l => ("[" +:+ str_of_Z i +:+ "] 文件: " +:+ cd_document_name c +:+ nl +:+ cd_content c)
              :: context_parts (i + 1) l
  end.

Definition rag_prompt (question : string) (chunks : list ChunkDict) : string :=
  "根据以下知识库检索结果回答问题。如果检索结果中没有相关信息，明确告知用户。" +:+ nl +:+ nl
  +:+ "检索结果:" +:+ nl +:+ py_join (nl +:+ nl) (context_parts 1 chunks) +:+ nl +:+ nl
  +:+ "用户问题: " +:+ question.

(** [history[-6:]] *)
Definition last_n {A} (n : nat) (l : list A) : list A := drop (length l - n) l.

(** The context lines of [ask] in agent mode, for the chunks numbered from [i] *)
Fixpoint context_lines (i : Z) (chunks : list ChunkDict) : list string :=
  match chunks with
  | [] => []
  | c :: l =>
      let docnm := py_strip (cd_document_name c) in
      let content := py_strip (cd_content c) in
      (if decide (content = "") then []
       else [if decide (docnm = "") then "[" +:+ str_of_Z i +:+ "]"
             else "[" +:+ str_of_Z i +:+ "] " +:+ docnm; content]) ++ context_lines (i + 1) l
  end.

Definition context_block (chunks : list ChunkDict) : string :=
  let b := py_join nl (context_lines 1 (take 12 chunks)) in
  if 6000 <? Z.of_nat (py_len b) then py_take (Z.to_nat 6000) b +:+ nl +:+ "...(已截断)" else b.

Definition injected_question (block question : string) : string :=
  "请基于以下【知识库检索结果】回答用户问题。若资料不足请说明。" +:+ nl +:+ nl
  +:+ "【知识库检索结果】" +:+ nl +:+ block +:+ nl +:+ nl +:+ "【用户问题】" +:+ nl +:+ question.

Section gateway.
Context `{Env} `{Crypto} (cfg : PortalConfig).

(** ** [_direct_chat] *)

Definition chat_candidates : list (string * (string * string)) :=
  let base := py_rstrip "/"%char (direct_chat_url cfg) in
  let bearer := ("Authorization", "Bearer " +:+ direct_chat_api_key cfg) in
  if py_endswith base "/v1/chat/completions" || py_endswith base "/chat/completions" then
    [(base, bearer)]
  else
    (base +:+ "/openai/deployments/" +:+ direct_chat_model cfg
       +:+ "/chat/completions?api-version=" +:+ py_strip env_azure_version,
     ("api-key", direct_chat_api_key cfg))
    :: ((λ path, (base +:+ path, bearer)) <$>
        ["/v1/chat/completions"; "/chat/completions"; "/api/v1/chat/completions";
         "/v1/ai/chat/completions"; "/openai/v1/chat/completions";
         "/api/openai/v1/chat/completions"]).

(** [d.get(k)] *)
Definition get_m (k : string) (d : json) : M json :=
  match d with
  | JObj kvs => mret (default JNull (dict_get k kvs))
  | _ => raise (OtherError "AttributeError")
  end.

Definition json_truthy (j : json) : bool := py_bool (of_json j).

(** [(data.get("choices") or [{}])[0]] *)
Definition first_choice (data : json) : M json :=
  choices ← get_m "choices" data;
  if negb (json_truthy choices) then mret (JObj [])
  else match choices with
       | JArr (x :: _) => mret x
       | _ => raise (OtherError "KeyError")
       end.

(** The text of a completion *)
Definition completion_text (data : json) : M string :=
  choice ← first_choice data;
  message ← get_m "message" choice;
  content ← (if json_truthy message then get_m "content" message else mret JNull);
  content ← (if json_truthy content then mret content
             else choice ← first_choice data; get_m "text" choice);
  if negb (json_truthy content) then mret ""
  else match content with
       | JStr s => mret (py_strip s)
       | _ => raise (OtherError "AttributeError")
       end.

(** The loop over the candidates, with the last status and body *)
Fixpoint try_candidates (payload : json) (last : option Z * string)
    (l : list (string * (string * string))) : M string :=
  match l with
  | [] =>
      raise (RuntimeError ("direct chat failed: " +:+
        match last.1 with Some s => str_of_Z s | None => "None" end +:+ " " +:+ last.2))
  | (url, header) :: l' =>
      r ← chat_post url header payload;
      if 300 <=? hr_status r then
        try_candidates payload (Some (hr_status r), py_take 500 (hr_text r)) l'
      else
        data ← resp_json r;
        completion_text data
  end.

Definition direct_chat (messages : list json) : M string :=
  try_candidates
    (JObj [("model", JStr (direct_chat_model cfg)); ("messages", JArr messages);
           ("temperature", JFloat "0.7")]) (None, "") chat_candidates.

(** ** [_multi_tenant_retrieve] *)

(** The token with which a KB is searched: its owner's, the agent owner's, or
    the shared one *)
Definition kb_token (agent_owner_id : string) (policy : PolicyRow) : M string :=
  let owner_user_id := opt_or (p_owner_user_id policy) "" in
  let owner_user_id := py_or owner_user_id agent_owner_id in
  owner_token ← (if decide (owner_user_id = "") then mret ""
                 else get_user_ragflow_token owner_user_id);
  owner_token ← (if decide (owner_token = "" ∧ agent_owner_id ≠ "")
                 then get_user_ragflow_token agent_owner_id else mret owner_token);
  mret (py_or owner_token (api_key cfg)).

Definition group_kb (agent_owner_id : string) (g : list (string * list string)) (kb_id : string)
    : M (list (string * list string)) :=
  policy ← get_policy "kb" kb_id;
  match policy with
  | None => mret g
  | Some p => token ← kb_token agent_owner_id p; mret (group_add token kb_id g)
  end.

Definition retrieve_group (question : string) (top_k : Z) (acc : list ChunkDict)
    (g : string * list string) : M (list ChunkDict) :=
  try_except
    (chunks ← rag_retrieve g.1 g.2 question top_k; mret (acc ++ chunk_dicts chunks))
    (λ _, mret acc).

Definition multi_tenant_retrieve (kb_ids : list string) (question : string) (top_k : Z)
    (agent_owner_id : string) : M (list ChunkDict) :=
  if decide (kb_ids = [] ∨ py_strip question = "") then mret []
  else
    token_groups ← for_fold (group_kb agent_owner_id) [] kb_ids;
    all_chunks ← for_fold (retrieve_group question top_k) [] token_groups;
    mret (take (Z.to_nat top_k) (isort chunk_leb all_chunks)).

(** ** [_generate_answer], [_generate_answer_direct] *)

(** [system]: the system prompt in front of the history *)
Definition generate_with (system : list json) (question : string) (chunks : list ChunkDict)
    (history : list json) : M string :=
  match chunks with
  | [] => mret no_context_answer
  | _ =>
      let messages := system ++ last_n 6 history ++
                      [chat_msg "user" (rag_prompt question chunks)] in
      try_except (direct_chat messages)
        (λ e, mret ("**回答生成失败**: " +:+ exn_str e))
  end.

Definition generate_answer (question : string) (chunks : list ChunkDict) (history : list json)
    : M string :=
  let system_prompt := opt_or env_system_prompt "" in
  generate_with (if decide (system_prompt = "") then [] else [chat_msg "system" system_prompt])
    question chunks history.

Definition generate_answer_direct (question : string) (chunks : list ChunkDict)
    (history : list json) : M string :=
  generate_with [] question chunks history.

(** ** [_extract_chunks] *)

(** An SDK object has a [get] of its own, an HTTP GET of the RAGFlow API, whose
    response is neither a dict nor a list. *)
Definition extract_chunks (reference : pyv) : M (list pyv) :=
  if negb (py_bool reference) then mret []
  else
    match reference with
    | PDict kvs =>
        match default reference (dict_get "chunks" kvs) with
        | PDict kvs' => mret (snd <$> kvs')
        | PList l => mret l
        | _ => mret []
        end
    | PBase _ => http_send "GET" "chunks" None JNull ;; mret []
    | _ => raise (OtherError "AttributeError")
    end.
End gateway.
