(* ===== verification/GatewaySession.v ===== *)
(** [PortalGateway], sessions, uploads and questions (portal_server.py). *)
From S2P Require Import Prelude PyText Json Dsl Digest Schema Effects StoreUsers StorePolicy.
From S2P Require Import StoreSessions GatewayToken GatewayAccess GatewayShare GatewayChat.

Local Open Scope Z_scope.

(** [round(x, 2)] of a float, in hundredths: the nearest, ties to even; [None]
    for an infinity or nan. *)
Definition round2 (f : spec_float) : option Z :=
  let half_even (n d : Z) :=
    let q := n / d in
    match 2 * (n - q * d) ?= d with
    | Lt => q
    | Gt => q + 1
    | Eq => if Z.even q then q else q + 1
    end in
  match f with
  | S754_zero _ => Some 0
  | S754_finite s m e =>
      let a := if 0 <=? e then Z.pos m * 100 * 2 ^ e
               else half_even (Z.pos m * 100) (2 ^ (- e)) in
      Some (if s then - a else a)
  | _ => None
  end.

Definition float_of_Z (z : Z) : spec_float := binary_normalize 53 1024 z 0 false.
Definition float_add : spec_float → spec_float → spec_float := SFadd 53 1024.
Definition float_div : spec_float → spec_float → spec_float := SFdiv 53 1024.

Record UploadFile := { uf_name : string; uf_blob : bytes }.

Record Uploaded := {
  up_kb_id : string; up_kb_name : string; up_dept_id : string; up_is_private : bool;
  up_uploaded_files : nat; up_queued_docs : nat; up_doc_ids : list string }.

Record DocInfo := {
  di_id : string; di_name : string; di_run : string; di_progress : option Z;
  di_progress_msg : string }.

Record ParseStatus := {
  ps_total : nat; ps_done : nat; ps_running : nat; ps_failed : nat;
  ps_overall : option Z; ps_all_done : bool; ps_docs : list DocInfo }.

(** The counters of the loop of [get_parse_status] *)
Record ParseAcc := {
  pa_done : nat; pa_running : nat; pa_failed : nat; pa_progress : spec_float;
  pa_docs : list DocInfo }.

Definition run_map : list (string * string) :=
  [("0", "UNSTART"); ("1", "RUNNING"); ("2", "CANCEL"); ("3", "DONE"); ("4", "FAIL")].

Record Created := {
  cr_session_id : string; cr_agent_id : string; cr_dept_id : string; cr_kb_ids : list string;
  cr_is_private : bool }.

Record AskOut := {
  ak_session_id : string; ak_answer : string; ak_references : list pyv; ak_agent_id : string;
  ak_dept_id : string }.

Section gateway.
Context `{Env} `{Crypto} (cfg : PortalConfig).

(** The default [repr] of an SDK object *)
Context (base_repr : list (string * pyv) → string).

(** ** [create_session] *)

(** The KBs of [kb_ids] the user may read *)
Definition readable_kbs (depts : gset string) (dept_id : string) (user_id : option string)
    (kb_ids : list string) : M (list string) :=
  for_fold (λ acc kb_id,
    p ← get_policy "kb" kb_id;
    eff ← effective_kb_permission depts dept_id kb_id (opt_or user_id "") p;
    mret (if has_read eff then acc ++ [kb_id] else acc)) [] kb_ids.

Definition create_direct_session (depts : gset string) (dept_id : string)
    (user_id : option string) (kb_ids : list string) (is_private : bool) : M Created :=
  u ← new_uuid;
  let session_id := "direct-" +:+ u in
  valid_kb_ids ← readable_kbs depts dept_id user_id kb_ids;
  now ← time_now;
  registry_set session_id {|
    g_session := None; g_user_id := user_id; g_dept_id := dept_id; g_agent_id := "direct";
    g_kb_ids := valid_kb_ids; g_agent_owner_id := ""; g_kb_overridden := false;
    g_created_at := Some now; g_is_private := Some is_private |} ;;
  create_portal_session session_id user_id dept_id "direct" valid_kb_ids is_private false ;;
  mret {| cr_session_id := session_id; cr_agent_id := "direct"; cr_dept_id := dept_id;
          cr_kb_ids := valid_kb_ids; cr_is_private := is_private |}.

(** The KBs of the agent's own DSL, nothing on an error *)
Definition agent_kbs (key agent_id : string) : M (list string) :=
  try_except
    (detail ← rag_list_agents key 1 1 (Some agent_id);
     mret match detail with
          | a :: _ =>
              let dsl := default PNone (ag_dsl a) in
              extract_kb_ids_from_dsl base_repr 10 (if py_bool dsl then dsl else PDict [])
          | [] => []
          end)
    (λ _, mret []).

Definition create_session (token_payload : json) (dept_id agent_id : string)
    (kb_ids : list string) (is_private : bool) : M Created :=
  let depts := tok_depts token_payload in
  let dept_id := normalize_dept_id dept_id in
  if decide (dept_id ∉ depts) then raise (PermissionError "dept not allowed")
  else
    let user_id := tok_get "sub" token_payload in
    if decide (agent_id = "" ∨ agent_id = "direct") then
      create_direct_session depts dept_id user_id kb_ids is_private
    else
      policy ← get_policy "agent" agent_id;
      ok ← lift_res (can_access_resource depts dept_id policy user_id);
      if negb ok then raise (PermissionError "resource forbidden")
      else
        let agent_owner_id := opt_or (policy ≫= p_owner_user_id) "" in
        key ← get_rag_client cfg agent_owner_id;
        agents ← rag_list_agents key 1 30 (Some agent_id);
        match agents with
        | [] => raise (ValueError "agent not found")
        | agent :: _ =>
            let user_selected := bool_decide (kb_ids ≠ []) in
            clean_kb_ids ← (if user_selected then readable_kbs depts dept_id user_id kb_ids
                            else agent_kbs key agent_id);
            match user_id with
            | None => raise (OtherError "'sub'")
            | Some sub =>
                t ← time_now;
                session ← rag_agent_create_session key (ag_id agent)
                            ("portal-" +:+ sub +:+ "-" +:+ str_of_Z t);
                let overridden := user_selected && bool_decide (clean_kb_ids ≠ []) in
                now ← time_now;
                registry_set (rs_id session) {|
                  g_session := Some session; g_user_id := user_id; g_dept_id := dept_id;
                  g_agent_id := agent_id; g_kb_ids := clean_kb_ids;
                  g_agent_owner_id := agent_owner_id; g_kb_overridden := overridden;
                  g_created_at := Some now; g_is_private := None |} ;;
                create_portal_session (rs_id session) user_id dept_id agent_id clean_kb_ids
                  is_private overridden ;;
                mret {| cr_session_id := rs_id session; cr_agent_id := agent_id;
                        cr_dept_id := dept_id; cr_kb_ids := clean_kb_ids;
                        cr_is_private := is_private |}
            end
        end.

(** ** Listing and changing sessions *)

Definition list_sessions (token_payload : json) (dept_id : option string)
    : M (list SessionView) :=
  match tok_get "sub" token_payload with
  | None => mret []
  | Some user_id =>
      if decide (user_id = "") then mret []
      else
        let selected := if opt_truthy dept_id then normalize_dept_id (default "" dept_id)
                        else "" in
        if decide (selected ≠ "" ∧ selected ∉ tok_depts token_payload) then
          raise (PermissionError "dept not allowed")
        else
          let selected_dept := py_or selected
            (normalize_dept_id (opt_or (tok_get "default_dept_id" token_payload) "")) in
          if decide (selected_dept = "") then mret []
          else
            own_sessions ← list_user_sessions user_id (Some selected_dept) 300;
            admin ← is_dept_admin user_id selected_dept;
            if (admin : bool) then
              dept_sessions ← list_dept_sessions selected_dept (Some user_id) false 300;
              mret (isort (λ a b, by_updated_desc (sv_row a) (sv_row b))
                      (own_sessions ++ dept_sessions))
            else mret own_sessions
  end.

Definition delete_session (token_payload : json) (session_id : string) : M bool :=
  let user_id := tok_user token_payload in
  if decide (user_id = "") then mret false
  else
    ok ← deactivate_portal_session session_id user_id;
    when ok (registry_pop session_id) ;;
    mret ok.

Definition set_entry_private (b : bool) (g : RegEntry) : RegEntry := {|
  g_session := g_session g; g_user_id := g_user_id g; g_dept_id := g_dept_id g;
  g_agent_id := g_agent_id g; g_kb_ids := g_kb_ids g; g_agent_owner_id := g_agent_owner_id g;
  g_kb_overridden := g_kb_overridden g; g_created_at := g_created_at g;
  g_is_private := Some b |}.

Definition update_session_privacy (token_payload : json) (session_id : string)
    (is_private : bool) : M bool :=
  let user_id := tok_user token_payload in
  if decide (user_id = "") then mret false
  else
    ok ← update_portal_session_privacy session_id user_id is_private;
    reg ← registry_get session_id;
    match reg with
    | Some g => when ok (registry_set session_id (set_entry_private is_private g))
    | None => mret ()
    end ;;
    mret ok.

(** ** [upload_kb_for_dept] *)

(** The dataset of that name the user may append to *)
Definition find_existing_kb (key full_name raw_name user_id : string) : M (option Dataset) :=
  existing ← rag_list_datasets key None;
  match fetchone (λ e, ds_name e = full_name ∨ ds_name e = raw_name) existing with
  | None => mret None
  | Some e =>
      existing_policy ← get_policy "kb" (ds_id e);
      let existing_owner := opt_or (existing_policy ≫= p_owner_user_id) "" in
      match existing_policy with
      | Some p =>
          if decide (existing_owner ≠ "" ∧ existing_owner ≠ user_id) then
            perm ← get_kb_permission (ds_id e) user_id;
            if negb (has_write perm) && bool_decide (visibility_of "" p ≠ "public") then
              raise (PermissionError "该知识库只允许所有者或改写权限用户追加文件")
            else mret (Some e)
          else mret (Some e)
      | None => mret (Some e)
      end
  end.

Definition upload_name (f : UploadFile) : M string :=
  let name := py_strip (uf_name f) in
  if decide (name = "") then u ← new_uuid; mret ("upload-" +:+ u +:+ ".txt") else mret name.

Definition upload_kb_for_dept (token_payload : json) (dept_id kb_name : string)
    (files : list UploadFile) (description : string) (is_private : bool) : M Uploaded :=
  let dept_id := normalize_dept_id dept_id in
  if decide (dept_id ∉ tok_depts token_payload) then raise (PermissionError "dept not allowed")
  else if decide (py_strip kb_name = "") then raise (ValueError "kb_name is required")
  else if bool_decide (length files = 0%nat) then raise (ValueError "files are required")
  else
    let user_id := tok_user token_payload in
    key ← get_rag_client cfg user_id;
    let code := dept_code dept_id in
    let raw_name := py_strip kb_name in
    let full_name := code +:+ "-" +:+ raw_name in
    found ← try_except (find_existing_kb key full_name raw_name user_id)
              (λ e, match e with PermissionError _ => raise e | _ => mret None end);
    ds ← match found with
         | Some ds => mret ds
         | None => rag_create_dataset key full_name
                     (py_or description (code +:+ " private kb"))
         end;
    names ← for_fold (λ acc f, n ← upload_name f; mret (acc ++ [n])) [] files;
    ids ← rag_upload key (ds_id ds) names;
    let doc_ids := filter (λ i, i ≠ "") ids in
    match doc_ids with
    | [] => mret ()
    | _ => try_except (rag_parse key (ds_id ds) doc_ids) (λ _, mret ())
    end ;;
    let sub := if decide (user_id = "") then None else Some user_id in
    upsert_policy_dflt "kb" (ds_id ds) dept_id (if is_private then "private" else "dept")
      (py_or user_id "system") sub "D" ;;
    mret {| up_kb_id := ds_id ds; up_kb_name := ds_name ds; up_dept_id := dept_id;
            up_is_private := is_private; up_uploaded_files := length files;
            up_queued_docs := length doc_ids; up_doc_ids := doc_ids |}.

(** ** [get_parse_status] *)

(** The counters after a listed document *)
Definition count_doc (acc : ParseAcc) (doc_id : string) (doc : Doc) : ParseAcc :=
  let run := opt_or (doc_run doc) "0" in
  let progress := default (S754_zero false) (doc_progress doc) in
  let run_text := default run (dict_get run run_map) in
  {| pa_done := if decide (run_text = "DONE") then S (pa_done acc) else pa_done acc;
     pa_running := if decide (run_text = "RUNNING") then S (pa_running acc)
                   else pa_running acc;
     pa_failed := if decide (run_text = "FAIL") then S (pa_failed acc) else pa_failed acc;
     pa_progress := float_add (pa_progress acc)
                      (if decide (run_text = "DONE") then float_of_Z 1 else progress);
     pa_docs := pa_docs acc ++ [{|
       di_id := doc_id; di_name := opt_or (doc_name doc) ""; di_run := run_text;
       di_progress := round2 progress; di_progress_msg := opt_or (doc_progress_msg doc) "" |}] |}.

Definition add_doc_info (acc : ParseAcc) (i : DocInfo) : ParseAcc := {|
  pa_done := pa_done acc; pa_running := pa_running acc; pa_failed := pa_failed acc;
  pa_progress := pa_progress acc; pa_docs := pa_docs acc ++ [i] |}.

Definition poll_doc (key kb_id : string) (acc : ParseAcc) (doc_id : string) : M ParseAcc :=
  let blank run msg := {| di_id := doc_id; di_name := ""; di_run := run;
                          di_progress := Some 0; di_progress_msg := msg |} in
  try_except
    (docs ← rag_list_documents key kb_id doc_id;
     mret match docs with
          | [] => add_doc_info acc (blank "UNSTART" "")
          | doc :: _ => count_doc acc doc_id doc
          end)
    (λ e, mret (add_doc_info acc (blank "ERROR" (exn_str e)))).

Definition get_parse_status (token_payload : json) (kb_id : string) (doc_ids : list string)
    : M ParseStatus :=
  require_user token_payload ;;
  policy ← get_policy "kb" kb_id;
  key ← get_rag_client cfg (opt_or (policy ≫= p_owner_user_id) "");
  datasets ← rag_list_datasets key (Some kb_id);
  match datasets with
  | [] => raise (ValueError "dataset not found")
  | ds :: _ =>
      acc ← for_fold (poll_doc key (ds_id ds))
        {| pa_done := 0; pa_running := 0; pa_failed := 0; pa_progress := S754_zero false;
           pa_docs := [] |} doc_ids;
      let total := length doc_ids in
      mret {| ps_total := total; ps_done := pa_done acc; ps_running := pa_running acc;
              ps_failed := pa_failed acc;
              ps_overall := if (0 <? total)%nat
                            then round2 (float_div (pa_progress acc)
                                           (float_of_Z (Z.of_nat total)))
                            else Some 0;
              ps_all_done := (pa_done acc =? total)%nat; ps_docs := pa_docs acc |}
  end.

(** ** [ask] *)

Definition recover_agent_session (agent_id session_id agent_owner_id : string)
    : M (option RagSession) :=
  try_except
    (key ← get_rag_client cfg agent_owner_id;
     agents ← rag_list_agents key 1 1 (Some agent_id);
     match agents with
     | [] => mret None
     | a :: _ =>
         sessions ← rag_agent_list_sessions key (ag_id a) 100 session_id;
         mret (fetchone (λ s, rs_id s = session_id) sessions)
     end)
    (λ _, mret None).

Definition load_session (session_id : string) : M (option RegEntry) :=
  reg ← registry_get session_id;
  match reg with
  | Some g => mret (Some g)
  | None =>
      persisted ← get_portal_session session_id;
      match persisted with
      | None => mret None
      | Some v =>
          let s := sv_row v in
          agent_policy ← (if decide (s_agent_id s ≠ "" ∧ s_agent_id s ≠ "direct")
                          then get_policy "agent" (s_agent_id s) else mret None);
          let g := {| g_session := None; g_user_id := Some (s_user_id s);
                      g_dept_id := s_dept_id s; g_agent_id := s_agent_id s;
                      g_kb_ids := sv_kb_ids v;
                      g_agent_owner_id := opt_or (agent_policy ≫= p_owner_user_id) "";
                      g_kb_overridden := s_kb_overridden s;
                      g_created_at := None; g_is_private := None |} in
          registry_set session_id g ;;
          mret (Some g)
      end
  end.

(** The RAGFlow session of an entry, recovered when it is lost *)
Definition set_entry_session (s : RagSession) (g : RegEntry) : RegEntry := {|
  g_session := Some s; g_user_id := g_user_id g; g_dept_id := g_dept_id g;
  g_agent_id := g_agent_id g; g_kb_ids := g_kb_ids g; g_agent_owner_id := g_agent_owner_id g;
  g_kb_overridden := g_kb_overridden g; g_created_at := g_created_at g;
  g_is_private := g_is_private g |}.

Definition runtime_session (session_id : string) (reg : RegEntry) : M (option RagSession) :=
  match g_session reg with
  | Some s => mret (Some s)
  | None =>
      r ← recover_agent_session (g_agent_id reg) session_id (g_agent_owner_id reg);
      match r with
      | Some s => registry_set session_id (set_entry_session s reg) ;; mret (Some s)
      | None => mret None
      end
  end.

(** The user and assistant messages among the first [limit] of the session *)
Definition chat_history (session_id : string) (limit : Z) : M (list json) :=
  msgs ← list_portal_messages session_id limit;
  mret ((λ m, chat_msg (mv_role m) (mv_content m)) <$>
        filter (λ m, mv_role m = "user" ∨ mv_role m = "assistant") msgs).

Definition no_answer : string := "Agent returned no response.".

Definition ask_direct (session_id : string) (reg : RegEntry) (question : string)
    : M (string * list pyv) :=
  match g_kb_ids reg with
  | [] =>
      history ← chat_history session_id 12;
      answer ← direct_chat cfg (history ++ [chat_msg "user" question]);
      mret (answer, [])
  | kb_ids =>
      chunks ← multi_tenant_retrieve cfg kb_ids question 8 "";
      history ← chat_history session_id 6;
      answer ← generate_answer_direct cfg question chunks history;
      mret (answer, (of_json ∘ chunk_json) <$> chunks)
  end.

Definition ask_agent_kb (session_id : string) (reg : RegEntry) (question : string)
    : M (string * list pyv) :=
  chunks ← multi_tenant_retrieve cfg (g_kb_ids reg) question 8 (g_agent_owner_id reg);
  let block := context_block chunks in
  let injected := injected_question block question in
  let fallback := direct_chat cfg [chat_msg "user" injected] in
  rag_session ← runtime_session session_id reg;
  answer ← match rag_session with
           | Some s =>
               try_except
                 (answers ← rag_session_ask s injected (Some block);
                  mret match last answers with
                       | Some a => opt_or (an_content a) ""
                       | None => no_answer
                       end)
                 (λ _, fallback)
           | None => fallback
           end;
  mret (answer, (of_json ∘ chunk_json) <$> chunks).

Definition ask_agent (session_id : string) (reg : RegEntry) (question : string)
    : M (string * list pyv) :=
  let fallback := answer ← direct_chat cfg [chat_msg "user" question]; mret (answer, []) in
  rag_session ← runtime_session session_id reg;
  match rag_session with
  | Some s =>
      try_except
        (answers ← rag_session_ask s question None;
         match last answers with
         | Some a =>
             refs ← extract_chunks (let r := default PNone (an_reference a) in
                                    if py_bool r then r else PDict []);
             mret (opt_or (an_content a) "", refs)
         | None => mret (no_answer, [])
         end)
        (λ _, fallback)
  | None => fallback
  end.

(** [json.dumps] of the references *)
Definition json_refs (refs : list pyv) : M (list json) :=
  match mapM to_json refs with
  | Some l => mret l
  | None => raise (OtherError "Object is not JSON serializable")
  end.

Definition check_owner (token_payload : json) (reg : RegEntry) : M unit :=
  match tok_get "sub" token_payload with
  | None => raise (OtherError "'sub'")
  | Some sub => if decide (g_user_id reg = Some sub) then mret ()
                else raise (PermissionError "session owner mismatch")
  end.

Definition ask (token_payload : json) (session_id question : string) : M AskOut :=
  reg ← load_session session_id;
  match reg with
  | None => raise (ValueError "session not found or expired")
  | Some reg =>
      check_owner token_payload reg ;;
      if decide (py_strip question = "") then raise (ValueError "question is required")
      else
        '(answer, references) ←
          (if decide (g_agent_id reg = "direct") then ask_direct session_id reg question
           else if g_kb_overridden reg && bool_decide (g_kb_ids reg ≠ [])
           then ask_agent_kb session_id reg question
           else ask_agent session_id reg question);
        append_portal_message session_id "user" question [] ;;
        refs ← json_refs references;
        append_portal_message session_id "assistant" answer refs ;;
        mret {| ak_session_id := session_id; ak_answer := answer;
                ak_references := references; ak_agent_id := g_agent_id reg;
                ak_dept_id := g_dept_id reg |}
  end.

Definition get_history (token_payload : json) (session_id : string) : M (list MessageView) :=
  reg ← load_session session_id;
  match reg with
  | None => mret []
  | Some reg => check_owner token_payload reg ;; list_portal_messages session_id 500
  end.
End gateway.
