(* ===== verification/Routes.v ===== *)
(** The HTTP routes of the portal ([create_app] in portal_server.py): how a
    request is authenticated and parsed, which gateway operation it calls, how
    exceptions become responses and what is audited. *)
From S2P Require Import Prelude PyText Json Dsl Digest Schema Effects StoreUsers StorePolicy.
From S2P Require Import StoreSessions StoreRequests GatewayToken GatewayAccess GatewayShare.
From S2P Require Import GatewayChat GatewaySession.

Local Open Scope Z_scope.

(** A Flask request: an absent header is [""]; [rq_json] is
    [get_json(silent=True)]. *)
Record Request := {
  rq_method : string; rq_authorization : string; rq_request_id : string;
  rq_json : option json; rq_args : list (string * string); rq_form : list (string * string);
  rq_files : list UploadFile }.

Inductive Reply (A : Type) :=
  | RNoContent                                               (* ("", 204) *)
  | ROk (data : A) (code : Z)                                (* _ok *)
  | RErr (message : string) (code : Z) (error_code : string). (* _err *)
Arguments RNoContent {_}.
Arguments ROk {_} _ _.
Arguments RErr {_} _ _ _.

Definition status {A} (r : Reply A) : Z :=
  match r with RNoContent => 204 | ROk _ c => c | RErr _ c _ => c end.

Definition ok200 {A} (a : A) : Reply A := ROk a 200.
Definition unauthorized {A} : Reply A := RErr "unauthorized" 401 "unauthorized".
Definition bad_request {A} (m : string) : Reply A := RErr m 400 "bad_request".

Record MeOut := {
  me_user_id : option string; me_login_id : option string; me_display_name : option string;
  me_dept_ids : list string; me_dept : string; me_default_dept_id : option string;
  me_is_admin : bool; me_is_dept_admin : bool; me_exp : option json }.

(** [(request.args.get(k) or d)] and the like on the form *)
Definition arg (k d : string) (args : list (string * string)) : string :=
  opt_or (dict_get k args) d.

(** [request.args.get(k, "").strip() or None] *)
Definition arg_opt (k : string) (args : list (string * string)) : option string :=
  let s := py_strip (arg k "" args) in if decide (s = "") then None else Some s.

(** The characters of a [str] *)
Fixpoint py_chars (b : bytes) : list bytes :=
  match b with
  | [] => []
  | c :: b' =>
      match py_chars b' with
      | [] => [[c]]
      | x :: xs => if match b' with d :: _ => is_cont d | [] => false end
                   then (c :: x) :: xs else [c] :: x :: xs
      end
  end.

(** [DeptRow] with the normalized id and its code *)
Definition shown_dept (d : DeptRow) : DeptRow := {|
  d_dept_id := normalize_dept_id (d_dept_id d);
  d_dept_code := dept_code (normalize_dept_id (d_dept_id d)); d_dept_name := d_dept_name d;
  d_parent_dept_id := d_parent_dept_id d; d_is_public := d_is_public d;
  d_is_active := d_is_active d; d_created_at := d_created_at d; d_updated_at := d_updated_at d |}.

Definition allowed_codes : list string := ["MP"; "MP-Q"; "MP-PLM"; "MP-AP"; "MP-MC"; "MP-US&DX"].

(** The loop over the departments: the first of each id, with an allowed code *)
Fixpoint visible_depts (keep : string → bool) (seen : list string) (l : list DeptRow)
    : list DeptRow :=
  match l with
  | [] => []
  | d :: l' =>
      let s := shown_dept d in
      if bool_decide (d_dept_code s ∈ allowed_codes) && bool_decide (d_dept_id s ∉ seen)
         && keep (d_dept_id s)
      then s :: visible_depts keep (d_dept_id s :: seen) l'
      else visible_depts keep seen l'
  end.

Definition dept_list (keep : string → bool) (l : list DeptRow) : list DeptRow :=
  isort (λ a b, str_leb (d_dept_code a) (d_dept_code b)) (visible_depts keep [] l).

Section routes.
Context `{Env} `{Crypto} (cfg : PortalConfig).
Context (base_repr : list (string * pyv) → string).

(** ** The helpers of [create_app] *)

(** [_request_id] *)
Definition request_id (rq : Request) : M string :=
  if decide (rq_request_id rq = "") then new_uuid else mret (rq_request_id rq).

(** [_auth_payload] *)
Definition auth_payload (rq : Request) : M (option json) :=
  match bytes_strip_prefix (to_bytes "Bearer ") (to_bytes (rq_authorization rq)) with
  | None => mret None
  | Some rest => parse_token cfg (py_strip (of_bytes rest))
  end.

(** [_is_admin] *)
Definition payload_is_admin (payload : json) : M bool :=
  let user_id := tok_user payload in
  if decide (user_id = "") then mret false else is_dept_admin user_id "dept_mp".

(** [auth = _auth_payload(); if not auth: return 401] *)
Definition with_auth {A} (rq : Request) (k : json → M (Reply A)) : M (Reply A) :=
  auth ← auth_payload rq;
  match auth with
  | Some payload => if json_truthy payload then k payload else mret unauthorized
  | None => mret unauthorized
  end.

(** A route that also answers [OPTIONS] *)
Definition with_options {A} (rq : Request) (m : M (Reply A)) : M (Reply A) :=
  if decide (rq_method rq = "OPTIONS") then mret RNoContent else m.

Definition with_admin {A} (auth : json) (m : M (Reply A)) : M (Reply A) :=
  admin ← payload_is_admin auth;
  if (admin : bool) then m else mret (RErr "admin required" 403 "forbidden").

(** [payload = request.get_json(silent=True) or {}] *)
Definition payload_of (rq : Request) : json :=
  match rq_json rq with
  | Some j => if json_truthy j then j else JObj []
  | None => JObj []
  end.

(** [payload.get(k) or d], [d] a string *)
Definition body_or (k d : string) (payload : json) : M json :=
  j ← get_m k payload; mret (if json_truthy j then j else JStr d).

(** [(payload.get(k) or d).strip()] *)
Definition body_str (k d : string) (payload : json) : M string :=
  j ← body_or k d payload;
  match j with
  | JStr s => mret (py_strip s)
  | _ => raise (OtherError "object has no attribute 'strip'")
  end.

Definition str_of_json (j : json) : string := py_str base_repr (of_json j).

(** The iteration of [for x in (payload.get(k) or [])], with [str(x)] *)
Definition iter_strs (j : json) : M (list string) :=
  if negb (json_truthy j) then mret []
  else match j with
       | JArr l => mret (str_of_json <$> l)
       | JStr s => mret (of_bytes <$> py_chars (to_bytes s))
       | JObj kvs => mret (fst <$> kvs)
       | _ => raise (OtherError "object is not iterable")
       end.

Definition body_strs (k : string) (payload : json) : M (list string) :=
  j ← get_m k payload; iter_strs j.

(** [[str(x) for x in l if str(x).strip()]] *)
Definition non_blank (l : list string) : list string := filter (λ x, py_strip x ≠ "") l.

(** [gateway.store.write_audit] about a KB or an agent *)
Definition audit (req_id action status : string) (auth : json) (dept_id rtype rid sid
    error_code error_message : option string) : M unit :=
  write_audit req_id action status (tok_get "sub" auth) dept_id rtype rid sid
    error_code error_message.

(** The [except] clauses most routes share: the audit record and the response
    of each class of exception; [vstatus] and [vcode] are those of a
    [ValueError]. *)
Definition audited_error {A} (req_id action : string) (auth : json)
    (dept_id rtype rid sid : option string) (vstatus : Z) (vcode : string) (e : exn)
    : M (Reply A) :=
  match e with
  | PermissionError m =>
      audit req_id action "denied" auth dept_id rtype rid sid (Some "forbidden") (Some m) ;;
      mret (RErr m 403 "forbidden")
  | ValueError m =>
      audit req_id action "error" auth dept_id rtype rid sid (Some vcode) (Some m) ;;
      mret (RErr m vstatus vcode)
  | _ =>
      audit req_id action "error" auth dept_id rtype rid sid (Some "internal_error")
        (Some (exn_str e)) ;;
      mret (RErr (exn_str e) 500 "internal_error")
  end.

(** The [except] clauses that audit nothing; any other exception is Flask's. *)
Definition plain_error {A} (e : exn) : M (Reply A) :=
  match e with
  | PermissionError m => mret (RErr m 403 "forbidden")
  | ValueError m => mret (RErr m 400 "bad_request")
  | _ => raise e
  end.

(** A mutation of the KB [kb_id] that is audited under [action] *)
Definition kb_route {A} (rq : Request) (action kb_id : string) (vcode : string) (vstatus : Z)
    (op : json → M A) : M (Reply A) :=
  with_options rq (with_auth rq (λ auth,
    req_id ← request_id rq;
    try_except
      (data ← op auth;
       audit req_id action "success" auth None (Some "kb") (Some kb_id) None None None ;;
       mret (ok200 data))
      (audited_error req_id action auth None (Some "kb") (Some kb_id) None vstatus vcode))).

(** ** Authentication *)

Definition route_login (rq : Request) : M (Reply LoginOut) :=
  with_options rq (
    req_id ← request_id rq;
    let payload := payload_of rq in
    username ← get_m "username" payload;
    login_id ← (if json_truthy username then body_str "username" "" payload
                else body_str "login_id" "" payload);
    password ← body_str "password" "" payload;
    if decide (login_id = "" ∨ password = "") then
      mret (bad_request "username/login_id and password are required")
    else
      out ← login cfg login_id password;
      match out with
      | None =>
          write_audit req_id "auth.login" "denied" None None None None None
            (Some "invalid_credentials") None ;;
          mret (RErr "invalid username or password" 401 "invalid_credentials")
      | Some o =>
          write_audit req_id "auth.login" "success" (Some (pu_user_id (lo_user o)))
            (Some (lo_default_dept_id o)) None None None None None ;;
          mret (ok200 o)
      end).

(** [rdata.get("message", "unknown error")] *)
Definition message_field (rdata : json) : M string :=
  match rdata with
  | JObj kvs =>
      match dict_get "message" kvs with
      | None => mret "unknown error"
      | Some (JStr s) => mret s
      | Some _ => raise (OtherError "AttributeError")
      end
  | _ => raise (OtherError "AttributeError")
  end.

(** Steps 1a to 1c of [register]: an early response, or the id and the API key
    of the RAGFlow account *)
Definition register_ragflow (login_id password : string)
    : M (Reply Registered + string * string) :=
  let email := ragflow_email login_id in
  enc ← attempt (encrypt_password_for_ragflow password);
  match enc with
  | inr e => mret (inl (RErr (exn_str e) 500 "dependency_missing"))
  | inl enc_password =>
      resp ← http_send "POST" (ragflow_base cfg +:+ "/v1/user/register") None
        (JObj [("nickname", JStr login_id); ("email", JStr email);
               ("password", JStr enc_password)]);
      rdata ← resp_json resp;
      created ← code_is 0 rdata;
      disabled ← code_is 102 rdata;
      first ← (if (created : bool) then uid ← text_field "id" (data_of rdata); mret (inr uid)
               else if (disabled : bool) then
                 mret (inl (RErr "RAGFlow user registration is disabled" 503 "bad_request"))
               else
                 msg ← message_field rdata;
                 mret (if py_in "already registered" (py_lower msg) then inr ""
                       else inl (RErr ("RAGFlow registration failed: " +:+ msg) 502
                                   "bad_request")));
      match first with
      | inl r => mret (inl r)
      | inr ragflow_user_id =>
          login_resp ← http_send "POST" (ragflow_base cfg +:+ "/v1/user/login") None
            (JObj [("email", JStr email); ("password", JStr enc_password)]);
          login_result ← resp_json login_resp;
          logged ← (if decide (ragflow_user_id = "") then code_is 0 login_result
                    else mret false);
          ragflow_user_id ← (if (logged : bool) then text_field "id" (data_of login_result)
                             else mret ragflow_user_id);
          ragflow_token ←
            (if decide (hr_auth login_resp = "") then mret ""
             else
               api_resp ← http_send "POST" (ragflow_base cfg +:+ "/v1/api/new_token")
                 (Some (hr_auth login_resp)) (JObj [("dialog_id", JStr "")]);
               api_data ← resp_json api_resp;
               ok ← code_is 0 api_data;
               if (ok : bool) then text_field "token" (data_of api_data) else mret "");
          mret (inr (ragflow_user_id, ragflow_token))
      end
  end.

Definition route_register (rq : Request) : M (Reply Registered) :=
  with_options rq (
    req_id ← request_id rq;
    let payload := payload_of rq in
    login_id ← body_str "login_id" "" payload;
    password ← body_str "password" "" payload;
    display_name ← body_str "display_name" login_id payload;
    dept_id ← body_str "dept_id" "" payload;
    if decide (login_id = "" ∨ password = "") then
      mret (bad_request "login_id and password are required")
    else if (py_len password <? 6)%nat then
      mret (bad_request "password must be at least 6 characters")
    else if decide (dept_id = "") then mret (bad_request "dept_id is required")
    else
      let dept_id := normalize_dept_id dept_id in
      dept_row ← sql_query (λ d, fetchone (λ r, d_dept_id r = dept_id) (t_departments d));
      match dept_row with
      | None => mret (bad_request ("department " +:+ dept_id +:+ " not found"))
      | Some _ =>
          linked ← try_except (register_ragflow login_id password)
            (λ e, mret (inl (RErr ("failed to connect to RAGFlow: " +:+ exn_str e) 502
                               "bad_request")));
          match linked with
          | inl r => mret r
          | inr (ragflow_user_id, ragflow_token) =>
              result ← attempt (register_user login_id password display_name dept_id "member"
                                  ragflow_user_id ragflow_token);
              match result with
              | inr (ValueError m) => mret (RErr m 409 "bad_request")
              | inr e => mret (RErr ("failed to create portal user: " +:+ exn_str e) 500
                                 "bad_request")
              | inl g =>
                  write_audit req_id "auth.register" "success" (Some (rg_user_id g))
                    (Some dept_id) None None None None None ;;
                  mret (ROk g 201)
              end
          end
      end).

Definition route_me (rq : Request) : M (Reply MeOut) :=
  with_auth rq (λ auth,
    let default_dept_id := opt_or (tok_get "default_dept_id" auth) "" in
    let user_id := tok_user auth in
    admin ← is_dept_admin user_id "dept_mp";
    dept_admin ← (if decide (user_id ≠ "" ∧ default_dept_id ≠ "")
                  then is_dept_admin user_id default_dept_id else mret false);
    mret (ok200 {|
      me_user_id := tok_get "sub" auth; me_login_id := tok_get "login_id" auth;
      me_display_name := tok_get "display_name" auth; me_dept_ids := tok_dept_ids auth;
      me_dept := py_upper (py_replace default_dept_id "dept_" "");
      me_default_dept_id := tok_get "default_dept_id" auth;
      me_is_admin := admin; me_is_dept_admin := dept_admin;
      me_exp := json_get "exp" auth |})).

Definition route_delete_my_account (rq : Request) : M (Reply bool) :=
  with_options rq (with_auth rq (λ auth,
    let user_id := tok_user auth in
    req_id ← request_id rq;
    ragflow_user_id ← get_user_ragflow_user_id user_id;
    (if decide (ragflow_user_id = "") then mret ()
     else try_except
       (http_send "DELETE" (ragflow_base cfg +:+ "/v1/user/" +:+ ragflow_user_id)
          (Some ("Bearer " +:+ api_key cfg)) JNull ;; mret ())
       (λ _, mret ())) ;;
    delete_user user_id ;;
    write_audit req_id "user.delete_account" "success" (Some user_id) None None None None
      None None ;;
    mret (ok200 true))).

(** ** Departments and users *)

Definition route_departments (rq : Request) : M (Reply (list DeptRow)) :=
  with_auth rq (λ auth,
    let show_all := bool_decide (py_lower (arg "all" "" (rq_args rq)) = "true") in
    all_depts ← get_all_departments;
    mret (ok200 (dept_list (λ d, show_all || bool_decide (d ∈ tok_depts auth)) all_depts))).

Definition route_share_targets (rq : Request) : M (Reply (list DeptRow)) :=
  with_auth rq (λ _,
    all_depts ← get_all_departments;
    mret (ok200 (dept_list (λ _, true) all_depts))).

Definition route_search_users (rq : Request)
    : M (Reply (list (string * string * string * string))) :=
  with_auth rq (λ _,
    let q := py_strip (arg "q" "" (rq_args rq)) in
    if (py_len q <? 1)%nat then mret (ok200 [])
    else users ← search_users q 20; mret (ok200 users)).

Definition route_resources (fuel : nat) (rq : Request) : M (Reply (list ResourceItem)) :=
  with_auth rq (λ auth,
    req_id ← request_id rq;
    let dept_id := arg_opt "dept_id" (rq_args rq) in
    let resource_type := py_lower (py_strip (arg "resource_type" "all" (rq_args rq))) in
    if decide (resource_type ∉ ["agent"; "kb"; "all"]) then
      mret (bad_request "resource_type must be one of: agent, kb, all")
    else
      try_except
        (items ← list_resources cfg fuel auth dept_id resource_type;
         audit req_id "resource.list" "success" auth
           (match dept_id with Some d => Some d | None => tok_get "default_dept_id" auth end)
           None None None None None ;;
         mret (ok200 items))
        (λ e, match e with
         | PermissionError m =>
             audit req_id "resource.list" "denied" auth dept_id None None None
               (Some "forbidden") (Some m) ;;
             mret (RErr m 403 "forbidden")
         | _ =>
             audit req_id "resource.list" "error" auth dept_id None None None
               (Some "internal_error") (Some (exn_str e)) ;;
             mret (RErr (exn_str e) 500 "internal_error")
         end)).

(** ** Sessions *)

Definition route_create_session (rq : Request) : M (Reply Created) :=
  with_options rq (with_auth rq (λ auth,
    req_id ← request_id rq;
    let payload := payload_of rq in
    dept_id ← body_str "dept_id" (opt_or (tok_get "default_dept_id" auth) "") payload;
    agent_id ← body_str "agent_id" "" payload;
    kb_ids ← get_m "kb_ids" payload;
    is_private ← get_m "is_private" payload;
    if decide (dept_id = "") then mret (bad_request "dept_id is required")
    else
      try_except
        (kb_ids ← iter_strs kb_ids;
         data ← create_session cfg base_repr auth dept_id agent_id (non_blank kb_ids)
                  (json_truthy is_private);
         audit req_id "session.create" "success" auth (Some dept_id) (Some "agent")
           (Some agent_id) (Some (cr_session_id data)) None None ;;
         mret (ok200 data))
        (audited_error req_id "session.create" auth (Some dept_id) (Some "agent")
           (Some agent_id) None 404 "not_found"))).

Definition route_list_sessions (rq : Request) : M (Reply (list SessionView)) :=
  with_auth rq (λ auth,
    try_except
      (items ← list_sessions auth (arg_opt "dept_id" (rq_args rq)); mret (ok200 items))
      (λ e, match e with
       | PermissionError m => mret (RErr m 403 "forbidden")
       | _ => raise e
       end)).

Definition route_delete_session (rq : Request) (session_id : string) : M (Reply bool) :=
  with_options rq (with_auth rq (λ auth,
    req_id ← request_id rq;
    ok ← delete_session auth session_id;
    if negb ok then
      audit req_id "session.delete" "denied" auth None None None (Some session_id)
        (Some "not_found") None ;;
      mret (RErr "session not found" 404 "not_found")
    else
      audit req_id "session.delete" "success" auth None None None (Some session_id)
        None None ;;
      mret (ok200 true))).

Definition route_session_privacy (rq : Request) (session_id : string) : M (Reply bool) :=
  with_options rq (with_auth rq (λ auth,
    req_id ← request_id rq;
    is_private ← get_m "is_private" (payload_of rq);
    let is_private := json_truthy is_private in
    ok ← update_session_privacy auth session_id is_private;
    if negb ok then
      audit req_id "session.privacy" "denied" auth None None None (Some session_id)
        (Some "forbidden") None ;;
      mret (RErr "session not found" 404 "not_found")
    else
      audit req_id "session.privacy" "success" auth None None None (Some session_id)
        None None ;;
      mret (ok200 is_private))).

Definition route_chat (rq : Request) : M (Reply AskOut) :=
  with_options rq (with_auth rq (λ auth,
    req_id ← request_id rq;
    let payload := payload_of rq in
    session_id ← body_str "session_id" "" payload;
    question ← body_str "question" "" payload;
    if decide (session_id = "" ∨ question = "") then
      mret (bad_request "session_id and question are required")
    else
      try_except
        (data ← ask cfg auth session_id question;
         audit req_id "session.ask" "success" auth (Some (ak_dept_id data)) (Some "agent")
           (Some (ak_agent_id data)) (Some session_id) None None ;;
         mret (ok200 data))
        (audited_error req_id "session.ask" auth None None None (Some session_id) 404
           "invalid_session"))).

Definition route_history (rq : Request) (session_id : string) : M (Reply (list MessageView)) :=
  with_auth rq (λ auth,
    try_except (items ← get_history auth session_id; mret (ok200 items))
      (λ e, match e with
       | PermissionError m => mret (RErr m 403 "forbidden")
       | _ => raise e
       end)).

(** ** Knowledge bases *)

Definition route_upload_kb (rq : Request) : M (Reply Uploaded) :=
  with_options rq (with_auth rq (λ auth,
    req_id ← request_id rq;
    let form := rq_form rq in
    let dept_id := py_strip (arg "dept_id" (opt_or (tok_get "default_dept_id" auth) "") form) in
    let kb_name := py_strip (arg "kb_name" "" form) in
    let description := py_strip (arg "description" "" form) in
    let is_private := bool_decide (py_lower (py_strip (arg "is_private" "" form))
                                     ∈ ["1"; "true"; "yes"; "on"]) in
    try_except
      (data ← upload_kb_for_dept cfg auth dept_id kb_name (rq_files rq) description is_private;
       audit req_id "kb.upload" "success" auth (Some (up_dept_id data)) (Some "kb")
         (Some (up_kb_id data)) None None None ;;
       mret (ok200 data))
      (audited_error req_id "kb.upload" auth (Some dept_id) (Some "kb") None None 400
         "bad_request"))).

Definition route_request_share (rq : Request) (kb_id : string)
    : M (Reply (option RequestView)) :=
  with_options rq (with_auth rq (λ auth,
    req_id ← request_id rq;
    let payload := payload_of rq in
    target_scope ← body_str "target_scope" "" payload;
    target_dept_ids ← get_m "target_dept_ids" payload;
    target_user_login ← body_str "target_user_login" "" payload;
    reason ← body_str "reason" "" payload;
    permission ← body_str "permission" "read" payload;
    try_except
      (targets ← iter_strs target_dept_ids;
       data ← request_kb_share auth kb_id (py_lower target_scope) (non_blank targets)
                (Some target_user_login) reason (py_lower permission);
       audit req_id "kb.share.request" "success" auth None (Some "kb") (Some kb_id) None
         None None ;;
       mret (ok200 data))
      (audited_error req_id "kb.share.request" auth None (Some "kb") (Some kb_id) None 400
         "bad_request"))).

Definition route_share_internal (rq : Request) (kb_id : string) : M (Reply (option PolicyRow)) :=
  kb_route rq "kb.share.internal" kb_id "bad_request" 400
    (λ auth, share_kb_internal auth kb_id).

Definition route_share_to_user (rq : Request) (kb_id : string) : M (Reply ShareOutcome) :=
  with_options rq (with_auth rq (λ auth,
    req_id ← request_id rq;
    let payload := payload_of rq in
    target_user_login ← body_str "target_user_login" "" payload;
    permission ← body_str "permission" "read" payload;
    if decide (target_user_login = "") then mret (bad_request "target_user_login is required")
    else
      try_except
        (data ← share_kb_to_user auth kb_id target_user_login permission;
         audit req_id "kb.share.to_user" "success" auth None (Some "kb") (Some kb_id) None
           None None ;;
         mret (ok200 data))
        (λ e, match e with
         | PermissionError m => mret (RErr m 403 "forbidden")
         | ValueError m => mret (RErr m 400 "bad_request")
         | _ => mret (RErr (exn_str e) 500 "internal_error")
         end))).

Definition route_list_kb_shares (rq : Request) (kb_id : string) : M (Reply (list ShareInfo)) :=
  with_auth rq (λ auth,
    policy ← get_policy "kb" kb_id;
    match policy with
    | None => mret (RErr "kb not found" 404 "bad_request")
    | Some p =>
        perm ← effective_kb_permission (tok_depts auth) (tok_selected auth None) kb_id
                 (tok_user auth) (Some p);
        if negb (has_read perm) then
          mret (RErr "no access to this knowledge base" 403 "bad_request")
        else shares ← list_kb_shares kb_id; mret (ok200 shares)
    end).

(** ** Share requests *)

Definition route_list_share_requests (rq : Request) : M (Reply (list RequestItem)) :=
  with_auth rq (λ auth,
    try_except
      (items ← list_share_requests auth (arg_opt "status" (rq_args rq))
                 (arg_opt "owner_dept_id" (rq_args rq));
       mret (ok200 items))
      (λ e, mret (RErr (exn_str e) 500 "internal_error"))).

(** [approve_share_request] and [reject_share_request] *)
Definition route_review (approved : bool) (rq : Request) (rid : string)
    : M (Reply RequestView) :=
  let action := if approved then "kb.share.approve" else "kb.share.reject" in
  with_options rq (with_auth rq (λ auth,
    req_id ← request_id rq;
    review_comment ← body_str "review_comment" "" (payload_of rq);
    try_except
      (data ← review_share_request auth rid approved review_comment;
       audit req_id action "success" auth None (Some "kb") (Some (r_kb_id (rv_row data))) None
         None None ;;
       mret (ok200 data))
      (audited_error req_id action auth None None None None 400 "bad_request"))).

Definition route_dismiss (rq : Request) (rid : string) : M (Reply bool) :=
  with_options rq (with_auth rq (λ auth,
    req_id ← request_id rq;
    try_except
      (req ← get_kb_share_request rid;
       match req with
       | None => mret (RErr "share request not found" 404 "not_found")
       | Some req =>
           let user_id := opt_or (tok_get "sub" auth) "" in
           is_mp ← is_dept_admin user_id "dept_mp";
           is_owner ← is_dept_admin user_id (normalize_dept_id (rv_owner_dept_id req));
           if negb is_mp && negb is_owner then mret (RErr "forbidden" 403 "forbidden")
           else
             ok ← delete_kb_share_request rid;
             if negb ok then mret (RErr "share request not found" 404 "not_found")
             else
               audit req_id "kb.share.dismiss" "success" auth None (Some "kb")
                 (Some (r_kb_id (rv_row req))) None None None ;;
               mret (ok200 true)
       end)
      (λ e,
        audit req_id "kb.share.dismiss" "error" auth None None None None
          (Some "internal_error") (Some (exn_str e)) ;;
        mret (RErr (exn_str e) 500 "internal_error")))).

Definition route_unshare (rq : Request) (kb_id : string) : M (Reply (option PolicyRow)) :=
  kb_route rq "kb.unshare" kb_id "bad_request" 400 (λ auth, unshare_kb auth kb_id).

Definition route_delete_private (rq : Request) (kb_id : string) : M (Reply bool) :=
  kb_route rq "kb.delete.private" kb_id "not_found" 404
    (λ auth, delete_private_kb cfg auth kb_id).

Definition route_delete_kbs (rq : Request) : M (Reply (list string * list Cleanup)) :=
  with_options rq (with_auth rq (λ auth,
    req_id ← request_id rq;
    ids ← body_strs "kb_ids" (payload_of rq);
    let kb_ids := non_blank ids in
    if decide (kb_ids = []) then mret (bad_request "kb_ids are required")
    else
      try_except
        (data ← delete_kbs cfg auth kb_ids;
         audit req_id "kb.delete.batch" "success" auth None (Some "kb") None None None None ;;
         mret (ok200 data))
        (audited_error req_id "kb.delete.batch" auth None (Some "kb") None None 404
           "not_found"))).

(** ** Administration *)

(** [max(1, int(request.args.get("page") or "1"))] *)
Definition page_arg (k d : string) (rq : Request) : M Z :=
  match py_int (arg k d (rq_args rq)) with
  | Some z => mret (Z.max 1 z)
  | None => raise (ValueError "invalid literal for int() with base 10")
  end.

Definition route_list_policies (rq : Request) : M (Reply (list PolicyRow)) :=
  with_auth rq (λ auth, with_admin auth (
    let resource_type := py_lower (py_strip (arg "resource_type" "agent" (rq_args rq))) in
    if decide (resource_type ∉ ["agent"; "kb"]) then
      mret (bad_request "resource_type must be agent or kb")
    else
      page ← page_arg "page" "1" rq;
      page_size ← page_arg "page_size" "50" rq;
      items ← list_policies (Some resource_type) (arg_opt "owner_dept_id" (rq_args rq))
        (arg_opt "visibility" (rq_args rq)) (arg_opt "category" (rq_args rq))
        page (Z.min 200 page_size);
      mret (ok200 items))).

Definition route_upsert_policy (rq : Request) (resource_type resource_id : string)
    : M (Reply (option PolicyRow)) :=
  with_options rq (with_auth rq (λ auth, with_admin auth (
    let resource_type := py_lower (py_strip resource_type) in
    if decide (resource_type ∉ ["agent"; "kb"]) then
      mret (bad_request "resource_type must be agent or kb")
    else
      let payload := payload_of rq in
      owner_dept_id ← body_str "owner_dept_id" "" payload;
      visibility ← body_str "visibility" "dept" payload;
      let visibility := py_lower visibility in
      category ← body_str "category" "" payload;
      allow_dept_ids ← get_m "allow_dept_ids" payload;
      deny_dept_ids ← get_m "deny_dept_ids" payload;
      allow_roles ← get_m "allow_roles" payload;
      if decide (owner_dept_id = "") then mret (bad_request "owner_dept_id is required")
      else if decide (visibility ∉ ["public"; "dept"]) then
        mret (bad_request "visibility must be public or dept")
      else
        allow ← iter_strs allow_dept_ids;
        deny ← iter_strs deny_dept_ids;
        roles ← iter_strs allow_roles;
        upsert_policy resource_type resource_id owner_dept_id visibility
          (py_or (tok_user auth) "system") None allow deny roles category ;;
        row ← get_policy resource_type resource_id;
        mret (ok200 row)))).

(** The two bootstrap routes *)
Definition bootstrap_route (action rtype : string) (op : string → M (nat * nat)) (rq : Request)
    : M (Reply (nat * nat)) :=
  with_options rq (with_auth rq (λ auth, with_admin auth (
    req_id ← request_id rq;
    data ← op (py_or (tok_user auth) "system");
    audit req_id action "success" auth (tok_get "default_dept_id" auth) (Some rtype) (Some "*")
      None None None ;;
    mret (ok200 data)))).

Definition route_bootstrap_kbs : Request → M (Reply (nat * nat)) :=
  bootstrap_route "kb.bootstrap.public_a" "kb" (bootstrap_kbs_to_mp_public_a cfg).
Definition route_bootstrap_agents : Request → M (Reply (nat * nat)) :=
  bootstrap_route "agent.bootstrap.policies" "agent" (bootstrap_agents_to_dept_or_public cfg).

(** ** Recall dashboard *)

(** The mask of [share_kb_to_depts]: an integer of the body (a boolean is
    one), or the word of its [permission] *)
Definition share_mask (body : json) : M Z :=
  mask ← get_m "permission_mask" body;
  match mask with
  | JInt z => mret z
  | JBool b => mret (if b then 1 else 0)
  | _ =>
      p ← body_or "permission" "read" body;
      let perm_str := py_lower (py_strip (str_of_json p)) in
      mret (if decide (perm_str = "write") then 7
            else if decide (perm_str = "share") then 5 else 4)
  end.

Definition route_share_to_depts (rq : Request) (kb_id : string)
    : M (Reply (option PolicyRow)) :=
  with_options rq (with_auth rq (λ auth,
    req_id ← request_id rq;
    let body := payload_of rq in
    dept_ids ← get_m "dept_ids" body;
    permission_mask ← share_mask body;
    if negb (json_truthy dept_ids) then mret (bad_request "dept_ids is required")
    else
      try_except
        (dept_ids ← iter_strs dept_ids;
         data ← share_kb_to_depts auth kb_id dept_ids permission_mask;
         audit req_id "kb.share_to_depts" "success" auth (tok_get "default_dept_id" auth)
           (Some "kb") (Some kb_id) None None None ;;
         mret (ok200 data))
        plain_error)).

Definition route_my_shares (rq : Request) : M (Reply (list DeptShare * list UserShare)) :=
  with_auth rq (λ auth,
    try_except (data ← list_all_shares auth; mret (ok200 data))
      (λ e, match e with
       | PermissionError m => mret (RErr m 403 "forbidden")
       | _ => raise e
       end)).

Definition route_parse_status (rq : Request) : M (Reply ParseStatus) :=
  with_auth rq (λ auth,
    let kb_id := py_strip (arg "kb_id" "" (rq_args rq)) in
    let doc_ids_str := py_strip (arg "doc_ids" "" (rq_args rq)) in
    if decide (kb_id = "" ∨ doc_ids_str = "") then
      mret (bad_request "kb_id and doc_ids are required")
    else
      let doc_ids := filter (λ d, d ≠ "") (py_strip <$> py_split ","%char doc_ids_str) in
      if decide (doc_ids = []) then mret (bad_request "doc_ids is empty")
      else
        try_except (data ← get_parse_status cfg auth kb_id doc_ids; mret (ok200 data))
          plain_error).

Definition route_revoke_selective (rq : Request) (kb_id : string) : M (Reply unit) :=
  with_options rq (with_auth rq (λ auth,
    req_id ← request_id rq;
    let body := payload_of rq in
    revoke_type ← body_str "revoke_type" "" body;
    target ← body_or "target_id" "" body;
    let target_id := py_strip (str_of_json target) in
    if decide (revoke_type = "" ∨ target_id = "") then
      mret (bad_request "revoke_type and target_id are required")
    else
      try_except
        (data ← selective_revoke auth kb_id revoke_type target_id;
         audit req_id "kb.revoke_selective" "success" auth (tok_get "default_dept_id" auth)
           (Some "kb") (Some kb_id) None None None ;;
         mret (ok200 data))
        plain_error)).

Definition route_audit_logs (rq : Request) : M (Reply (list AuditRow)) :=
  with_auth rq (λ auth,
    let req_dept_id := arg_opt "dept_id" (rq_args rq) in
    page ← page_arg "page" "1" rq;
    page_size ← page_arg "page_size" "50" rq;
    admin ← payload_is_admin auth;
    let forbidden := match req_dept_id with
                     | Some d => bool_decide (d ∉ tok_dept_ids auth)
                     | None => false
                     end in
    if negb admin && forbidden then mret (RErr "dept not allowed" 403 "forbidden")
    else
      let dept_id := if (admin : bool) then req_dept_id
                     else match req_dept_id with
                          | Some d => Some d
                          | None => tok_get "default_dept_id" auth
                          end in
      items ← list_audit_logs dept_id (arg_opt "user_id" (rq_args rq))
        (arg_opt "action" (rq_args rq)) (arg_opt "status" (rq_args rq))
        page (Z.min 200 page_size);
      mret (ok200 items)).
End routes.
