(* ===== verification/Demo.v ===== *)
(** A small concrete portal on which the theorems are applied: an environment whose
    RAGFlow server answers with fixed data, a cheap stand-in for the cryptography,
    and a database with three users, two knowledge bases and a share. *)
From S2P Require Import Prelude PyText Json Dsl Digest Schema Effects Steps StoreUsers StorePolicy.
From S2P Require Import StoreSessions StoreRequests StoreStep StoreInv GatewayToken.

Local Open Scope Z_scope.

Definition demo_session : RagSession := {| rs_key := "key"; rs_agent_id := "agent1"; rs_id := "s1" |}.
Definition demo_agent : Agent := {|
  ag_id := "agent1"; ag_title := "MP helper"; ag_description := None;
  ag_dsl := Some (PBase [("kb_ids", PList [PStr "kb2"])]) |}.
Definition demo_chunk (sim : string) : Chunk := {|
  ck_content := Some "text"; ck_document_name := Some "doc"; ck_similarity := Some sim; ck_id := sim |}.
Definition demo_doc : Doc := {|
  doc_run := Some "3"; doc_progress := None; doc_name := Some "doc"; doc_progress_msg := None |}.

(** The clock stands at 1000, identifiers count the ticks. *)
#[export] Instance demo_env : Env := {|
  env_now n := "t" +:+ str_of_Z (Z.of_nat n);
  env_time _ := 1000;
  env_uuid n := str_of_Z (Z.of_nat n);
  env_salt n := "5a17";
  env_answer_agents _ _ _ _ _ := Ok [demo_agent];
  env_answer_create_session _ _ _ _ := Ok demo_session;
  env_answer_sessions _ _ _ _ _ := Ok [demo_session];
  env_answer_datasets _ _ _ := Ok [{| ds_id := "kb1"; ds_name := "one"; ds_description := None |}];
  env_answer_create_dataset _ _ _ _ := Ok {| ds_id := "kb9"; ds_name := "new"; ds_description := None |};
  env_answer_upload _ _ _ names := Ok names;
  env_answer_parse _ _ _ _ := Ok ();
  env_answer_documents _ _ _ _ := Ok [demo_doc];
  env_answer_delete _ _ _ := Ok ();
  env_answer_retrieve _ _ _ _ _ := Ok [demo_chunk "0.25"; demo_chunk "0.75"];
  env_answer_ask _ _ _ _ := Ok [{| an_content := Some "hi"; an_reference := None |}];
  env_answer_chat _ _ _ _ :=
    Ok {| hr_status := 200; hr_text := ""; hr_auth := "";
          hr_json := Some (JObj [("choices", JArr [JObj [("text", JStr "answer")]])]) |};
  env_answer_http _ _ _ _ _ :=
    Ok {| hr_status := 200; hr_text := ""; hr_auth := ""; hr_json := Some (JObj []) |};
  env_rsa _ b := Some b;
  env_system_prompt := None;
  env_azure_version := "2024-12-01-preview" |}.

#[export] Instance demo_crypto : Crypto := {|
  crypto_hmac key msg := key ++ take 8 msg;
  crypto_pbkdf2 p s _ := p ++ s;
  crypto_sha256 b := b |}.

Definition demo_cfg : PortalConfig := {|
  api_key := "admin-key"; base_url := "http://ragflow"; db_path := "db"; auth_secret := "secret";
  direct_chat_url := "http://llm"; direct_chat_api_key := "k"; direct_chat_model := "m";
  token_ttl_seconds := 28800 |}.

Definition demo_user (uid login : string) : UserRow := {|
  u_user_id := uid; u_login_id := login; u_password_hash := make_password_hash "secret" "5a17";
  u_display_name := login; u_email := None; u_is_active := true; u_created_at := "t0";
  u_updated_at := "t0"; u_ragflow_user_id := None; u_ragflow_token := Some (login +:+ "-token") |}.

Definition demo_policy (pid kb vis owner : string) : PolicyRow := {|
  p_policy_id := pid; p_resource_type := "kb"; p_resource_id := kb; p_owner_dept_id := "dept_mp_q";
  p_owner_user_id := Some owner; p_visibility := vis; p_allow_roles_json := "[]";
  p_allow_dept_ids_json := "[]"; p_deny_dept_ids_json := "[]"; p_is_active := true;
  p_created_by := None; p_created_at := "t0"; p_updated_at := "t0"; p_category := "D" |}.

Definition demo_share (id : Z) (kb target : string) (mask : Z) : ShareRow := {|
  k_id := id; k_kb_id := kb; k_target_user_id := target; k_permission_mask := mask;
  k_shared_by := "u_a"; k_approved_by := Some ""; k_parent_share_id := None;
  k_status := "approved"; k_created_at := "t0"; k_updated_at := "t0" |}.

Definition demo_request (rid : string) (perm : Z) : RequestRow := {|
  r_request_id := rid; r_kb_id := "kb2"; r_owner_dept_id := "dept_mp_q";
  r_requester_user_id := "u_b"; r_target_scope := "user"; r_target_dept_ids_json := "[]";
  r_target_user_id := Some "u_c"; r_reason := ""; r_status := "pending";
  r_reviewer_user_id := None; r_review_comment := None; r_created_at := "t0";
  r_updated_at := "t0"; r_requested_permission := perm; r_parent_share_id := Some 1 |}.

Definition demo_portal_session (sid uid : string) (private : bool) : SessionRow := {|
  s_session_id := sid; s_user_id := uid; s_dept_id := "dept_mp_q"; s_agent_id := "direct";
  s_kb_ids_json := json_dumps_strs ["kb2"]; s_is_private := private; s_kb_overridden := false;
  s_created_at := "t0"; s_updated_at := "t0"; s_is_active := true |}.

(** [u_a] owns the private [kb1] and the departmental [kb2]; [u_b] may read and
    re-share [kb2]; [u_c] administrates the headquarters. *)
Definition demo_db : Db := {|
  t_users := [demo_user "u_a" "Alice"; demo_user "u_b" "Bob"; demo_user "u_c" "Carol"];
  t_departments := [{| d_dept_id := "dept_mp_q"; d_dept_code := "MP-Q"; d_dept_name := "Q";
                       d_parent_dept_id := None; d_is_public := false; d_is_active := true;
                       d_created_at := "t0"; d_updated_at := "t0" |}];
  t_user_departments := [user_dept "u_a" "dept_mp_q" "member" true "t0";
                         user_dept "u_b" "dept_mp_q" "member" true "t0";
                         user_dept "u_c" "dept_mp" "admin" true "t0"];
  t_policies := [demo_policy "p1" "kb1" "private" "u_a"; demo_policy "p2" "kb2" "dept" "u_a"];
  t_audit := []; t_sessions := [demo_portal_session "s1" "u_a" false];
  t_messages := []; t_requests := [demo_request "r1" 7];
  t_shares := [demo_share 1 "kb2" "u_b" 5]; t_share_seq := 1 |}.

Definition demo_world : World :=
  {| w_db := demo_db; w_registry := ∅; w_tick := 0; w_calls := [] |}.

Definition demo_payload (uid : string) (depts : list string) : json :=
  JObj [("sub", JStr uid); ("login_id", JStr uid); ("display_name", JStr uid);
        ("dept_ids", json_strs depts); ("default_dept_id", JStr (default "" (head depts)));
        ("iat", JInt 900); ("exp", JInt 2000)].

Lemma demo_list_col l : list_col (json_dumps_strs l).
Proof. by exists l. Defined.

Lemma demo_wf : store_wf demo_db.
Proof.
  assert (list_col "[]") as Hnil by apply (demo_list_col []).
  split; try (refine (bool_decide_unpack _ _); vm_compute; exact I).
  - repeat constructor; exact Hnil.
  - repeat constructor. apply demo_list_col.
  - constructor; [|constructor]. split; [by left|exact Hnil].
Defined.
