(* ===== verification/AccessProps.v ===== *)
(** Theorems on access control: the permission [effective_kb_permission] computes
    is the one an abstract specification grants. *)
From S2P Require Import Prelude PyText Json Digest Schema Effects Steps StoreUsers StorePolicy.
From S2P Require Import StoreSessions StoreRequests StoreStep StoreInv Demo.

Local Open Scope Z_scope.

(** ** Masks *)

Lemma land_lor_zero a b p :
  (Z.land (Z.lor a b) p =? 0) = ((Z.land a p =? 0) && (Z.land b p =? 0)).
Proof.
  rewrite Z.land_lor_distr_l. apply eq_true_iff_eq.
  rewrite andb_true_iff, !Z.eqb_eq. apply Z.lor_eq_0_iff.
Qed.

Lemma has_read_lor a b : has_read (Z.lor a b) = has_read a || has_read b.
Proof. unfold has_read. by rewrite land_lor_zero, negb_andb. Qed.
Lemma has_write_lor a b : has_write (Z.lor a b) = has_write a || has_write b.
Proof. unfold has_write. by rewrite land_lor_zero, negb_andb. Qed.
Lemma has_share_lor a b : has_share (Z.lor a b) = has_share a || has_share b.
Proof. unfold has_share. by rewrite land_lor_zero, negb_andb. Qed.

(** ** List columns *)

Lemma loads_col_dumps l : loads_col (json_dumps_strs l) = Ok l.
Proof.
  unfold loads_col, py_or. rewrite decide_False.
  - by rewrite json_loads_dumps_strs.
  - intros Hl. pose proof (json_loads_dumps_strs l) as H. by rewrite Hl in H.
Qed.

Lemma list_col_loads col : list_col col → ∃ l, loads_col col = Ok l.
Proof. intros [l ->]. exists l. apply loads_col_dumps. Qed.

(** ** The abstract specification *)

(** Who sees a resource: the selected department is one of the user's, and a
    private resource is shown to its owner alone; any other is hidden from the
    departments of the deny list, and shown to those of the allow list, to
    everybody when public, and to the owning department. *)
Definition visible (p : PolicyRow) (allow deny : list string) (depts : gset string)
    (selected user : string) : Prop :=
  let sel := normalize_dept_id selected in
  let vis := py_lower (py_or (p_visibility p) "dept") in
  sel ∈ norm_set (elements depts) ∧
  (vis = "private" ∧ user ≠ "" ∧ p_owner_user_id p = Some user ∨
   vis ≠ "private" ∧ sel ∉ norm_set deny ∧
   (sel ∈ norm_set allow ∨ vis = "public" ∨ normalize_dept_id (p_owner_dept_id p) = sel)).

#[export] Instance visible_dec p allow deny depts selected user :
  Decision (visible p allow deny depts selected user).
Proof. unfold visible. apply _. Defined.

Lemma can_access_visible depts selected p user allow deny :
  loads_col (p_allow_dept_ids_json p) = Ok allow →
  loads_col (p_deny_dept_ids_json p) = Ok deny →
  can_access_resource depts selected (Some p) (Some user) =
  Ok (bool_decide (visible p allow deny depts selected user)).
Proof.
  intros Ha Hd. unfold can_access_resource, visible. rewrite Ha, Hd.
  destruct (decide (normalize_dept_id selected ∉ norm_set (elements depts))) as [Hn|Hn].
  { rewrite bool_decide_false by tauto. done. }
  apply dec_stable in Hn.
  repeat case_decide; f_equal; symmetry;
    first [apply bool_decide_eq_true; tauto | apply bool_decide_eq_false; tauto | idtac].
  all: apply eq_true_iff_eq; rewrite ?andb_true_iff, ?bool_decide_eq_true; simpl; unfold truthy;
    rewrite ?bool_decide_eq_true; tauto.
Qed.

(** [can_access_resource] decides the visibility rules exactly: the selected
    department must be one of the user's, only the owner sees a private resource,
    and for the others the deny list wins over the allow list, the public flag and
    the ownership of the department. *)
Theorem can_access_resource_spec depts selected p user allow deny :
  loads_col (p_allow_dept_ids_json p) = Ok allow →
  loads_col (p_deny_dept_ids_json p) = Ok deny →
  ∃ b, can_access_resource depts selected (Some p) (Some user) = Ok b ∧
       (b = true ↔ visible p allow deny depts selected user).
Proof.
  intros Ha Hd. eexists. split; [by apply can_access_visible|]. apply bool_decide_eq_true.
Qed.

Lemma can_access_resource_spec_witness :
  ∃ b, can_access_resource {["dept_q"]} "dept_mp_q"
         (Some (demo_policy "p2" "kb2" "dept" "u_a")) (Some "u_b") = Ok b ∧
       (b = true ↔ visible (demo_policy "p2" "kb2" "dept" "u_a") [] [] {["dept_q"]}
                     "dept_mp_q" "u_b").
Proof. apply (can_access_resource_spec _ _ _ _ [] []); reflexivity. Defined.

(** ** Effective permissions *)

Definition owns_kb (d : Db) (kb user : string) : Prop :=
  ∃ p, policy_of "kb" kb d = Some p ∧ p_owner_user_id p = Some user.

Definition sees_kb (d : Db) (kb user : string) (depts : gset string) (selected : string) : Prop :=
  ∃ p allow deny, policy_of "kb" kb d = Some p ∧
    loads_col (p_allow_dept_ids_json p) = Ok allow ∧
    loads_col (p_deny_dept_ids_json p) = Ok deny ∧
    visible p allow deny depts selected user.

(** The permission the specification grants as a mask *)
Definition grants (d : Db) (kb user : string) (depts : gset string) (selected : string)
    (mask : Z) : Prop :=
  let share := kb_permission_of d kb user in
  (has_read mask = true ↔ owns_kb d kb user ∨ sees_kb d kb user depts selected ∨ share ≠ 0) ∧
  (has_write mask = true ↔ owns_kb d kb user ∨ has_write share = true) ∧
  (has_share mask = true ↔ owns_kb d kb user ∨ has_share share = true).

(** The mask the code builds from the visibility and the share *)
Lemma combined_mask (v : bool) share :
  let mask := Z.lor (if v then PERM_READ else 0) share in
  let mask := if negb (mask =? 0) && (Z.land mask PERM_READ =? 0) then Z.lor mask PERM_READ
              else mask in
  (has_read mask = true ↔ v = true ∨ share ≠ 0) ∧ has_write mask = has_write share ∧
  has_share mask = has_share share.
Proof.
  assert (has_read PERM_READ = true ∧ has_write PERM_READ = false ∧ has_share PERM_READ = false)
    as (HR & HW & HS) by done.
  destruct v; cbv zeta.
  - assert ((Z.land (Z.lor PERM_READ share) PERM_READ =? 0) = false) as ->.
    { rewrite land_lor_zero. done. }
    rewrite andb_false_r. rewrite has_read_lor, has_write_lor, has_share_lor, HR, HW, HS. tauto.
  - rewrite Z.lor_0_l. destruct (Z.eqb_spec share 0) as [->|Hs]; [split_and!; [naive_solver|done|done]|].
    cbn [negb andb].
    destruct (Z.land share PERM_READ =? 0) eqn:E.
    + rewrite has_read_lor, has_write_lor, has_share_lor, HR, HW, HS, !orb_false_r, orb_true_r. tauto.
    + unfold has_read at 1. rewrite E. simpl. tauto.
Qed.

Lemma policy_of_elem rt rid d p :
  policy_of rt rid d = Some p →
  p ∈ t_policies d ∧ p_resource_type p = rt ∧ p_resource_id p = rid ∧ p_is_active p = true.
Proof. intros Hp. by apply fetchone_Some in Hp as (? & ? & ? & ?). Qed.

(** The columns of an active policy of a well-formed store parse. *)
Lemma policy_cols_loads d rt rid p :
  store_wf d → policy_of rt rid d = Some p →
  ∃ allow deny, loads_col (p_allow_dept_ids_json p) = Ok allow ∧
                loads_col (p_deny_dept_ids_json p) = Ok deny.
Proof.
  intros Hwf Hp. apply policy_of_elem in Hp as (Hp & _).
  pose proof (wf_policy_cols d Hwf) as Hc. rewrite Forall_forall in Hc.
  destruct (Hc p Hp) as (Ha & Hd & _).
  apply list_col_loads in Ha as [? ?], Hd as [? ?]. eauto.
Qed.

Lemma owns_kb_iff d kb user :
  user ≠ "" → owns_kb d kb user ↔
  opt_or (policy_of "kb" kb d ≫= p_owner_user_id) "" = user.
Proof.
  intros Hu. unfold owns_kb. split.
  - intros (p & -> & Ho). simpl. rewrite Ho. simpl. unfold py_or. by case_decide.
  - destruct (policy_of "kb" kb d) as [p|]; simpl; [|congruence].
    destruct (p_owner_user_id p) as [o|] eqn:E; simpl; [|congruence].
    unfold py_or. case_decide; [congruence|]. intros <-. eauto.
Qed.

Section run.
Context `{Env}.

Lemma effective_kb_permission_run depts selected kb user w :
  store_wf (w_db w) → py_strip kb ≠ "" → py_strip user ≠ "" →
  ∃ mask, effective_kb_permission depts selected kb user None w = (Ok mask, w) ∧
          grants (w_db w) (py_strip kb) (py_strip user) depts selected mask.
Proof.
  intros Hwf Hkb Hu. unfold effective_kb_permission. rewrite decide_False by tauto.
  set (kb' := py_strip kb) in *. set (user' := py_strip user) in *. set (d := w_db w) in *.
  unfold get_policy, get_kb_permission, lift_res, mbind, M_bind, with_conn, sql_query.
  fold d. cbv beta iota.
  pose proof (owns_kb_iff d kb' user' Hu) as Hown.
  destruct (decide (_ ∧ _)) as [[_ Heq]|Hno].
  { eexists. split; [reflexivity|]. apply Hown in Heq. split_and!; tauto. }
  assert (¬ owns_kb d kb' user') as Hnown.
  { rewrite Hown. intros Heq. apply Hno. split; [|exact Heq].
    intros E. apply Hu. rewrite <-Heq. exact E. }
  assert (∃ v, can_access_resource depts selected (policy_of "kb" kb' d) (Some user') = Ok v ∧
               (v = true ↔ sees_kb d kb' user' depts selected)) as (v & -> & Hv).
  { destruct (policy_of "kb" kb' d) as [p|] eqn:Hp.
    - destruct (policy_cols_loads d "kb" kb' p Hwf Hp) as (allow & deny & Ha & Hd).
      eexists. split; [by apply can_access_visible|]. rewrite bool_decide_eq_true.
      split; [intros ?; by exists p, allow, deny|].
      intros (p' & a' & d' & Hp' & Ha' & Hd' & Hvis). congruence.
    - exists false. split; [done|]. split; [done|]. intros (p & ? & ? & Hp' & _). congruence. }
  eexists. split; [reflexivity|].
  destruct (combined_mask v (kb_permission_of d kb' user')) as (HR & HW & HS).
  unfold grants. fold d. rewrite HR, HW, HS, Hv. tauto.
Qed.
End run.

(** C2. Refinement: on a well-formed store [effective_kb_permission] never fails and
    computes exactly the specified grant: reading for the owner, for whoever the
    policy shows the knowledge base to and for the target of a share; writing and
    re-sharing for the owner and for the targets of shares with that bit. *)
Theorem effective_kb_permission_refines `{Env} depts selected kb user w :
  store_wf (w_db w) → py_strip kb ≠ "" → py_strip user ≠ "" →
  ∃ mask, effective_kb_permission depts selected kb user None w = (Ok mask, w) ∧
          grants (w_db w) (py_strip kb) (py_strip user) depts selected mask.
Proof. apply effective_kb_permission_run. Qed.

(** C3. Isolation: nobody but its owner has any permission on a private knowledge
    base without an approved share on it, whatever the allow list says and
    whichever department is selected. *)
Theorem private_kb_isolated `{Env} depts selected kb user w p :
  store_wf (w_db w) → py_strip kb ≠ "" → py_strip user ≠ "" →
  policy_of "kb" (py_strip kb) (w_db w) = Some p →
  py_lower (p_visibility p) = "private" → p_owner_user_id p ≠ Some (py_strip user) →
  approved_share (w_db w) (py_strip kb) (py_strip user) = None →
  ∃ mask, effective_kb_permission depts selected kb user None w = (Ok mask, w) ∧
          has_read mask = false ∧ has_write mask = false ∧ has_share mask = false.
Proof.
  intros Hwf Hkb Hu Hp Hvis Hown Hshare.
  destruct (effective_kb_permission_run depts selected kb user w Hwf Hkb Hu)
    as (mask & Hrun & HR & HW & HS).
  exists mask. split; [done|].
  assert (kb_permission_of (w_db w) (py_strip kb) (py_strip user) = 0) as Hz
    by (unfold kb_permission_of; by rewrite Hshare).
  assert (¬ owns_kb (w_db w) (py_strip kb) (py_strip user)) as Hno
    by (intros (p' & Hp' & ?); congruence).
  assert (¬ sees_kb (w_db w) (py_strip kb) (py_strip user) depts selected) as Hns.
  { intros (p' & allow & deny & Hp' & _ & _ & Hv). rewrite Hp in Hp'. injection Hp' as <-.
    destruct Hv as [_ Hv]. unfold py_or in Hv. destruct (decide (p_visibility p = "")) as [E|E].
    - by rewrite E in Hvis.
    - tauto. }
  rewrite Hz in *. split_and!; apply not_true_is_false; rewrite ?HR, ?HW, ?HS; simpl;
    intros [?|?]; [tauto| | tauto | done | tauto | done]. tauto.
Qed.

Lemma effective_kb_permission_refines_witness :
  ∃ mask, effective_kb_permission {["dept_mp_q"]} "dept_mp_q" "kb2" "u_b" None demo_world =
            (Ok mask, demo_world) ∧
          grants demo_db "kb2" "u_b" {["dept_mp_q"]} "dept_mp_q" mask.
Proof.
  apply (effective_kb_permission_refines {["dept_mp_q"]} "dept_mp_q" "kb2" "u_b" demo_world);
    [apply demo_wf|done|done].
Defined.

Lemma private_kb_isolated_witness :
  ∃ mask, effective_kb_permission {["dept_mp_q"]} "dept_mp_q" "kb1" "u_b" None demo_world =
            (Ok mask, demo_world) ∧
          has_read mask = false ∧ has_write mask = false ∧ has_share mask = false.
Proof.
  apply (private_kb_isolated {["dept_mp_q"]} "dept_mp_q" "kb1" "u_b" demo_world
           (demo_policy "p1" "kb1" "private" "u_a")); try done. apply demo_wf.
Defined.

(** An id without surrounding blanks *)
Definition clean_id (s : string) : Prop := s ≠ "" ∧ py_strip s = s.

(** Nobody has a permission on a knowledge base without a policy and a share. *)
Lemma effective_none `{Env} depts selected kb user w :
  policy_of "kb" (py_strip kb) (w_db w) = None →
  approved_share (w_db w) (py_strip kb) (py_strip user) = None →
  effective_kb_permission depts selected kb user None w = (Ok 0, w).
Proof.
  intros Hp Hs. unfold effective_kb_permission. case_decide; [done|].
  unfold get_policy, with_conn, sql_query, mbind, M_bind, lift_res. rewrite Hp. simpl.
  unfold kb_permission_of. by rewrite Hs.
Qed.

Lemma effective_world `{Env} depts selected kb user p w :
  (effective_kb_permission depts selected kb user p w).2 = w.
Proof.
  unfold effective_kb_permission. case_decide; [done|].
  unfold get_policy, get_kb_permission, with_conn, sql_query, mbind, M_bind, lift_res, mret, M_ret.
  destruct p as [p|]; cbn -[can_access_resource]; (case_decide; [done|]);
    by destruct (can_access_resource _ _ _ _).
Qed.

(** The write bit comes from ownership or from a share. *)
Lemma effective_write_inv `{Env} depts selected kb user p w mask w' :
  effective_kb_permission depts selected kb user (Some p) w = (Ok mask, w') →
  w' = w ∧ (has_write mask = true →
    opt_or (p_owner_user_id p) "" = py_strip user ∨
    has_write (kb_permission_of (w_db w) (py_strip kb) (py_strip user)) = true).
Proof.
  unfold effective_kb_permission. case_decide; [by intros [= <- <-]|].
  unfold get_kb_permission, with_conn, sql_query, mbind, M_bind, lift_res, mret, M_ret.
  cbn -[has_write can_access_resource kb_permission_of]. case_decide as Ho; [intros [= <- <-]; split; [done|]; intros _; left; tauto|].
  destruct (can_access_resource depts selected (Some p) _) as [v|]; [|done].
  intros [= <- <-]. split; [done|].
  destruct (combined_mask v (kb_permission_of (w_db w) (py_strip kb) (py_strip user)))
    as (_ & HW & _). cbv zeta in HW. rewrite HW. tauto.
Qed.

(** What the two specified masks are on the demo data *)
Example demo_masks :
  (effective_kb_permission {["dept_mp_q"]} "dept_mp_q" "kb2" "u_b" None demo_world).1 = Ok 5 ∧
  (effective_kb_permission {["dept_mp_q"]} "dept_mp_q" "kb1" "u_a" None demo_world).1 = Ok 7 ∧
  (effective_kb_permission {["dept_mp"]} "dept_mp" "kb2" "u_c" None demo_world).1 = Ok 0.
Proof. by vm_compute. Qed.
