(* ===== verification/TokenProps.v ===== *)
(** Theorems on passwords, tokens and login. *)
From S2P Require Import Prelude PyText Json Digest Base64 Schema Effects Steps StoreUsers.
From S2P Require Import StoreStep StoreInv GatewayToken Demo.

Local Open Scope Z_scope.

(** ** Base64 without padding *)

Lemma py_len_ascii b :
  forallb (λ c, (N_of_ascii c <? 128)%N) b = true → py_len (of_bytes b) = length b.
Proof.
  induction b as [|c b IH]; [done|]. cbn [forallb]. rewrite andb_true_iff. intros [Hc Hb].
  change (of_bytes (c :: b)) with (String c (of_bytes b)). cbn [py_len length].
  assert (is_cont c = false) as ->; [|by rewrite IH].
  apply N.ltb_lt in Hc. unfold is_cont. apply andb_false_iff. left. apply N.leb_gt. done.
Qed.

Lemma pad_count n : Z.to_nat ((- Z.of_nat n) mod 4) = ((4 - n mod 4) mod 4)%nat.
Proof.
  rewrite (Nat.div_mod_eq n 4) at 1. pose proof (Nat.mod_upper_bound n 4).
  assert (n mod 4 = 0 ∨ n mod 4 = 1 ∨ n mod 4 = 2 ∨ n mod 4 = 3)%nat as Hc by lia.
  replace ((- Z.of_nat (4 * (n / 4) + n mod 4)) mod 4)
    with ((- Z.of_nat (n mod 4)) mod 4).
  - destruct Hc as [->|[->|[->| ->]]]; reflexivity.
  - replace (- Z.of_nat (4 * (n / 4) + n mod 4))
      with (- Z.of_nat (n mod 4) + - Z.of_nat (n / 4) * 4) by lia.
    by rewrite Z.mod_add.
Qed.

Lemma b64url_decode_encode b : b64url_decode (b64url_encode b) = Some b.
Proof.
  unfold b64url_decode, b64url_encode. rewrite rstrip_b64encode.
  rewrite py_len_ascii by (rewrite <-(app_nil_r (map _ _)); apply (b64_text_ascii _ 0)).
  rewrite length_map, pad_count.
  assert (∀ x y, of_bytes x +:+ of_bytes y = of_bytes (x ++ y)) as Happ.
  { intros x y. apply to_bytes_inj. by rewrite to_bytes_app, !to_of_bytes. }
  rewrite Happ. pose proof (urlsafe_b64_roundtrip_padded b) as Hb.
  unfold urlsafe_b64encode in Hb. by rewrite length_map in Hb.
Qed.

Lemma b64url_encode_no_dot b : "."%char ∉ to_bytes (b64url_encode b).
Proof.
  unfold b64url_encode. rewrite rstrip_b64encode, to_of_bytes. intros Hin.
  apply list_elem_of_In, in_map_iff in Hin as (s & Hs & _).
  destruct (sextet_char_not_dot s) as [Hn _]. by apply Hn.
Qed.

(** ** Opening a token *)

Lemma json_int_sort j : json_int (json_sort_keys j) = json_int j.
Proof. by destruct j. Qed.

Lemma dict_get_map {V W} (f : V → W) k (d : list (string * V)) :
  dict_get k (map (λ kv, (kv.1, f kv.2)) d) = f <$> dict_get k d.
Proof.
  unfold dict_get, fetchone. induction d as [|[k' v] d IH]; [done|]. cbn [map].
  rewrite !filter_cons. simpl. by destruct (decide (k' = k)).
Qed.

(** A claim of the sorted payload is the (sorted) claim of the payload. *)
Lemma dict_get_sorted kvs k :
  NoDup (fst <$> kvs) →
  json_get k (json_sort_keys (JObj kvs)) = json_sort_keys <$> dict_get k kvs.
Proof.
  intros Hnd. cbn [json_sort_keys json_get]. rewrite <-dict_get_map.
  symmetry. apply dict_get_Permutation; [|by rewrite isort_Permutation].
  change (map ?f ?l) with (f <$> l). by rewrite <-list_fmap_compose.
Qed.

Definition payload_exp (kvs : list (string * json)) : option Z :=
  json_int (default (JInt 0) (dict_get "exp" kvs)).

Section tokens.
Context `{Env} `{Crypto} (cfg : PortalConfig).

Lemma open_create_token kvs e :
  json_ok (JObj kvs) → utf8_valid (to_bytes (json_dumps_compact_sorted (JObj kvs))) = true →
  payload_exp kvs = Some e →
  open_token cfg (create_token cfg (JObj kvs)) = Some (json_sort_keys (JObj kvs), e).
Proof.
  intros Hok Hutf Hexp. unfold open_token, create_token.
  set (body := to_bytes (json_dumps_compact_sorted (JObj kvs))) in *. set (sig := crypto_hmac _ _).
  change ("." +:+ b64url_encode sig) with (String "."%char (b64url_encode sig)).
  rewrite py_split1_app by apply b64url_encode_no_dot. cbn [mbind option_bind].
  rewrite !b64url_decode_encode. cbn [mbind option_bind]. fold sig. rewrite decide_False by congruence.
  unfold utf8_decode. rewrite Hutf. cbn [mbind option_bind]. unfold body. rewrite of_to_bytes.
  rewrite json_loads_dumps_compact by done. cbn [mbind option_bind json_sort_keys].
  pose proof (proj1 (proj1 (json_ok_obj kvs) Hok)) as Hnd.
  pose proof (dict_get_sorted kvs "exp" Hnd) as Hget. cbn [json_sort_keys json_get] in Hget.
  rewrite Hget. unfold payload_exp in Hexp.
  destruct (dict_get "exp" kvs) as [j|]; simpl in *;
    [by rewrite json_int_sort, Hexp|by injection Hexp as <-].
Qed.
End tokens.

(** A token [create_token] signs is accepted by [parse_token] until its expiry
    and refused after it; every claim comes back as it was. *)
Theorem token_roundtrip `{Env} `{Crypto} cfg kvs e w :
  json_ok (JObj kvs) → utf8_valid (to_bytes (json_dumps_compact_sorted (JObj kvs))) = true →
  payload_exp kvs = Some e →
  (parse_token cfg (create_token cfg (JObj kvs)) w).1 =
    Ok (if e <? env_time (w_tick w) then None else Some (json_sort_keys (JObj kvs))) ∧
  ∀ k, json_get k (json_sort_keys (JObj kvs)) = json_sort_keys <$> dict_get k kvs.
Proof.
  intros Hok Hutf Hexp. unfold parse_token. rewrite (open_create_token cfg kvs e) by done.
  split; [done|]. intros k. apply dict_get_sorted. by apply json_ok_obj in Hok as [? _].
Qed.

(** C39. Whatever token [parse_token] accepts carries the HMAC of its body under the
    secret of the portal, decodes to that payload, and has not expired. *)
Theorem token_acceptance_sound `{Env} `{Crypto} cfg token w p w' :
  parse_token cfg token w = (Ok (Some p), w') →
  ∃ body_b64 sig_b64 body exp,
    py_split1 "."%char token = Some (body_b64, sig_b64) ∧
    b64url_decode body_b64 = Some body ∧
    b64url_decode sig_b64 = Some (crypto_hmac (to_bytes (auth_secret cfg)) body) ∧
    json_loads (of_bytes body) = Some p ∧
    json_int (default (JInt 0) (json_get "exp" p)) = Some exp ∧
    env_time (w_tick w) ≤ exp.
Proof.
  unfold parse_token. destruct (open_token cfg token) as [[p' exp]|] eqn:Ho; [|done].
  unfold mbind, M_bind, time_now, mret, M_ret.
  destruct (exp <? env_time (w_tick w)) eqn:Hexp; [by intros [=]|]. intros [= <- <-].
  apply Z.ltb_ge in Hexp. unfold open_token in Ho.
  apply bind_Some in Ho as ([body_b64 sig_b64] & Hsplit & Ho).
  apply bind_Some in Ho as (body & Hbody & Ho).
  apply bind_Some in Ho as (sig & Hsig & Ho).
  destruct (decide _) as [|Heq]; [done|]. apply dec_stable in Heq.
  apply bind_Some in Ho as (text & Htext & Ho). apply bind_Some in Ho as (payload & Hp & Ho).
  unfold utf8_decode in Htext. destruct (utf8_valid body); [|done]. injection Htext as <-.
  destruct payload as [| | | | | |kvs]; try done.
  apply bind_Some in Ho as (e & He & [= <- <-]).
  exists body_b64, sig_b64, body, e. split_and!; try done. by rewrite Hsig, Heq.
Qed.

(** ** Passwords *)

Lemma verify_make `{Crypto} p p' s :
  "$"%char ∉ to_bytes s →
  verify_password p (make_password_hash p' s) = bool_decide (pbkdf2_hex p s = pbkdf2_hex p' s).
Proof.
  intros Hs. unfold verify_password, make_password_hash.
  change ("pbkdf2_sha256$" +:+ s +:+ "$" +:+ pbkdf2_hex p' s)
    with ("pbkdf2_sha256" +:+ String "$" (s +:+ String "$" (pbkdf2_hex p' s))).
  rewrite py_split1_app by (vm_compute; set_solver). by rewrite py_split1_app, decide_True.
Qed.

(** A stored password hash verifies exactly the passwords with the same PBKDF2
    digest under its salt: the password itself, and no other short of a
    collision. *)
Theorem password_roundtrip `{Crypto} password attempt salt :
  "$"%char ∉ to_bytes salt →
  verify_password password (make_password_hash password salt) = true ∧
  (verify_password attempt (make_password_hash password salt) = true ↔
   pbkdf2_hex attempt salt = pbkdf2_hex password salt).
Proof.
  intros Hs. rewrite !verify_make by done. by rewrite bool_decide_eq_true_2, bool_decide_eq_true.
Qed.

(** ** Registration *)

(** The row [register_user] inserts *)
Definition registered_row `{Crypto} (uid login_id password display salt now rid tok : string)
    : UserRow := {|
  u_user_id := uid; u_login_id := login_id; u_password_hash := make_password_hash password salt;
  u_display_name := display; u_email := Some (py_lower login_id +:+ "@portal.local");
  u_is_active := true; u_created_at := now; u_updated_at := now;
  u_ragflow_user_id := Some rid; u_ragflow_token := Some tok |}.

(** The two ways a registration ends: nothing is stored, or a new user is, with a
    login no other differs from by case alone and a membership of an existing
    department. *)
Lemma register_user_run `{Env} `{Crypto} login_id password display dept role rid tok w :
  let run := register_user login_id password display dept role rid tok w in
  (∃ e, run.1 = Err e ∧ w_db run.2 = w_db w) ∨
  ∃ uid n now, let u := registered_row uid login_id password display (env_salt n) now rid tok in
    let r := user_dept uid dept role true now in
    run.1 = Ok {| rg_user_id := uid; rg_login_id := login_id; rg_display_name := display;
                  rg_dept_id := dept; rg_role := role; rg_ragflow_user_id := rid |} ∧
    insert_user u (w_db w) = Ok (on_users (λ t, t ++ [u]) (w_db w)) ∧
    fetchone (λ v, sql_upper (u_login_id v) = sql_upper login_id) (t_users (w_db w)) = None ∧
    is_Some (fetchone (λ x, d_dept_id x = dept) (t_departments (w_db w))) ∧
    w_db run.2 = insert_user_dept r (on_users (λ t, t ++ [u]) (w_db w)).
Proof.
  intros run. subst run.
  destruct (fetchone (λ v, sql_upper (u_login_id v) = sql_upper login_id) (t_users (w_db w)))
    as [v|] eqn:Hnew.
  { left. unfold register_user, with_conn, mbind, M_bind, utc_now, sql_query. simpl.
    rewrite Hnew. eexists. split; reflexivity. }
  set (uid := "u_" +:+ env_uuid (S (w_tick w))).
  set (u := registered_row uid login_id password display (env_salt (S (S (w_tick w))))
              (env_now (w_tick w)) rid tok).
  unfold register_user, with_conn, new_id, make_password_hash_m, mbind, M_bind, utc_now,
    new_uuid, urandom_hex, mret, M_ret, sql_query, sql_try, sql_exec, raise. simpl.
  rewrite Hnew. match goal with |- context [insert_user ?r ?d] =>
    change (insert_user r d) with (insert_user u (w_db w)) end.
  destruct (insert_user u (w_db w)) as [d'|e] eqn:Hins; [|left; eexists; split; reflexivity].
  assert (d' = on_users (λ t, t ++ [u]) (w_db w)) as ->.
  { unfold insert_user in Hins. split_matches. }
  simpl. destruct (fetchone _ (t_departments _)) as [x|] eqn:Hd; [|left; eexists; split; reflexivity].
  right. exists uid, (S (S (w_tick w))), (env_now (w_tick w)). split_and!; try done.
Qed.

(** Registration is atomic: a failed one leaves the database as it was; a
    successful one adds exactly one user, whose login differs from every other by
    more than case, links it to an existing department, and touches no other
    table. *)
Theorem register_user_atomic `{Env} `{Crypto} login_id password display dept role rid tok w :
  match register_user login_id password display dept role rid tok w with
  | (Err _, w') => w_db w' = w_db w
  | (Ok g, w') =>
      ∃ u, t_users (w_db w') = t_users (w_db w) ++ [u] ∧ u_user_id u = rg_user_id g ∧
        u_login_id u = login_id ∧
        (∀ v, v ∈ t_users (w_db w) → sql_upper (u_login_id v) ≠ sql_upper login_id) ∧
        (∃ x, x ∈ t_departments (w_db w) ∧ d_dept_id x = dept) ∧
        (∃ r, r ∈ t_user_departments (w_db w') ∧ ud_user_id r = rg_user_id g ∧
              ud_dept_id r = dept) ∧
        t_policies (w_db w') = t_policies (w_db w) ∧ t_shares (w_db w') = t_shares (w_db w)
  end.
Proof.
  pose proof (register_user_run login_id password display dept role rid tok w) as Hrun.
  destruct (register_user _ _ _ _ _ _ _ w) as [[g|e] w']; simpl in Hrun.
  - destruct Hrun as [(e & ? & _)|(uid & n & now & [= ->] & Hins & Hnew & [x Hx] & ->)]; [done|].
    rewrite fetchone_None in Hnew. apply fetchone_Some in Hx as [Hx Hxd].
    exists (registered_row uid login_id password display (env_salt n) now rid tok).
    unfold insert_user_dept.
    split_and!; [by case_match|done|done|exact Hnew|by exists x| |by case_match|by case_match].
    destruct (fetchone _ (t_user_departments _)) as [r|] eqn:Hr.
    + apply fetchone_Some in Hr as (Hr & ? & ?). by exists r.
    + exists (user_dept uid dept role true now). split; [|done]. simpl.
      apply elem_of_app. right. by apply list_elem_of_singleton.
  - destruct Hrun as [(e' & _ & ?)|(uid & n & now & ? & _)]; done.
Qed.

(** After a successful registration the new user, and only with the password
    it registered (up to a digest collision), is authenticated by its login in any
    case. *)
Theorem register_then_authenticate `{Env} `{Crypto} login_id password display dept role rid tok w g w'
    login attempt :
  (∀ n, "$"%char ∉ to_bytes (env_salt n)) →
  register_user login_id password display dept role rid tok w = (Ok g, w') →
  sql_upper login = sql_upper login_id →
  ∃ salt, (authenticate_user login attempt w').1 =
    Ok (if decide (pbkdf2_hex attempt salt = pbkdf2_hex password salt) then
          Some {| pu_user_id := rg_user_id g; pu_login_id := login_id;
                  pu_display_name := display; pu_is_active := true |}
        else None).
Proof.
  intros Hsalt Hreg Hup.
  pose proof (register_user_run login_id password display dept role rid tok w) as Hrun.
  rewrite Hreg in Hrun. simpl in Hrun.
  destruct Hrun as [(e & ? & _)|(uid & n & now & [= ->] & Hins & Hnew & _ & Hdb)]; [done|].
  exists (env_salt n).
  assert (login_row login (w_db w') =
          Some (registered_row uid login_id password display (env_salt n) now rid tok)) as Hrow.
  { rewrite Hdb. unfold login_row.
    assert (∀ d : Db, t_users d = t_users (w_db w) ++
       [registered_row uid login_id password display (env_salt n) now rid tok] →
      fetchone (λ v, sql_upper (u_login_id v) = sql_upper login) (t_users d) =
      Some (registered_row uid login_id password display (env_salt n) now rid tok)) as Hf.
    { intros d ->. rewrite Hup, fetchone_app_None by done.
      unfold fetchone. by rewrite filter_cons_True. }
    rewrite Hf; [done|]. unfold insert_user_dept. by case_match. }
  unfold authenticate_user, mbind, M_bind, with_conn, sql_query. rewrite Hrow.
  cbn [registered_row u_is_active negb u_password_hash].
  rewrite verify_make by apply Hsalt. by case_decide; [rewrite bool_decide_eq_true_2|rewrite bool_decide_eq_false_2].
Qed.

(** ** Login *)

Lemma login_payload_ok cfg u depts dd now : json_ok (login_payload cfg u depts dd now).
Proof.
  unfold login_payload. apply json_ok_obj. split.
  - refine (bool_decide_unpack _ _). vm_compute. exact I.
  - repeat apply Forall_cons_2; try done. apply json_ok_arr, Forall_fmap, Forall_true. done.
Qed.

Lemma json_strs_items l : json_str_items (json_sort_keys (json_strs l)) = Some l.
Proof.
  unfold json_strs. cbn [json_sort_keys json_str_items].
  replace (map json_sort_keys (JStr <$> l)) with (JStr <$> l).
  - by rewrite mapM_fmap_Some.
  - induction l as [|x l IH]; [done|]. cbn. f_equal. exact IH.
Qed.

(** A successful login names an active user by its login or e-mail, whose
    password verifies; its token opens to that user's id, to exactly the
    departments it is an active member of, and to an expiry one lifetime ahead;
    the database is left as it was. *)
Theorem login_issues_claims `{Env} `{Crypto} cfg login_id password w out w' :
  login cfg login_id password w = (Ok (Some out), w') →
  w_db w' = w_db w ∧
  ∃ u dd now, login_row login_id (w_db w) = Some u ∧ u_is_active u = true ∧
    verify_password password (u_password_hash u) = true ∧
    lo_departments out = norm_user_dept <$> user_departments_of (w_db w) (u_user_id u) ∧
    dd ∈ lo_departments out ∧ lo_default_dept_id out = xd_dept_id dd ∧
    now = env_time (w_tick w) ∧
    let payload := login_payload cfg (lo_user out) (lo_departments out) dd now in
    (utf8_valid (to_bytes (json_dumps_compact_sorted payload)) = true →
     ∃ p, open_token cfg (lo_access_token out) = Some (p, now + token_ttl_seconds cfg) ∧
       tok_get "sub" p = Some (u_user_id u) ∧
       tok_dept_ids p = xd_dept_id <$> lo_departments out).
Proof.
  unfold login, authenticate_user, get_user_departments, time_now, with_conn, sql_query, mbind,
    M_bind, mret, M_ret.
  destruct (login_row login_id (w_db w)) as [u|] eqn:Hrow; [|done].
  destruct (u_is_active u) eqn:Hact; [|done]. cbn [negb].
  destruct (verify_password password (u_password_hash u)) eqn:Hpw; [|done]. cbn [negb pu_user_id].
  set (depts := norm_user_dept <$> user_departments_of (w_db w) (u_user_id u)).
  destruct depts as [|d0 ds] eqn:Hdepts; [done|]. rewrite <-Hdepts.
  set (dd := default d0 (fetchone _ depts)).
  assert (dd ∈ depts) as Hdd.
  { subst dd. destruct (fetchone _ depts) as [x|] eqn:Hx; simpl.
    - by apply fetchone_Some in Hx as [? _].
    - rewrite Hdepts. by left. }
  intros [= <- <-]. split; [done|]. exists u, dd, (env_time (w_tick w)). cbn.
  split_and!; try done. intros Hutf. eexists. split; [|split].
  - apply open_create_token; [apply login_payload_ok|done|reflexivity].
  - unfold tok_get. rewrite dict_get_sorted; [done|].
    refine (bool_decide_unpack _ _). vm_compute. exact I.
  - unfold tok_dept_ids. rewrite dict_get_sorted.
    + change (default [] (json_str_items (json_sort_keys (json_strs (xd_dept_id <$> depts)))) =
        xd_dept_id <$> depts). by rewrite json_strs_items.
    + refine (bool_decide_unpack _ _). vm_compute. exact I.
Qed.

(** ** Witnesses *)

Lemma token_roundtrip_witness :
  (parse_token demo_cfg (create_token demo_cfg (demo_payload "u_a" ["dept_mp_q"])) demo_world).1 =
    Ok (Some (json_sort_keys (demo_payload "u_a" ["dept_mp_q"]))) ∧
  json_get "sub" (json_sort_keys (demo_payload "u_a" ["dept_mp_q"])) = Some (JStr "u_a").
Proof.
  destruct (token_roundtrip demo_cfg
    [("sub", JStr "u_a"); ("login_id", JStr "u_a"); ("display_name", JStr "u_a");
     ("dept_ids", json_strs ["dept_mp_q"]); ("default_dept_id", JStr "dept_mp_q");
     ("iat", JInt 900); ("exp", JInt 2000)] 2000 demo_world) as [Hrun Hget].
  - apply json_ok_obj. split.
    + refine (bool_decide_unpack _ _). vm_compute. exact I.
    + repeat apply Forall_cons_2; done.
  - vm_compute. reflexivity.
  - vm_compute. reflexivity.
  - split; [exact Hrun|]. exact (Hget "sub").
Defined.

Lemma token_acceptance_sound_witness :
  ∃ body_b64 sig_b64 body exp,
    py_split1 "."%char (create_token demo_cfg (demo_payload "u_a" ["dept_mp_q"])) =
      Some (body_b64, sig_b64) ∧
    b64url_decode body_b64 = Some body ∧
    b64url_decode sig_b64 = Some (crypto_hmac (to_bytes (auth_secret demo_cfg)) body) ∧
    json_loads (of_bytes body) = Some (json_sort_keys (demo_payload "u_a" ["dept_mp_q"])) ∧
    json_int (default (JInt 0)
      (json_get "exp" (json_sort_keys (demo_payload "u_a" ["dept_mp_q"])))) = Some exp ∧
    env_time 0 ≤ exp.
Proof.
  apply (token_acceptance_sound demo_cfg
    (create_token demo_cfg (demo_payload "u_a" ["dept_mp_q"])) demo_world
    (json_sort_keys (demo_payload "u_a" ["dept_mp_q"])) (next_tick demo_world)).
  vm_compute. reflexivity.
Defined.

Lemma password_roundtrip_witness :
  verify_password "pw" (make_password_hash "pw" "5a17") = true ∧
  verify_password "px" (make_password_hash "pw" "5a17") = false.
Proof.
  destruct (password_roundtrip "pw" "px" "5a17") as [Hok Hbad].
  - refine (bool_decide_unpack _ _). vm_compute. exact I.
  - split; [exact Hok|]. destruct (verify_password "px" _); [|done].
    exfalso. pose proof (proj1 Hbad eq_refl) as Heq. vm_compute in Heq. discriminate Heq.
Defined.

(** A registration on the demo database *)
Definition demo_registration : res Registered * World :=
  register_user "Dave" "secret" "Dave" "dept_mp_q" "member" "rf" "tok" demo_world.

Lemma register_then_authenticate_witness :
  ∃ salt, (authenticate_user "DAVE" "secret" demo_registration.2).1 =
    Ok (if decide (pbkdf2_hex "secret" salt = pbkdf2_hex "secret" salt) then
          Some {| pu_user_id := "u_1"; pu_login_id := "Dave"; pu_display_name := "Dave";
                  pu_is_active := true |}
        else None).
Proof.
  apply (register_then_authenticate "Dave" "secret" "Dave" "dept_mp_q" "member" "rf" "tok"
           demo_world {| rg_user_id := "u_1"; rg_login_id := "Dave"; rg_display_name := "Dave";
                         rg_dept_id := "dept_mp_q"; rg_role := "member";
                         rg_ragflow_user_id := "rf" |} demo_registration.2 "DAVE" "secret").
  - intros n. refine (bool_decide_unpack _ _). vm_compute. exact I.
  - vm_compute. reflexivity.
  - reflexivity.
Defined.

Lemma login_issues_claims_witness :
  ∃ out w', login demo_cfg "alice" "secret" demo_world = (Ok (Some out), w') ∧ w_db w' = demo_db ∧
    lo_departments out = norm_user_dept <$> user_departments_of demo_db "u_a".
Proof.
  destruct (login demo_cfg "alice" "secret" demo_world) as [[[out|]|e] w'] eqn:Hrun;
    [|exfalso; vm_compute in Hrun; discriminate Hrun..].
  destruct (login_issues_claims demo_cfg "alice" "secret" demo_world out w' Hrun)
    as [Hdb (u & dd & now & Hrow & _ & _ & Hdepts & _)].
  exists out, w'. split_and!; [done|done|]. rewrite Hdepts.
  vm_compute in Hrow. injection Hrow as <-. reflexivity.
Defined.
