(* ===== verification/Run.v ===== *)
(** Reasoning about one run of a computation: forward, when the run of a part is
    known, and backward, from a run that ended well. *)
From S2P Require Import Prelude PyText Json Digest Schema Effects StoreUsers StorePolicy.
From S2P Require Import StoreSessions StoreRequests GatewayToken GatewayAccess GatewayShare.

Section bind.
Context {A B : Type} (f : A → M B) (m : M A).

Lemma bind_run w a w' : m w = (Ok a, w') → (m ≫= f) w = f a w'.
Proof. intros Hm. unfold mbind, M_bind. by rewrite Hm. Qed.

Lemma bind_err w e w' : m w = (Err e, w') → (m ≫= f) w = (Err e, w').
Proof. intros Hm. unfold mbind, M_bind. by rewrite Hm. Qed.

Lemma bind_ok_inv w b w' :
  (m ≫= f) w = (Ok b, w') → ∃ a w1, m w = (Ok a, w1) ∧ f a w1 = (Ok b, w').
Proof.
  unfold mbind, M_bind. destruct (m w) as [[a|e] w1]; [eauto|done].
Qed.
End bind.

(** Runs the first parts of a bind whose outcome is known by computation. *)
Ltac run_goal := repeat (erewrite bind_run by reflexivity; cbv beta).
Ltac run_in H := repeat (erewrite bind_run in H by reflexivity; cbv beta in H).

(** A loop that ends well keeps what each of its iterations keeps. *)
Lemma for_fold_inv {A B} (f : B → A → M B) (I : B → World → Prop) acc l w acc' w' :
  I acc w →
  (∀ b x w b' w', I b w → f b x w = (Ok b', w') → I b' w') →
  for_fold f acc l w = (Ok acc', w') → I acc' w'.
Proof.
  intros HI Hf. revert acc w HI. induction l as [|x l IH]; intros acc w HI; cbn [for_fold].
  - by intros [= <- <-].
  - intros Hrun. apply bind_ok_inv in Hrun as (b & w1 & Hx & Hrun). eapply IH; [|exact Hrun].
    by eapply Hf.
Qed.

Lemma lift_res_inv {A} (r : res A) w a w' : lift_res r w = (Ok a, w') → r = Ok a ∧ w' = w.
Proof. unfold lift_res. by intros [= -> ->]. Qed.

Lemma py_or_empty s : py_or s "" = s.
Proof. unfold py_or. by case_decide. Qed.

(** ** Reads *)

Section reads.
Context `{Env}.
Implicit Types w : World.

Lemma get_policy_run rt rid w : get_policy rt rid w = (Ok (policy_of rt rid (w_db w)), w).
Proof. reflexivity. Qed.
Lemma is_dept_admin_run u d w : is_dept_admin u d w = (Ok (admin_of (w_db w) u d), w).
Proof. reflexivity. Qed.
Lemma get_kb_permission_run kb u w :
  get_kb_permission kb u w = (Ok (kb_permission_of (w_db w) kb u), w).
Proof. reflexivity. Qed.

Lemma require_kb_run kb w :
  require_kb kb w =
  (match policy_of "kb" kb (w_db w) with
   | Some p => Ok p
   | None => Err (ValueError "kb not found")
   end, w).
Proof.
  unfold require_kb. rewrite (bind_run _ _ _ _ _ (get_policy_run _ _ _)).
  by destruct (policy_of "kb" kb (w_db w)).
Qed.

Lemma require_kb_inv kb w p w' :
  require_kb kb w = (Ok p, w') → w' = w ∧ policy_of "kb" kb (w_db w) = Some p.
Proof.
  unfold require_kb. rewrite (bind_run _ _ _ _ _ (get_policy_run _ _ _)).
  destruct (policy_of _ _ _); [|done]. by intros [= <- <-].
Qed.

Lemma require_user_inv t w u w' :
  require_user t w = (Ok u, w') → w' = w ∧ u = tok_user t ∧ u ≠ "".
Proof. unfold require_user. case_decide; [done|]. by intros [= <- <-]. Qed.
End reads.

(** From a run of [m ≫= f] that ended well to its two parts *)
Ltac bind_inv H a w1 Hm := apply bind_ok_inv in H as (a & w1 & Hm & H); cbv beta in H.
