(* ===== verification/App.v ===== *)
(** The portal as a transition system: the endpoints of [create_app], how each is
    served, and the worlds the served requests reach. Every endpoint is shown to
    move the database only by the statements of the store. *)
From S2P Require Import Prelude PyText Json Dsl Digest Schema Effects Steps StoreUsers StorePolicy.
From S2P Require Import StoreSessions StoreRequests StoreStep GatewayToken GatewayAccess.
From S2P Require Import GatewayShare GatewayChat GatewaySession Routes.

(** ** Endpoints *)

Inductive Endpoint :=
  | EpLogin | EpRegister | EpMe | EpDeleteAccount | EpDepartments | EpSearchUsers
  | EpShareTargets | EpResources | EpCreateSession | EpListSessions
  | EpDeleteSession (session_id : string) | EpSessionPrivacy (session_id : string)
  | EpChat | EpHistory (session_id : string) | EpUpload
  | EpRequestShare (kb_id : string) | EpShareInternal (kb_id : string)
  | EpShareToUser (kb_id : string) | EpKbShares (kb_id : string)
  | EpShareRequests | EpApprove (request_id : string) | EpReject (request_id : string)
  | EpDismiss (request_id : string) | EpUnshare (kb_id : string)
  | EpDeletePrivate (kb_id : string) | EpDeleteKbs | EpListPolicies
  | EpUpsertPolicy (resource_type resource_id : string) | EpBootstrapKbs | EpBootstrapAgents
  | EpShareToDepts (kb_id : string) | EpMyShares | EpParseStatus
  | EpRevokeSelective (kb_id : string) | EpAuditLogs.

Section app.
Context `{Env} `{Crypto} (cfg : PortalConfig).
Context (base_repr : list (string * pyv) → string).

(** The status of the response; an exception the view function lets through is
    Flask's 500. *)
Definition status_of {A} (m : M (Reply A)) : M Z :=
  try_except (status <$> m) (λ _, mret 500%Z).

(** The view function of an endpoint; [fuel] bounds the pages of agents. *)
Definition serve (fuel : nat) (ep : Endpoint) (rq : Request) : M Z :=
  match ep with
  | EpLogin => status_of (route_login cfg rq)
  | EpRegister => status_of (route_register cfg rq)
  | EpMe => status_of (route_me cfg rq)
  | EpDeleteAccount => status_of (route_delete_my_account cfg rq)
  | EpDepartments => status_of (route_departments cfg rq)
  | EpSearchUsers => status_of (route_search_users cfg rq)
  | EpShareTargets => status_of (route_share_targets cfg rq)
  | EpResources => status_of (route_resources cfg fuel rq)
  | EpCreateSession => status_of (route_create_session cfg base_repr rq)
  | EpListSessions => status_of (route_list_sessions cfg rq)
  | EpDeleteSession sid => status_of (route_delete_session cfg rq sid)
  | EpSessionPrivacy sid => status_of (route_session_privacy cfg rq sid)
  | EpChat => status_of (route_chat cfg rq)
  | EpHistory sid => status_of (route_history cfg rq sid)
  | EpUpload => status_of (route_upload_kb cfg rq)
  | EpRequestShare kb => status_of (route_request_share cfg base_repr rq kb)
  | EpShareInternal kb => status_of (route_share_internal cfg rq kb)
  | EpShareToUser kb => status_of (route_share_to_user cfg rq kb)
  | EpKbShares kb => status_of (route_list_kb_shares cfg rq kb)
  | EpShareRequests => status_of (route_list_share_requests cfg rq)
  | EpApprove rid => status_of (route_review cfg true rq rid)
  | EpReject rid => status_of (route_review cfg false rq rid)
  | EpDismiss rid => status_of (route_dismiss cfg rq rid)
  | EpUnshare kb => status_of (route_unshare cfg rq kb)
  | EpDeletePrivate kb => status_of (route_delete_private cfg rq kb)
  | EpDeleteKbs => status_of (route_delete_kbs cfg base_repr rq)
  | EpListPolicies => status_of (route_list_policies cfg rq)
  | EpUpsertPolicy rt rid => status_of (route_upsert_policy cfg base_repr rq rt rid)
  | EpBootstrapKbs => status_of (route_bootstrap_kbs cfg rq)
  | EpBootstrapAgents => status_of (route_bootstrap_agents cfg rq)
  | EpShareToDepts kb => status_of (route_share_to_depts cfg base_repr rq kb)
  | EpMyShares => status_of (route_my_shares cfg rq)
  | EpParseStatus => status_of (route_parse_status cfg rq)
  | EpRevokeSelective kb => status_of (route_revoke_selective cfg base_repr rq kb)
  | EpAuditLogs => status_of (route_audit_logs cfg rq)
  end.

(** One served request *)
Inductive app_step : relation World :=
  | app_serve fuel ep rq w : app_step w (serve fuel ep rq w).2.

Definition app_reaches : relation World := rtc app_step.

(** The worlds of a portal started on an empty database file *)
Definition portal_world (w : World) : Prop :=
  ∃ w0, w_db w0 = empty_db ∧ app_reaches (gateway_init cfg w0).2 w.
End app.

(** ** The gateway: tokens and accounts *)

Lemma moves_parse_token `{Env} `{Crypto} cfg a : moves (parse_token cfg a).
Proof. moves_op. Qed.
#[export] Hint Resolve moves_parse_token : steps.

Lemma moves_login `{Env} `{Crypto} cfg a b : moves (login cfg a b).
Proof. moves_op. Qed.
#[export] Hint Resolve moves_login : steps.

Lemma moves_http_send `{Env} a b c d : moves (http_send a b c d).
Proof. apply steps_ext. Qed.
Lemma moves_chat_post `{Env} a b c : moves (chat_post a b c).
Proof. apply steps_ext. Qed.
Lemma moves_rsa_encrypt `{Env} b : moves (rsa_encrypt b).
Proof. intros w. apply evolves_preorder. Qed.
#[export] Hint Resolve moves_http_send moves_chat_post moves_rsa_encrypt : steps.

Lemma moves_rag_list_agents `{Env} a b c d : moves (rag_list_agents a b c d).
Proof. moves_op. Qed.
#[export] Hint Resolve moves_rag_list_agents : steps.

Lemma moves_rag_agent_create_session `{Env} a b c : moves (rag_agent_create_session a b c).
Proof. moves_op. Qed.
#[export] Hint Resolve moves_rag_agent_create_session : steps.

Lemma moves_rag_agent_list_sessions `{Env} a b c d : moves (rag_agent_list_sessions a b c d).
Proof. moves_op. Qed.
#[export] Hint Resolve moves_rag_agent_list_sessions : steps.

Lemma moves_rag_list_datasets `{Env} a b : moves (rag_list_datasets a b).
Proof. moves_op. Qed.
#[export] Hint Resolve moves_rag_list_datasets : steps.

Lemma moves_rag_create_dataset `{Env} a b c : moves (rag_create_dataset a b c).
Proof. moves_op. Qed.
#[export] Hint Resolve moves_rag_create_dataset : steps.

Lemma moves_rag_upload `{Env} a b c : moves (rag_upload a b c).
Proof. moves_op. Qed.
#[export] Hint Resolve moves_rag_upload : steps.

Lemma moves_rag_parse `{Env} a b c : moves (rag_parse a b c).
Proof. moves_op. Qed.
#[export] Hint Resolve moves_rag_parse : steps.

Lemma moves_rag_list_documents `{Env} a b c : moves (rag_list_documents a b c).
Proof. moves_op. Qed.
#[export] Hint Resolve moves_rag_list_documents : steps.

Lemma moves_rag_retrieve `{Env} a b c d : moves (rag_retrieve a b c d).
Proof. moves_op. Qed.
#[export] Hint Resolve moves_rag_retrieve : steps.

Lemma moves_rag_session_ask `{Env} a b c : moves (rag_session_ask a b c).
Proof. moves_op. Qed.
#[export] Hint Resolve moves_rag_session_ask : steps.

Lemma moves_encrypt_password_for_ragflow `{Env} a : moves (encrypt_password_for_ragflow a).
Proof. moves_op. Qed.
#[export] Hint Resolve moves_encrypt_password_for_ragflow : steps.

Lemma moves_resp_json a : moves (resp_json a).
Proof. moves_op. Qed.
#[export] Hint Resolve moves_resp_json : steps.

Lemma moves_text_field a b : moves (text_field a b).
Proof. moves_op. Qed.
#[export] Hint Resolve moves_text_field : steps.

Lemma moves_code_is a b : moves (code_is a b).
Proof. moves_op. Qed.
#[export] Hint Resolve moves_code_is : steps.

Lemma moves_ensure_ragflow_account `{Env} cfg a b : moves (ensure_ragflow_account cfg a b).
Proof. moves_op. Qed.
#[export] Hint Resolve moves_ensure_ragflow_account : steps.

Lemma moves_ensure_ragflow_accounts `{Env} cfg : moves (ensure_ragflow_accounts cfg).
Proof. moves_op. Qed.
#[export] Hint Resolve moves_ensure_ragflow_accounts : steps.

Lemma moves_get_rag_client `{Env} cfg a : moves (get_rag_client cfg a).
Proof. moves_op. Qed.
#[export] Hint Resolve moves_get_rag_client : steps.

(** ** Discovery *)

Lemma moves_upsert_policy_dflt `{Env} a b c d e f g : moves (upsert_policy_dflt a b c d e f g).
Proof. moves_op. Qed.
#[export] Hint Resolve moves_upsert_policy_dflt : steps.

Lemma moves_ensure_agent_policy `{Env} a b c : moves (ensure_agent_policy a b c).
Proof. moves_op. Qed.
#[export] Hint Resolve moves_ensure_agent_policy : steps.

Lemma moves_ensure_agent `{Env} a b c d : moves (ensure_agent a b c d).
Proof. moves_op. Qed.
#[export] Hint Resolve moves_ensure_agent : steps.

Lemma moves_agent_pages `{Env} a b c d e f : moves (agent_pages a b c d e f).
Proof. revert e f. induction a as [|a IH]; intros e f; simpl; moves_tac. Qed.
#[export] Hint Resolve moves_agent_pages : steps.

Lemma moves_ensure_agent_policies `{Env} cfg a : moves (ensure_agent_policies cfg a).
Proof. moves_op. Qed.
#[export] Hint Resolve moves_ensure_agent_policies : steps.

Lemma moves_bootstrap_agents_to_dept_or_public `{Env} cfg a : moves (bootstrap_agents_to_dept_or_public cfg a).
Proof. moves_op. Qed.
#[export] Hint Resolve moves_bootstrap_agents_to_dept_or_public : steps.

Lemma moves_ensure_kb_policy `{Env} a b c : moves (ensure_kb_policy a b c).
Proof. moves_op. Qed.
#[export] Hint Resolve moves_ensure_kb_policy : steps.

Lemma moves_ensure_kb `{Env} a b c d : moves (ensure_kb a b c d).
Proof. moves_op. Qed.
#[export] Hint Resolve moves_ensure_kb : steps.

Lemma moves_ensure_user_kbs `{Env} cfg a b : moves (ensure_user_kbs cfg a b).
Proof. moves_op. Qed.
#[export] Hint Resolve moves_ensure_user_kbs : steps.

Lemma moves_ensure_kb_policies `{Env} cfg : moves (ensure_kb_policies cfg).
Proof. moves_op. Qed.
#[export] Hint Resolve moves_ensure_kb_policies : steps.

Lemma moves_bootstrap_kbs_to_mp_public_a `{Env} cfg a : moves (bootstrap_kbs_to_mp_public_a cfg a).
Proof. moves_op. Qed.
#[export] Hint Resolve moves_bootstrap_kbs_to_mp_public_a : steps.

Lemma moves_agent_item `{Env} a b c d e : moves (agent_item a b c d e).
Proof. moves_op. Qed.
#[export] Hint Resolve moves_agent_item : steps.

Lemma moves_kb_item `{Env} a b c d e : moves (kb_item a b c d e).
Proof. moves_op. Qed.
#[export] Hint Resolve moves_kb_item : steps.

Lemma moves_list_resources `{Env} cfg a b c d : moves (list_resources cfg a b c d).
Proof. moves_op. Qed.
#[export] Hint Resolve moves_list_resources : steps.

(** ** Sharing and deleting *)

Lemma moves_require_kb `{Env} a : moves (require_kb a).
Proof. moves_op. Qed.
#[export] Hint Resolve moves_require_kb : steps.

Lemma moves_require_user a : moves (require_user a).
Proof. moves_op. Qed.
#[export] Hint Resolve moves_require_user : steps.

Lemma moves_request_targets `{Env} a b c d : moves (request_targets a b c d).
Proof. moves_op. Qed.
#[export] Hint Resolve moves_request_targets : steps.

Lemma moves_request_kb_share `{Env} a b c d e f g : moves (request_kb_share a b c d e f g).
Proof. moves_op. Qed.
#[export] Hint Resolve moves_request_kb_share : steps.

Lemma moves_reshare_policy `{Env} a b c d e f g : moves (reshare_policy a b c d e f g).
Proof. moves_op. Qed.
#[export] Hint Resolve moves_reshare_policy : steps.

Lemma moves_share_kb_internal `{Env} a b : moves (share_kb_internal a b).
Proof. moves_op. Qed.
#[export] Hint Resolve moves_share_kb_internal : steps.

Lemma moves_find_share_target `{Env} a b : moves (find_share_target a b).
Proof. moves_op. Qed.
#[export] Hint Resolve moves_find_share_target : steps.

Lemma moves_parent_share a b : moves (parent_share a b).
Proof. moves_op. Qed.
#[export] Hint Resolve moves_parent_share : steps.

Lemma moves_share_kb_to_user `{Env} a b c d : moves (share_kb_to_user a b c d).
Proof. moves_op. Qed.
#[export] Hint Resolve moves_share_kb_to_user : steps.

Lemma moves_admin_depts `{Env} a b : moves (admin_depts a b).
Proof. moves_op. Qed.
#[export] Hint Resolve moves_admin_depts : steps.

Lemma moves_list_share_requests `{Env} a b c : moves (list_share_requests a b c).
Proof. moves_op. Qed.
#[export] Hint Resolve moves_list_share_requests : steps.

Lemma moves_share_with_members `{Env} a b c d e : moves (share_with_members a b c d e).
Proof. moves_op. Qed.
#[export] Hint Resolve moves_share_with_members : steps.

Lemma moves_grant_requested_share `{Env} a b c d : moves (grant_requested_share a b c d).
Proof. moves_op. Qed.
#[export] Hint Resolve moves_grant_requested_share : steps.

Lemma moves_apply_approved_request `{Env} a b : moves (apply_approved_request a b).
Proof. moves_op. Qed.
#[export] Hint Resolve moves_apply_approved_request : steps.

Lemma moves_review_share_request `{Env} a b c d : moves (review_share_request a b c d).
Proof. moves_op. Qed.
#[export] Hint Resolve moves_review_share_request : steps.

Lemma moves_unshare_kb `{Env} a b : moves (unshare_kb a b).
Proof. moves_op. Qed.
#[export] Hint Resolve moves_unshare_kb : steps.

Lemma moves_share_kb_to_depts `{Env} a b c d : moves (share_kb_to_depts a b c d).
Proof. moves_op. Qed.
#[export] Hint Resolve moves_share_kb_to_depts : steps.

Lemma moves_list_all_shares `{Env} a : moves (list_all_shares a).
Proof. moves_op. Qed.
#[export] Hint Resolve moves_list_all_shares : steps.

Lemma moves_selective_revoke `{Env} a b c d : moves (selective_revoke a b c d).
Proof. moves_op. Qed.
#[export] Hint Resolve moves_selective_revoke : steps.

Lemma moves_delete_dataset `{Env} cfg a b : moves (delete_dataset cfg a b).
Proof. moves_op. Qed.
#[export] Hint Resolve moves_delete_dataset : steps.

Lemma moves_forget_kb `{Env} a : moves (forget_kb a).
Proof. moves_op. Qed.
#[export] Hint Resolve moves_forget_kb : steps.

Lemma moves_delete_private_kb `{Env} cfg a b : moves (delete_private_kb cfg a b).
Proof. moves_op. Qed.
#[export] Hint Resolve moves_delete_private_kb : steps.

Lemma moves_delete_one_kb `{Env} cfg a b c d e f : moves (delete_one_kb cfg a b c d e f).
Proof. moves_op. Qed.
#[export] Hint Resolve moves_delete_one_kb : steps.

Lemma moves_delete_kbs `{Env} cfg a b : moves (delete_kbs cfg a b).
Proof. moves_op. Qed.
#[export] Hint Resolve moves_delete_kbs : steps.

(** ** Retrieval and answers *)

Lemma moves_get_m a b : moves (get_m a b).
Proof. moves_op. Qed.
#[export] Hint Resolve moves_get_m : steps.

Lemma moves_first_choice a : moves (first_choice a).
Proof. moves_op. Qed.
#[export] Hint Resolve moves_first_choice : steps.

Lemma moves_completion_text a : moves (completion_text a).
Proof. moves_op. Qed.
#[export] Hint Resolve moves_completion_text : steps.

Lemma moves_try_candidates `{Env} a b c : moves (try_candidates a b c).
Proof. revert b. induction c as [|[] c IH]; intros b; simpl; moves_tac. Qed.
#[export] Hint Resolve moves_try_candidates : steps.

Lemma moves_direct_chat `{Env} cfg a : moves (direct_chat cfg a).
Proof. moves_op. Qed.
#[export] Hint Resolve moves_direct_chat : steps.

Lemma moves_kb_token `{Env} cfg a b : moves (kb_token cfg a b).
Proof. moves_op. Qed.
#[export] Hint Resolve moves_kb_token : steps.

Lemma moves_group_kb `{Env} cfg a b c : moves (group_kb cfg a b c).
Proof. moves_op. Qed.
#[export] Hint Resolve moves_group_kb : steps.

Lemma moves_retrieve_group `{Env} a b c d : moves (retrieve_group a b c d).
Proof. moves_op. Qed.
#[export] Hint Resolve moves_retrieve_group : steps.

Lemma moves_multi_tenant_retrieve `{Env} cfg a b c d : moves (multi_tenant_retrieve cfg a b c d).
Proof. moves_op. Qed.
#[export] Hint Resolve moves_multi_tenant_retrieve : steps.

Lemma moves_generate_with `{Env} cfg a b c d : moves (generate_with cfg a b c d).
Proof. moves_op. Qed.
#[export] Hint Resolve moves_generate_with : steps.

Lemma moves_generate_answer_direct `{Env} cfg a b c : moves (generate_answer_direct cfg a b c).
Proof. moves_op. Qed.
#[export] Hint Resolve moves_generate_answer_direct : steps.

Lemma moves_extract_chunks `{Env} a : moves (extract_chunks a).
Proof. moves_op. Qed.
#[export] Hint Resolve moves_extract_chunks : steps.

(** ** Sessions and questions *)

Lemma moves_readable_kbs `{Env} a b c d : moves (readable_kbs a b c d).
Proof. moves_op. Qed.
#[export] Hint Resolve moves_readable_kbs : steps.

Lemma moves_create_direct_session `{Env} a b c d e : moves (create_direct_session a b c d e).
Proof. moves_op. Qed.
#[export] Hint Resolve moves_create_direct_session : steps.

Lemma moves_agent_kbs `{Env} br a b : moves (agent_kbs br a b).
Proof. moves_op. Qed.
#[export] Hint Resolve moves_agent_kbs : steps.

Lemma moves_create_session `{Env} cfg br a b c d e : moves (create_session cfg br a b c d e).
Proof. moves_op. Qed.
#[export] Hint Resolve moves_create_session : steps.

Lemma moves_list_sessions `{Env} a b : moves (list_sessions a b).
Proof. moves_op. Qed.
#[export] Hint Resolve moves_list_sessions : steps.

Lemma moves_delete_session `{Env} a b : moves (delete_session a b).
Proof. moves_op. Qed.
#[export] Hint Resolve moves_delete_session : steps.

Lemma moves_update_session_privacy `{Env} a b c : moves (update_session_privacy a b c).
Proof. moves_op. Qed.
#[export] Hint Resolve moves_update_session_privacy : steps.

Lemma moves_find_existing_kb `{Env} a b c d : moves (find_existing_kb a b c d).
Proof. moves_op. Qed.
#[export] Hint Resolve moves_find_existing_kb : steps.

Lemma moves_upload_name `{Env} a : moves (upload_name a).
Proof. moves_op. Qed.
#[export] Hint Resolve moves_upload_name : steps.

Lemma moves_upload_kb_for_dept `{Env} cfg a b c d e f : moves (upload_kb_for_dept cfg a b c d e f).
Proof. moves_op. Qed.
#[export] Hint Resolve moves_upload_kb_for_dept : steps.

Lemma moves_poll_doc `{Env} a b c d : moves (poll_doc a b c d).
Proof. moves_op. Qed.
#[export] Hint Resolve moves_poll_doc : steps.

Lemma moves_get_parse_status `{Env} cfg a b c : moves (get_parse_status cfg a b c).
Proof. moves_op. Qed.
#[export] Hint Resolve moves_get_parse_status : steps.

Lemma moves_recover_agent_session `{Env} cfg a b c : moves (recover_agent_session cfg a b c).
Proof. moves_op. Qed.
#[export] Hint Resolve moves_recover_agent_session : steps.

Lemma moves_load_session `{Env} a : moves (load_session a).
Proof. moves_op. Qed.
#[export] Hint Resolve moves_load_session : steps.

Lemma moves_runtime_session `{Env} cfg a b : moves (runtime_session cfg a b).
Proof. moves_op. Qed.
#[export] Hint Resolve moves_runtime_session : steps.

Lemma moves_chat_history `{Env} a b : moves (chat_history a b).
Proof. moves_op. Qed.
#[export] Hint Resolve moves_chat_history : steps.

Lemma moves_ask_direct `{Env} cfg a b c : moves (ask_direct cfg a b c).
Proof. moves_op. Qed.
#[export] Hint Resolve moves_ask_direct : steps.

Lemma moves_ask_agent_kb `{Env} cfg a b c : moves (ask_agent_kb cfg a b c).
Proof. moves_op. Qed.
#[export] Hint Resolve moves_ask_agent_kb : steps.

Lemma moves_ask_agent `{Env} cfg a b c : moves (ask_agent cfg a b c).
Proof. moves_op. Qed.
#[export] Hint Resolve moves_ask_agent : steps.

Lemma moves_json_refs a : moves (json_refs a).
Proof. moves_op. Qed.
#[export] Hint Resolve moves_json_refs : steps.

Lemma moves_check_owner a b : moves (check_owner a b).
Proof. moves_op. Qed.
#[export] Hint Resolve moves_check_owner : steps.

Lemma moves_ask `{Env} cfg a b c : moves (ask cfg a b c).
Proof. moves_op. Qed.
#[export] Hint Resolve moves_ask : steps.

Lemma moves_get_history `{Env} a b : moves (get_history a b).
Proof. moves_op. Qed.
#[export] Hint Resolve moves_get_history : steps.

(** ** Routes *)

Lemma moves_request_id `{Env} a : moves (request_id a).
Proof. moves_op. Qed.
#[export] Hint Resolve moves_request_id : steps.

Lemma moves_auth_payload `{Env} `{Crypto} cfg a : moves (auth_payload cfg a).
Proof. moves_op. Qed.
#[export] Hint Resolve moves_auth_payload : steps.

Lemma moves_payload_is_admin `{Env} a : moves (payload_is_admin a).
Proof. moves_op. Qed.
#[export] Hint Resolve moves_payload_is_admin : steps.

Lemma moves_with_auth `{Env} `{Crypto} cfg {A} rq (k : json → M (Reply A)) :
  (∀ p, moves (k p)) → moves (with_auth cfg rq k).
Proof. intros Hk. unfold with_auth. moves_tac. Qed.
Lemma moves_with_options {A} rq (m : M (Reply A)) : moves m → moves (with_options rq m).
Proof. intros Hm. unfold with_options. moves_tac. Qed.
Lemma moves_with_admin `{Env} {A} p (m : M (Reply A)) : moves m → moves (with_admin p m).
Proof. intros Hm. unfold with_admin. moves_tac. Qed.

Lemma moves_body_or a b c : moves (body_or a b c).
Proof. moves_op. Qed.
#[export] Hint Resolve moves_body_or : steps.

Lemma moves_body_str a b c : moves (body_str a b c).
Proof. moves_op. Qed.
#[export] Hint Resolve moves_body_str : steps.

Lemma moves_iter_strs br a : moves (iter_strs br a).
Proof. moves_op. Qed.
#[export] Hint Resolve moves_iter_strs : steps.

Lemma moves_body_strs br a b : moves (body_strs br a b).
Proof. moves_op. Qed.
#[export] Hint Resolve moves_body_strs : steps.

Lemma moves_audit `{Env} a b c d e f g h i j : moves (audit a b c d e f g h i j).
Proof. moves_op. Qed.
#[export] Hint Resolve moves_audit : steps.

Lemma moves_audited_error `{Env} {A} a b c d e f g h i j :
  moves (@audited_error _ A a b c d e f g h i j).
Proof. moves_op. Qed.
Lemma moves_plain_error {A} e : moves (@plain_error A e).
Proof. moves_op. Qed.
#[export] Hint Resolve moves_audited_error moves_plain_error : steps.

Ltac route_tac :=
  repeat first [ progress moves_tac
               | apply moves_with_auth; intros ?
               | apply moves_with_options
               | apply moves_with_admin ].

Lemma moves_message_field a : moves (message_field a).
Proof. moves_op. Qed.
#[export] Hint Resolve moves_message_field : steps.

Lemma moves_register_ragflow `{Env} cfg a b : moves (register_ragflow cfg a b).
Proof. moves_op. Qed.
#[export] Hint Resolve moves_register_ragflow : steps.

Lemma moves_page_arg a b c : moves (page_arg a b c).
Proof. moves_op. Qed.
#[export] Hint Resolve moves_page_arg : steps.

Lemma moves_share_mask br a : moves (share_mask br a).
Proof. moves_op. Qed.
#[export] Hint Resolve moves_share_mask : steps.

Ltac route_op :=
  intros; lazymatch goal with |- steps _ ?m => let h := head_of m in unfold h end;
  unfold kb_route, bootstrap_route; route_tac.

Lemma moves_route_login `{Env} `{Crypto} cfg rq :
  moves (route_login cfg rq).
Proof. route_op. Qed.
Lemma moves_route_register `{Env} `{Crypto} cfg rq :
  moves (route_register cfg rq).
Proof. route_op. Qed.
Lemma moves_route_me `{Env} `{Crypto} cfg rq :
  moves (route_me cfg rq).
Proof. route_op. Qed.
Lemma moves_route_delete_my_account `{Env} `{Crypto} cfg rq :
  moves (route_delete_my_account cfg rq).
Proof. route_op. Qed.
Lemma moves_route_departments `{Env} `{Crypto} cfg rq :
  moves (route_departments cfg rq).
Proof. route_op. Qed.
Lemma moves_route_share_targets `{Env} `{Crypto} cfg rq :
  moves (route_share_targets cfg rq).
Proof. route_op. Qed.
Lemma moves_route_search_users `{Env} `{Crypto} cfg rq :
  moves (route_search_users cfg rq).
Proof. route_op. Qed.
Lemma moves_route_resources `{Env} `{Crypto} cfg fuel rq :
  moves (route_resources cfg fuel rq).
Proof. route_op. Qed.
Lemma moves_route_create_session `{Env} `{Crypto} cfg br rq :
  moves (route_create_session cfg br rq).
Proof. route_op. Qed.
Lemma moves_route_list_sessions `{Env} `{Crypto} cfg rq :
  moves (route_list_sessions cfg rq).
Proof. route_op. Qed.
Lemma moves_route_delete_session `{Env} `{Crypto} cfg rq sid :
  moves (route_delete_session cfg rq sid).
Proof. route_op. Qed.
Lemma moves_route_session_privacy `{Env} `{Crypto} cfg rq sid :
  moves (route_session_privacy cfg rq sid).
Proof. route_op. Qed.
Lemma moves_route_chat `{Env} `{Crypto} cfg rq :
  moves (route_chat cfg rq).
Proof. route_op. Qed.
Lemma moves_route_history `{Env} `{Crypto} cfg rq sid :
  moves (route_history cfg rq sid).
Proof. route_op. Qed.
Lemma moves_route_upload_kb `{Env} `{Crypto} cfg rq :
  moves (route_upload_kb cfg rq).
Proof. route_op. Qed.
Lemma moves_route_request_share `{Env} `{Crypto} cfg br rq kb :
  moves (route_request_share cfg br rq kb).
Proof. route_op. Qed.
Lemma moves_route_share_internal `{Env} `{Crypto} cfg rq kb :
  moves (route_share_internal cfg rq kb).
Proof. route_op. Qed.
Lemma moves_route_share_to_user `{Env} `{Crypto} cfg rq kb :
  moves (route_share_to_user cfg rq kb).
Proof. route_op. Qed.
Lemma moves_route_list_kb_shares `{Env} `{Crypto} cfg rq kb :
  moves (route_list_kb_shares cfg rq kb).
Proof. route_op. Qed.
Lemma moves_route_list_share_requests `{Env} `{Crypto} cfg rq :
  moves (route_list_share_requests cfg rq).
Proof. route_op. Qed.
Lemma moves_route_review `{Env} `{Crypto} cfg ok rq rid :
  moves (route_review cfg ok rq rid).
Proof. route_op. Qed.
Lemma moves_route_dismiss `{Env} `{Crypto} cfg rq rid :
  moves (route_dismiss cfg rq rid).
Proof. route_op. Qed.
Lemma moves_route_unshare `{Env} `{Crypto} cfg rq kb :
  moves (route_unshare cfg rq kb).
Proof. route_op. Qed.
Lemma moves_route_delete_private `{Env} `{Crypto} cfg rq kb :
  moves (route_delete_private cfg rq kb).
Proof. route_op. Qed.
Lemma moves_route_delete_kbs `{Env} `{Crypto} cfg br rq :
  moves (route_delete_kbs cfg br rq).
Proof. route_op. Qed.
Lemma moves_route_list_policies `{Env} `{Crypto} cfg rq :
  moves (route_list_policies cfg rq).
Proof. route_op. Qed.
Lemma moves_route_upsert_policy `{Env} `{Crypto} cfg br rq rt rid :
  moves (route_upsert_policy cfg br rq rt rid).
Proof. route_op. Qed.
Lemma moves_route_bootstrap_kbs `{Env} `{Crypto} cfg rq :
  moves (route_bootstrap_kbs cfg rq).
Proof. route_op. Qed.
Lemma moves_route_bootstrap_agents `{Env} `{Crypto} cfg rq :
  moves (route_bootstrap_agents cfg rq).
Proof. route_op. Qed.
Lemma moves_route_share_to_depts `{Env} `{Crypto} cfg br rq kb :
  moves (route_share_to_depts cfg br rq kb).
Proof. route_op. Qed.
Lemma moves_route_my_shares `{Env} `{Crypto} cfg rq :
  moves (route_my_shares cfg rq).
Proof. route_op. Qed.
Lemma moves_route_parse_status `{Env} `{Crypto} cfg rq :
  moves (route_parse_status cfg rq).
Proof. route_op. Qed.
Lemma moves_route_revoke_selective `{Env} `{Crypto} cfg br rq kb :
  moves (route_revoke_selective cfg br rq kb).
Proof. route_op. Qed.
Lemma moves_route_audit_logs `{Env} `{Crypto} cfg rq :
  moves (route_audit_logs cfg rq).
Proof. route_op. Qed.
#[export] Hint Resolve moves_route_login moves_route_register moves_route_me moves_route_delete_my_account moves_route_departments moves_route_share_targets moves_route_search_users moves_route_resources moves_route_create_session moves_route_list_sessions moves_route_delete_session moves_route_session_privacy moves_route_chat moves_route_history moves_route_upload_kb moves_route_request_share moves_route_share_internal moves_route_share_to_user moves_route_list_kb_shares moves_route_list_share_requests moves_route_review moves_route_dismiss moves_route_unshare moves_route_delete_private moves_route_delete_kbs moves_route_list_policies moves_route_upsert_policy moves_route_bootstrap_kbs moves_route_bootstrap_agents moves_route_share_to_depts moves_route_my_shares moves_route_parse_status moves_route_revoke_selective moves_route_audit_logs : steps.

(** Every request moves the database by statements of the store. *)
Lemma moves_serve `{Env} `{Crypto} cfg br fuel ep rq : moves (serve cfg br fuel ep rq).
Proof.
  destruct ep; unfold serve, status_of;
    (apply steps_try; [apply steps_fmap; eauto with steps nocore|intros; apply steps_ret]).
Qed.

Lemma app_step_evolves `{Env} `{Crypto} cfg br w w' :
  app_step cfg br w w' → evolves (w_db w) (w_db w').
Proof. intros [fuel ep rq w0]. apply (moves_serve cfg br fuel ep rq w0). Qed.

Lemma app_reaches_evolves `{Env} `{Crypto} cfg br w w' :
  app_reaches cfg br w w' → evolves (w_db w) (w_db w').
Proof.
  induction 1 as [|w1 w2 w3 Hs _ IH]; [apply evolves_preorder|].
  etrans; [by eapply app_step_evolves|done].
Qed.
