(* ===== verification/ShareProps.v ===== *)
(** Theorems on sharing, reviewing, revoking and deleting knowledge bases. *)
From S2P Require Import Prelude PyText Json Digest Schema Effects Steps StoreUsers StorePolicy.
From S2P Require Import StoreSessions StoreRequests StoreStep StoreInv GatewayToken GatewayAccess.
From S2P Require Import GatewayShare Demo AccessProps Run.

Local Open Scope Z_scope.

(** ** Upserted shares *)

Lemma upsert_share_fetch kb t mask by_ ap parent st now d :
  ∃ k, fetchone (λ k, k_kb_id k = kb ∧ k_target_user_id k = t)
         (t_shares (upsert_share kb t mask by_ ap parent st now d)) = Some k ∧
       k_permission_mask k = mask ∧ k_status k = st ∧ k_shared_by k = by_ ∧
       k_parent_share_id k = parent ∧ k_kb_id k = kb ∧ k_target_user_id k = t.
Proof.
  unfold upsert_share. destruct (fetchone _ (t_shares d)) as [k0|] eqn:Hf; simpl.
  - unfold fetchone, update_where in *. induction (t_shares d) as [|k l IH]; [done|].
    rewrite filter_cons in Hf. rewrite fmap_cons. cbv beta.
    destruct (decide (k_kb_id k = kb ∧ k_target_user_id k = t)) as [[? ?]|Hn].
    + eexists. rewrite filter_cons_True by done. split; [reflexivity|]. by split_and!.
    + rewrite filter_cons_False by done. by apply IH.
  - rewrite fetchone_app_None by done. eexists. unfold fetchone.
    rewrite filter_cons_True by done. split; [reflexivity|]. by split_and!.
Qed.

Lemma upsert_share_approved kb t mask by_ ap parent now d :
  store_wf d →
  ∃ k, approved_share (upsert_share kb t mask by_ ap parent "approved" now d) kb t = Some k ∧
       k_permission_mask k = mask ∧ k_shared_by k = by_.
Proof.
  intros Hwf. destruct (upsert_share_fetch kb t mask by_ ap parent "approved" now d)
    as (k & Hf & ? & ? & ? & ? & ? & ?).
  apply fetchone_Some in Hf as [Hin _]. exists k. split; [|done].
  eapply (fetchone_unique (λ k, (k_kb_id k, k_target_user_id k))); [|by intros y (-> & -> & _); subst|done|done].
  exact (wf_share_keys _ (upsert_share_wf kb t mask by_ ap parent "approved" now d Hwf)).
Qed.

(** ** Parts of a run *)

Lemma opt_or_owner o u : opt_or o "" = u → u ≠ "" → o = Some u.
Proof. destruct o as [s|]; simpl; [|congruence]. unfold py_or. case_decide; congruence. Qed.

Section parts.
Context `{Env}.

Lemma find_share_target_inv user login w t w' :
  find_share_target user login w = (Ok t, w') → w' = w ∧ t ≠ user.
Proof.
  unfold find_share_target, get_user_by_login. case_decide; run_goal; [done|].
  destruct (user_by_login _ _) as [u|]; [|done]. case_decide; [done|]. by intros [= <- <-].
Qed.

(** A created request is pending, under the name of its requester, and found
    under its id. *)
Lemma create_request_inv kb od ru sc targets tu reason perm parent w o w' :
  create_kb_share_request kb od ru sc targets tu reason perm parent w = (Ok o, w') →
  ∃ r, o = Some (request_view r) ∧ request_by_id (r_request_id r) (w_db w') = Some r ∧
       r_status r = "pending" ∧ r_requester_user_id r = ru ∧ r_kb_id r = kb ∧
       r_target_scope r = sc ∧ r_target_user_id r = tu ∧
       w_db w' = on_requests (λ t, t ++ [r]) (w_db w).
Proof.
  unfold create_kb_share_request. intros Hrun. run_in Hrun.
  bind_inv Hrun u w1 Hins. unfold with_conn, sql_try in Hins.
  match type of Hins with context [insert_request ?r ?d] => set (row := r) in Hins end.
  change (w_db (next_tick _)) with (w_db w) in Hins.
  unfold insert_request in Hins.
  destruct (fetchone _ _) as [x|] eqn:Hf; [done|]. injection Hins as _ <-.
  exists row. unfold get_kb_share_request in Hrun.
  assert (request_by_id (r_request_id row) (on_requests (λ t, t ++ [row]) (w_db w)) = Some row)
    as Hget.
  { unfold request_by_id. simpl. rewrite fetchone_app_None by done.
    unfold fetchone. by rewrite filter_cons_True. }
  cbn in Hrun. revert Hrun. intros [= <- <-].
  split_and!; try done. f_equal. exact (f_equal (fmap request_view) Hget).
Qed.

(** [add_kb_share] leaves an approved share with its mask. *)
Lemma add_kb_share_run kb t mask by_ parent ap w :
  store_wf (w_db w) →
  ∃ w', add_kb_share kb t mask by_ parent ap "approved" w = (Ok (), w') ∧
    store_wf (w_db w') ∧ t_requests (w_db w') = t_requests (w_db w) ∧
    t_policies (w_db w') = t_policies (w_db w) ∧ t_users (w_db w') = t_users (w_db w) ∧
    ∃ k, approved_share (w_db w') kb t = Some k ∧ k_permission_mask k = mask ∧
         k_shared_by k = by_.
Proof.
  intros Hwf. eexists. split; [reflexivity|]. cbn [w_db set_db next_tick].
  set (now := env_now _). split; [by apply upsert_share_wf|].
  split_and!; try (unfold upsert_share; by case_match). by apply upsert_share_approved.
Qed.
End parts.



(** ** Reviewing *)

(** The permission a requester may pass on: its own, or reading when it holds
    none *)
Definition sharer_cap (d : Db) (kb requester : string) : Z :=
  let cap := if decide (kb_policy_any d kb ≫= p_owner_user_id = Some requester) then PERM_FULL
             else kb_permission_of d kb requester in
  if cap <=? 0 then PERM_READ else cap.

Definition requested_mask (r : RequestRow) : Z :=
  if Z.land (r_requested_permission r) PERM_READ =? 0
  then Z.lor (r_requested_permission r) PERM_READ else r_requested_permission r.

Section review.
Context `{Env}.

Lemma has_kb_access_run kb user w :
  has_kb_access kb user w =
  (Ok (if decide (kb_policy_any (w_db w) kb ≫= p_owner_user_id = Some user) then PERM_FULL
       else kb_permission_of (w_db w) kb user), w).
Proof. unfold has_kb_access. run_goal. by case_decide. Qed.

(** A review of a pending request *)
Lemma review_request_run rid user ok comment w r :
  request_by_id rid (w_db w) = Some r → r_status r = "pending" →
  ∃ w' now, let r' := r_review (if ok : bool then "approved" else "rejected") user comment now r in
    review_kb_share_request rid user ok comment w = (Ok (Some (request_view r')), w') ∧
    request_by_id rid (w_db w') = Some r' ∧ t_shares (w_db w') = t_shares (w_db w) ∧
    t_policies (w_db w') = t_policies (w_db w) ∧
    t_user_departments (w_db w') = t_user_departments (w_db w) ∧
    evolves (w_db w) (w_db w').
Proof.
  intros Hr Hst. eexists _, (env_now (w_tick w)). cbv zeta.
  pose proof (moves_review_kb_share_request rid user ok comment w) as Hmv.
  assert (request_by_id rid (on_requests (update_where
    (λ r, r_request_id r = rid ∧ r_status r = "pending")
    (r_review (if ok then "approved" else "rejected") user comment (env_now (w_tick w))))
      (w_db w)) =
    Some (r_review (if ok then "approved" else "rejected") user comment (env_now (w_tick w)) r))
    as Hget.
  { unfold request_by_id. simpl. apply fetchone_update_where; [done| |done].
    by apply fetchone_Some in Hr as [_ <-]. }
  unfold review_kb_share_request. run_goal. split.
  - unfold get_kb_share_request. erewrite bind_run by reflexivity.
    refine (f_equal (λ x, (Ok x, _)) _). exact (f_equal (fmap request_view) Hget).
  - by split_and!.
Qed.

(** [upsert_policy] touches the policies only. *)
Lemma upsert_policy_frame rt rid od v c ou al de ro ca w :
  let w' := (upsert_policy rt rid od v c ou al de ro ca w).2 in
  t_shares (w_db w') = t_shares (w_db w) ∧ t_requests (w_db w') = t_requests (w_db w) ∧
  t_users (w_db w') = t_users (w_db w) ∧
  t_user_departments (w_db w') = t_user_departments (w_db w).
Proof.
  unfold upsert_policy. run_goal. unfold with_conn. run_goal.
  destruct (policy_by_key _ _ _); [by run_goal|]. run_goal.
  unfold sql_try, insert_policy. by destruct (fetchone _ _).
Qed.
End review.

(** Who may review a request *)
Definition may_review (d : Db) (user : string) (r : RequestRow) : bool :=
  admin_of d user "dept_mp" ||
  admin_of d user (normalize_dept_id (normalize_dept_id (r_owner_dept_id r))).

Lemma review_share_request_run `{Env} payload rid ok comment w r :
  request_by_id rid (w_db w) = Some r → r_status r = "pending" →
  if may_review (w_db w) (tok_user payload) r then
    ∃ w1 now, let r' := r_review (if ok : bool then "approved" else "rejected")
                          (tok_user payload) comment now r in
      review_share_request payload rid ok comment w =
        (when ok (apply_approved_request r' (tok_user payload)) ;; mret (request_view r')) w1 ∧
      request_by_id rid (w_db w1) = Some r' ∧ t_shares (w_db w1) = t_shares (w_db w) ∧
      t_policies (w_db w1) = t_policies (w_db w) ∧
      t_user_departments (w_db w1) = t_user_departments (w_db w) ∧ evolves (w_db w) (w_db w1)
  else ∃ e, review_share_request payload rid ok comment w = (Err e, w).
Proof.
  intros Hr Hst. unfold review_share_request.
  assert (get_kb_share_request rid w = (Ok (Some (request_view r)), w)) as Hget.
  { unfold get_kb_share_request. erewrite bind_run by reflexivity.
    refine (f_equal (λ x, (Ok x, w)) _). exact (f_equal (fmap request_view) Hr). }
  rewrite (bind_run _ _ _ _ _ Hget). cbv beta iota. rewrite decide_False by (simpl; tauto).
  unfold may_review. rewrite (bind_run _ _ _ _ _ (is_dept_admin_run _ _ _)).
  rewrite (bind_run _ _ _ _ _ (is_dept_admin_run _ _ _)). cbn [request_view rv_owner_dept_id].
  destruct (admin_of (w_db w) (tok_user payload) "dept_mp" || _) eqn:Ha.
  - rewrite <-negb_orb, Ha. cbn [negb].
    destruct (review_request_run rid (tok_user payload) ok comment w r Hr Hst)
      as (w1 & now & Hrun & ?). exists w1, now. split; [|done].
    by rewrite (bind_run _ _ _ _ _ Hrun).
  - rewrite <-negb_orb, Ha. eexists. reflexivity.
Qed.

(** Only administrators of the headquarters or of the owning department review:
    for anybody else [review_share_request] fails and changes nothing. *)
Theorem review_requires_admin `{Env} payload rid ok comment w r :
  request_by_id rid (w_db w) = Some r → r_status r = "pending" →
  may_review (w_db w) (tok_user payload) r = false →
  ∃ e, review_share_request payload rid ok comment w = (Err e, w).
Proof.
  intros Hr Hst Hno. pose proof (review_share_request_run payload rid ok comment w r Hr Hst) as Hrun.
  by rewrite Hno in Hrun.
Qed.

(** The grant of an approved request for a user, seen from the database it runs on *)
Lemma grant_requested_share_run `{Env} req policy user t w :
  store_wf (w_db w) →
  let cap := sharer_cap (w_db w) (r_kb_id req) (r_requester_user_id req) in
  if Z.lor (requested_mask req) cap =? cap then
    ∃ w', grant_requested_share req policy user t w = (Ok (), w') ∧
      (∃ k, approved_share (w_db w') (r_kb_id req) t = Some k ∧
            k_permission_mask k = requested_mask req) ∧ store_wf (w_db w')
  else
    ∃ m, grant_requested_share req policy user t w = (Err (PermissionError m), w).
Proof.
  intros Hwf cap. unfold grant_requested_share.
  rewrite (bind_run _ _ _ _ _ (has_kb_access_run _ _ _)).
  fold (sharer_cap (w_db w) (r_kb_id req) (r_requester_user_id req)).
  fold (requested_mask req). fold cap.
  destruct (Z.lor (requested_mask req) cap =? cap) eqn:Hle; [|by eexists].
  cbn [negb].
  destruct (add_kb_share_run (r_kb_id req) t (requested_mask req)
    (opt_or (p_owner_user_id policy) user) (r_parent_share_id req) user w Hwf)
    as (w' & Hrun & Hwf' & _ & _ & _ & k & Hk & Hm & _).
  exists w'. split_and!; [exact Hrun|by exists k|done].
Qed.

Lemma sharer_cap_frame d d' kb u :
  t_policies d' = t_policies d → t_shares d' = t_shares d → sharer_cap d' kb u = sharer_cap d kb u.
Proof.
  intros Hp Hs. unfold sharer_cap, kb_policy_any, kb_permission_of, approved_share.
  by rewrite Hp, Hs.
Qed.

Lemma reshare_policy_frame `{Env} policy kb od vis by_ ou allow w u w' :
  reshare_policy policy kb od vis by_ ou allow w = (Ok u, w') →
  t_shares (w_db w') = t_shares (w_db w) ∧ t_users (w_db w') = t_users (w_db w) ∧
  t_user_departments (w_db w') = t_user_departments (w_db w).
Proof.
  unfold reshare_policy, lift_res, mbind, M_bind. intros Hrun. destruct allow as [al|]; [|done].
  destruct (loads_norm_col _) as [de|]; [|done]. destruct (loads_col _) as [ro|]; [|done].
  match type of Hrun with upsert_policy ?a ?b ?c ?d ?e ?f ?g ?h ?i ?j w = _ =>
    pose proof (upsert_policy_frame a b c d e f g h i j w) as Hf end.
  cbv zeta in Hf. rewrite Hrun in Hf. cbn [snd] in Hf. tauto.
Qed.

(** Reading is always part of the mask of an approved request. *)
Lemma requested_mask_read r : has_read (requested_mask r) = true.
Proof.
  unfold requested_mask. destruct (Z.land _ PERM_READ =? 0) eqn:E.
  - rewrite has_read_lor. apply orb_true_r.
  - unfold has_read. by rewrite E.
Qed.

(** The approval of a request for a user, from the database with the request
    marked: the grant, then the policy *)
Lemma apply_user_request `{Env} req user t w u w' :
  r_target_scope req = "user" → r_target_user_id req = Some t → t ≠ "" →
  apply_approved_request req user w = (Ok u, w') →
  ∃ policy w1, grant_requested_share req policy user t w = (Ok (), w1) ∧
               t_shares (w_db w') = t_shares (w_db w1).
Proof.
  intros Hscope Ht Hne. unfold apply_approved_request.
  rewrite (bind_run _ _ _ _ _ (get_policy_run _ _ _)).
  destruct (policy_of _ _ _) as [policy|]; [|done]. intros Happly.
  bind_inv Happly allow w2 Hl. injection Hl as _ <-. rewrite Hscope, Ht in Happly.
  cbv zeta in Happly. rewrite decide_False in Happly by done.
  rewrite decide_False in Happly by done. rewrite decide_True in Happly by done.
  bind_inv Happly u2 w3 Hg. rewrite decide_False in Hg by done. destruct u2.
  exists policy, w3. split; [exact Hg|]. by apply reshare_policy_frame in Happly as [? _].
Qed.

(** C11. Approving a request for a user grants no more than the requester may pass on:
    after a successful approval the target has an approved share with the requested
    mask, which contains reading and lies within the requester's own permission
    (reading, when it has none). *)
Theorem review_grant_bounded `{Env} payload rid comment w r t view w' :
  store_wf (w_db w) →
  request_by_id rid (w_db w) = Some r → r_status r = "pending" →
  r_target_scope r = "user" → r_target_user_id r = Some t → t ≠ "" →
  review_share_request payload rid true comment w = (Ok view, w') →
  may_review (w_db w) (tok_user payload) r = true ∧
  ∃ k, approved_share (w_db w') (r_kb_id r) t = Some k ∧
    k_permission_mask k = requested_mask r ∧ has_read (k_permission_mask k) = true ∧
    let cap := sharer_cap (w_db w) (r_kb_id r) (r_requester_user_id r) in
    Z.lor (k_permission_mask k) cap = cap.
Proof.
  intros Hwf Hr Hst Hscope Ht Hne Hok.
  pose proof (review_share_request_run payload rid true comment w r Hr Hst) as Hrun.
  destruct (may_review _ _ _); [split; [done|]|destruct Hrun as [e He]; congruence].
  destruct Hrun as (w1 & now & Hrun & _ & Hsh & Hpol & _ & Hev). cbv zeta in Hrun.
  rewrite Hok in Hrun. symmetry in Hrun. set (r' := r_review _ _ _ _ _) in Hrun.
  assert (store_wf (w_db w1)) as Hwf1 by (by eapply evolves_wf).
  bind_inv Hrun u w2 Happly. injection Hrun as _ ->.
  apply (apply_user_request r' _ t) in Happly as (policy & w3 & Hg & Hshares); [|done..].
  pose proof (grant_requested_share_run r' policy (tok_user payload) t w1 Hwf1) as Hgrant.
  cbv zeta in Hgrant. rewrite (sharer_cap_frame (w_db w) (w_db w1)) in Hgrant by done.
  destruct (Z.lor (requested_mask r') _ =? _) eqn:Hle; [|destruct Hgrant; congruence].
  destruct Hgrant as (w4 & Hg' & (k & Hk & Hm) & _). rewrite Hg in Hg'. injection Hg' as <-.
  exists k. split; [unfold approved_share in *; by rewrite Hshares|].
  rewrite Hm. split_and!; [done|apply requested_mask_read|]. by apply Z.eqb_eq.
Qed.

(** The cap is checked only after the request is marked: an approval that the
    cap refuses fails with a permission error and grants nothing, but leaves the
    request approved. *)
Theorem review_cap_failure_commits `{Env} payload rid comment w r t :
  store_wf (w_db w) →
  request_by_id rid (w_db w) = Some r → r_status r = "pending" →
  r_target_scope r = "user" → r_target_user_id r = Some t → t ≠ "" →
  may_review (w_db w) (tok_user payload) r = true →
  is_Some (policy_of "kb" (r_kb_id r) (w_db w)) →
  (let cap := sharer_cap (w_db w) (r_kb_id r) (r_requester_user_id r) in
   Z.lor (requested_mask r) cap ≠ cap) →
  ∃ m w' r', review_share_request payload rid true comment w = (Err (PermissionError m), w') ∧
    request_by_id rid (w_db w') = Some r' ∧ r_status r' = "approved" ∧
    t_shares (w_db w') = t_shares (w_db w).
Proof.
  intros Hwf Hr Hst Hscope Ht Hne Hadm [policy Hp] Hcap. cbv zeta in Hcap.
  pose proof (review_share_request_run payload rid true comment w r Hr Hst) as Hrun.
  rewrite Hadm in Hrun. destruct Hrun as (w1 & now & Hrun & Hget & Hsh & Hpol & _ & Hev).
  cbv zeta in *. set (r' := r_review _ _ _ _ _) in *.
  assert (store_wf (w_db w1)) as Hwf1 by (by eapply evolves_wf).
  pose proof (grant_requested_share_run r' policy (tok_user payload) t w1 Hwf1) as Hgrant.
  cbv zeta in Hgrant. rewrite (sharer_cap_frame (w_db w) (w_db w1)) in Hgrant by done.
  change (requested_mask r') with (requested_mask r) in Hgrant.
  rewrite (proj2 (Z.eqb_neq _ _)) in Hgrant by exact Hcap. destruct Hgrant as [m Hgrant].
  exists m, w1, r'. split_and!; [|done|done|done]. rewrite Hrun. cbn [when].
  apply bind_err. unfold apply_approved_request.
  rewrite (bind_run _ _ _ _ _ (get_policy_run _ _ _)).
  assert (policy_of "kb" (r_kb_id r') (w_db w1) = Some policy) as ->
    by (unfold policy_of in *; by rewrite Hpol).
  pose proof (wf_policy_cols _ Hwf1) as Hcols. rewrite Forall_forall in Hcols.
  assert (policy ∈ t_policies (w_db w1)) as Hin
    by (rewrite Hpol; by apply policy_of_elem in Hp as [? _]).
  destruct (Hcols policy Hin) as ([la Hla] & _).
  assert (loads_norm_col (p_allow_dept_ids_json policy) = Ok (normalize_dept_id <$> la)) as Hn
    by (unfold loads_norm_col; by rewrite Hla, loads_col_dumps).
  erewrite bind_run by (rewrite Hn; reflexivity). cbv zeta.
  change (r_target_scope r') with (r_target_scope r). rewrite Hscope.
  rewrite decide_False by done. rewrite decide_False by done. rewrite decide_True by done.
  apply bind_err. change (r_target_user_id r') with (r_target_user_id r). rewrite Ht.
  by rewrite decide_False.
Qed.

Lemma review_requires_admin_witness :
  ∃ e, review_share_request (demo_payload "u_b" ["dept_mp_q"]) "r1" true "" demo_world =
       (Err e, demo_world).
Proof.
  apply (review_requires_admin _ "r1" true "" demo_world (demo_request "r1" 7));
    vm_compute; reflexivity.
Defined.

(** The portal in which [r1] asks for no more than its requester holds *)
Definition demo_world_within : World :=
  set_db (on_requests (λ _, [demo_request "r1" 5]) demo_db) demo_world.

Lemma demo_within_wf : store_wf (w_db demo_world_within).
Proof.
  destruct demo_wf. split; simpl; try done.
  constructor; [|constructor]. split; [by left|by exists []].
Defined.

Lemma review_grant_bounded_witness :
  ∃ w', ∃ k, approved_share (w_db w') "kb2" "u_c" = Some k ∧ k_permission_mask k = 5 ∧
    Z.lor (k_permission_mask k) (sharer_cap demo_db "kb2" "u_b") = sharer_cap demo_db "kb2" "u_b".
Proof.
  pose (run := review_share_request (demo_payload "u_c" ["dept_mp"]) "r1" true "" demo_world_within).
  exists run.2.
  assert (∃ v, run = (Ok v, run.2)) as [v Hrun] by (eexists; vm_compute; reflexivity).
  destruct (review_grant_bounded (demo_payload "u_c" ["dept_mp"]) "r1" "" demo_world_within
    (demo_request "r1" 5) "u_c" v run.2) as (_ & k & Hk & Hm & _ & Hc);
    [apply demo_within_wf|reflexivity|reflexivity|reflexivity|reflexivity|discriminate|exact Hrun|].
  exists k. split; [exact Hk|]. split; [exact Hm|exact Hc].
Defined.

Lemma review_cap_failure_commits_witness :
  ∃ m w' r', review_share_request (demo_payload "u_c" ["dept_mp"]) "r1" true "" demo_world =
      (Err (PermissionError m), w') ∧
    request_by_id "r1" (w_db w') = Some r' ∧ r_status r' = "approved" ∧
    t_shares (w_db w') = t_shares demo_db.
Proof.
  apply (review_cap_failure_commits _ "r1" "" demo_world (demo_request "r1" 7) "u_c").
  - apply demo_wf.
  - reflexivity.
  - reflexivity.
  - reflexivity.
  - reflexivity.
  - discriminate.
  - vm_compute. reflexivity.
  - eexists. vm_compute. reflexivity.
  - vm_compute. discriminate.
Defined.
