(* ===== verification/RevokeProps.v ===== *)
(** Theorems on what deleting a knowledge base, unsharing it and cleaning up after
    the data store leave behind. *)
From S2P Require Import Prelude PyText Json Digest Schema Effects Steps StoreUsers StorePolicy.
From S2P Require Import StoreSessions StoreRequests StoreStep StoreInv GatewayToken GatewayAccess.
From S2P Require Import GatewayShare Demo AccessProps Run ShareProps.

Local Open Scope Z_scope.

(** ** [cascade_cleanup_kb] *)

(** Nothing refers to the knowledge base any more; everything else is as it was. *)
Definition forgets (kb : string) (d d' : Db) : Prop :=
  let affected := sessions_using kb d in
  t_shares d' = delete_where (λ k, k_kb_id k = kb) (t_shares d) ∧
  t_requests d' = delete_where (λ r, r_kb_id r = kb) (t_requests d) ∧
  t_messages d' = delete_where (λ m, m_session_id m ∈ affected) (t_messages d) ∧
  sessions_using kb d' = [] ∧
  (∀ s, s_session_id s ∉ affected → s ∈ t_sessions d' ↔ s ∈ t_sessions d) ∧
  (∀ s, s ∈ t_sessions d' → s_session_id s ∈ affected → s_is_active s = false) ∧
  t_users d' = t_users d ∧ t_user_departments d' = t_user_departments d ∧
  t_audit d' = t_audit d.

Section cascade.
Context `{Env}.

(** The loop over the affected sessions *)
Lemma drop_sessions_run now affected n w :
  ∃ n' w', for_fold (λ acc sid,
      n ← sql_query (λ d, rowcount (λ m, m_session_id m = sid) (t_messages d));
      sql_exec (on_messages (delete_where (λ m, m_session_id m = sid))) ;;
      sql_exec (on_sessions (update_where (λ s, s_session_id s = sid) (s_deactivate now))) ;;
      mret (acc + n)%nat) n affected w = (Ok n', w') ∧
    w_registry w' = w_registry w ∧ w_tick w' = w_tick w ∧ w_calls w' = w_calls w ∧
    w_db w' = on_messages (delete_where (λ m, m_session_id m ∈ affected))
      (on_sessions (update_where (λ s, s_session_id s ∈ affected) (s_deactivate now)) (w_db w)) ∧
    (n' + length (t_messages (w_db w')) = n + length (t_messages (w_db w)))%nat.
Proof.
  revert n w. induction affected as [|sid l IH]; intros n w; cbn [for_fold].
  - exists n, w. split_and!; try done. destruct w as [[] g t c]. unfold on_messages, on_sessions. simpl.
    f_equal.
    + symmetry. apply update_where_id. by intros ? _ ?%elem_of_nil.
    + symmetry. apply delete_where_id. by intros ? _ ?%elem_of_nil.
  - erewrite bind_run by reflexivity. cbv beta.
    match goal with |- context [for_fold _ ?n0 l ?w0] =>
      destruct (IH n0 w0) as (n' & w' & Hrun & Hreg & Ht & Hc & Hdb & Hn) end.
    exists n', w'. split; [exact Hrun|]. split_and!; try done.
    + rewrite Hdb. unfold on_messages, on_sessions. simpl. f_equal.
      * apply update_where_compose; [|done|done]. intros x. rewrite elem_of_cons. tauto.
      * apply delete_where_compose. intros x. rewrite elem_of_cons. tauto.
    + rewrite Hn. cbn [w_db set_db on_messages on_sessions t_messages].
      pose proof (length_delete_where (λ m, m_session_id m = sid) (t_messages (w_db w))). lia.
Qed.

Lemma sessions_using_after kb now d :
  sessions_using kb (on_sessions (update_where (λ s, s_session_id s ∈ sessions_using kb d)
    (s_deactivate now)) d) = [].
Proof.
  set (affected := sessions_using kb d). unfold sessions_using. simpl.
  destruct (filter _ _) as [|x l] eqn:E; [done|].
  assert (x ∈ x :: l) as Hx by left. rewrite <-E in Hx.
  apply list_elem_of_filter in Hx as [(Ha & Hne & Hkb) Hx].
  apply elem_of_update_where in Hx as (y & Hy & ->).
  case_decide as Hin; [done|]. destruct Hin. apply list_elem_of_fmap. exists y.
  split; [done|]. by apply list_elem_of_filter.
Qed.

Lemma cascade_run kb w :
  py_strip kb ≠ "" →
  ∃ c w', cascade_cleanup_kb kb w = (Ok c, w') ∧
    w_registry w' = w_registry w ∧ w_calls w' = w_calls w ∧
    forgets (py_strip kb) (w_db w) (w_db w') ∧ t_policies (w_db w') = t_policies (w_db w) ∧
    cl_kb_id c = py_strip kb ∧ cl_session_ids c = sessions_using (py_strip kb) (w_db w) ∧
    cl_deleted_kb_shares c = rowcount (λ k, k_kb_id k = py_strip kb) (t_shares (w_db w)) ∧
    cl_deleted_share_requests c = rowcount (λ r, r_kb_id r = py_strip kb) (t_requests (w_db w)) ∧
    (cl_deleted_messages c + length (t_messages (w_db w')) = length (t_messages (w_db w)))%nat.
Proof.
  intros Hkb. unfold cascade_cleanup_kb. rewrite decide_False by done.
  set (kb' := py_strip kb). run_goal. unfold with_conn. run_goal.
  match goal with |- context [mbind _ (for_fold _ ?n0 ?l) ?w0] =>
    destruct (drop_sessions_run (env_now (w_tick w)) l n0 w0)
      as (n' & w' & Hrun & Hreg & Ht & Hc & Hdb & Hn);
    rewrite (bind_run _ _ _ _ _ Hrun); change l with (sessions_using kb' (w_db w)) in * end.
  eexists _, _. split; [reflexivity|]. cbn. split; [done|]. split; [done|].
  assert (t_shares (w_db w') = delete_where (λ k, k_kb_id k = kb') (t_shares (w_db w))) as Hs
    by (by rewrite Hdb). split; [|split_and!; [by rewrite Hdb|done..|]].
  - split; [done|]. rewrite Hdb. split; [done|]. split; [done|]. split.
    { exact (sessions_using_after kb' _ (w_db w)). }
    split; [|split; [|done]].
    + intros s Hsid. simpl. rewrite elem_of_update_where. split.
      * intros (y & Hy & ->). case_decide; done.
      * intros Hin. exists s. by rewrite decide_False.
    + intros s Hin Hsid. simpl in Hin. apply elem_of_update_where in Hin as (y & Hy & ->).
      case_decide; [done|]. done.
  - rewrite Hn. done.
Qed.
End cascade.

(** [cascade_cleanup_kb] never fails and leaves nothing that refers to the
    knowledge base: its shares and requests are deleted, the active sessions that
    search it are closed and their messages deleted, and all other rows stay; the
    counts it reports are the numbers of rows it removed. *)
Theorem cascade_cleanup_exact `{Env} kb w :
  py_strip kb ≠ "" →
  ∃ c w', cascade_cleanup_kb kb w = (Ok c, w') ∧ forgets (py_strip kb) (w_db w) (w_db w') ∧
    t_policies (w_db w') = t_policies (w_db w) ∧
    cl_session_ids c = sessions_using (py_strip kb) (w_db w) ∧
    (cl_deleted_kb_shares c + length (t_shares (w_db w')) = length (t_shares (w_db w)))%nat ∧
    (cl_deleted_share_requests c + length (t_requests (w_db w')) =
       length (t_requests (w_db w)))%nat ∧
    (cl_deleted_messages c + length (t_messages (w_db w')) = length (t_messages (w_db w)))%nat.
Proof.
  intros Hkb. destruct (cascade_run kb w Hkb)
    as (c & w' & Hrun & _ & _ & Hf & Hp & _ & Hids & Hs & Hr & Hm).
  exists c, w'. split_and!; try done; [|].
  - rewrite Hs. destruct Hf as (-> & _). rewrite Nat.add_comm. apply length_delete_where.
  - rewrite Hr. destruct Hf as (_ & -> & _). rewrite Nat.add_comm. apply length_delete_where.
Qed.

Lemma cascade_cleanup_exact_witness :
  ∃ c w', cascade_cleanup_kb "kb2" demo_world = (Ok c, w') ∧
    forgets "kb2" demo_db (w_db w') ∧ cl_session_ids c = ["s1"].
Proof.
  destruct (cascade_cleanup_exact "kb2" demo_world) as (c & w' & Hrun & Hf & _ & Hids & _);
    [discriminate|].
  exists c, w'. split; [exact Hrun|]. split; [exact Hf|]. rewrite Hids. reflexivity.
Defined.

(** ** Deleting *)

Definition delete_call (cfg : PortalConfig) (key kb : string) : ExtCall :=
  CallHttp "DELETE" (base_url cfg +:+ "/api/v1/datasets") (Some ("Bearer " +:+ key))
    (JObj [("ids", json_strs [kb])]).

(** The RAGFlow key stored for a user *)
Definition user_key (d : Db) (user : string) : string :=
  match user_by_id user d with Some r => opt_or (u_ragflow_token r) "" | None => "" end.

Section delete.
Context `{Env} `{Crypto} (cfg : PortalConfig).

Lemma pops_run l w :
  ∃ w', for_each registry_pop l w = (Ok (), w') ∧ w_db w' = w_db w ∧ w_calls w' = w_calls w ∧
    ∀ sid, sid ∈ l → w_registry w' !! sid = None.
Proof.
  revert w. induction l as [|sid l IH]; intros w; [exists w; split_and!; try done; by intros ? ?%elem_of_nil|].
  simpl. erewrite bind_run by reflexivity.
  destruct (IH (set_registry (delete sid (w_registry w)) w)) as (w' & Hrun & Hdb & Hc & Hn).
  exists w'. split_and!; try done. intros sid' [->|Hin]%elem_of_cons; [|by apply Hn].
  destruct (decide (sid ∈ l)) as [|Hni]; [by apply Hn|].
  clear -Hrun Hni. assert (∀ g w, w_registry w !! sid = g →
    w_registry (for_each registry_pop l w).2 !! sid = g) as Hk.
  { clear Hrun. induction l as [|x l IH]; intros g w0 Hg; [done|]. cbn.
    apply IH; [set_solver|]. simpl. rewrite lookup_delete_ne; [done|]. set_solver. }
  specialize (Hk None (set_registry (delete sid (w_registry w)) w) (lookup_delete_eq _ _)).
  by rewrite Hrun in Hk.
Qed.

Lemma deactivated_policy kb now t :
  fetchone (λ p, p_resource_type p = "kb" ∧ p_resource_id p = kb ∧ p_is_active p = true)
    (update_where (λ p, p_resource_type p = "kb" ∧ p_resource_id p = kb) (p_deactivate now) t) = None.
Proof.
  apply fetchone_None. intros x Hx. apply elem_of_update_where in Hx as (y & _ & ->).
  case_decide as Hk; intros (? & ? & ?); [done|]. by destruct Hk.
Qed.

Lemma deactivated_other kb kb' now t p :
  kb' ≠ kb →
  fetchone (λ p, p_resource_type p = "kb" ∧ p_resource_id p = kb' ∧ p_is_active p = true)
    (update_where (λ p, p_resource_type p = "kb" ∧ p_resource_id p = kb) (p_deactivate now) t) = Some p →
  fetchone (λ p, p_resource_type p = "kb" ∧ p_resource_id p = kb' ∧ p_is_active p = true) t = Some p.
Proof.
  intros Hne. unfold fetchone, update_where. induction t as [|x t IH]; [done|].
  rewrite fmap_cons, !filter_cons.
  destruct (decide (p_resource_type x = "kb" ∧ p_resource_id x = kb)) as [[? ?]|Hx].
  - rewrite decide_False by (simpl; naive_solver).
    rewrite decide_False by naive_solver. exact IH.
  - destruct (decide _); [done|exact IH].
Qed.

(** The rights that are left are rights that were there. *)
Definition rights_shrink (d d' : Db) : Prop :=
  (∀ kb p, policy_of "kb" kb d' = Some p → policy_of "kb" kb d = Some p) ∧
  (∀ k, k ∈ t_shares d' → k ∈ t_shares d) ∧
  t_users d' = t_users d ∧ t_user_departments d' = t_user_departments d.

Lemma forget_kb_run kb w :
  clean_id kb →
  ∃ c w', forget_kb kb w = (Ok c, w') ∧ w_calls w' = w_calls w ∧
    forgets kb (w_db w) (w_db w') ∧ policy_of "kb" kb (w_db w') = None ∧
    (∀ sid, sid ∈ sessions_using kb (w_db w) → w_registry w' !! sid = None) ∧
    rights_shrink (w_db w) (w_db w').
Proof.
  intros [Hne Hkb]. unfold forget_kb.
  destruct (cascade_run kb w) as (c & w1 & Hrun & _ & Hcalls & Hf & Hp & _ & Hids & _);
    [by rewrite Hkb|].
  rewrite Hkb in Hf, Hids. rewrite (bind_run _ _ _ _ _ Hrun).
  destruct (pops_run (cl_session_ids c) w1) as (w2 & Hpop & Hdb & Hc2 & Hreg).
  rewrite (bind_run _ _ _ _ _ Hpop). run_goal. eexists c, _. split; [reflexivity|].
  simpl. rewrite Hdb. split; [congruence|]. split; [exact Hf|].
  split; [apply deactivated_policy|]. split; [by rewrite <-Hids|].
  destruct Hf as (Hs & _ & _ & _ & _ & _ & Hu & Hud & _). split_and!; [| |done|done].
  - intros kb' p Hp'. unfold policy_of in *. simpl in Hp'. rewrite Hp in Hp'.
    destruct (decide (kb' = kb)) as [->|Hk]; [by rewrite deactivated_policy in Hp'|].
    eapply deactivated_other; [exact Hk|exact Hp'].
  - intros k. simpl. rewrite Hs. intros Hk. by apply elem_of_delete_where in Hk as [? _].
Qed.
End delete.

(** C18. Deleting a private knowledge base: only its owner can; RAGFlow is asked to
    delete it with the owner's key, nothing refers to it afterwards, and nobody has
    any permission on it. A failure leaves the portal as it was. *)
Theorem delete_private_kb_exact `{Env} `{Crypto} cfg payload kb w r w' :
  clean_id kb → delete_private_kb cfg payload kb w = (r, w') →
  match r with
  | Err _ => w_db w' = w_db w ∧ w_registry w' = w_registry w
  | Ok b => b = true ∧
      (∃ p, policy_of "kb" kb (w_db w) = Some p ∧ visibility_of "" p = "private" ∧
            p_owner_user_id p = Some (tok_user payload)) ∧
      w_calls w' = w_calls w ++
        [delete_call cfg (py_or (user_key (w_db w) (tok_user payload)) (api_key cfg)) kb] ∧
      forgets kb (w_db w) (w_db w') ∧
      (∀ sid, sid ∈ sessions_using kb (w_db w) → w_registry w' !! sid = None) ∧
      ∀ depts selected user,
        (effective_kb_permission depts selected kb user None w').1 = Ok 0
  end.
Proof.
  intros Hkb. unfold delete_private_kb, require_user.
  destruct (decide (tok_user payload = "")) as [|Hu]; [by intros [= <- <-]|].
  run_goal. unfold mbind at 1, M_bind at 1. rewrite require_kb_run.
  destruct (policy_of "kb" kb (w_db w)) as [p|] eqn:Hp; [|by intros [= <- <-]].
  run_goal. case_decide as Hvis; [by intros [= <- <-]|].
  case_decide as Ho; [by intros [= <- <-]|].
  rewrite Ho. run_goal. change (match user_by_id _ _ with Some r => _ | None => _ end)
    with (user_key (w_db w) (tok_user payload)).
  set (key := py_or (user_key (w_db w) (tok_user payload)) (api_key cfg)).
  unfold mbind at 1, M_bind at 1. unfold delete_dataset, http_send, ext, mbind at 1, M_bind at 1.
  destruct (env_answer_http _ _ _ _ _) as [resp|e]; [|by intros [= <- <-]].
  destruct (forget_kb_run kb (log_call (delete_call cfg key kb) w) Hkb)
    as (c & w1 & Hrun & Hcalls & Hf & Hnone & Hreg & _).
  intros Hr. simpl in Hr. fold (delete_call cfg key kb) in Hr.
  erewrite bind_run in Hr by exact Hrun. injection Hr as <- <-.
  split; [done|]. split; [exists p; split_and!; [done|done|by apply opt_or_owner]|].
  split; [by rewrite Hcalls|]. split; [exact Hf|]. split; [exact Hreg|].
  intros depts selected user. destruct Hkb as [_ Hkb].
  rewrite effective_none; [done|by rewrite Hkb|]. rewrite Hkb.
  apply fetchone_None. intros k Hk (Hkk & _). destruct Hf as (Hs & _). rewrite Hs in Hk.
  by apply elem_of_delete_where in Hk as [_ ?].
Qed.

Lemma delete_private_kb_exact_witness :
  ∃ w', delete_private_kb demo_cfg (demo_payload "u_a" []) "kb1" demo_world = (Ok true, w') ∧
    w_calls w' = [delete_call demo_cfg "Alice-token" "kb1"] ∧ forgets "kb1" demo_db (w_db w').
Proof.
  eexists. split; [vm_compute; reflexivity|].
  match goal with |- context [forgets _ _ (w_db ?w1)] =>
    destruct (delete_private_kb_exact demo_cfg (demo_payload "u_a" []) "kb1" demo_world (Ok true) w1)
      as (_ & _ & Hc & Hf & _) end.
  - split; [discriminate|reflexivity].
  - vm_compute. reflexivity.
  - split; [reflexivity|exact Hf].
Defined.

(** ** Deleting several *)

(** Who may delete a knowledge base: the headquarters, its owner, and whoever has a
    share that may write *)
Definition may_delete (d : Db) (user kb : string) : Prop :=
  ∃ p, policy_of "kb" kb d = Some p ∧
    (admin_of d user "dept_mp" = true ∨ p_owner_user_id p = Some user ∨
     has_write (kb_permission_of d kb user) = true).

(** The key a knowledge base is deleted with *)
Definition delete_key (cfg : PortalConfig) (d : Db) (p : PolicyRow) : string :=
  let owner := opt_or (p_owner_user_id p) "" in
  if decide (owner = "") then api_key cfg else user_key d owner.

#[export] Instance rights_shrink_preorder : PreOrder rights_shrink.
Proof.
  split; [by intros d|]. intros d1 d2 d3 (P1 & S1 & U1 & D1) (P2 & S2 & U2 & D2).
  split_and!; [auto|auto|congruence|congruence].
Qed.

Lemma shrink_permission d d' kb user :
  store_wf d → rights_shrink d d' → has_write (kb_permission_of d' kb user) = true →
  has_write (kb_permission_of d kb user) = true.
Proof.
  intros Hwf (_ & Hs & _). unfold kb_permission_of.
  destruct (approved_share d' kb user) as [k|] eqn:Hk; [|done].
  apply fetchone_Some in Hk as (Hin & Hkb & Hu & Hst). apply Hs in Hin.
  assert (approved_share d kb user = Some k) as ->; [|done].
  apply (fetchone_unique (λ k, (k_kb_id k, k_target_user_id k)));
    [exact (wf_share_keys d Hwf)|by intros y (-> & -> & _); subst|done|done].
Qed.

Section delete_several.
Context `{Env} `{Crypto} (cfg : PortalConfig).
Context (depts : gset string) (selected user : string) (is_mp : bool) (Huser : clean_id user).

(** The check of the rights on one knowledge base *)
Lemma delete_guard kb p w :
  clean_id kb →
  let guard : M unit :=
    if negb is_mp && negb (bool_decide (opt_or (p_owner_user_id p) "" = user)) then
      perm ← effective_kb_permission depts selected kb user (Some p);
      if negb (has_write perm) then raise (PermissionError "只有所有者或可改写权限用户才能删除")
      else mret ()
    else mret () in
  (∃ e, guard w = (Err e, w)) ∨
  guard w = (Ok (), w) ∧
  (is_mp = true ∨ p_owner_user_id p = Some user ∨
   has_write (kb_permission_of (w_db w) kb user) = true).
Proof using H Huser.
  intros Hkb. cbv zeta. destruct is_mp; [right; by split; [|left]|]. simpl.
  case_bool_decide as Ho; simpl.
  { right. split; [done|]. right. left. apply opt_or_owner; [done|by destruct Huser]. }
  destruct (effective_kb_permission depts selected kb user (Some p) w) as [[mask|e] w1] eqn:He.
  - pose proof He as Hw. apply effective_write_inv in Hw as [-> Hw].
    rewrite !(bind_run _ _ _ _ _ He). destruct (has_write mask); [|left; by eexists].
    right. split; [done|]. right. destruct Hkb as [_ Hkb], Huser as [_ Hu].
    rewrite Hkb, Hu in Hw. destruct (Hw eq_refl); [|by right].
    left. apply opt_or_owner; [done|]. by destruct Huser.
  - pose proof (effective_world depts selected kb user (Some p) w) as Hw.
    rewrite He in Hw. simpl in Hw. subst w1. left. exists e. by apply bind_err.
Qed.

Lemma delete_one_inv acc kb w r w' :
  clean_id kb → delete_one_kb cfg depts selected user is_mp acc kb w = (r, w') →
  rights_shrink (w_db w) (w_db w') ∧
  ((∃ p, policy_of "kb" kb (w_db w) = Some p ∧
     (is_mp = true ∨ p_owner_user_id p = Some user ∨
      has_write (kb_permission_of (w_db w) kb user) = true) ∧
     w_calls w' = w_calls w ++ [delete_call cfg (delete_key cfg (w_db w) p) kb]) ∨
   w_calls w' = w_calls w ∧ ∃ e, r = Err e) ∧
  ∀ acc', r = Ok acc' → acc'.1 = acc.1 ++ [kb] ∧ policy_of "kb" kb (w_db w') = None.
Proof using Huser.
  intros Hkb Hrun. unfold delete_one_kb in Hrun. unfold mbind at 1, M_bind at 1 in Hrun.
  rewrite require_kb_run in Hrun.
  destruct (policy_of "kb" kb (w_db w)) as [p|] eqn:Hp; [|injection Hrun as <- <-; naive_solver].
  cbv zeta in Hrun.
  destruct (delete_guard kb p w Hkb) as [[e Hm]|[Hm Hmay]].
  { rewrite (bind_err _ _ _ _ _ Hm) in Hrun. injection Hrun as <- <-. naive_solver. }
  rewrite (bind_run _ _ _ _ _ Hm) in Hrun.
  set (key := delete_key cfg (w_db w) p).
  assert ((if decide (opt_or (p_owner_user_id p) "" = "") then mret (api_key cfg)
           else get_user_ragflow_token (opt_or (p_owner_user_id p) "")) w = (Ok key, w)) as Hkey.
  { unfold key, delete_key. by case_decide. }
  rewrite (bind_run _ _ _ _ _ Hkey) in Hrun.
  assert (∃ r0, delete_dataset cfg key kb w = (r0, log_call (delete_call cfg key kb) w)) as [r0 Hdel].
  { unfold delete_dataset, http_send, ext, mbind, M_bind. by destruct (env_answer_http _ _ _ _ _); eexists. }
  destruct r0 as [[]|e].
  - rewrite (bind_run _ _ _ _ _ Hdel) in Hrun.
    destruct (forget_kb_run kb (log_call (delete_call cfg key kb) w) Hkb)
      as (c & w1 & Hf & Hcalls & _ & Hnone & _ & Hsh).
    rewrite (bind_run _ _ _ _ _ Hf) in Hrun. injection Hrun as <- <-.
    split; [exact Hsh|]. split; [left; by exists p|]. by intros acc' [= <-].
  - rewrite (bind_err _ _ _ _ _ Hdel) in Hrun. injection Hrun as <- <-.
    split; [done|]. split; [left; by exists p|done].
Qed.
End delete_several.

Section delete_loop.
Context `{Env} `{Crypto} (cfg : PortalConfig).
Context (depts : gset string) (selected user : string) (Huser : clean_id user).

(** A call that deletes a knowledge base the user may delete, with its owner's key *)
Definition rightful_delete (d : Db) (kbs : list string) (c : ExtCall) : Prop :=
  ∃ kb p, kb ∈ kbs ∧ may_delete d user kb ∧ policy_of "kb" kb d = Some p ∧
    c = delete_call cfg (delete_key cfg d p) kb.

Lemma delete_loop_inv d0 acc kbs w r w' :
  store_wf d0 → Forall clean_id kbs → rights_shrink d0 (w_db w) →
  for_fold (delete_one_kb cfg depts selected user (admin_of d0 user "dept_mp")) acc kbs w = (r, w') →
  rights_shrink (w_db w) (w_db w') ∧
  (∃ calls, w_calls w' = w_calls w ++ calls ∧ Forall (rightful_delete d0 kbs) calls) ∧
  ∀ acc', r = Ok acc' → acc'.1 = acc.1 ++ kbs ∧ ∀ kb, kb ∈ kbs → policy_of "kb" kb (w_db w') = None.
Proof using Huser.
  intros Hwf Hkbs. revert acc w. induction Hkbs as [|kb kbs Hkb Hkbs IH]; intros acc w Hsh; cbn [for_fold].
  { intros [= <- <-]. split; [done|]. split; [exists []; by rewrite app_nil_r|].
    intros acc' [= <-]. rewrite app_nil_r. split; [done|by intros ? ?%elem_of_nil]. }
  unfold mbind, M_bind. destruct (delete_one_kb _ _ _ _ _ acc kb w) as [r1 w1] eqn:H1.
  apply delete_one_inv in H1 as (Hsh1 & Hcall & Hok); [|done|done].
  assert (rights_shrink d0 (w_db w1)) as Hsh' by (by etrans).
  assert (∃ calls, w_calls w1 = w_calls w ++ calls ∧ Forall (rightful_delete d0 (kb :: kbs)) calls)
    as (calls1 & Hc1 & Hf1).
  { destruct Hcall as [(p & Hp & Hmay & Hc)|[Hc _]]; [|exists []; by rewrite app_nil_r].
    eexists. split; [exact Hc|]. constructor; [|constructor].
    destruct Hsh as (HP & HS & HU & HD). apply HP in Hp. exists kb, p. split; [left|].
    split; [exists p; split; [done|]|split; [done|]].
    - destruct Hmay as [?|[?|?]]; [by left|right; by left|right; right].
      by eapply (shrink_permission d0 (w_db w)).
    - unfold delete_key, user_key, user_by_id. by rewrite HU. }
  destruct r1 as [acc1|e]; [|intros [= <- <-]; split; [done|split; [by exists calls1|done]]].
  intros Hrun. destruct (IH acc1 w1 Hsh' Hrun) as (Hsh2 & (calls2 & Hc2 & Hf2) & Hok2).
  split; [by etrans|]. destruct (Hok acc1 eq_refl) as [Hacc Hnone]. split.
  - exists (calls1 ++ calls2). split; [by rewrite Hc2, Hc1, app_assoc|]. apply Forall_app. split; [done|].
    eapply Forall_impl; [exact Hf2|]. intros c (kb' & p & Hin & ?). exists kb', p. split; [by right|done].
  - intros acc' Hr. destruct (Hok2 acc' Hr) as [Hacc' Hall].
    split; [by rewrite Hacc', Hacc, <-app_assoc|].
    intros kb' [->|Hin]%elem_of_cons; [|by apply Hall].
    destruct (policy_of "kb" kb (w_db w')) as [p|] eqn:Hp; [|done].
    apply Hsh2 in Hp. congruence.
Qed.
End delete_loop.


