(* ===== verification/UnshareProps.v ===== *)
(** Theorems on unsharing, on sharing with departments, on the revocation of single
    shares, and on what the synchronisation with RAGFlow does to policies. *)
From S2P Require Import Prelude PyText Json Digest Schema Effects Steps StoreUsers StorePolicy.
From S2P Require Import StoreSessions StoreRequests StoreStep StoreInv GatewayToken GatewayAccess.
From S2P Require Import GatewayShare Demo AccessProps Run ShareProps.

Local Open Scope Z_scope.

(** ** Policies *)

(** Everything but the policies *)
Definition same_but_policies (d d' : Db) : Prop :=
  t_users d' = t_users d ∧ t_user_departments d' = t_user_departments d ∧
  t_shares d' = t_shares d ∧ t_requests d' = t_requests d ∧ t_sessions d' = t_sessions d ∧
  t_messages d' = t_messages d ∧ t_audit d' = t_audit d.

Lemma policy_of_by_key d rt rid p :
  store_wf d → policy_of rt rid d = Some p → policy_by_key rt rid d = Some p.
Proof.
  intros Hwf Hp. apply policy_of_elem in Hp as (Hin & <- & <- & _).
  apply (fetchone_unique (λ p, (p_resource_type p, p_resource_id p)));
    [exact (wf_policy_keys d Hwf)|by intros y [-> ->]|done|done].
Qed.

Section upsert.
Context `{Env}.

(** [upsert_policy] on a resource that has a policy, active or not *)
Lemma upsert_policy_run rt rid od vis by_ ou al de ro ca w p :
  store_wf (w_db w) → policy_by_key rt rid (w_db w) = Some p →
  ∃ now w', upsert_policy rt rid od vis by_ ou al de ro ca w = (Ok (), w') ∧
    policy_of rt rid (w_db w') =
      Some (p_overwrite od ou vis (json_dumps_strs ro) (json_dumps_strs al) (json_dumps_strs de)
              ca now p) ∧
    same_but_policies (w_db w) (w_db w') ∧ store_wf (w_db w') ∧
    w_registry w' = w_registry w ∧ w_calls w' = w_calls w.
Proof.
  intros Hwf Hp. exists (env_now (w_tick w)).
  pose proof (moves_upsert_policy rt rid od vis by_ ou al de ro ca w) as Hmv.
  unfold upsert_policy, with_conn in *. revert Hmv. run_goal.
  change (w_db (next_tick w)) with (w_db w). rewrite Hp. intros Hmv.
  eexists. split; [reflexivity|]. split; [|split; [done|split; [by eapply evolves_wf|done]]].
  set (f := p_overwrite od ou vis _ _ _ ca _). set (Q := λ q, p_policy_id q = p_policy_id p).
  apply fetchone_Some in Hp as (Hin & Hrt & Hrid).
  apply (fetchone_unique (λ p, (p_resource_type p, p_resource_id p))).
  - simpl. unfold f. rewrite (update_where_key Q) by done. exact (wf_policy_keys _ Hwf).
  - intros y (-> & -> & _). simpl. by rewrite Hrt, Hrid.
  - apply elem_of_update_where. exists p. split; [done|]. by rewrite decide_True.
  - by split_and!.
Qed.
End upsert.

(** ** Unsharing *)

(** No share row on another knowledge base changes, and none is approved that was not. *)
Definition only_revokes (kb : string) (d d' : Db) : Prop :=
  (∀ k, k_kb_id k ≠ kb → k ∈ t_shares d' ↔ k ∈ t_shares d) ∧
  (∀ u, approved_share d kb u = None → approved_share d' kb u = None) ∧
  t_users d' = t_users d ∧ t_policies d' = t_policies d.

#[export] Instance only_revokes_preorder kb : PreOrder (only_revokes kb).
Proof.
  split; [by intros d|]. intros d1 d2 d3 (S1 & A1 & U1 & P1) (S2 & A2 & U2 & P2).
  split_and!; [|auto|congruence|congruence]. intros k Hk. by rewrite S2, S1.
Qed.

Lemma revoked_none kb u now t :
  fetchone (λ k, k_kb_id k = kb ∧ k_target_user_id k = u ∧ k_status k = "approved")
    (update_where (λ k, k_kb_id k = kb ∧ k_target_user_id k = u) (k_revoke now) t) = None.
Proof.
  apply fetchone_None. intros x Hx. apply elem_of_update_where in Hx as (y & _ & ->).
  case_decide as Hk; intros (? & ? & ?); [done|]. by destruct Hk.
Qed.

Lemma revoke_only_revokes kb u now d :
  only_revokes kb d
    (on_shares (update_where (λ k, k_kb_id k = kb ∧ k_target_user_id k = u) (k_revoke now)) d).
Proof.
  split_and!; [| |done|done].
  - intros k Hk. simpl. rewrite elem_of_update_where. split.
    + intros (y & Hy & ->). case_decide as Hc; [|done]. simpl in Hk. by destruct Hc.
    + intros Hin. exists k. split; [done|]. rewrite decide_False; [done|]. by intros [? _].
  - intros u' Hn. unfold approved_share in *. apply fetchone_None. simpl. intros x Hx.
    apply elem_of_update_where in Hx as (y & Hy & ->). rewrite fetchone_None in Hn.
    case_decide; [by intros (_ & _ & ?)|by apply Hn].
Qed.

Section unshare.
Context `{Env}.

Lemma remove_kb_share_run kb u w :
  ∃ b w', remove_kb_share kb u w = (Ok b, w') ∧ only_revokes kb (w_db w) (w_db w') ∧
    approved_share (w_db w') kb u = None ∧ w_calls w' = w_calls w.
Proof.
  eexists _, _. split; [reflexivity|]. split; [apply revoke_only_revokes|].
  split; [apply revoked_none|done].
Qed.

Lemma remove_all_run {A} (target : A → string) kb l w :
  ∃ w', for_each (λ s, remove_kb_share kb (target s) ;; mret ()) l w = (Ok (), w') ∧
    only_revokes kb (w_db w) (w_db w') ∧
    (∀ s, s ∈ l → approved_share (w_db w') kb (target s) = None) ∧ w_calls w' = w_calls w.
Proof.
  revert w. induction l as [|s l IH]; intros w; simpl.
  { exists w. split_and!; try done. by intros ? ?%elem_of_nil. }
  destruct (remove_kb_share_run kb (target s) w) as (b & w1 & Hrun & Hr1 & Hn & Hc1).
  destruct (IH w1) as (w2 & Hrun2 & Hr2 & Hall & Hc2).
  exists w2. split; [|split; [by etrans|split; [|congruence]]].
  - erewrite bind_run; [exact Hrun2|]. by rewrite (bind_run _ _ _ _ _ Hrun).
  - intros s' [->|Hin]%elem_of_cons; [|by apply Hall]. destruct Hr2 as (_ & Hk & _). by apply Hk.
Qed.

(** The list of the shares of a knowledge base has every approved one whose target
    still exists. *)
Lemma kb_shares_complete d kb u k :
  approved_share d kb u = Some k → (∃ r, r ∈ t_users d ∧ u_user_id r = u) →
  ∃ s, s ∈ kb_shares_of d kb ∧ k_target_user_id (si_share s) = u.
Proof.
  intros Hk (r & Hr & Hu). apply fetchone_Some in Hk as (Hin & Hkb & Hku & Hst).
  destruct (fetchone_is_Some (λ x, u_user_id x = k_target_user_id k) (t_users d) r Hr)
    as [r' Hr']; [congruence|].
  unfold kb_shares_of. eexists. rewrite elem_of_isort, list_elem_of_omap. split.
  - exists k. split; [done|]. rewrite decide_True by done. simpl. rewrite Hr'. reflexivity.
  - done.
Qed.
End unshare.

(** Who may withdraw the shares of a knowledge base *)
Definition may_unshare (d : Db) (user : string) (p : PolicyRow) : Prop :=
  admin_of d user "dept_mp" = true ∨ opt_or (p_owner_user_id p) "" = user ∨
  admin_of d user (normalize_dept_id (p_owner_dept_id p)) = true.

(** C19. Unsharing withdraws everything: it needs the owner, an administrator of the
    owning department or of the headquarters; afterwards no existing user has an
    approved share, no department is allowed or denied, and the knowledge base is
    private again when the owner did it (departmental otherwise); the shares of other
    knowledge bases are untouched. *)
Theorem unshare_kb_revokes_all `{Env} payload kb w o w' :
  store_wf (w_db w) → unshare_kb payload kb w = (Ok o, w') →
  ∃ p p', policy_of "kb" kb (w_db w) = Some p ∧ may_unshare (w_db w) (tok_user payload) p ∧
    o = Some p' ∧ policy_of "kb" kb (w_db w') = Some p' ∧
    p_visibility p' = (if decide (opt_or (p_owner_user_id p) "" = tok_user payload)
                       then "private" else "dept") ∧
    loads_col (p_allow_dept_ids_json p') = Ok [] ∧ loads_col (p_deny_dept_ids_json p') = Ok [] ∧
    opt_or (p_owner_user_id p') "" = opt_or (p_owner_user_id p) "" ∧
    (∀ u, u ∈ t_users (w_db w) → approved_share (w_db w') kb (u_user_id u) = None) ∧
    (∀ k, k_kb_id k ≠ kb → k ∈ t_shares (w_db w') ↔ k ∈ t_shares (w_db w)).
Proof.
  intros Hwf. unfold unshare_kb. unfold mbind at 1, M_bind at 1. rewrite require_kb_run.
  destruct (policy_of "kb" kb (w_db w)) as [p|] eqn:Hp; [|done].
  rewrite (bind_run _ _ _ _ _ (is_dept_admin_run _ _ _)).
  rewrite (bind_run _ _ _ _ _ (is_dept_admin_run _ _ _)).
  set (owner := opt_or (p_owner_user_id p) ""). set (user := tok_user payload).
  destruct (_ && negb (admin_of _ _ (normalize_dept_id _))) eqn:Hmay; [done|]. intros Hrun.
  assert (may_unshare (w_db w) user p) as Hauth.
  { unfold may_unshare. destruct (admin_of (w_db w) user "dept_mp"); [by left|].
    fold owner. destruct (decide (owner = user)) as [|Ho]; [by right; left|]. right; right.
    rewrite bool_decide_eq_false_2 in Hmay by done. simpl in Hmay. by apply negb_false_iff in Hmay. }
  destruct (upsert_policy_run "kb" kb (normalize_dept_id (p_owner_dept_id p))
    (if bool_decide (owner = user) then "private" else "dept") user (Some owner) [] [] []
    (py_or (p_category p) "D") w p Hwf) as (now & w1 & Hup & Hp1 & Hsame & _ & _ & _);
    [by apply policy_of_by_key|].
  rewrite (bind_run _ _ _ _ _ Hup) in Hrun. run_in Hrun.
  destruct (remove_all_run (λ s, k_target_user_id (si_share s)) kb (kb_shares_of (w_db w1) kb) w1)
    as (w2 & Hrem & (Hother & Hkeep & Hu2 & Hp2) & Hall & _).
  rewrite (bind_run _ _ _ _ _ Hrem) in Hrun. rewrite get_policy_run in Hrun. injection Hrun as <- <-.
  destruct Hsame as (Hu1 & _ & Hs1 & _).
  assert (policy_of "kb" kb (w_db w2) = policy_of "kb" kb (w_db w1)) as Hpw
    by (unfold policy_of; by rewrite Hp2).
  exists p. rewrite Hpw, Hp1. eexists. split; [done|]. split; [done|]. split; [done|].
  split; [done|]. simpl. split; [by case_bool_decide; case_decide|].
  split; [apply (loads_col_dumps [])|]. split; [apply (loads_col_dumps [])|].
  split; [exact (py_or_empty owner)|]. split.
  - intros u Hu. destruct (approved_share (w_db w1) kb (u_user_id u)) as [k|] eqn:Hk; [|by apply Hkeep].
    destruct (kb_shares_complete _ _ _ _ Hk) as (s & Hs & <-); [exists u; by rewrite Hu1|].
    by apply Hall.
  - intros k Hk. by rewrite Hother, Hs1.
Qed.

Lemma unshare_kb_revokes_all_witness :
  ∃ w', unshare_kb (demo_payload "u_a" []) "kb2" demo_world =
          (Ok (policy_of "kb" "kb2" (w_db w')), w') ∧
    approved_share demo_db "kb2" "u_b" ≠ None ∧ approved_share (w_db w') "kb2" "u_b" = None.
Proof.
  pose (run := unshare_kb (demo_payload "u_a" []) "kb2" demo_world).
  assert (run = (Ok (policy_of "kb" "kb2" (w_db run.2)), run.2)) as Hrun by (vm_compute; reflexivity).
  exists run.2. split; [exact Hrun|]. split; [vm_compute; discriminate|].
  destruct (unshare_kb_revokes_all (demo_payload "u_a" []) "kb2" demo_world _ run.2 demo_wf Hrun)
    as (p & p' & _ & _ & _ & _ & _ & _ & _ & _ & Hall & _).
  apply (Hall (demo_user "u_b" "Bob")). right. left.
Defined.

(** ** Sharing with departments *)

(** The user has an approved share with the mask. *)
Definition granted (d : Db) (kb u : string) (mask : Z) : Prop :=
  ∃ k, approved_share d kb u = Some k ∧ k_permission_mask k = mask.

Section depts.
Context `{Env}.

Lemma upsert_share_other kb u u' mask by_ ap parent now d :
  store_wf d → granted d kb u' mask →
  granted (upsert_share kb u mask by_ ap parent "approved" now d) kb u' mask.
Proof.
  intros Hwf Hg. destruct (decide (u' = u)) as [->|Hne].
  { destruct (upsert_share_approved kb u mask by_ ap parent now d Hwf) as (k & ? & ? & _). by exists k. }
  destruct Hg as (k & Hk & Hm). exists k. split; [|done].
  pose proof (upsert_share_wf kb u mask by_ ap parent "approved" now d Hwf) as Hwf'.
  apply fetchone_Some in Hk as (Hin & Hkb & Hu & Hst).
  apply (fetchone_unique (λ k, (k_kb_id k, k_target_user_id k)));
    [exact (wf_share_keys _ Hwf')|by intros y (-> & -> & _); subst| |done].
  unfold upsert_share. destruct (fetchone _ _); simpl.
  - apply elem_of_update_where. exists k. split; [done|]. rewrite decide_False; [done|].
    intros [_ ?]. congruence.
  - apply elem_of_app. by left.
Qed.

(** What the loops over members keep *)
Definition grants_more (kb : string) (mask : Z) (w w' : World) : Prop :=
  store_wf (w_db w') ∧ t_users (w_db w') = t_users (w_db w) ∧
  t_user_departments (w_db w') = t_user_departments (w_db w) ∧
  t_policies (w_db w') = t_policies (w_db w) ∧
  ∀ u, granted (w_db w) kb u mask → granted (w_db w') kb u mask.

Lemma grants_more_trans kb mask w1 w2 w3 :
  grants_more kb mask w1 w2 → grants_more kb mask w2 w3 → grants_more kb mask w1 w3.
Proof.
  intros (_ & U1 & D1 & P1 & G1) (W2 & U2 & D2 & P2 & G2).
  split_and!; [done|congruence|congruence|congruence|auto].
Qed.

Lemma share_member_run kb owner mask by_ uid w :
  store_wf (w_db w) →
  ∃ w', when (bool_decide (Some uid ≠ owner)) (add_kb_share kb uid mask by_ None "" "approved") w =
      (Ok (), w') ∧ grants_more kb mask w w' ∧
    (Some uid ≠ owner → granted (w_db w') kb uid mask).
Proof.
  intros Hwf. case_bool_decide as Ho; cbn [when].
  - destruct (add_kb_share_run kb uid mask by_ None "" w Hwf) as (w' & Hrun & Hwf' & _ & Hp & Hu & k & Hk & Hm & _).
    exists w'. split; [done|]. split; [|intros _; by exists k].
    split_and!; [done|done| |done|]; injection Hrun as <-; simpl.
    + unfold upsert_share. by case_match.
    + intros u. by apply upsert_share_other.
  - exists w. split; [done|]. by split_and!.
Qed.

Lemma share_members_run kb owner mask by_ (l : list (string * string * string)) w :
  store_wf (w_db w) →
  ∃ w', for_each (λ '(uid, _, _), when (bool_decide (Some uid ≠ owner))
      (add_kb_share kb uid mask by_ None "" "approved")) l w = (Ok (), w') ∧ grants_more kb mask w w' ∧
    ∀ e, e ∈ l → Some e.1.1 ≠ owner → granted (w_db w') kb e.1.1 mask.
Proof.
  revert w. induction l as [|[[uid a] b] l IH]; intros w Hwf; cbn [for_each].
  { exists w. split; [done|]. split; [by split_and!|by intros ? ?%elem_of_nil]. }
  destruct (share_member_run kb owner mask by_ uid w Hwf) as (w1 & Hrun & Hg1 & Hu1).
  rewrite (bind_run _ _ _ _ _ Hrun).
  destruct (IH w1) as (w2 & Hrun2 & Hg2 & Hu2); [by destruct Hg1|].
  exists w2. split; [done|]. split; [by eapply grants_more_trans|].
  intros e [->|Hin]%elem_of_cons Hne; [|by apply Hu2].
  destruct Hg2 as (_ & _ & _ & _ & Hk). by apply Hk, Hu1.
Qed.

Lemma share_depts_run kb owner mask by_ depts w :
  store_wf (w_db w) →
  ∃ w', for_each (λ dept, share_with_members kb dept owner mask by_) depts w = (Ok (), w') ∧
    grants_more kb mask w w' ∧
    ∀ dept u, dept ∈ depts → u ∈ dept_members (w_db w) (normalize_dept_id dept) →
      Some (u_user_id u) ≠ owner → granted (w_db w') kb (u_user_id u) mask.
Proof.
  revert w. induction depts as [|dept depts IH]; intros w Hwf; cbn [for_each].
  { exists w. split; [done|]. split; [by split_and!|by intros ? ? ?%elem_of_nil]. }
  destruct (share_members_run kb owner mask by_
    ((λ u, (u_user_id u, u_login_id u, u_display_name u)) <$>
      isort (λ a b, str_leb (u_login_id a) (u_login_id b))
        (dept_members (w_db w) (normalize_dept_id dept))) w Hwf) as (w1 & Hrun & Hg1 & Hu1).
  assert (share_with_members kb dept owner mask by_ w = (Ok (), w1)) as Hrun1
    by (unfold share_with_members; erewrite bind_run by reflexivity; exact Hrun).
  rewrite (bind_run _ _ _ _ _ Hrun1).
  destruct (IH w1) as (w2 & Hrun2 & Hg2 & Hu2); [by destruct Hg1|].
  exists w2. split; [done|]. split; [by eapply grants_more_trans|].
  intros dept' u [->|Hin]%elem_of_cons Hmem Hne.
  - destruct Hg2 as (_ & _ & _ & _ & Hk). apply Hk.
    apply (Hu1 (u_user_id u, u_login_id u, u_display_name u)); [|done].
    apply list_elem_of_fmap. exists u. by rewrite elem_of_isort.
  - apply (Hu2 dept'); [done| |done]. destruct Hg1 as (_ & U1 & D1 & _).
    unfold dept_members in *. by rewrite U1, D1.
Qed.
End depts.

(** Sharing with departments: only the owner, with a mask of at least reading;
    afterwards the departments named are allowed, and every active member of a newly
    allowed department, the owner apart, has an approved share with the mask. *)
Theorem share_kb_to_depts_grants `{Env} payload kb dept_ids mask w o w' :
  store_wf (w_db w) → share_kb_to_depts payload kb dept_ids mask w = (Ok o, w') →
  ∃ p p' allow, policy_of "kb" kb (w_db w) = Some p ∧
    p_owner_user_id p = Some (tok_user payload) ∧ PERM_READ ≤ mask ∧
    o = Some p' ∧ policy_of "kb" kb (w_db w') = Some p' ∧
    loads_col (p_allow_dept_ids_json p) = Ok allow ∧
    let new := new_share_depts allow dept_ids in
    (∃ allow', loads_col (p_allow_dept_ids_json p') = Ok allow' ∧
       ∀ dept, dept ∈ allow' ↔ dept ∈ allow ∨ dept ∈ new) ∧
    ∀ dept u, dept ∈ new → u ∈ dept_members (w_db w) (normalize_dept_id dept) →
      u_user_id u ≠ tok_user payload → granted (w_db w') kb (u_user_id u) mask.
Proof.
  intros Hwf. unfold share_kb_to_depts. intros Hrun.
  bind_inv Hrun user w1 Hu. apply require_user_inv in Hu as (-> & -> & Hne).
  unfold mbind at 1, M_bind at 1 in Hrun. rewrite require_kb_run in Hrun.
  destruct (policy_of "kb" kb (w_db w)) as [p|] eqn:Hp; [|done]. cbv zeta in Hrun.
  case_decide as Ho; [done|]. destruct (Z.ltb_spec mask PERM_READ) as [|Hmask]; [done|].
  rewrite Ho in Hrun. apply opt_or_owner in Ho; [|done].
  destruct (policy_cols_loads _ _ _ _ Hwf Hp) as (allow & deny & Hallow & Hdeny).
  unfold loads_col_or_nil in Hrun. rewrite Hallow in Hrun.
  set (new := new_share_depts allow dept_ids) in *. set (merged := sorted_set (allow ++ new)) in *.
  bind_inv Hrun u1 w1 Hre. unfold reshare_policy in Hre. run_in Hre.
  bind_inv Hre deny' w2 Hd. injection Hd as Hd <-. bind_inv Hre roles w2 Hr. injection Hr as Hr <-.
  match type of Hre with upsert_policy _ _ ?od ?vis ?by_ ?ou ?al ?de ?ro ?ca _ = _ =>
    destruct (upsert_policy_run "kb" kb od vis by_ ou al de ro ca w p Hwf)
      as (now & w2 & Hup & Hp2 & (Hu2 & Hud2 & _) & Hwf2 & _); [by apply policy_of_by_key|] end.
  rewrite Hup in Hre. injection Hre as _ <-.
  destruct (share_depts_run kb (Some (tok_user payload)) mask (tok_user payload) new w2 Hwf2)
    as (w3 & Hsh & (_ & _ & _ & Hp3 & _) & Hall).
  rewrite (bind_run _ _ _ _ _ Hsh), get_policy_run in Hrun. injection Hrun as <- <-.
  assert (policy_of "kb" kb (w_db w3) = policy_of "kb" kb (w_db w2)) as ->
    by (unfold policy_of; by rewrite Hp3).
  rewrite Hp2. exists p. eexists _, allow. split_and!; try done.
  - exists merged. split; [apply loads_col_dumps|]. intros dept. unfold merged.
    by rewrite elem_of_sorted_set, elem_of_app.
  - intros dept u Hdept Hmem Hneq. apply (Hall dept); [done| |congruence].
    unfold dept_members in *. by rewrite Hu2, Hud2.
Qed.

Definition demo_share_depts : res (option PolicyRow) * World :=
  share_kb_to_depts (demo_payload "u_a" ["dept_mp_q"]) "kb2" ["dept_mp"] PERM_READ demo_world.

Lemma demo_share_depts_run :
  share_kb_to_depts (demo_payload "u_a" ["dept_mp_q"]) "kb2" ["dept_mp"] PERM_READ demo_world =
  (Ok (policy_of "kb" "kb2" (w_db demo_share_depts.2)), demo_share_depts.2).
Proof. vm_compute. reflexivity. Defined.

Lemma share_kb_to_depts_grants_witness : granted (w_db demo_share_depts.2) "kb2" "u_c" PERM_READ.
Proof.
  destruct (share_kb_to_depts_grants _ _ _ _ demo_world _ _ demo_wf demo_share_depts_run)
    as (p & p' & allow & Hp & _ & _ & _ & _ & Hallow & _ & Hall).
  assert (policy_of "kb" "kb2" demo_db = Some (demo_policy "p2" "kb2" "dept" "u_a")) as Hp2
    by (vm_compute; reflexivity).
  assert (p = demo_policy "p2" "kb2" "dept" "u_a") as -> by (change (w_db demo_world) with demo_db in Hp; rewrite Hp2 in Hp; by injection Hp).
  assert (allow = []) as -> by (vm_compute in Hallow; by injection Hallow).
  apply (Hall "dept_mp" (demo_user "u_c" "Carol")).
  - vm_compute. left.
  - assert (dept_members demo_db (normalize_dept_id "dept_mp") = [demo_user "u_c" "Carol"]) as Hm
      by (vm_compute; reflexivity). unfold demo_world. simpl w_db. rewrite Hm. left.
  - discriminate.
Defined.

(** ** Revoking single shares *)

Section revoke.
Context `{Env}.

Lemma revoke_user_share_run id w :
  ∃ w', revoke_user_share id w =
      (Ok (0 <? rowcount (λ k, k_id k = id ∧ k_status k = "approved") (t_shares (w_db w)))%nat, w') ∧
    w_db w' = on_shares (update_where (λ k, k_id k = id ∧ k_status k = "approved")
      (k_revoke (env_now (w_tick w)))) (w_db w).
Proof. by eexists. Qed.

(** The policy is reset at most: the shares stay. *)
Lemma reset_policy_run kb p (b : bool) od vis by_ ou ca w :
  store_wf (w_db w) → policy_of "kb" kb (w_db w) = Some p →
  ∃ w', when b (upsert_policy "kb" kb od vis by_ ou [] [] [] ca) w = (Ok (), w') ∧
    t_shares (w_db w') = t_shares (w_db w).
Proof.
  intros Hwf Hp. destruct b; cbn [when]; [|by exists w].
  destruct (upsert_policy_run "kb" kb od vis by_ ou [] [] [] ca w p Hwf)
    as (now & w' & Hrun & _ & (_ & _ & Hs & _) & _); [by apply policy_of_by_key|by exists w'].
Qed.
End revoke.

(** [selective_revoke] checks the ownership of the knowledge base of the request,
    not of the share: the owner of any knowledge base revokes, by its number, an
    approved share on a knowledge base of somebody else. *)
Theorem selective_revoke_foreign `{Env} payload kb p target k w :
  store_wf (w_db w) → tok_user payload ≠ "" →
  policy_of "kb" kb (w_db w) = Some p → p_owner_user_id p = Some (tok_user payload) →
  approved_share (w_db w) (k_kb_id k) (k_target_user_id k) = Some k → k_kb_id k ≠ kb →
  py_int target = Some (k_id k) →
  ∃ w', selective_revoke payload kb "user" target w = (Ok (), w') ∧
    approved_share (w_db w') (k_kb_id k) (k_target_user_id k) = None.
Proof.
  intros Hwf Hu Hp Ho Hk _ Hint. unfold selective_revoke, require_user.
  destruct (decide (tok_user payload = "")); [done|]. run_goal. unfold mbind at 1, M_bind at 1. rewrite require_kb_run, Hp, Ho.
  assert (opt_or (Some (tok_user payload)) "" = tok_user payload) as ->
    by (simpl; unfold py_or; by case_decide).
  rewrite decide_False by tauto. rewrite decide_False by done. rewrite decide_True by done.
  rewrite Hint. apply fetchone_Some in Hk as (Hin & _ & _ & Hst).
  destruct (revoke_user_share_run (k_id k) w) as (w1 & Hrun & Hdb).
  assert ((0 <? rowcount (λ k0, k_id k0 = k_id k ∧ k_status k0 = "approved") (t_shares (w_db w)))%nat
    = true) as Hpos by (apply Nat.ltb_lt, rowcount_pos; by exists k).
  rewrite Hpos in Hrun.
  erewrite bind_run; [|by rewrite (bind_run _ _ _ _ _ Hrun)]. simpl negb. cbv iota.
  assert (policy_of "kb" kb (w_db w1) = Some p) as Hp1 by (unfold policy_of in *; by rewrite Hdb).
  assert (store_wf (w_db w1)) as Hwf1.
  { eapply evolves_wf; [|exact Hwf]. pose proof (moves_revoke_user_share (k_id k) w) as Hm.
    by rewrite Hrun in Hm. }
  rewrite (bind_run _ _ _ _ _ (get_policy_run _ _ _)). run_goal.
  match goal with |- context [when ?b (upsert_policy _ _ ?od ?vis ?by_ ?ou _ _ _ ?ca)] =>
    destruct (reset_policy_run kb p b od vis by_ ou ca w1 Hwf1 Hp1) as (w2 & Hrun2 & Hs) end.
  exists w2. split; [exact Hrun2|]. unfold approved_share. rewrite Hs, Hdb. simpl.
  apply fetchone_None. intros x Hx (Hkb & Ht & Hxs). apply elem_of_update_where in Hx as (y & Hy & ->).
  case_decide as Hyk; [done|]. destruct Hyk. split; [|done].
  f_equal. apply (NoDup_key_eq (λ k, (k_kb_id k, k_target_user_id k)) (t_shares (w_db w)));
    [exact (wf_share_keys _ Hwf)|done|done|by rewrite Hkb, Ht].
Qed.

(** [u_b] owns nothing but [kb3] and revokes a share of [u_a] on [kb2]. *)
Definition demo_foreign : World :=
  set_db (on_policies (λ t, t ++ [demo_policy "p3" "kb3" "dept" "u_b"]) demo_db) demo_world.

Lemma demo_foreign_wf : store_wf (w_db demo_foreign).
Proof.
  destruct demo_wf. split; simpl; try done; try (refine (bool_decide_unpack _ _); vm_compute; exact I).
  assert (list_col "[]") as Hnil by apply (demo_list_col []). repeat constructor; exact Hnil.
Defined.

Lemma selective_revoke_foreign_witness :
  ∃ w', selective_revoke (demo_payload "u_b" ["dept_mp_q"]) "kb3" "user" "1" demo_foreign =
    (Ok (), w') ∧ approved_share (w_db w') "kb2" "u_b" = None.
Proof.
  apply (selective_revoke_foreign (demo_payload "u_b" ["dept_mp_q"]) "kb3"
    (demo_policy "p3" "kb3" "dept" "u_b") "1" (demo_share 1 "kb2" "u_b" 5) demo_foreign).
  - apply demo_foreign_wf.
  - discriminate.
  - vm_compute. reflexivity.
  - reflexivity.
  - vm_compute. reflexivity.
  - discriminate.
  - vm_compute. reflexivity.
Defined.

(** ** Synchronisation with RAGFlow *)

(** [for x in l: UPDATE ... WHERE P x] *)
Lemma for_each_update {A} (P : string → A → Prop) `{!∀ x a, Decision (P x a)} (f : A → A)
    (on : (list A → list A) → Db → Db) l w :
  (∀ g h d, on g (on h d) = on (g ∘ h) d) → (∀ g h d, (∀ t, g t = h t) → on g d = on h d) →
  (∀ d, on (λ t, t) d = d) → (∀ x a, P x (f a) ↔ P x a) → (∀ a, f (f a) = f a) →
  for_each (λ x, sql_exec (on (update_where (P x) f))) l w =
  (Ok (), set_db (on (update_where (λ a, Exists (λ x, P x a) l) f) (w_db w)) w).
Proof.
  intros Hcomp Hext Hid HP Hf. revert w. induction l as [|x l IH]; intros w; cbn [for_each].
  - rewrite (Hext _ (λ t, t)); [by rewrite Hid; destruct w|]. intros t. apply update_where_id.
    intros a _ Hn. by apply Exists_nil in Hn.
  - erewrite bind_run by reflexivity. rewrite IH. unfold set_db. simpl. do 2 f_equal.
    rewrite Hcomp. apply Hext. intros t. apply update_where_compose; [| |done].
    + intros a. rewrite Exists_cons. tauto.
    + intros a. split; intros He; (eapply Exists_impl; [exact He|]); intros y; apply HP.
Qed.

Lemma for_each_delete {A} (P : string → A → Prop) `{!∀ x a, Decision (P x a)}
    (on : (list A → list A) → Db → Db) l w :
  (∀ g h d, on g (on h d) = on (g ∘ h) d) → (∀ g h d, (∀ t, g t = h t) → on g d = on h d) →
  (∀ d, on (λ t, t) d = d) →
  for_each (λ x, sql_exec (on (delete_where (P x)))) l w =
  (Ok (), set_db (on (delete_where (λ a, Exists (λ x, P x a) l)) (w_db w)) w).
Proof.
  intros Hcomp Hext Hid. revert w. induction l as [|x l IH]; intros w; cbn [for_each].
  - rewrite (Hext _ (λ t, t)); [by rewrite Hid; destruct w|]. intros t. apply delete_where_id.
    intros a _ Hn. by apply Exists_nil in Hn.
  - erewrite bind_run by reflexivity. rewrite IH. unfold set_db. simpl. do 2 f_equal.
    rewrite Hcomp. apply Hext. intros t. apply delete_where_compose.
    intros a. rewrite Exists_cons. tauto.
Qed.

Section sync.
Context `{Env}.

Lemma cleanup_run valid w :
  ∃ w', cleanup_stale_kb_policies valid w = (Ok (length (stale_kbs valid (w_db w))), w') ∧
    let stale := stale_kbs valid (w_db w) in
    w_db w' = on_shares (delete_where (λ k, Exists (λ sid, k_kb_id k = sid) stale))
      (on_policies (update_where (λ p, Exists (λ sid, p_resource_type p = "kb" ∧ p_resource_id p = sid) stale)
        (p_deactivate (env_now (w_tick w)))) (w_db w)).
Proof.
  unfold cleanup_stale_kb_policies. run_goal. unfold with_conn. run_goal.
  rewrite (bind_run _ _ _ _ _ (for_each_update
    (λ sid p, p_resource_type p = "kb" ∧ p_resource_id p = sid) (p_deactivate (env_now (w_tick w)))
    on_policies _ _ (λ _ _ _, eq_refl) ltac:(intros g h d He; unfold on_policies; by rewrite He)
    ltac:(by intros []) ltac:(done) ltac:(done))).
  rewrite (bind_run _ _ _ _ _ (@for_each_delete ShareRow (λ sid k, k_kb_id k = sid)
    (λ sid k, decide_rel (=) (k_kb_id k) sid) on_shares _ _
    (λ _ _ _, eq_refl) ltac:(intros g h d He; unfold on_shares; by rewrite He) ltac:(by intros []))).
  eexists. split; reflexivity.
Qed.
End sync.

(** The synchronisation forgets that a knowledge base is private: when one listing
    misses it (an error of its owner's account is enough), its policy is switched off
    and its shares are deleted, and the next listing that has it again publishes it
    to the department, whatever its visibility was. *)
Theorem relisted_kb_published `{Env} kb p valid user dept ds w :
  store_wf (w_db w) → policy_of "kb" kb (w_db w) = Some p → kb ∉ valid → ds_id ds = kb →
  ∃ w1 w2 p', cleanup_stale_kb_policies valid w =
      (Ok (length (stale_kbs valid (w_db w))), w1) ∧
    policy_of "kb" kb (w_db w1) = None ∧ (∀ k, k ∈ t_shares (w_db w1) → k_kb_id k ≠ kb) ∧
    ensure_kb_policy user dept ds w1 = (Ok (), w2) ∧ policy_of "kb" kb (w_db w2) = Some p' ∧
    p_visibility p' = "dept" ∧ p_owner_user_id p' = Some user ∧
    p_owner_dept_id p' = py_or dept "dept_mp".
Proof.
  intros Hwf Hp Hvalid Hds. destruct (cleanup_run valid w) as (w1 & Hrun & Hdb). cbv zeta in Hdb.
  apply policy_of_elem in Hp as (Hin & Hrt & Hrid & Hact).
  assert (kb ∈ stale_kbs valid (w_db w)) as Hstale.
  { apply list_elem_of_fmap. exists p. split; [done|]. apply list_elem_of_filter.
    split; [|done]. split_and!; congruence. }
  assert (store_wf (w_db w1)) as Hwf1.
  { eapply evolves_wf; [|exact Hwf]. pose proof (moves_cleanup_stale_kb_policies valid w) as Hm.
    by rewrite Hrun in Hm. }
  set (off := p_deactivate (env_now (w_tick w)) p).
  assert (off ∈ t_policies (w_db w1)) as Hoff.
  { rewrite Hdb. simpl. apply elem_of_update_where. exists p. split; [done|].
    rewrite decide_True; [done|]. apply Exists_exists. by exists kb. }
  assert (policy_of "kb" kb (w_db w1) = None) as Hnone.
  { apply fetchone_None. rewrite Hdb. simpl. intros x Hx (Hxt & Hxr & Hxa).
    apply elem_of_update_where in Hx as (y & _ & ->). case_decide as Hy; [done|].
    destruct Hy. apply Exists_exists. by exists kb. }
  destruct (fetchone_is_Some (λ p, p_resource_type p = "kb" ∧ p_resource_id p = kb)
    (t_policies (w_db w1)) off Hoff) as [p1 Hp1]; [by split|].
  destruct (upsert_policy_run "kb" kb (py_or dept "dept_mp") "dept" "system" (Some user) [] [] [] "D"
    w1 p1 Hwf1 Hp1) as (now & w2 & Hup & Hp2 & _).
  exists w1, w2. eexists. split; [exact Hrun|]. split; [exact Hnone|]. split.
  - intros k Hk. rewrite Hdb in Hk. simpl in Hk. apply elem_of_delete_where in Hk as [_ Hk].
    intros Heq. apply Hk, Exists_exists. by exists kb.
  - split; [|split; [exact Hp2|done]]. unfold ensure_kb_policy.
    rewrite Hds, (bind_run _ _ _ _ _ (get_policy_run _ _ _)), Hnone. exact Hup.
Qed.

(** The private [kb1], missed once and listed again *)
Lemma relisted_kb_published_witness :
  ∃ w1 w2 p', policy_of "kb" "kb1" demo_db = Some (demo_policy "p1" "kb1" "private" "u_a") ∧
    cleanup_stale_kb_policies ["kb2"] demo_world = (Ok 1%nat, w1) ∧
    ensure_kb_policy "u_a" "dept_mp_q" {| ds_id := "kb1"; ds_name := ""; ds_description := None |} w1 =
      (Ok (), w2) ∧
    policy_of "kb" "kb1" (w_db w2) = Some p' ∧ p_visibility p' = "dept".
Proof.
  destruct (relisted_kb_published "kb1" (demo_policy "p1" "kb1" "private" "u_a") ["kb2"] "u_a"
    "dept_mp_q" {| ds_id := "kb1"; ds_name := ""; ds_description := None |} demo_world)
    as (w1 & w2 & p' & Hc & _ & _ & He & Hp & Hv & _).
  - apply demo_wf.
  - vm_compute. reflexivity.
  - set_solver.
  - reflexivity.
  - exists w1, w2, p'. split; [vm_compute; reflexivity|]. split; [exact Hc|].
    split; [exact He|]. split; [exact Hp|exact Hv].
Defined.
