(* ===== verification/StatusProps.v ===== *)
(** Theorems on the parse status of uploaded documents and on chains of shares. *)
From S2P Require Import Prelude PyText Json Dsl Digest Schema Effects Steps StoreUsers StorePolicy.
From S2P Require Import StoreSessions StoreRequests StoreStep StoreInv GatewayToken GatewayAccess.
From S2P Require Import GatewayShare GatewayChat GatewaySession Demo AccessProps Run ShareProps.

Local Open Scope Z_scope.

(** ** Parse status *)

Definition in_run (run : string) (docs : list DocInfo) : nat :=
  length (filter (λ i, di_run i = run) docs).

(** The counters count the listed documents. *)
Definition counted (acc : ParseAcc) (ids : list string) : Prop :=
  di_id <$> pa_docs acc = ids ∧ pa_done acc = in_run "DONE" (pa_docs acc) ∧
  pa_running acc = in_run "RUNNING" (pa_docs acc) ∧ pa_failed acc = in_run "FAIL" (pa_docs acc).

Lemma in_run_snoc run docs i :
  in_run run (docs ++ [i]) = ((if decide (di_run i = run) then S (in_run run docs) else in_run run docs))%nat.
Proof.
  unfold in_run. rewrite filter_app, length_app. unfold filter at 2. simpl.
  case_decide; simpl; lia.
Qed.

Lemma in_run_disjoint docs :
  (in_run "DONE" docs + in_run "RUNNING" docs + in_run "FAIL" docs ≤ length docs)%nat.
Proof.
  induction docs as [|i docs IH]; [done|]. unfold in_run in *. rewrite !filter_cons.
  repeat case_decide; simpl; try congruence; lia.
Qed.

Lemma in_run_all run docs : in_run run docs = length docs ↔ Forall (λ i, di_run i = run) docs.
Proof.
  unfold in_run. induction docs as [|i docs IH]; [by split|]. rewrite Forall_cons, filter_cons.
  case_decide as Hi; simpl.
  - rewrite <-IH. naive_solver lia.
  - split; [|tauto]. pose proof (length_filter (λ i, di_run i = run) docs). lia.
Qed.

Section status.
Context `{Env} `{Crypto} (cfg : PortalConfig).

Lemma count_doc_counted acc ids doc_id doc :
  counted acc ids → counted (count_doc acc doc_id doc) (ids ++ [doc_id]).
Proof.
  intros (Hi & Hd & Hr & Hf). unfold counted, count_doc. simpl.
  rewrite fmap_app, Hi, !in_run_snoc, Hd, Hr, Hf. by split_and!.
Qed.

Lemma add_doc_counted acc ids i :
  di_run i = "UNSTART" ∨ di_run i = "ERROR" →
  counted acc ids → counted (add_doc_info acc i) (ids ++ [di_id i]).
Proof.
  intros Hrun (Hi & Hd & Hr & Hf). unfold counted, add_doc_info. simpl.
  rewrite fmap_app, Hi, !in_run_snoc. by destruct Hrun as [-> | ->].
Qed.

(** Polling a document never fails, whatever RAGFlow answers. *)
Lemma poll_doc_run key kb acc ids doc_id w :
  (∀ n k d i, env_answer_documents n k d i ≠ Err OutOfFuel) → counted acc ids →
  ∃ acc' w', poll_doc key kb acc doc_id w = (Ok acc', w') ∧ counted acc' (ids ++ [doc_id]) ∧
    w_db w' = w_db w.
Proof.
  intros Hans Hc. unfold poll_doc, try_except, rag_list_documents, ext, mbind, M_bind.
  destruct (env_answer_documents _ _ _ _) as [docs|e] eqn:He.
  - destruct docs as [|doc docs]; eexists _, _; (split; [reflexivity|]); (split; [|done]).
    + apply (add_doc_counted _ _ {| di_id := doc_id; di_name := ""; di_run := "UNSTART";
        di_progress := Some 0; di_progress_msg := "" |}); [by left|done].
    + by apply count_doc_counted.
  - assert (e ≠ OutOfFuel) as Hne by (intros ->; by eapply Hans).
    eexists _, _. split; [by destruct e|]. split; [|done].
    apply (add_doc_counted _ _ {| di_id := doc_id; di_name := ""; di_run := "ERROR";
      di_progress := Some 0; di_progress_msg := exn_str e |}); [by right|done].
Qed.

Lemma poll_docs_run key kb acc ids doc_ids w :
  (∀ n k d i, env_answer_documents n k d i ≠ Err OutOfFuel) → counted acc ids →
  ∃ acc' w', for_fold (poll_doc key kb) acc doc_ids w = (Ok acc', w') ∧
    counted acc' (ids ++ doc_ids) ∧ w_db w' = w_db w.
Proof.
  intros Hans. revert acc ids w. induction doc_ids as [|i l IH]; intros acc ids w Hc; cbn [for_fold].
  { exists acc, w. by rewrite app_nil_r. }
  destruct (poll_doc_run key kb acc ids i w Hans Hc) as (acc1 & w1 & Hrun & Hc1 & Hdb1).
  rewrite (bind_run _ _ _ _ _ Hrun).
  destruct (IH acc1 (ids ++ [i]) w1 Hc1) as (acc2 & w2 & Hrun2 & Hc2 & Hdb2).
  exists acc2, w2. rewrite <-app_assoc in Hc2. split_and!; [done|done|congruence].
Qed.
End status.

(** The parse status accounts for every document asked for, in the order asked:
    one that cannot be fetched is reported and not counted, each counter is the
    number of documents in its state, and [all_done] holds exactly when every
    document is done. The store is only read. *)
Theorem get_parse_status_counts `{Env} `{Crypto} cfg payload kb doc_ids w st w' :
  (∀ n k d i, env_answer_documents n k d i ≠ Err OutOfFuel) →
  get_parse_status cfg payload kb doc_ids w = (Ok st, w') →
  w_db w' = w_db w ∧ di_id <$> ps_docs st = doc_ids ∧ ps_total st = length doc_ids ∧
  ps_done st = in_run "DONE" (ps_docs st) ∧ ps_running st = in_run "RUNNING" (ps_docs st) ∧
  ps_failed st = in_run "FAIL" (ps_docs st) ∧
  (ps_done st + ps_running st + ps_failed st ≤ ps_total st)%nat ∧
  (ps_all_done st = true ↔ Forall (λ i, di_run i = "DONE") (ps_docs st)).
Proof.
  intros Hans. unfold get_parse_status. intros Hrun.
  bind_inv Hrun user w1 Hu. apply require_user_inv in Hu as (-> & -> & _).
  rewrite (bind_run _ _ _ _ _ (get_policy_run _ _ _)) in Hrun. run_in Hrun.
  bind_inv Hrun key w1 Hk. assert (w_db w1 = w_db w) as Hdb1.
  { unfold get_rag_client in Hk. destruct (decide _); [by injection Hk as _ <-|].
    run_in Hk. by injection Hk as _ <-. }
  bind_inv Hrun datasets w2 Hd. assert (w_db w2 = w_db w1) as Hdb2 by (by injection Hd as _ <-).
  destruct datasets as [|ds l]; [done|].
  match type of Hrun with (mbind _ (for_fold _ ?acc0 _)) _ = _ =>
    destruct (poll_docs_run key (ds_id ds) acc0 [] doc_ids w2 Hans)
      as (acc & w3 & Hrun3 & (Hi & Hdone & Hr & Hf) & Hdb3); [done|] end.
  rewrite (bind_run _ _ _ _ _ Hrun3) in Hrun. injection Hrun as <- <-.
  simpl in Hi |- *. assert (length doc_ids = length (pa_docs acc)) as Hlen by (by rewrite <-Hi, length_fmap).
  split_and!; try done; [congruence| |].
  - rewrite Hlen, Hdone, Hr, Hf. apply in_run_disjoint.
  - rewrite Nat.eqb_eq, Hlen, Hdone. apply in_run_all.
Qed.

Lemma get_parse_status_counts_witness :
  ∃ st w', get_parse_status demo_cfg (demo_payload "u_a" []) "kb2" ["d1"; "d2"] demo_world =
      (Ok st, w') ∧ ps_done st = 2%nat ∧
    (ps_all_done st = true ↔ Forall (λ i, di_run i = "DONE") (ps_docs st)).
Proof.
  pose (run := get_parse_status demo_cfg (demo_payload "u_a" []) "kb2" ["d1"; "d2"] demo_world).
  assert (∃ st, run = (Ok st, run.2) ∧ ps_done st = 2%nat) as (st & Hrun & Hd)
    by (eexists; split; vm_compute; reflexivity).
  exists st, run.2. split; [exact Hrun|]. split; [exact Hd|].
  apply (get_parse_status_counts demo_cfg (demo_payload "u_a" []) "kb2" ["d1"; "d2"] demo_world
    st run.2); [discriminate|exact Hrun].
Defined.

(** ** Chains of shares *)

(** Every share is younger than the one it was passed on from. *)
Definition parents_older (d : Db) : Prop :=
  ∀ k pid, k ∈ t_shares d → k_parent_share_id k = Some pid → 0 ≤ pid < k_id k.

Ltac nil_chain := exists []; split_and!; [done|apply list_subseteq_nil|constructor|constructor].

Lemma chain_go_ends d fuel pid :
  parents_older d → 0 ≤ pid → pid ≤ Z.of_nat fuel →
  ∃ l, share_chain_go fuel d (Some pid) = Some l ∧ l ⊆ t_shares d ∧
    StronglySorted (λ a b, k_id b < k_id a) l ∧ Forall (λ k, k_id k ≤ pid) l.
Proof.
  intros Hold. revert pid. induction fuel as [|fuel IH]; intros pid H0 Hf; cbn [share_chain_go].
  - destruct (Z.eqb_spec pid 0); [|lia]. nil_chain.
  - destruct (Z.eqb_spec pid 0); [nil_chain|].
    destruct (fetchone _ _) as [k|] eqn:Hk; [|nil_chain].
    apply fetchone_Some in Hk as [Hin Hid].
    assert (∃ l, share_chain_go fuel d (k_parent_share_id k) = Some l ∧ l ⊆ t_shares d ∧
      StronglySorted (λ a b, k_id b < k_id a) l ∧ Forall (λ x, k_id x < pid) l)
      as (l & Hl & Hsub & Hs & Hlt).
    { destruct (k_parent_share_id k) as [p|] eqn:Hp; [|by destruct fuel; nil_chain].
      specialize (Hold k p Hin Hp). destruct (IH p) as (l & Hl & ? & ? & Hle); [lia|lia|].
      exists l. split_and!; try done. eapply Forall_impl; [exact Hle|]. simpl. lia. }
    rewrite Hl. exists (k :: l). split; [done|]. split; [intros x [->|?]%elem_of_cons; auto|].
    split; [constructor; [done|by rewrite Hid]|].
    constructor; [lia|]. eapply Forall_impl; [exact Hlt|]. simpl. lia.
Qed.

(** When every share is younger than its parent, [get_share_chain] ends: as many
    steps as the largest share number are enough, and the chain it returns holds
    stored shares only, each older than the one before it. *)
Theorem share_chain_ends d kb user fuel :
  parents_older d → Forall (λ k, k_id k ≤ Z.of_nat fuel) (t_shares d) →
  ∃ l, get_share_chain fuel d kb user = Some l ∧ l ⊆ t_shares d ∧
    StronglySorted (λ a b, k_id b < k_id a) l ∧ head l = approved_share d kb user.
Proof.
  intros Hold Hf. unfold get_share_chain.
  destruct (approved_share d kb user) as [k|] eqn:Hk;
    [|exists []; split_and!; [done|apply list_subseteq_nil|constructor|done]].
  apply fetchone_Some in Hk as [Hin _]. rewrite Forall_forall in Hf. specialize (Hf k Hin).
  destruct (k_parent_share_id k) as [p|] eqn:Hp.
  - pose proof (Hold k p Hin Hp) as Hlt.
    destruct (chain_go_ends d fuel p Hold) as (l & Hl & Hsub & Hs & Hle); [lia|lia|].
    rewrite Hl. exists (k :: l). split; [done|]. split; [intros x [->|?]%elem_of_cons; auto|].
    split; [|done]. constructor; [done|]. eapply Forall_impl; [exact Hle|]. simpl. lia.
  - exists [k]. split; [by destruct fuel|]. split; [by intros x ->%list_elem_of_singleton|].
    by repeat constructor.
Qed.

Lemma share_chain_ends_witness :
  ∃ l, get_share_chain 1 demo_db "kb2" "u_b" = Some l ∧ head l = approved_share demo_db "kb2" "u_b".
Proof.
  destruct (share_chain_ends demo_db "kb2" "u_b" 1) as (l & Hl & _ & _ & Hh).
  - intros k pid Hk Hp. apply list_elem_of_singleton in Hk as ->. discriminate.
  - repeat constructor. discriminate.
  - by exists l.
Defined.

(** Passing the share on and back: [u_b] to [u_c], then [u_c] to [u_b] *)
Definition pass_back : M unit :=
  add_kb_share "kb2" "u_c" 5 "u_b" (Some 1) "" "approved" ;;
  add_kb_share "kb2" "u_b" 5 "u_c" (Some 2) "" "approved".

Lemma cycle_go d fuel k1 k2 pid :
  fetchone (λ k, k_id k = 1) (t_shares d) = Some k1 → k_parent_share_id k1 = Some 2 →
  fetchone (λ k, k_id k = 2) (t_shares d) = Some k2 → k_parent_share_id k2 = Some 1 →
  pid = 1 ∨ pid = 2 → share_chain_go fuel d (Some pid) = None.
Proof.
  intros H1 P1 H2 P2. revert pid. induction fuel as [|fuel IH]; intros pid Hpid; cbn [share_chain_go].
  - by destruct Hpid as [-> | ->].
  - destruct Hpid as [-> | ->]; simpl; rewrite ?H1, ?H2; simpl; rewrite ?P1, ?P2;
      rewrite IH; auto.
Qed.

(** Two users who pass a share on to each other make [get_share_chain] loop: no
    number of steps is enough. *)
Theorem share_chain_loops fuel :
  get_share_chain fuel (w_db (pass_back demo_world).2) "kb2" "u_b" = None.
Proof.
  unfold get_share_chain.
  assert (∃ k, approved_share (w_db (pass_back demo_world).2) "kb2" "u_b" = Some k ∧
    k_parent_share_id k = Some 2) as (k & -> & ->) by (eexists; split; vm_compute; reflexivity).
  erewrite cycle_go; [reflexivity|..]; [vm_compute; reflexivity|reflexivity|
    vm_compute; reflexivity|reflexivity|by right].
Qed.
