(* ===== verification/SessionProps.v ===== *)
(** Theorems on sessions: who may use, list and delete them, what they may search,
    how they survive a restart, and how questions are recorded. *)
From S2P Require Import Prelude PyText Json Dsl Digest Schema Effects Steps StoreUsers StorePolicy.
From S2P Require Import StoreSessions StoreRequests StoreStep StoreInv GatewayToken GatewayAccess.
From S2P Require Import GatewayShare GatewayChat GatewaySession Demo AccessProps Run.

Local Open Scope Z_scope.

(** ** Computations that only look *)

(** The database and the registry stay. *)
Definition quiet (w w' : World) : Prop :=
  w_db w' = w_db w ∧ w_registry w' = w_registry w.

#[export] Instance quiet_order : StepOrder quiet.
Proof.
  split; [|done|done]. split; [by intros ?|]. intros ??? [??] [??]. split; congruence.
Qed.

Lemma quiet_conn {A} (m : M A) : steps quiet m → steps quiet (with_conn m).
Proof.
  intros Hm w. unfold with_conn. specialize (Hm w).
  destruct (m w) as [[a|e] w']; simpl; [done|]. destruct Hm as [_ Hr]. done.
Qed.

Ltac quiet_op :=
  intros; lazymatch goal with |- steps _ ?m => let h := head_of m in unfold h end;
  repeat first [progress cbv zeta | apply quiet_conn | step1 | solve [eauto with steps nocore]].

Section quiet.
Context `{Env} `{Crypto} (cfg : PortalConfig).

Lemma quiet_utc_now : steps quiet utc_now.
Proof. apply (steps_tick (λ n, Ok (env_now n))). Qed.
Lemma quiet_time_now : steps quiet time_now.
Proof. apply (steps_tick (λ n, Ok (env_time n))). Qed.
Lemma quiet_new_uuid : steps quiet new_uuid.
Proof. apply (steps_tick (λ n, Ok (env_uuid n))). Qed.
Lemma quiet_lift {A} (r : res A) : steps quiet (lift_res r).
Proof. apply steps_lift. Qed.
#[local] Hint Resolve quiet_utc_now quiet_time_now quiet_new_uuid quiet_lift : steps.

Lemma quiet_get_policy rt rid : steps quiet (get_policy rt rid).
Proof. quiet_op. Qed.
Lemma quiet_get_kb_permission kb u : steps quiet (get_kb_permission kb u).
Proof. quiet_op. Qed.
Lemma quiet_token u : steps quiet (get_user_ragflow_token u).
Proof. quiet_op. Qed.
#[local] Hint Resolve quiet_get_policy quiet_get_kb_permission quiet_token : steps.

Lemma quiet_effective depts dept kb u p : steps quiet (effective_kb_permission depts dept kb u p).
Proof. quiet_op. Qed.
Lemma quiet_get_rag_client u : steps quiet (get_rag_client cfg u).
Proof. quiet_op. Qed.
#[local] Hint Resolve quiet_effective quiet_get_rag_client : steps.

Lemma quiet_readable_kbs depts dept u kbs : steps quiet (readable_kbs depts dept u kbs).
Proof. quiet_op. Qed.
Lemma quiet_list_agents key p n id : steps quiet (rag_list_agents key p n id).
Proof. quiet_op. Qed.
Lemma quiet_agent_create_session key a n : steps quiet (rag_agent_create_session key a n).
Proof. quiet_op. Qed.
#[local] Hint Resolve quiet_list_agents quiet_readable_kbs quiet_agent_create_session : steps.

Lemma quiet_agent_kbs br key a : steps quiet (agent_kbs br key a).
Proof. quiet_op. Qed.
End quiet.

(** ** Owners *)

(** The owner of the session a question runs in: the registry's, or the stored one *)
Definition session_owner (w : World) (sid : string) : option string :=
  match w_registry w !! sid with
  | Some g => g_user_id g
  | None => s_user_id <$> active_session sid (w_db w)
  end.

Section owner.
Context `{Env} `{Crypto} (cfg : PortalConfig).

(** What [load_session] returns, and what it leaves alone *)
Lemma load_session_run sid w :
  ∃ o w', load_session sid w = (Ok o, w') ∧ w_db w' = w_db w ∧ w_calls w' = w_calls w ∧
    (∀ g, o = Some g → session_owner w sid = g_user_id g) ∧
    (o = None ↔ w_registry w !! sid = None ∧ active_session sid (w_db w) = None).
Proof.
  unfold load_session. run_goal. unfold session_owner.
  destruct (w_registry w !! sid) as [g|] eqn:Hreg.
  { eexists _, _. split; [reflexivity|]. split_and!; try done; naive_solver. }
  unfold get_portal_session. erewrite bind_run by (erewrite bind_run by reflexivity; reflexivity).
  destruct (active_session sid (w_db w)) as [s|] eqn:Hs.
  - cbn -[get_policy]. destruct (decide (_ ∧ _)).
    + rewrite (bind_run _ _ _ _ _ (get_policy_run _ _ _)). run_goal.
      eexists _, _. split; [reflexivity|]. split_and!; try done; naive_solver.
    + run_goal. eexists _, _. split; [reflexivity|]. split_and!; try done; naive_solver.
  - eexists _, _. split; [reflexivity|]. split_and!; try done; naive_solver.
Qed.

Lemma check_owner_err payload g w :
  g_user_id g ≠ Some (tok_user payload) → tok_user payload ≠ "" →
  ∃ e, check_owner payload g w = (Err e, w).
Proof.
  intros Hne Hu. unfold check_owner. unfold tok_user in *.
  destruct (tok_get "sub" payload) as [sub|]; [|by eexists]. simpl in *.
  assert (py_or sub "" = sub) as Hs by (unfold py_or; by case_decide).
  rewrite Hs in *. rewrite decide_False by done. by eexists.
Qed.
End owner.

(** C28. Only its owner asks in a session or reads its history: for anybody else,
    whether the session is in memory or only stored, both fail, no message is
    recorded, and neither RAGFlow nor the language model is called. *)
Theorem foreign_session_closed `{Env} `{Crypto} cfg payload sid question w o :
  session_owner w sid = Some o → o ≠ tok_user payload → tok_user payload ≠ "" →
  (∃ e w', ask cfg payload sid question w = (Err e, w') ∧
     w_db w' = w_db w ∧ w_calls w' = w_calls w) ∧
  (∃ e w', get_history payload sid w = (Err e, w') ∧
     w_db w' = w_db w ∧ w_calls w' = w_calls w).
Proof.
  intros Ho Hne Hu.
  destruct (load_session_run sid w) as (l & w1 & Hload & Hdb & Hcalls & Hown & Hnone).
  destruct l as [g|].
  2:{ destruct (proj1 Hnone eq_refl) as [Hr Hs]. unfold session_owner in Ho.
      by rewrite Hr, Hs in Ho. }
  specialize (Hown g eq_refl). rewrite Ho in Hown.
  destruct (check_owner_err payload g w1) as [e He]; [congruence|done|].
  split; exists e, w1; (split; [|done]).
  - unfold ask. rewrite (bind_run _ _ _ _ _ Hload). by apply bind_err.
  - unfold get_history. rewrite (bind_run _ _ _ _ _ Hload). by apply bind_err.
Qed.

(** The session of [u_a] in the demonstration portal, asked by [u_b] *)
Lemma foreign_session_closed_witness :
  (∃ e w', ask demo_cfg (demo_payload "u_b" []) "s1" "hello" demo_world = (Err e, w') ∧
     w_db w' = demo_db ∧ w_calls w' = []) ∧
  (∃ e w', get_history (demo_payload "u_b" []) "s1" demo_world = (Err e, w') ∧
     w_db w' = demo_db ∧ w_calls w' = []).
Proof.
  apply (foreign_session_closed demo_cfg (demo_payload "u_b" []) "s1" "hello" demo_world "u_a");
    [vm_compute; reflexivity|discriminate|discriminate].
Defined.

(** ** Deleting and hiding *)

Lemma deactivated_gone sid now t :
  fetchone (λ s, s_session_id s = sid ∧ s_is_active s = true)
    (update_where (λ s, s_session_id s = sid) (s_deactivate now) t) = None.
Proof.
  apply fetchone_None. intros x Hx. apply elem_of_update_where in Hx as (y & _ & ->).
  case_decide as Hs; intros [Hid Hact]; [done|congruence].
Qed.

(** Whether [user] may delete or hide the session *)
Definition owns_session (d : Db) (sid user : string) : bool :=
  bool_decide (user ≠ "") && bool_decide (is_Some (owned_session sid user d)).

Lemma owned_active sid user d s :
  owned_session sid user d = Some s → is_Some (active_session sid d).
Proof.
  intros Hs. apply fetchone_Some in Hs as (Hin & ? & _ & ?).
  by apply (fetchone_is_Some _ _ s).
Qed.

Section changes.
Context `{Env}.

Lemma deactivate_run sid user w :
  deactivate_portal_session sid user w =
  match owned_session sid user (w_db w) with
  | Some _ => (Ok true, set_db (on_sessions (update_where (λ s, s_session_id s = sid)
                (s_deactivate (env_now (w_tick w)))) (w_db w)) (next_tick w))
  | None => (Ok false, next_tick w)
  end.
Proof.
  unfold deactivate_portal_session. run_goal. unfold with_conn. run_goal.
  change (w_db (next_tick w)) with (w_db w). by destruct (owned_session _ _ _).
Qed.

Lemma set_privacy_run sid user b w :
  update_portal_session_privacy sid user b w =
  match owned_session sid user (w_db w) with
  | Some _ => (Ok true, set_db (on_sessions (update_where (λ s, s_session_id s = sid)
                (s_set_private b (env_now (w_tick w)))) (w_db w)) (next_tick w))
  | None => (Ok false, next_tick w)
  end.
Proof.
  unfold update_portal_session_privacy. run_goal. unfold with_conn. run_goal.
  change (w_db (next_tick w)) with (w_db w). by destruct (owned_session _ _ _).
Qed.

Lemma load_session_gone sid w :
  w_registry w !! sid = None → active_session sid (w_db w) = None →
  load_session sid w = (Ok None, w).
Proof.
  intros Hr Hs. unfold load_session. erewrite bind_run by reflexivity. rewrite Hr.
  unfold get_portal_session. erewrite bind_run by (erewrite bind_run by reflexivity; reflexivity).
  by rewrite Hs.
Qed.
End changes.

(** [delete_session] never raises, succeeds exactly for the owner of an active
    session, and then the session is gone, from the memory and from the store, while
    every other session stays as it is; otherwise nothing changes. *)
Theorem delete_session_exact `{Env} payload sid w :
  ∃ w', delete_session payload sid w =
          (Ok (owns_session (w_db w) sid (tok_user payload)), w') ∧
  if owns_session (w_db w) sid (tok_user payload) then
    load_session sid w' = (Ok None, w') ∧
    (∀ sid', sid' ≠ sid → w_registry w' !! sid' = w_registry w !! sid') ∧
    (∀ s, s_session_id s ≠ sid → s ∈ t_sessions (w_db w') ↔ s ∈ t_sessions (w_db w)) ∧
    t_messages (w_db w') = t_messages (w_db w)
  else w_db w' = w_db w ∧ w_registry w' = w_registry w.
Proof.
  unfold delete_session, owns_session. cbv zeta. set (user := tok_user payload).
  destruct (decide (user = "")) as [->|Hu]; [by eexists|].
  rewrite bool_decide_eq_true_2 by done. simpl andb.
  unfold mbind at 1, M_bind at 1. rewrite deactivate_run.
  destruct (owned_session sid user (w_db w)) as [s|] eqn:Ho; [|by eexists].
  rewrite bool_decide_eq_true_2 by done. eexists. split; [reflexivity|]. cbn.
  split_and!; [|intros sid' ?; by rewrite lookup_delete_ne| |done].
  - apply load_session_gone; [apply lookup_delete_eq|apply deactivated_gone].
  - intros s' Hs'. by apply (update_where_other _ _ s_session_id sid).
Qed.

(** [update_session_privacy] changes the privacy of the owner's active session
    and nothing else: not its contents, not its activity, no other session. *)
Theorem update_session_privacy_exact `{Env} payload sid b w :
  ∃ w', update_session_privacy payload sid b w =
          (Ok (owns_session (w_db w) sid (tok_user payload)), w') ∧
  if owns_session (w_db w) sid (tok_user payload) then
    (∃ s now, active_session sid (w_db w) = Some s ∧
      active_session sid (w_db w') = Some (s_set_private b now s)) ∧
    w_registry w' !! sid = set_entry_private b <$> w_registry w !! sid ∧
    (∀ sid', sid' ≠ sid → w_registry w' !! sid' = w_registry w !! sid') ∧
    (∀ s, s_session_id s ≠ sid → s ∈ t_sessions (w_db w') ↔ s ∈ t_sessions (w_db w))
  else w_db w' = w_db w ∧ w_registry w' = w_registry w.
Proof.
  unfold update_session_privacy, owns_session. cbv zeta. set (user := tok_user payload).
  destruct (decide (user = "")) as [->|Hu]; [by eexists|].
  rewrite bool_decide_eq_true_2 by done. simpl andb.
  unfold mbind at 1, M_bind at 1. rewrite set_privacy_run.
  destruct (owned_session sid user (w_db w)) as [s|] eqn:Ho.
  - rewrite bool_decide_eq_true_2 by done. run_goal. cbn.
    destruct (owned_active _ _ _ _ Ho) as [s0 Hs0].
    assert (∃ s now, active_session sid (w_db w) = Some s ∧
      active_session sid (on_sessions (update_where (λ s, s_session_id s = sid)
        (s_set_private b (env_now (w_tick w)))) (w_db w)) = Some (s_set_private b now s)) as Hact.
    { exists s0, (env_now (w_tick w)). split; [done|].
      apply fetchone_update_where; [done|by apply fetchone_Some in Hs0 as (_ & -> & _)|done]. }
    destruct (w_registry w !! sid) as [g|] eqn:Hreg; eexists; (split; [reflexivity|]);
      cbn; (split; [exact Hact|split; [|split]]); rewrite ?lookup_insert_eq, ?Hreg; try done;
      try (intros; by rewrite lookup_insert_ne);
      intros s' Hs'; by apply (update_where_other _ _ s_session_id sid).
  - rewrite bool_decide_eq_false_2 by (by intros [? ?]). run_goal. cbn.
    by destruct (w_registry w !! sid); eexists.
Qed.

(** ** Listing *)

(** The department whose sessions are listed *)
Definition listed_dept (payload : json) (dept_id : option string) : string :=
  py_or (if opt_truthy dept_id then normalize_dept_id (default "" dept_id) else "")
    (normalize_dept_id (opt_or (tok_get "default_dept_id" payload) "")).

Lemma elem_of_sql_limit {A} n (l : list A) x : x ∈ sql_limit n l → x ∈ l.
Proof.
  unfold sql_limit. destruct (n <? 0); [done|]. intros (i & Hi & _)%elem_of_take.
  by eapply list_elem_of_lookup_2.
Qed.

Lemma Sorted_sql_limit {A} (R : relation A) n l : Sorted R l → Sorted R (sql_limit n l).
Proof. unfold sql_limit. destruct (n <? 0); [done|apply Sorted_take]. Qed.

Lemma by_updated_total a b : by_updated_desc a b = true ∨ by_updated_desc b a = true.
Proof. apply str_leb_total. Qed.

Definition newest_first (a b : SessionView) : Prop := by_updated_desc (sv_row a) (sv_row b) = true.

Lemma elem_of_views n l v :
  v ∈ session_view <$> sql_limit n (isort by_updated_desc l) → sv_row v ∈ l.
Proof.
  intros (s & -> & Hs)%list_elem_of_fmap. apply elem_of_sql_limit in Hs.
  by rewrite elem_of_isort in Hs.
Qed.

Lemma Sorted_views n l : Sorted newest_first (session_view <$> sql_limit n (isort by_updated_desc l)).
Proof.
  apply Sorted_fmap. unfold newest_first. simpl.
  apply Sorted_sql_limit, isort_sorted, by_updated_total.
Qed.

(** [list_sessions] shows a user active sessions of one of its departments only,
    the newest first: its own, and, to an administrator of that department, those of
    the others that are not private. *)
Theorem list_sessions_scope `{Env} payload dept_id w l w' :
  list_sessions payload dept_id w = (Ok l, w') →
  w' = w ∧ Sorted newest_first l ∧
  ∀ v, v ∈ l →
    let s := sv_row v in let dept := listed_dept payload dept_id in
    s ∈ t_sessions (w_db w) ∧ s_is_active s = true ∧
    (opt_truthy dept_id = true → normalize_dept_id (default "" dept_id) ≠ "" →
       dept ∈ tok_depts payload) ∧
    (s_user_id s = tok_user payload ∧ s_dept_id s = dept ∨
     s_user_id s ≠ tok_user payload ∧ s_is_private s = false ∧
     s_dept_id s = normalize_dept_id dept ∧ admin_of (w_db w) (tok_user payload) dept = true).
Proof.
  unfold list_sessions. cbv zeta. unfold tok_user, listed_dept.
  destruct (tok_get "sub" payload) as [user|]; [|intros [= <- <-]; split_and!; [done|constructor|by intros ? ?%elem_of_nil]].
  destruct (decide (user = "")) as [|Hu];
    [intros [= <- <-]; split_and!; [done|constructor|by intros ? ?%elem_of_nil]|].
  set (selected := if opt_truthy dept_id then _ else ""). simpl opt_or.
  replace (py_or user "") with user by (unfold py_or; by case_decide).
  destruct (decide (_ ∧ _)) as [|Hin]; [done|].
  set (dept := py_or selected _).
  destruct (decide (dept = "")) as [|Hd];
    [intros [= <- <-]; split_and!; [done|constructor|by intros ? ?%elem_of_nil]|].
  assert (opt_truthy dept_id = true → normalize_dept_id (default "" dept_id) ≠ "" →
    dept ∈ tok_depts payload) as Hdept.
  { intros Ht Hs. unfold selected in Hin. rewrite Ht in Hin. unfold dept, selected, py_or.
    rewrite Ht. rewrite decide_False by done. apply dec_stable. tauto. }
  intros Hrun. run_in Hrun.
  destruct (admin_of (w_db w) user dept) eqn:Hadm.
  - run_in Hrun. injection Hrun as <- <-. split; [done|]. split.
    { apply isort_sorted. intros a b. apply by_updated_total. }
    intros v Hv. autorewrite with portal in Hv.
    apply elem_of_app in Hv as [Hv|Hv]; apply elem_of_views, list_elem_of_filter in Hv; cbv zeta.
    + destruct Hv as [(? & ? & Hf) ?]. split_and!; try done. left. split; [done|].
      destruct Hf; [congruence|done].
    + destruct Hv as [(? & ? & Hex & Hpriv) ?]. split_and!; try done. right.
      split; [|split; [by destruct Hpriv|by split]].
      intros Heq. destruct Hex as [Hex|]; [|congruence]. simpl in Hex. unfold truthy in Hex.
      by apply bool_decide_eq_false in Hex.
  - injection Hrun as <- <-. split; [done|]. split; [apply Sorted_views|].
    intros v Hv. apply elem_of_views, list_elem_of_filter in Hv as [(? & ? & Hf) ?].
    cbv zeta. split_and!; try done. left. split; [done|]. destruct Hf; [congruence|done].
Qed.

(** [u_a] lists its one session. *)
Lemma list_sessions_scope_witness :
  ∃ l, list_sessions (demo_payload "u_a" ["dept_mp_q"]) None demo_world = (Ok l, demo_world) ∧
    length l = 1%nat ∧ Sorted newest_first l.
Proof.
  eexists. split; [vm_compute; reflexivity|]. split; [reflexivity|].
  apply (list_sessions_scope (demo_payload "u_a" ["dept_mp_q"]) None demo_world _ demo_world).
  vm_compute. reflexivity.
Defined.

(** ** Creating *)

Definition readable_by (d : Db) (depts : gset string) (selected user kb : string) : Prop :=
  owns_kb d kb user ∨ sees_kb d kb user depts selected ∨ kb_permission_of d kb user ≠ 0.

Section readable.
Context `{Env}.

Lemma effective_given_policy depts selected kb user w :
  clean_id kb →
  effective_kb_permission depts selected kb user (policy_of "kb" kb (w_db w)) w =
  effective_kb_permission depts selected kb user None w.
Proof.
  intros [_ Hkb]. unfold effective_kb_permission. rewrite Hkb. case_decide; [done|].
  destruct (policy_of "kb" kb (w_db w)) as [p|] eqn:Hp; [|done].
  by rewrite (bind_run _ (get_policy _ _) _ _ _ (get_policy_run _ _ _)), Hp.
Qed.

Lemma readable_kbs_run depts selected user kbs w :
  store_wf (w_db w) → clean_id user → Forall clean_id kbs →
  ∃ l, readable_kbs depts selected (Some user) kbs w = (Ok l, w) ∧ l `sublist_of` kbs ∧
       ∀ kb, kb ∈ kbs → kb ∈ l ↔ readable_by (w_db w) depts selected user kb.
Proof.
  intros Hwf Hu Hkbs. unfold readable_kbs.
  assert (opt_or (Some user) "" = user) as ->.
  { simpl. unfold py_or. case_decide; [|done]. by destruct Hu. }
  assert (∀ acc, ∃ l, for_fold (λ acc kb_id,
      p ← get_policy "kb" kb_id;
      eff ← effective_kb_permission depts selected kb_id user p;
      mret (if has_read eff then acc ++ [kb_id] else acc)) acc kbs w = (Ok (acc ++ l), w) ∧
    l `sublist_of` kbs ∧
    ∀ kb, kb ∈ kbs → kb ∈ l ↔ readable_by (w_db w) depts selected user kb) as Hgo;
    [|destruct (Hgo []) as (l & ? & ?); by exists l].
  induction Hkbs as [|kb kbs Hkb Hkbs IH]; intros acc; simpl.
  { exists []. rewrite app_nil_r. split_and!; [done|done|by intros ? ?%elem_of_nil]. }
  destruct (effective_kb_permission_run depts selected kb user w Hwf) as (mask & Hm & HR & _);
    [by destruct Hkb as [? ->]|by destruct Hu as [? ->]|].
  destruct Hkb as [Hkb0 Hkb], Hu as [Hu0 Hu]. rewrite Hkb, Hu in HR.
  assert (∀ f : string → list string → M (list string),
    (acc' ← (p ← get_policy "kb" kb;
             eff ← effective_kb_permission depts selected kb user p;
             mret (if has_read eff then acc ++ [kb] else acc)); f kb acc') w =
    f kb (if has_read mask then acc ++ [kb] else acc) w) as Hstep.
  { intros f. apply bind_run. rewrite (bind_run _ _ _ _ _ (get_policy_run _ _ _)).
    rewrite <-(effective_given_policy depts selected kb user w) in Hm by done.
    by rewrite (bind_run _ _ _ _ _ Hm). }
  rewrite (Hstep (λ _ acc', for_fold _ acc' kbs)).
  destruct (IH (if has_read mask then acc ++ [kb] else acc)) as (l & Hl & Hsub & Hin).
  rewrite Hl. destruct (has_read mask) eqn:Hmask.
  - exists (kb :: l). rewrite <-app_assoc. split_and!; [done|by apply sublist_skip|].
    intros kb' [->|Hkb']%elem_of_cons; [|rewrite elem_of_cons, <-Hin by done].
    + split; [intros _; by apply HR|intros _; left].
    + split; [intros [->|?]; [|done]|by right]. apply Hin; [done|]. by apply HR.
  - exists l. split_and!; [done|by apply sublist_cons|].
    intros kb' [->|Hkb']%elem_of_cons; [|by apply Hin].
    assert (¬ readable_by (w_db w) depts selected user kb) as Hno
      by (intros Hr; apply HR in Hr; congruence).
    split; [|done]. intros Hl'. apply Hin; [|done]. by eapply elem_of_sublist.
Qed.
End readable.

Section created.
Context `{Env} `{Crypto} (cfg : PortalConfig) (base_repr : list (string * pyv) → string).

(** The row [upsert_session] leaves is the active one of its id. *)
Lemma upsert_session_active s d :
  s_is_active s = true →
  ∃ s', active_session (s_session_id s) (upsert_session s d) = Some s' ∧
    s_user_id s' = s_user_id s ∧ s_dept_id s' = s_dept_id s ∧ s_agent_id s' = s_agent_id s ∧
    s_kb_ids_json s' = s_kb_ids_json s ∧ s_kb_overridden s' = s_kb_overridden s ∧
    s_is_private s' = s_is_private s.
Proof.
  intros Hact. unfold active_session, upsert_session.
  destruct (fetchone (λ r, s_session_id r = s_session_id s) (t_sessions d)) as [r|] eqn:Hf; simpl.
  - unfold fetchone, update_where in *. induction (t_sessions d) as [|x l IH]; [done|].
    rewrite filter_cons in Hf. rewrite fmap_cons. cbv beta.
    destruct (decide (s_session_id x = s_session_id s)) as [Hx|Hx].
    + eexists. rewrite filter_cons_True by done. split; [reflexivity|]. by split_and!.
    + rewrite filter_cons_False by tauto. by apply IH.
  - exists s. split; [|done]. rewrite fetchone_app_None.
    + unfold fetchone. by rewrite filter_cons_True.
    + apply fetchone_None. intros x Hx [Hid _]. rewrite fetchone_None in Hf. by destruct (Hf x Hx).
Qed.

(** The entry in memory and the row of a created session agree with the answer. *)
Definition stored_as (c : Created) (user owner : string) (priv : bool) (g : RegEntry)
    (s : SessionRow) : Prop :=
  (s_session_id s = cr_session_id c ∧ s_user_id s = user ∧ s_dept_id s = cr_dept_id c ∧
   s_agent_id s = cr_agent_id c ∧ s_kb_ids_json s = json_dumps_strs (cr_kb_ids c) ∧
   s_is_private s = priv ∧ s_is_active s = true ∧ s_kb_overridden s = g_kb_overridden g) ∧
  g_user_id g = Some user ∧ g_dept_id g = cr_dept_id c ∧ g_agent_id g = cr_agent_id c ∧
  g_kb_ids g = cr_kb_ids c ∧ g_agent_owner_id g = owner.

(** The owner of the agent of a session, none for a direct one *)
Definition agent_owner (d : Db) (agent : string) : string :=
  if decide (agent = "direct") then ""
  else opt_or (policy_of "agent" agent d ≫= p_owner_user_id) "".

Lemma create_portal_session_inv sid user dept agent kbs priv ov w u w' :
  create_portal_session sid user dept agent kbs priv ov w = (Ok u, w') →
  ∃ uid now, user = Some uid ∧ w' = set_db (upsert_session {|
    s_session_id := sid; s_user_id := uid; s_dept_id := dept; s_agent_id := agent;
    s_kb_ids_json := json_dumps_strs kbs; s_is_private := priv; s_kb_overridden := ov;
    s_created_at := now; s_updated_at := now; s_is_active := true |} (w_db w)) (next_tick w).
Proof.
  unfold create_portal_session. intros Hrun. run_in Hrun. unfold with_conn in Hrun.
  destruct user as [uid|]; [|done]. injection Hrun as _ <-. by eexists _, _.
Qed.

(** What a successful [create_session] stores, in memory and in the database *)
Definition session_created (payload : json) (dept agent : string) (kbs : list string) (priv : bool)
    (w : World) (c : Created) (w' : World) : Prop :=
  ∃ user g s, tok_get "sub" payload = Some user ∧
    normalize_dept_id dept ∈ tok_depts payload ∧ cr_dept_id c = normalize_dept_id dept ∧
    cr_agent_id c ≠ "" ∧
    w_registry w' = <[cr_session_id c := g]> (w_registry w) ∧
    w_db w' = upsert_session s (w_db w) ∧
    stored_as c user (agent_owner (w_db w) (cr_agent_id c)) priv g s ∧
    (agent = "" ∨ agent = "direct" ∨ kbs ≠ [] →
       ∃ w1 w2, w_db w1 = w_db w ∧ readable_kbs (tok_depts payload) (normalize_dept_id dept)
                 (Some user) kbs w1 = (Ok (cr_kb_ids c), w2)).

Lemma create_direct_inv payload dept agent kbs priv w c w' :
  normalize_dept_id dept ∈ tok_depts payload →
  create_direct_session (tok_depts payload) (normalize_dept_id dept) (tok_get "sub" payload) kbs
    priv w = (Ok c, w') →
  session_created payload dept agent kbs priv w c w'.
Proof.
  intros Hin. unfold create_direct_session. intros Hrun. run_in Hrun. bind_inv Hrun l w2 Hl.
  pose proof (quiet_readable_kbs (tok_depts payload) (normalize_dept_id dept)
    (tok_get "sub" payload) kbs (next_tick w)) as [Hq1 Hq2]. rewrite Hl in Hq1, Hq2.
  run_in Hrun. bind_inv Hrun u w3 Hc.
  apply create_portal_session_inv in Hc as (user & now & Hsub & ->). injection Hrun as <- <-.
  rewrite Hsub. eexists user, _, _. split; [done|].
  cbn -[json_dumps_strs]. cbn in Hq1, Hq2. rewrite Hq1, Hq2. split_and!; try done.
  intros _. rewrite <-Hsub. by exists (next_tick w), w2.
Qed.

(** The searched knowledge bases of an agent session *)
Lemma agent_session_kbs payload dept agent kbs key w l w' :
  (if bool_decide (kbs ≠ []) then
     readable_kbs (tok_depts payload) (normalize_dept_id dept) (tok_get "sub" payload) kbs
   else agent_kbs base_repr key agent) w = (Ok l, w') →
  w_db w' = w_db w ∧ w_registry w' = w_registry w.
Proof.
  intros Hl. destruct (bool_decide (kbs ≠ [])).
  - pose proof (quiet_readable_kbs (tok_depts payload) (normalize_dept_id dept)
      (tok_get "sub" payload) kbs w) as Hq. by rewrite Hl in Hq.
  - pose proof (quiet_agent_kbs base_repr key agent w) as Hq. by rewrite Hl in Hq.
Qed.

Lemma create_session_inv payload dept agent kbs priv w c w' :
  create_session cfg base_repr payload dept agent kbs priv w = (Ok c, w') →
  session_created payload dept agent kbs priv w c w'.
Proof.
  unfold create_session. destruct (decide (_ ∉ _)) as [|Hin]; [done|]. apply dec_stable in Hin.
  destruct (decide (_ ∨ _)) as [Hd|Hd]; [by apply create_direct_inv|].
  intros Hrun. rewrite (bind_run _ _ _ _ _ (get_policy_run _ _ _)) in Hrun.
  bind_inv Hrun b w1 Hb. injection Hb as Hb <-. destruct b; [|done]. cbn [negb] in Hrun.
  bind_inv Hrun key w1 Hk. pose proof (quiet_get_rag_client cfg
    (opt_or (policy_of "agent" agent (w_db w) ≫= p_owner_user_id) "") w) as [Hq1 Hr1].
  rewrite Hk in Hq1, Hr1. bind_inv Hrun agents w2 Ha.
  pose proof (quiet_list_agents key 1 30 (Some agent) w1) as [Hq2 Hr2]. rewrite Ha in Hq2, Hr2.
  cbn in Hq1, Hr1, Hq2, Hr2. destruct agents as [|ag ags]; [done|].
  bind_inv Hrun l w3 Hl. pose proof (agent_session_kbs _ _ _ _ _ _ _ _ Hl) as [Hq3 Hr3].
  destruct (tok_get "sub" payload) as [user|] eqn:Hsub; [|done]. run_in Hrun.
  bind_inv Hrun rs w4 Hs. pose proof (quiet_agent_create_session key (ag_id ag)
    ("portal-" +:+ user +:+ "-" +:+ str_of_Z (env_time (w_tick w3))) (next_tick w3)) as [Hq4 Hr4].
  rewrite Hs in Hq4, Hr4. cbn in Hq4, Hr4. run_in Hrun. injection Hrun as <- <-.
  assert (agent_owner (w_db w) agent =
    opt_or (policy_of "agent" agent (w_db w) ≫= p_owner_user_id) "") as Hown
    by (unfold agent_owner; rewrite decide_False; tauto).
  eexists user, _, _. split; [done|]. cbn -[json_dumps_strs agent_owner].
  rewrite Hown, Hq4, Hq3, Hq2, Hq1, Hr4, Hr3, Hr2, Hr1.
  split; [done|]. split; [done|]. split; [tauto|]. split; [done|]. split; [done|].
  split; [by split_and!|]. intros Hk'. exists w2, w3. split; [congruence|].
  rewrite bool_decide_eq_true_2 in Hl by tauto. done.
Qed.
End created.


(** The portal process ends and starts again on the same file. *)
Definition restart (w : World) : World := set_registry ∅ w.


(** [u_b] names both knowledge bases and gets the one shared with it. *)
Definition demo_create : res Created * World :=
  create_session demo_cfg (λ _, "") (demo_payload "u_b" ["dept_mp_q"]) "dept_mp_q" "direct"
    ["kb1"; "kb2"] false demo_world.

Definition demo_created : Created := {|
  cr_session_id := "direct-0"; cr_agent_id := "direct"; cr_dept_id := "dept_mp_q";
  cr_kb_ids := ["kb2"]; cr_is_private := false |}.

Lemma demo_create_run : demo_create = (Ok demo_created, demo_create.2).
Proof. vm_compute. reflexivity. Defined.


