(* ===== verification/ChatProps.v ===== *)
(** Theorems on retrieval and questions: which account searches which knowledge
    base, how the chunks are ranked, and what a question leaves in the store. *)
From S2P Require Import Prelude PyText Json Dsl Digest Schema Effects Steps StoreUsers StorePolicy.
From S2P Require Import StoreSessions StoreRequests StoreStep StoreInv GatewayToken GatewayAccess.
From S2P Require Import GatewayShare GatewayChat GatewaySession Demo AccessProps Run SessionProps.
From Stdlib Require Import SpecFloat.

Local Open Scope Z_scope.

(** ** Ranking *)

Lemma SFcompare_gt_lt a b : SFcompare a b = Some Gt → SFcompare b a ≠ Some Gt.
Proof.
  destruct a as [sa|sa| |sa ma ea], b as [sb|sb| |sb mb eb]; simpl; try done;
    try (destruct sa, sb; done).
  destruct sa, sb; try done; rewrite (Z.compare_antisym ea eb);
    destruct (ea ?= eb); simpl; try done;
    rewrite <-!Pos.compare_cont_spec || idtac;
    change (Pos.compare_cont Eq mb ma) with (mb ?= ma)%positive;
    change (Pos.compare_cont Eq ma mb) with (ma ?= mb)%positive;
    rewrite (Pos.compare_antisym ma mb); by destruct (ma ?= mb)%positive.
Qed.

Lemma chunk_leb_total a b : chunk_leb a b = true ∨ chunk_leb b a = true.
Proof.
  unfold chunk_leb. destruct (SFcompare (chunk_score b) (chunk_score a)) as [[]|] eqn:E; auto.
  right. apply SFcompare_gt_lt in E. by destruct (SFcompare _ _) as [[]|].
Qed.

(** ** Retrieval *)

(** The key with which a knowledge base is searched *)
Definition search_key (cfg : PortalConfig) (agent_owner_id : string) (d : Db) (p : PolicyRow)
    : string :=
  let key_of u := match user_by_id u d with Some r => opt_or (u_ragflow_token r) "" | None => "" end in
  let owner := py_or (opt_or (p_owner_user_id p) "") agent_owner_id in
  let key := if decide (owner = "") then "" else key_of owner in
  let key := if decide (key = "" ∧ agent_owner_id ≠ "") then key_of agent_owner_id else key in
  py_or key (api_key cfg).

(** The searches of a question: the knowledge bases that have a policy, grouped by
    their key *)
Definition search_groups (cfg : PortalConfig) (agent_owner_id : string) (d : Db)
    (kb_ids : list string) : list (string * list string) :=
  foldl (λ g kb, match policy_of "kb" kb d with
                 | Some p => group_add (search_key cfg agent_owner_id d p) kb g
                 | None => g
                 end) [] kb_ids.

Definition searched (key kb : string) (g : list (string * list string)) : Prop :=
  Exists (λ e, e.1 = key ∧ kb ∈ e.2) g.

Lemma group_add_in token kb g key kb' :
  searched key kb' (group_add token kb g) ↔ (key = token ∧ kb' = kb) ∨ searched key kb' g.
Proof.
  unfold searched. induction g as [|[t ids] g IH]; simpl.
  - rewrite Exists_cons, Exists_nil. simpl. rewrite list_elem_of_singleton. naive_solver.
  - case_decide as Ht; rewrite !Exists_cons; simpl.
    + subst t. rewrite elem_of_app, list_elem_of_singleton. naive_solver.
    + rewrite IH. naive_solver.
Qed.

(** A knowledge base is searched with its own key, and only with it. *)
Lemma search_groups_spec cfg ao d kbs key kb :
  searched key kb (search_groups cfg ao d kbs) ↔
  kb ∈ kbs ∧ ∃ p, policy_of "kb" kb d = Some p ∧ search_key cfg ao d p = key.
Proof.
  unfold search_groups. induction kbs as [|kb' kbs IH] using rev_ind.
  { simpl. unfold searched. rewrite Exists_nil, elem_of_nil. tauto. }
  rewrite foldl_snoc, elem_of_app, list_elem_of_singleton.
  destruct (policy_of "kb" kb' d) as [p|] eqn:Hp; rewrite ?group_add_in, IH; [|naive_solver].
  split; [|naive_solver]. intros [[-> ->]|?]; naive_solver.
Qed.

(** The chunks of the searches, the first made at tick [t]; a search that fails
    finds nothing. *)
Fixpoint found_chunks `{Env} (question : string) (top_k : Z) (t : nat)
    (groups : list (string * list string)) : list ChunkDict :=
  match groups with
  | [] => []
  | g :: l =>
      match env_answer_retrieve t g.1 g.2 question top_k with
      | Ok chunks => chunk_dicts chunks
      | Err _ => []
      end ++ found_chunks question top_k (S t) l
  end.

Section retrieval.
Context `{Env} `{Crypto} (cfg : PortalConfig).

Lemma token_run u w :
  get_user_ragflow_token u w =
  (Ok (match user_by_id u (w_db w) with Some r => opt_or (u_ragflow_token r) "" | None => "" end), w).
Proof. reflexivity. Qed.

Lemma kb_token_run ao p w : kb_token cfg ao p w = (Ok (search_key cfg ao (w_db w) p), w).
Proof.
  unfold kb_token, search_key. cbv zeta.
  destruct (decide (py_or (opt_or (p_owner_user_id p) "") ao = "")); run_goal;
    (destruct (decide (_ ∧ _)); by run_goal).
Qed.

Lemma group_kbs_run ao kbs w :
  for_fold (group_kb cfg ao) [] kbs w = (Ok (search_groups cfg ao (w_db w) kbs), w).
Proof.
  unfold search_groups. generalize (@nil (string * list string)) as g.
  induction kbs as [|kb kbs IH]; intros g; simpl; [done|].
  erewrite bind_run; [apply IH|]. unfold group_kb.
  rewrite (bind_run _ _ _ _ _ (get_policy_run _ _ _)).
  destruct (policy_of "kb" kb (w_db w)) as [p|]; [|done].
  by rewrite (bind_run _ _ _ _ _ (kb_token_run _ _ _)).
Qed.

(** RAGFlow answers with chunks or with an exception of its own. *)
Context (answers : ∀ n key ids q k, env_answer_retrieve n key ids q k ≠ Err OutOfFuel).

Lemma retrieve_groups_run question top_k acc groups w :
  ∃ w', for_fold (retrieve_group question top_k) acc groups w =
      (Ok (acc ++ found_chunks question top_k (w_tick w) groups), w') ∧
    w_db w' = w_db w ∧ w_registry w' = w_registry w ∧
    w_calls w' = w_calls w ++ ((λ g, CallRetrieve g.1 g.2 question top_k) <$> groups).
Proof using answers.
  revert acc w. induction groups as [|g groups IH]; intros acc w; simpl.
  { exists w. by rewrite !app_nil_r. }
  set (c := CallRetrieve g.1 g.2 question top_k).
  destruct (IH (acc ++ match env_answer_retrieve (w_tick w) g.1 g.2 question top_k with
                       | Ok chunks => chunk_dicts chunks | Err _ => [] end) (log_call c w))
    as (w' & Hrun & Hdb & Hreg & Hcalls).
  exists w'. split_and!; [|done|done|by rewrite Hcalls; simpl; rewrite <-app_assoc].
  rewrite app_assoc. erewrite bind_run; [exact Hrun|].
  unfold retrieve_group, try_except, rag_retrieve, ext, mbind, M_bind.
  destruct (env_answer_retrieve (w_tick w) g.1 g.2 question top_k) as [l|e] eqn:E; [done|].
  rewrite app_nil_r. destruct e; done || by destruct (answers _ _ _ _ _ E).
Qed.
End retrieval.

(** C29. Retrieval never fails: it answers with the best chunks, the highest score
    first and at most [top_k] of them, of all the searches that succeed. Every
    knowledge base that has a policy is searched, with the key of its owner (or of
    the agent's owner, or the shared one) and no other, and nothing else is called. *)
Theorem multi_tenant_retrieve_spec `{Env} `{Crypto} cfg kb_ids question top_k ao w :
  (∀ n key ids q k, env_answer_retrieve n key ids q k ≠ Err OutOfFuel) →
  kb_ids ≠ [] → py_strip question ≠ "" →
  ∃ groups best rest w',
    multi_tenant_retrieve cfg kb_ids question top_k ao w = (Ok best, w') ∧
    best ++ rest ≡ₚ found_chunks question top_k (w_tick w) groups ∧
    Sorted (λ a b, chunk_leb a b = true) (best ++ rest) ∧
    length best = Nat.min (Z.to_nat top_k) (length (best ++ rest)) ∧
    w_db w' = w_db w ∧ w_registry w' = w_registry w ∧
    w_calls w' = w_calls w ++ ((λ g, CallRetrieve g.1 g.2 question top_k) <$> groups) ∧
    ∀ key kb, searched key kb groups ↔
      kb ∈ kb_ids ∧ ∃ p, policy_of "kb" kb (w_db w) = Some p ∧ search_key cfg ao (w_db w) p = key.
Proof.
  intros Hans Hkbs Hq. unfold multi_tenant_retrieve. rewrite decide_False by tauto.
  rewrite (bind_run _ _ _ _ _ (group_kbs_run cfg ao kb_ids w)).
  set (groups := search_groups cfg ao (w_db w) kb_ids).
  destruct (retrieve_groups_run Hans question top_k [] groups w) as (w' & Hrun & Hdb & Hreg & Hcalls).
  rewrite (bind_run _ _ _ _ _ Hrun). simpl app.
  set (found := found_chunks question top_k (w_tick w) groups).
  exists groups, (take (Z.to_nat top_k) (isort chunk_leb found)),
    (drop (Z.to_nat top_k) (isort chunk_leb found)), w'.
  rewrite take_drop. split_and!; try done.
  - apply isort_Permutation.
  - apply isort_sorted, chunk_leb_total.
  - apply length_take.
  - intros key kb. apply search_groups_spec.
Qed.

(** The question of [u_b] on both knowledge bases of [u_a]: one search, with the key
    of [u_a]. *)
Lemma multi_tenant_retrieve_spec_witness :
  ∃ groups best rest w',
    multi_tenant_retrieve demo_cfg ["kb1"; "kb2"] "why?" 1 "" demo_world = (Ok best, w') ∧
    best ++ rest ≡ₚ found_chunks "why?" 1 0 groups ∧
    length best = Nat.min 1 (length (best ++ rest)) ∧
    ∀ key kb, searched key kb groups ↔
      kb ∈ ["kb1"; "kb2"] ∧ ∃ p, policy_of "kb" kb demo_db = Some p ∧
        search_key demo_cfg "" demo_db p = key.
Proof.
  destruct (multi_tenant_retrieve_spec demo_cfg ["kb1"; "kb2"] "why?" 1 "" demo_world)
    as (groups & best & rest & w' & Hrun & Hperm & _ & Hlen & _ & _ & _ & Hs);
    [discriminate|discriminate|discriminate|].
  exists groups, best, rest, w'. split; [exact Hrun|]. split; [exact Hperm|].
  split; [exact Hlen|exact Hs].
Defined.

Example demo_retrieve :
  (multi_tenant_retrieve demo_cfg ["kb1"; "kb2"] "why?" 1 "" demo_world).1 =
  Ok (take 1 (chunk_dicts [demo_chunk "0.75"])).
Proof. by vm_compute. Qed.

(** ** Questions *)

(** The computations that leave the store as it is *)
Abbreviation reads := (steps (on_db eq)).

Ltac reads_op :=
  intros; lazymatch goal with |- steps _ ?m => let h := head_of m in unfold h end; steps_tac.

Lemma quiet_reads {A} (m : M A) : steps quiet m → reads m.
Proof. intros Hm w. destruct (Hm w) as [Hd _]. by unfold on_db. Qed.

Section reads.
Context `{Env} `{Crypto} (cfg : PortalConfig).

Lemma reads_lift {A} (r : res A) : reads (lift_res r).
Proof. apply steps_lift. Qed.
#[local] Hint Resolve reads_lift : steps.

Lemma reads_get_policy rt rid : reads (get_policy rt rid).
Proof. reads_op. Qed.
Lemma reads_token u : reads (get_user_ragflow_token u).
Proof. reads_op. Qed.
#[local] Hint Resolve reads_get_policy reads_token : steps.

Lemma reads_kb_token ao p : reads (kb_token cfg ao p).
Proof. reads_op. Qed.
#[local] Hint Resolve reads_kb_token : steps.

Lemma reads_group_kb ao g kb : reads (group_kb cfg ao g kb).
Proof. reads_op. Qed.
Lemma reads_rag_retrieve key ids q k : reads (rag_retrieve key ids q k).
Proof. reads_op. Qed.
#[local] Hint Resolve reads_rag_retrieve : steps.

Lemma reads_retrieve_group q k acc g : reads (retrieve_group q k acc g).
Proof. reads_op. Qed.
#[local] Hint Resolve reads_group_kb reads_retrieve_group : steps.

Lemma reads_multi kbs q k ao : reads (multi_tenant_retrieve cfg kbs q k ao).
Proof. reads_op. Qed.
#[local] Hint Resolve reads_multi : steps.

Lemma reads_get_m k d : reads (get_m k d).
Proof. reads_op. Qed.
#[local] Hint Resolve reads_get_m : steps.

Lemma reads_first_choice d : reads (first_choice d).
Proof. reads_op. Qed.
#[local] Hint Resolve reads_first_choice : steps.

Lemma reads_completion d : reads (completion_text d).
Proof. reads_op. Qed.
Lemma reads_resp_json r : reads (resp_json r).
Proof. reads_op. Qed.
Lemma reads_chat_post u h b : reads (chat_post u h b).
Proof. reads_op. Qed.
#[local] Hint Resolve reads_completion reads_resp_json reads_chat_post : steps.

Lemma reads_try_candidates payload last l : reads (try_candidates payload last l).
Proof.
  revert last. induction l as [|[url header] l IH]; intros last; simpl; steps_tac.
Qed.
#[local] Hint Resolve reads_try_candidates : steps.

Lemma reads_direct_chat ms : reads (direct_chat cfg ms).
Proof. reads_op. Qed.
#[local] Hint Resolve reads_direct_chat : steps.

Lemma reads_generate q chunks h : reads (generate_answer_direct cfg q chunks h).
Proof. unfold generate_answer_direct. reads_op. Qed.
Lemma reads_list_messages sid n : reads (list_portal_messages sid n).
Proof. reads_op. Qed.
#[local] Hint Resolve reads_generate reads_list_messages : steps.

Lemma reads_chat_history sid n : reads (chat_history sid n).
Proof. reads_op. Qed.
Lemma reads_http what u a b : reads (http_send what u a b).
Proof. reads_op. Qed.
#[local] Hint Resolve reads_http : steps.

Lemma reads_extract r : reads (extract_chunks r).
Proof. reads_op. Qed.
Lemma reads_rag_client u : reads (get_rag_client cfg u).
Proof. reads_op. Qed.
Lemma reads_list_agents key p n id : reads (rag_list_agents key p n id).
Proof. reads_op. Qed.
Lemma reads_list_rag_sessions key a n id : reads (rag_agent_list_sessions key a n id).
Proof. reads_op. Qed.
Lemma reads_session_ask s q i : reads (rag_session_ask s q i).
Proof. reads_op. Qed.
#[local] Hint Resolve reads_chat_history reads_extract reads_rag_client reads_list_agents
  reads_list_rag_sessions reads_session_ask : steps.

Lemma reads_recover a sid o : reads (recover_agent_session cfg a sid o).
Proof. reads_op. Qed.
#[local] Hint Resolve reads_recover : steps.

Lemma reads_runtime sid g : reads (runtime_session cfg sid g).
Proof. reads_op. Qed.
#[local] Hint Resolve reads_runtime : steps.

Lemma reads_ask_direct sid g q : reads (ask_direct cfg sid g q).
Proof. reads_op. Qed.
Lemma reads_ask_agent_kb sid g q : reads (ask_agent_kb cfg sid g q).
Proof. reads_op. Qed.
Lemma reads_ask_agent sid g q : reads (ask_agent cfg sid g q).
Proof. reads_op. Qed.
End reads.

(** The two rows of an exchange *)
Definition message_row (sid role content : string) (refs : list json) (m : MessageRow) : Prop :=
  m_session_id m = sid ∧ m_role m = role ∧ m_content m = content ∧
  m_references_json m = json_dumps (JArr refs).

(** Only messages, and the times of sessions, differ. *)
Definition same_rights (d d' : Db) : Prop :=
  t_users d' = t_users d ∧ t_user_departments d' = t_user_departments d ∧
  t_policies d' = t_policies d ∧ t_shares d' = t_shares d ∧ t_requests d' = t_requests d ∧
  t_audit d' = t_audit d.

Section exchange.
Context `{Env} `{Crypto} (cfg : PortalConfig).

Lemma append_run sid role content refs w :
  ∃ m w', append_portal_message sid role content refs w = (Ok (), w') ∧
    t_messages (w_db w') = t_messages (w_db w) ++ [m] ∧
    message_row sid role content refs m ∧ same_rights (w_db w) (w_db w').
Proof. eexists _, _. split; [reflexivity|]. split; [reflexivity|]. split; by repeat split. Qed.

(** The answer of [ask], before it is recorded *)
Definition ask_answer (sid : string) (g : RegEntry) (question : string)
    : M (string * list pyv) :=
  if decide (g_agent_id g = "direct") then ask_direct cfg sid g question
  else if g_kb_overridden g && bool_decide (g_kb_ids g ≠ [])
       then ask_agent_kb cfg sid g question
       else ask_agent cfg sid g question.

Lemma reads_ask_answer sid g q : reads (ask_answer sid g q).
Proof.
  unfold ask_answer. case_decide; [apply reads_ask_direct|].
  case_match; [apply reads_ask_agent_kb|apply reads_ask_agent].
Qed.

Lemma check_owner_inv payload g w u w' :
  check_owner payload g w = (Ok u, w') → w' = w ∧ is_Some (g_user_id g) ∧
  g_user_id g = tok_get "sub" payload.
Proof.
  unfold check_owner. destruct (tok_get "sub" payload) as [sub|]; [|done].
  case_decide as Hg; [|done]. intros [= _ <-]. by rewrite Hg.
Qed.

Lemma ask_inv payload sid question w out w' :
  ask cfg payload sid question w = (Ok out, w') →
  session_owner w sid = tok_get "sub" payload ∧ py_strip question ≠ "" ∧
  ∃ refs w1 w2 w3, mapM to_json (ak_references out) = Some refs ∧ w_db w1 = w_db w ∧
    append_portal_message sid "user" question [] w1 = (Ok (), w2) ∧
    append_portal_message sid "assistant" (ak_answer out) refs w2 = (Ok (), w3) ∧ w' = w3.
Proof.
  destruct (load_session_run sid w) as (l & w1 & Hload & Hdb & _ & Hown & _).
  unfold ask. rewrite (bind_run _ _ _ _ _ Hload). destruct l as [g|]; [|done].
  intros Hrun. bind_inv Hrun u w2 Hc. apply check_owner_inv in Hc as (-> & _ & Hg).
  destruct (decide (py_strip question = "")) as [|Hq]; [done|].
  fold (ask_answer sid g question) in Hrun. bind_inv Hrun ar w2 Ha.
  pose proof (reads_ask_answer sid g question w1) as Hr. rewrite Ha in Hr.
  unfold on_db in Hr. simpl in Hr. destruct ar as [answer refs].
  bind_inv Hrun u1 w3 Hu1. bind_inv Hrun js w4 Hj. bind_inv Hrun u2 w5 Hu2.
  unfold json_refs in Hj. destruct (mapM to_json refs) as [l|] eqn:Hjs; [|done].
  injection Hj as <- <-. injection Hrun as <- <-. destruct u1, u2.
  split; [by rewrite (Hown g eq_refl)|]. split; [done|]. exists l, w2, w3, w5.
  by rewrite <-Hr.
Qed.
End exchange.

(** A question that is answered is recorded: by the session's owner only, and as
    exactly two messages at the end, the question and then the answer with its
    references; nothing that grants rights changes. *)
Theorem ask_records_exchange `{Env} `{Crypto} cfg payload sid question w out w' :
  ask cfg payload sid question w = (Ok out, w') →
  session_owner w sid = tok_get "sub" payload ∧ py_strip question ≠ "" ∧
  same_rights (w_db w) (w_db w') ∧
  ∃ m1 m2 refs, mapM to_json (ak_references out) = Some refs ∧
    t_messages (w_db w') = t_messages (w_db w) ++ [m1; m2] ∧
    message_row sid "user" question [] m1 ∧ message_row sid "assistant" (ak_answer out) refs m2.
Proof.
  intros Hrun. apply ask_inv in Hrun as (Ho & Hq & refs & w1 & w2 & w3 & Hrefs & Hdb & Ha1 & Ha2 & ->).
  split; [done|]. split; [done|].
  destruct (append_run sid "user" question [] w1) as (m1 & w2' & Hr1 & Ht1 & Hm1 & Hs1).
  rewrite Hr1 in Ha1. injection Ha1 as ->.
  destruct (append_run sid "assistant" (ak_answer out) refs w2) as (m2 & w3' & Hr2 & Ht2 & Hm2 & Hs2).
  rewrite Hr2 in Ha2. injection Ha2 as ->. rewrite Hdb in *. split.
  - destruct Hs1 as (? & ? & ? & ? & ? & ?), Hs2 as (? & ? & ? & ? & ? & ?). split_and!; congruence.
  - exists m1, m2, refs. split_and!; try done. by rewrite Ht2, Ht1, <-app_assoc.
Qed.

Definition demo_ask : res AskOut * World :=
  ask demo_cfg (demo_payload "u_a" ["dept_mp_q"]) "s1" "why?" demo_world.

Lemma ask_records_exchange_witness :
  ∃ m1 m2, t_messages (w_db demo_ask.2) = [m1; m2] ∧ message_row "s1" "user" "why?" [] m1 ∧
    m_content m2 = "answer".
Proof.
  assert (∃ out, demo_ask = (Ok out, demo_ask.2) ∧ ak_answer out = "answer") as (out & Hrun & Hans).
  { eexists. split; [vm_compute; reflexivity|reflexivity]. }
  destruct (ask_records_exchange demo_cfg (demo_payload "u_a" ["dept_mp_q"]) "s1" "why?" demo_world
    out demo_ask.2 Hrun) as (_ & _ & _ & m1 & m2 & refs & _ & Ht & Hm1 & Hm2).
  exists m1, m2. split; [exact Ht|]. split; [exact Hm1|].
  destruct Hm2 as (_ & _ & Hc & _). rewrite Hc. exact Hans.
Defined.

(** ** History *)

(** The messages of some rows; a row whose references do not parse raises. *)
Fixpoint view_all (l : list MessageRow) : res (list MessageView) :=
  match l with
  | [] => Ok []
  | m :: l' =>
      match message_view m with
      | Err e => Err e
      | Ok v => match view_all l' with Ok vs => Ok (v :: vs) | Err e => Err e end
      end
  end.

Lemma view_all_app l l' vs :
  view_all l = Ok vs →
  view_all (l ++ l') = match view_all l' with Ok vs' => Ok (vs ++ vs') | Err e => Err e end.
Proof.
  revert vs. induction l as [|m l IH]; intros vs; simpl; [intros [= <-]; by case_match|].
  destruct (message_view m) as [v|]; [|done]. destruct (view_all l) as [vs0|]; [|done].
  intros [= <-]. rewrite (IH _ eq_refl). by destruct (view_all l').
Qed.

Lemma sql_limit_app {A} n (l l' : list A) :
  0 ≤ n ≤ Z.of_nat (length l) → sql_limit n (l ++ l') = sql_limit n l.
Proof.
  intros Hn. unfold sql_limit. destruct (Z.ltb_spec n 0); [lia|]. apply take_app_le. lia.
Qed.

Lemma sql_limit_all {A} n (l : list A) : n < 0 ∨ Z.of_nat (length l) ≤ n → sql_limit n l = l.
Proof.
  intros Hn. unfold sql_limit. destruct (Z.ltb_spec n 0); [done|]. apply take_ge. lia.
Qed.

Section history.
Context `{Env} `{Crypto} (cfg : PortalConfig).

Lemma list_messages_run sid n w :
  list_portal_messages sid n w = (view_all (sql_limit n (session_messages (w_db w) sid)), w).
Proof.
  unfold list_portal_messages. erewrite bind_run by reflexivity.
  assert (∀ l acc, for_fold (λ acc m, v ← lift_res (message_view m); mret (acc ++ [v])) acc l w =
    (match view_all l with Ok vs => Ok (acc ++ vs) | Err e => Err e end, w)) as Hgo.
  { induction l as [|m l IH]; intros acc; simpl; [by rewrite app_nil_r|].
    destruct (message_view m) as [v|e].
    - erewrite bind_run by reflexivity.
      rewrite IH. destruct (view_all l); [by rewrite <-app_assoc|done].
    - by apply bind_err. }
  rewrite Hgo. by destruct (view_all _).
Qed.

Lemma chat_history_run sid n w w' :
  sql_limit n (session_messages (w_db w') sid) = sql_limit n (session_messages (w_db w) sid) →
  (chat_history sid n w').1 = (chat_history sid n w).1.
Proof.
  intros Heq. unfold chat_history, mbind, M_bind. rewrite !list_messages_run, Heq.
  by destruct (view_all _).
Qed.
End history.

(** The history handed to the language model freezes: it is the first [n]
    messages of the session, so once a session has [n] of them, no answered question
    changes it any more. *)
Theorem chat_history_frozen `{Env} `{Crypto} cfg payload sid question n w out w' :
  0 ≤ n ≤ Z.of_nat (length (session_messages (w_db w) sid)) →
  ask cfg payload sid question w = (Ok out, w') →
  (chat_history sid n w').1 = (chat_history sid n w).1.
Proof.
  intros Hn Hrun. apply ask_inv in Hrun as (_ & _ & refs & w1 & w2 & w3 & _ & Hdb & Ha1 & Ha2 & ->).
  destruct (append_run sid "user" question [] w1) as (m1 & w2' & Hr1 & Ht1 & _).
  rewrite Hr1 in Ha1. injection Ha1 as ->.
  destruct (append_run sid "assistant" (ak_answer out) refs w2) as (m2 & w3' & Hr2 & Ht2 & _).
  rewrite Hr2 in Ha2. injection Ha2 as ->. apply chat_history_run.
  unfold session_messages in *. rewrite Ht2, Ht1, Hdb, <-app_assoc, filter_app.
  by apply sql_limit_app.
Qed.

(** A message comes back as it was recorded, after the ones before it, with its
    references decoded. *)
Theorem message_roundtrip `{Env} sid role content refs n w vs :
  json_ok (JArr refs) →
  view_all (session_messages (w_db w) sid) = Ok vs →
  n < 0 ∨ Z.of_nat (length (session_messages (w_db w) sid)) < n →
  ∃ w' v, append_portal_message sid role content refs w = (Ok (), w') ∧
    list_portal_messages sid n w' = (Ok (vs ++ [v]), w') ∧
    mv_role v = role ∧ mv_content v = content ∧ mv_references v = JArr refs.
Proof.
  intros Hok Hvs Hn.
  destruct (append_run sid role content refs w) as (m & w' & Hrun & Ht & (Hs & Hr & Hc & Hj) & _).
  assert (session_messages (w_db w') sid = session_messages (w_db w) sid ++ [m]) as Hms.
  { unfold session_messages. rewrite Ht, filter_app. f_equal. by rewrite filter_cons_True. }
  exists w', {| mv_role := role; mv_content := content; mv_references := JArr refs;
                mv_created_at := m_created_at m |}.
  split; [done|]. split; [|done]. rewrite list_messages_run, Hms, sql_limit_all.
  - rewrite (view_all_app _ _ _ Hvs). simpl. unfold message_view.
    rewrite Hj, Hr, Hc. unfold py_or. rewrite decide_False.
    + by rewrite json_loads_dumps.
    + intros He. pose proof (json_loads_dumps _ Hok) as Hl. by rewrite He in Hl.
  - rewrite length_app. simpl. lia.
Qed.

Lemma message_roundtrip_witness :
  ∃ w' v, append_portal_message "s1" "user" "hi" [JStr "kb2"] demo_world = (Ok (), w') ∧
    list_portal_messages "s1" 500 w' = (Ok [v], w') ∧
    mv_role v = "user" ∧ mv_content v = "hi" ∧ mv_references v = JArr [JStr "kb2"].
Proof.
  apply (message_roundtrip "s1" "user" "hi" [JStr "kb2"] 500 demo_world []).
  - apply json_ok_arr. repeat constructor.
  - reflexivity.
  - right. reflexivity.
Defined.

Lemma chat_history_frozen_witness :
  (chat_history "s1" 2 (ask demo_cfg (demo_payload "u_a" ["dept_mp_q"]) "s1" "again?"
     demo_ask.2).2).1 = (chat_history "s1" 2 demo_ask.2).1.
Proof.
  assert (∃ out, ask demo_cfg (demo_payload "u_a" ["dept_mp_q"]) "s1" "again?" demo_ask.2 =
    (Ok out, (ask demo_cfg (demo_payload "u_a" ["dept_mp_q"]) "s1" "again?" demo_ask.2).2))
    as (out & Hrun) by (eexists; vm_compute; reflexivity).
  apply (chat_history_frozen demo_cfg (demo_payload "u_a" ["dept_mp_q"]) "s1" "again?" 2
    demo_ask.2 out); [|exact Hrun]. vm_compute. split; discriminate.
Defined.
