(* ===== verification/ResourceProps.v ===== *)
(** Theorems on the resource list: what it shows, and that the discovery of agents
    ends. *)
From S2P Require Import Prelude PyText Json Dsl Digest Schema Effects Steps StoreUsers StorePolicy.
From S2P Require Import StoreSessions StoreRequests StoreStep StoreInv GatewayToken GatewayAccess.
From S2P Require Import GatewayShare GatewayChat GatewaySession Routes App Demo AccessProps Run.
From S2P Require Import SessionProps.

Local Open Scope Z_scope.

(** ** What is listed *)

(** A listed knowledge base: its permission is the one the specification grants, and
    reading is part of it; its shares are shown to its owner alone. *)
Definition kb_item_ok (d : Db) (depts : gset string) (selected user : string)
    (it : ResourceItem) : Prop :=
  it_type it = "kb" ∧ has_read (it_my_permission it) = true ∧
  (clean_id (it_id it) → is_Some (policy_of "kb" (it_id it) d) →
     grants d (it_id it) user depts selected (it_my_permission it)) ∧
  (it_shares it = [] ∨ it_owner_user_id it = Some user).

(** A listed agent: its policy shows it to the user. *)
Definition agent_item_ok (d : Db) (depts : gset string) (selected user : string)
    (it : ResourceItem) : Prop :=
  it_type it = "agent" ∧
  ∀ p, policy_of "agent" (it_id it) d = Some p →
    ∃ allow deny, loads_col (p_allow_dept_ids_json p) = Ok allow ∧
      loads_col (p_deny_dept_ids_json p) = Ok deny ∧ visible p allow deny depts selected user.

Section items.
Context `{Env} `{Crypto} (cfg : PortalConfig).
Context (d : Db) (depts : gset string) (selected user : string).
Context (Hwf : store_wf d) (Huser : clean_id user).

Lemma kb_item_inv items ds items' w w' :
  w_db w = d → kb_item depts selected (Some user) items ds w = (Ok items', w') →
  w_db w' = d ∧ (items' = items ∨ ∃ it, items' = items ++ [it] ∧ kb_item_ok d depts selected user it).
Proof using H Hwf Huser.
  intros Hd. unfold kb_item. rewrite (bind_run _ _ _ _ _ (get_policy_run _ _ _)). intros Hrun.
  cbv zeta in Hrun. set (p := default (missing_policy "A") (policy_of "kb" (ds_id ds) (w_db w))) in *.
  bind_inv Hrun perm w1 He. pose proof (effective_world depts selected (ds_id ds) (opt_or (Some user) "")
    (Some p) w) as Hw. rewrite He in Hw. simpl in Hw. subst w1.
  destruct (has_read perm) eqn:Hread; [|by injection Hrun as <- <-; split; [|left]].
  cbn [negb] in Hrun. bind_inv Hrun allow w1 Ha. injection Ha as Ha <-.
  bind_inv Hrun shares w1 Hs. assert (w1 = w ∧ (shares = [] ∨ opt_or (p_owner_user_id p) "" = user))
    as [-> Hshares].
  { destruct (decide (Some (opt_or (p_owner_user_id p) "") = Some user)) as [Ho|].
    - injection Ho as Ho. injection Hs as _ <-. by split; [|right].
    - injection Hs as <- <-. by split; [|left]. }
  injection Hrun as <- <-. split; [done|]. right. eexists. split; [reflexivity|].
  split; [done|]. split; [done|]. simpl. split; [|destruct Hshares as [-> | ->]; [by left|by right]].
  intros Hclean [q Hq]. change (opt_or (Some user) "") with (py_or user "") in He.
  rewrite py_or_empty in He.
  assert (Some p = policy_of "kb" (ds_id ds) (w_db w)) as Hp by (unfold p; by rewrite Hd, Hq).
  rewrite Hp, (effective_given_policy _ _ _ _ _ Hclean) in He.
  destruct (effective_kb_permission_run depts selected (ds_id ds) user w) as (m & Hm & Hg);
    [by rewrite Hd|by destruct Hclean as [? ->]|by destruct Huser as [? ->]|].
  rewrite He in Hm. injection Hm as <-. destruct Hclean as [_ Hk], Huser as [_ Hus].
  by rewrite Hd, Hk, Hus in Hg.
Qed.

Lemma agent_item_inv items a items' w w' :
  w_db w = d → agent_item depts selected (Some user) items a w = (Ok items', w') →
  w_db w' = d ∧
  (items' = items ∨ ∃ it, items' = items ++ [it] ∧ agent_item_ok d depts selected user it).
Proof using H Hwf.
  intros Hd. unfold agent_item. rewrite (bind_run _ _ _ _ _ (get_policy_run _ _ _)). intros Hrun.
  bind_inv Hrun ok w1 Ha. apply lift_res_inv in Ha as [Ha ->]. injection Hrun as <- <-.
  split; [done|].
  destruct ok; [right|by left]. eexists. split; [reflexivity|]. split; [done|]. simpl. intros p Hp.
  rewrite Hd, Hp in Ha. change (default (missing_policy "") (Some p)) with p in Ha.
  destruct (policy_cols_loads _ _ _ _ Hwf Hp) as (allow & deny & Hal & Hde).
  exists allow, deny. split_and!; [done|done|].
  rewrite (can_access_visible _ _ _ _ _ _ Hal Hde) in Ha. injection Ha as Ha.
  by apply bool_decide_eq_true in Ha.
Qed.

(** The loops over the discovered resources *)
Lemma items_loop {X} (f : list ResourceItem → X → M (list ResourceItem)) (ok : ResourceItem → Prop)
    init l items w w' :
  (∀ items x items' w w', w_db w = d → f items x w = (Ok items', w') →
     w_db w' = d ∧ (items' = items ∨ ∃ it, items' = items ++ [it] ∧ ok it)) →
  w_db w = d → for_fold f init l w = (Ok items, w') →
  w_db w' = d ∧ ∃ new, items = init ++ new ∧ Forall ok new.
Proof using Type.
  intros Hf Hd. apply (for_fold_inv f (λ b w, w_db w = d ∧ ∃ new, b = init ++ new ∧ Forall ok new)).
  - split; [done|]. exists []. by rewrite app_nil_r.
  - intros b x w1 b' w2 (Hd1 & new & -> & Hnew) Hx.
    destruct (Hf _ _ _ _ _ Hd1 Hx) as (Hd2 & [->|(it & -> & Hit)]); (split; [done|]).
    + by exists new.
    + exists (new ++ [it]). rewrite app_assoc. split; [done|]. by apply Forall_snoc.
Qed.
End items.

Lemma item_leb_total a b : item_leb a b = true ∨ item_leb b a = true.
Proof.
  unfold item_leb. do 2 case_decide; try congruence; apply str_leb_total.
Qed.



(** [u_a] sees the agent and its private knowledge base. *)
Definition demo_list : res (list ResourceItem) * World :=
  list_resources demo_cfg 2 (demo_payload "u_a" ["dept_mp_q"]) None "all" demo_world.


(** ** Termination of the discovery *)

(** Every run gives a result. *)
Definition total {A} (m : M A) : Prop := ∀ w, ∃ a w', m w = (Ok a, w').

(** No run gives up for want of fuel. *)
Definition fuelled {A} (m : M A) : Prop := ∀ w, (m w).1 ≠ Err OutOfFuel.

Section total.
Context `{Env} `{Crypto} (cfg : PortalConfig).

Lemma total_bind {A B} (m : M A) (f : A → M B) : total m → (∀ a, total (f a)) → total (m ≫= f).
Proof.
  intros Hm Hf w. destruct (Hm w) as (a & w1 & Ha). rewrite (bind_run _ _ _ _ _ Ha). apply Hf.
Qed.

Lemma total_for_fold {A B} (f : B → A → M B) acc l : (∀ b x, total (f b x)) → total (for_fold f acc l).
Proof.
  intros Hf. revert acc. induction l as [|x l IH]; intros acc w; cbn [for_fold]; [by eexists _, _|].
  by apply total_bind.
Qed.

Lemma total_for_until {A B} (f : B → A → M (B * option exn)) acc l :
  (∀ b x, total (f b x)) → total (for_until f acc l).
Proof.
  intros Hf. revert acc. induction l as [|x l IH]; intros acc w; cbn [for_until]; [by eexists _, _|].
  apply total_bind; [done|]. intros [b [e|]]; [by eexists _, _|apply IH].
Qed.

Lemma total_attempt {A} (m : M A) : fuelled m → total (attempt m).
Proof.
  intros Hm w. specialize (Hm w). unfold attempt, try_except, fmap, M_fmap.
  destruct (m w) as [[a|e] w1]; [by eexists _, _|]. destruct e; first [by destruct Hm | by eexists _, _].
Qed.

Lemma fuelled_upsert rt rid od vis by_ ou al de ro ca :
  fuelled (upsert_policy rt rid od vis by_ ou al de ro ca).
Proof.
  intros w. unfold upsert_policy, with_conn. run_goal. destruct (policy_by_key _ _ _); [done|].
  run_goal. unfold sql_try, insert_policy. by destruct (fetchone _ _).
Qed.

Lemma fuelled_ensure_agent_policy u dept a : fuelled (ensure_agent_policy u dept a).
Proof.
  intros w. unfold ensure_agent_policy. rewrite (bind_run _ _ _ _ _ (get_policy_run _ _ _)).
  destruct (policy_of _ _ _) as [p|]; [case_match; [done|]|]; apply fuelled_upsert.
Qed.

Lemma total_ensure_agent u dept s a : total (ensure_agent u dept s a).
Proof.
  intros w. unfold ensure_agent. case_decide; [by eexists _, _|].
  apply total_bind; [apply total_attempt, fuelled_ensure_agent_policy|].
  intros r w1. by eexists _, _.
Qed.

(** RAGFlow answers with agents or with an exception of its own. *)
Context (answers : ∀ t key page, env_answer_agents t key page 200 None ≠ Err OutOfFuel).
(** From page [n] on, no account has a full page of agents. *)
Context (n : nat) (short : ∀ t key page l, Z.of_nat n ≤ page →
  env_answer_agents t key page 200 None = Ok l → (length l < 200)%nat).

Lemma total_agent_pages fuel key u dept page s :
  Z.of_nat n < page + Z.of_nat fuel → (0 < fuel)%nat → total (agent_pages fuel key u dept page s).
Proof using answers short.
  revert page s. induction fuel as [|fuel IH]; intros page s Hn Hpos; [lia|]. cbn [agent_pages].
  intros w. unfold attempt, try_except, rag_list_agents, ext, fmap, M_fmap.
  unfold mbind at 1, M_bind at 1.
  destruct (env_answer_agents (w_tick w) key page 200 None) as [batch|e] eqn:Hans.
  - destruct batch as [|a batch]; [by eexists _, _|].
    apply total_bind; [apply total_for_until; intros; apply total_ensure_agent|].
    intros [s' [e|]]; [by eexists _, _|]. cbn [snd fst].
    destruct (Nat.ltb_spec (length (a :: batch)) 200) as [|Hfull]; [by eexists _, _|].
    apply IH; [lia|]. destruct (decide (Z.of_nat n ≤ page)) as [Hp|]; [|lia].
    pose proof (short _ _ _ _ Hp Hans). lia.
  - assert (e ≠ OutOfFuel) as Hne by (intros ->; by eapply answers).
    destruct e; first [by destruct Hne | by eexists _, _].
Qed.
End total.

(** The discovery of agents ends: when no account has a full page of agents from
    page [n] on, [n] steps over the pages (one at least) are enough, and the loop
    over all the accounts gives a result whatever else RAGFlow answers. *)
Theorem ensure_agent_policies_ends `{Env} `{Crypto} cfg n fuel w :
  (∀ t key page, env_answer_agents t key page 200 None ≠ Err OutOfFuel) →
  (∀ t key page l, Z.of_nat n ≤ page →
     env_answer_agents t key page 200 None = Ok l → (length l < 200)%nat) →
  (n ≤ fuel)%nat → (0 < fuel)%nat →
  ∃ agents w', ensure_agent_policies cfg fuel w = (Ok agents, w').
Proof.
  intros Hans Hshort Hn Hpos. unfold ensure_agent_policies. apply total_bind; [intros w1; by eexists _, _|].
  intros users. apply total_bind; [|intros s w1; by eexists _, _]. apply total_for_fold.
  intros s [[u t] dept]. apply total_bind.
  - intros w0. unfold get_rag_client. case_decide; by eexists _, _.
  - intros key. apply total_bind; [|intros r w1; by eexists _, _]. apply (total_agent_pages Hans n Hshort); lia.
Qed.

Lemma ensure_agent_policies_ends_witness :
  ∃ agents w', ensure_agent_policies demo_cfg 1 demo_world = (Ok agents, w').
Proof.
  apply (ensure_agent_policies_ends demo_cfg 1 1); [discriminate| |lia|lia].
  intros t key page l _ [= <-]. simpl. lia.
Defined.
