(* ===== verification/AppProps.v ===== *)
(** Theorems on the whole portal: what every sequence of served requests keeps,
    and what a request without a valid token can do. *)
From S2P Require Import Prelude PyText Json Dsl Digest Schema Effects Steps StoreUsers StorePolicy.
From S2P Require Import StoreSessions StoreRequests StoreStep StoreInv GatewayToken GatewayAccess.
From S2P Require Import GatewayShare GatewayChat GatewaySession Routes App Demo Run.

Local Open Scope Z_scope.

(** ** The initial database *)

(** The part of [store_wf] that concerns the tables the seed data fills, the others
    being empty *)
Definition seeded_ok (d : Db) : bool :=
  bool_decide (NoDup (u_user_id <$> t_users d)) &&
  bool_decide (NoDup ((λ u, sql_upper (u_login_id u)) <$> t_users d)) &&
  bool_decide (NoDup ((λ r, (ud_user_id r, ud_dept_id r)) <$> t_user_departments d)) &&
  match t_policies d, t_audit d, t_sessions d, t_requests d, t_shares d with
  | [], [], [], [], [] => (t_share_seq d =? 0)
  | _, _, _, _, _ => false
  end.

Lemma seeded_ok_wf d : seeded_ok d = true → store_wf d.
Proof.
  unfold seeded_ok. rewrite !andb_true_iff, !bool_decide_eq_true. intros [[[Hu Hl] Hm] H].
  destruct (t_policies d) eqn:?, (t_audit d) eqn:?, (t_sessions d) eqn:?, (t_requests d) eqn:?,
    (t_shares d) eqn:?; try done.
  apply Z.eqb_eq in H.
  split; rewrite ?Heql, ?Heql0, ?Heql1, ?Heql2, ?Heql3; simpl; try constructor; try done. lia.
Qed.

(** The outcome of the seed data on an empty file *)
Lemma seed_defaults_run `{Env} `{Crypto} w :
  w_db w = empty_db →
  (seed_defaults w).1 = Ok () ∧ seeded_ok (w_db (seed_defaults w).2) = true.
Proof.
  destruct w as [d g t c]. simpl. intros ->. split; vm_compute; reflexivity.
Qed.

Lemma portal_world_wf `{Env} `{Crypto} cfg br w : portal_world cfg br w → store_wf (w_db w).
Proof.
  intros (w0 & Hw0 & Hr). apply app_reaches_evolves in Hr.
  eapply evolves_wf; [exact Hr|]. destruct (seed_defaults_run w0 Hw0) as [Hok Hseed].
  unfold gateway_init, mbind, M_bind. destruct (seed_defaults w0) as [[[]|e] w1]; [|done].
  eapply evolves_wf; [exact (moves_ensure_ragflow_accounts cfg w1)|]. by apply seeded_ok_wf.
Qed.


(** Served requests never change or delete an audit record: the log only grows
    at its end. *)
Theorem audit_append_only `{Env} `{Crypto} cfg br w w' :
  app_reaches cfg br w w' → t_audit (w_db w) `prefix_of` t_audit (w_db w').
Proof. intros Hr. by apply evolves_audit, (app_reaches_evolves cfg br). Qed.

(** A reviewed share request is final: however many requests the portal serves,
    the record stays as it is, unless the request was deleted (dismissed, or
    cleaned up with its knowledge base) on the way. *)
Theorem reviewed_request_final `{Env} `{Crypto} cfg br w w' r :
  store_wf (w_db w) → app_reaches cfg br w w' →
  r ∈ t_requests (w_db w) → r_status r ≠ "pending" →
  r ∈ t_requests (w_db w') ∨
  ∃ d, evolves (w_db w) d ∧ evolves d (w_db w') ∧ no_request (r_request_id r) d.
Proof. intros Hwf Hr. by apply evolves_reviewed, (app_reaches_evolves cfg br). Qed.

(** ** Requests without a valid token *)

(** The endpoints that need a token *)
Definition protected (ep : Endpoint) : bool :=
  match ep with EpLogin | EpRegister => false | _ => true end.

(** Nothing but the clock differs. *)
Definition same_state (w w' : World) : Prop :=
  w_db w' = w_db w ∧ w_registry w' = w_registry w ∧ w_calls w' = w_calls w.

Lemma parse_token_run `{Env} `{Crypto} cfg token w :
  ∃ o w', parse_token cfg token w = (Ok o, w') ∧ same_state w w'.
Proof.
  unfold parse_token. destruct (open_token cfg token) as [[p exp]|]; [|by eexists _, _].
  by eexists _, _.
Qed.

Lemma auth_payload_run `{Env} `{Crypto} cfg rq w :
  ∃ o w', auth_payload cfg rq w = (Ok o, w') ∧ same_state w w'.
Proof.
  unfold auth_payload. destruct (bytes_strip_prefix _ _); [apply parse_token_run|by eexists _, _].
Qed.

(** No token, one whose signature does not verify, or an expired one *)
Definition no_valid_token `{Env} `{Crypto} (cfg : PortalConfig) (rq : Request) (w : World) : Prop :=
  (auth_payload cfg rq w).1 = Ok None.

Lemma with_auth_none `{Env} `{Crypto} cfg {A} rq (k : json → M (Reply A)) w :
  no_valid_token cfg rq w →
  (with_auth cfg rq k w).1 = Ok unauthorized ∧ same_state w (with_auth cfg rq k w).2.
Proof.
  unfold no_valid_token, with_auth, mbind, M_bind. intros Hn.
  destruct (auth_payload_run cfg rq w) as (o & w' & Hrun & Hs). rewrite Hrun in Hn |- *.
  simpl in Hn. by injection Hn as ->.
Qed.

Lemma status_of_ok {A} (m : M (Reply A)) w r :
  (m w).1 = Ok r → status_of m w = (Ok (status r), (m w).2).
Proof.
  unfold status_of, try_except, fmap, M_fmap. destruct (m w) as [[a|e] w']; simpl; [|done].
  by intros [= ->].
Qed.

Lemma with_options_other {A} rq (m : M (Reply A)) :
  rq_method rq ≠ "OPTIONS" → with_options rq m = m.
Proof. intros Hm. unfold with_options. by rewrite decide_False. Qed.


(** ** Endpoints of administrators *)

Definition admin_only (ep : Endpoint) : bool :=
  match ep with
  | EpListPolicies | EpUpsertPolicy _ _ | EpBootstrapKbs | EpBootstrapAgents => true
  | _ => false
  end.

(** A valid token of a user who does not administrate the headquarters *)
Definition ordinary_token `{Env} `{Crypto} (cfg : PortalConfig) (rq : Request) (w : World) : Prop :=
  ∃ payload, (auth_payload cfg rq w).1 = Ok (Some payload) ∧ json_truthy payload = true ∧
    admin_of (w_db w) (tok_user payload) "dept_mp" = false.

Lemma with_admin_refuses `{Env} `{Crypto} cfg {A} rq (k : json → M (Reply A)) w :
  ordinary_token cfg rq w →
  (with_auth cfg rq (λ auth, with_admin auth (k auth)) w).1 =
    Ok (RErr "admin required" 403 "forbidden") ∧
  same_state w (with_auth cfg rq (λ auth, with_admin auth (k auth)) w).2.
Proof.
  intros (payload & Ha & Ht & Hno). unfold with_auth.
  destruct (auth_payload_run cfg rq w) as (o & w' & Hrun & Hs). rewrite Hrun in Ha.
  simpl in Ha. injection Ha as ->. rewrite (bind_run _ _ _ _ _ Hrun), Ht. unfold with_admin.
  assert (payload_is_admin payload w' = (Ok false, w')) as Hadm.
  { unfold payload_is_admin. case_decide; [done|]. rewrite is_dept_admin_run.
    destruct Hs as (-> & _). by rewrite Hno. }
  by rewrite (bind_run _ _ _ _ _ Hadm).
Qed.

(** The endpoints of administrators (the policies and the bootstraps)
    answer 403 to whoever does not administrate the headquarters, and change
    nothing: neither the database, nor the sessions in memory, nor RAGFlow. *)
Theorem admin_endpoints_403 `{Env} `{Crypto} cfg br fuel ep rq w :
  admin_only ep = true → rq_method rq ≠ "OPTIONS" → ordinary_token cfg rq w →
  (serve cfg br fuel ep rq w).1 = Ok 403 ∧ same_state w (serve cfg br fuel ep rq w).2.
Proof.
  intros Hep Hm Hord.
  assert (∀ A (k : json → M (Reply A)),
    (status_of (with_auth cfg rq (λ auth, with_admin auth (k auth))) w).1 = Ok 403 ∧
    same_state w (status_of (with_auth cfg rq (λ auth, with_admin auth (k auth))) w).2) as Hk.
  { intros A k. destruct (with_admin_refuses cfg rq k w Hord) as [Hr Hs].
    by rewrite (status_of_ok _ _ _ Hr). }
  destruct ep; try discriminate Hep; unfold serve;
    (lazymatch goal with |- context [status_of ?m] => let h := head_of m in unfold h end);
    unfold bootstrap_route; rewrite ?with_options_other by done; apply (Hk _ (λ auth, _)).
Qed.

(** ** The theorems on a concrete portal *)

(** A login with a wrong password: it is refused, and written to the audit log. *)
Definition demo_login : Request := {|
  rq_method := "POST"; rq_authorization := ""; rq_request_id := ""; rq_args := []; rq_form := [];
  rq_files := [];
  rq_json := Some (JObj [("login_id", JStr "alice"); ("password", JStr "wrong")]) |}.

Definition demo_serve : World → World :=
  λ w, (serve demo_cfg (λ _, "") 10 EpLogin demo_login w).2.

Definition empty_world : World :=
  {| w_db := empty_db; w_registry := ∅; w_tick := 0; w_calls := [] |}.


Lemma audit_append_only_witness :
  length (t_audit (w_db (demo_serve demo_world))) = 1%nat ∧
  t_audit (w_db (demo_serve demo_world)) `prefix_of` t_audit (w_db (demo_serve (demo_serve demo_world))).
Proof.
  split; [by vm_compute|].
  apply (audit_append_only demo_cfg (λ _, "")). apply rtc_once. constructor.
Defined.

(** The request of the demonstration portal, rejected *)
Definition demo_rejected : RequestRow :=
  r_review "rejected" "u_c" "no" "t1" (demo_request "r1" 7).

Definition demo_world_rejected : World :=
  set_db (on_requests (λ _, [demo_rejected]) demo_db) demo_world.

Lemma reviewed_request_final_witness :
  let w := demo_world_rejected in
  demo_rejected ∈ t_requests (w_db (demo_serve w)) ∨
  ∃ d, evolves (w_db w) d ∧ evolves d (w_db (demo_serve w)) ∧ no_request "r1" d.
Proof.
  apply (reviewed_request_final demo_cfg (λ _, "") demo_world_rejected _ demo_rejected).
  - destruct demo_wf. split; simpl; try done.
    constructor; [|constructor]. split; [by right; right|by exists []].
  - apply rtc_once. constructor.
  - left.
  - discriminate.
Defined.

(** An expired token: the clock stands at 1000. *)
Definition demo_expired : Request := {|
  rq_method := "POST"; rq_request_id := ""; rq_args := []; rq_form := []; rq_files := [];
  rq_json := Some (JObj [("kb_ids", json_strs ["kb1"])]);
  rq_authorization := "Bearer " +:+
    create_token demo_cfg (JObj [("sub", JStr "u_a"); ("exp", JInt 999)]) |}.


(** [u_a] is no administrator. *)
Definition demo_ordinary : Request := {|
  rq_method := "POST"; rq_request_id := ""; rq_args := []; rq_form := []; rq_files := [];
  rq_json := None;
  rq_authorization := "Bearer " +:+
    create_token demo_cfg (JObj [("sub", JStr "u_a"); ("exp", JInt 2000)]) |}.

Lemma admin_endpoints_403_witness :
  (serve demo_cfg (λ _, "") 10 EpBootstrapKbs demo_ordinary demo_world).1 = Ok 403 ∧
  same_state demo_world (serve demo_cfg (λ _, "") 10 EpBootstrapKbs demo_ordinary demo_world).2.
Proof.
  apply (admin_endpoints_403 demo_cfg (λ _, "") 10 EpBootstrapKbs demo_ordinary demo_world);
    [reflexivity|discriminate|].
  exists (JObj [("exp", JInt 2000); ("sub", JStr "u_a")]). split; [vm_compute; reflexivity|].
  split; vm_compute; reflexivity.
Defined.
